(** * tmux-session-manager: the spec pipeline, embedded and verified

    A shallow embedding of the Go packages [pkg/spec] and [pkg/templates]
    (spec model and validator, the two-stage compiler, substitution, the
    safety policy and the executor), followed by the theorems that settle
    the properties stated in the specification.

    Modelling conventions.
    - A Go [string] is a byte string: Rocq's [string] (a list of [ascii]).
      [strings.TrimSpace] and [strings.Fields] follow [unicode.IsSpace] on
      the UTF-8 bytes: the six ASCII blanks and the two- and three-byte
      encodings of the other white space runes.  [strings.ToLower] lowers
      the letters A to Z and leaves every other byte, which is what Go does
      on a string of ASCII bytes.  The Unicode case table depends on the Go
      release and is not modelled: the embedding follows the code where the
      text that is lowered (the keywords of types, modes, focus and
      direction, and the names that a session name is derived from) is
      ASCII, and the theorems that rest on the lowered value of free text
      assume it ([isASCII]).
    - A Go [int] is a [Z]; where the sources do arithmetic that can leave
      the 64-bit range the wrap-around is written out ([wrap64]).
    - A Go [map] is an [option (gmap string V)]: [None] is the nil map.
    - A pointer field that may be nil is an [option].
    - A function returning [(T, error)] returns a [result T]; a run-time
      panic is the third outcome [Panic].  Error texts keep the literal part
      of the Go message; the [%w] wrapping prefixes are left out.
    - What the code reads from the process (environment variables, the home
      directory, the working directory) is the explicit record [OS]. *)

From Stdlib Require Import String Ascii List ZArith Lia Bool DecimalString.
From Stdlib Require Floats.SpecFloat.
From stdpp Require Import gmap strings.
Import ListNotations.
Open Scope string_scope.

(** ** Outcomes of fallible Go functions *)

Inductive result (A : Type) : Type :=
| Ok (a : A)
| Err (msg : string)
| Panic (msg : string).
Arguments Ok {A} a.
Arguments Err {A} msg.
Arguments Panic {A} msg.

#[global] Instance result_bind : MBind result :=
  fun A B (k : A -> result B) (r : result A) =>
    match r with
    | Ok a => k a
    | Err m => Err m
    | Panic m => Panic m
    end.

#[global] Instance result_ret : MRet result := fun A a => Ok a.

Definition is_ok {A : Type} (r : result A) : bool :=
  match r with Ok _ => true | _ => false end.

Definition is_err {A : Type} (r : result A) : bool :=
  match r with Err _ => true | _ => false end.

(** [for _, x := range xs { ... }] over a fallible body that appends. *)
Fixpoint traverse {A B : Type} (f : A -> result B) (xs : list A) : result (list B) :=
  match xs with
  | [] => Ok []
  | x :: r => y ← f x; ys ← traverse f r; Ok (y :: ys)
  end.

(** A body that only checks: the first error aborts the loop. *)
Fixpoint forM_ {A : Type} (f : A -> result unit) (xs : list A) : result unit :=
  match xs with
  | [] => Ok tt
  | x :: r => _ ← f x; forM_ f r
  end.

Definition wrap64 (z : Z) : Z :=
  ((z + 2 ^ 63) mod 2 ^ 64 - 2 ^ 63)%Z.

(** ** Go's [strings] package, on byte strings *)

Module Strings.

(** [unicode.IsSpace], read on the bytes of the UTF-8 encoding.  The white
    space runes are tab, line feed, vertical tab, form feed, carriage
    return and space (one byte); U+0085 and U+00A0 (two bytes, C2 85 and
    C2 A0); U+1680 (E1 9A 80), U+2000 to U+200A (E2 80 80 to E2 80 8A),
    U+2028, U+2029 and U+202F (E2 80 A8, A9, AF), U+205F (E2 81 9F) and
    U+3000 (E3 80 80). *)
Definition isSpace (c : ascii) : bool :=
  match c with
  | " "%char | "009"%char | "010"%char | "011"%char | "012"%char | "013"%char => true
  | _ => false
  end.

Definition isSpace2 (c0 c1 : ascii) : bool :=
  ((c0 =? "194") && ((c1 =? "133") || (c1 =? "160")))%char.

Definition isSpace3 (c0 c1 c2 : ascii) : bool :=
  (((c0 =? "225") && (c1 =? "154") && (c2 =? "128"))
   || ((c0 =? "226") && (c1 =? "128")
       && ((("128" <=? c2) && (c2 <=? "138")) || (c2 =? "168") || (c2 =? "169")
           || (c2 =? "175")))
   || ((c0 =? "226") && (c1 =? "129") && (c2 =? "159"))
   || ((c0 =? "227") && (c1 =? "128") && (c2 =? "128")))%char.

(** The string is the encoding of one white space rune. *)
Definition isSpaceRune (s : string) : bool :=
  match s with
  | String c0 "" => isSpace c0
  | String c0 (String c1 "") => isSpace2 c0 c1
  | String c0 (String c1 (String c2 "")) => isSpace3 c0 c1 c2
  | _ => false
  end.

Definition isUpper (c : ascii) : bool := (("A" <=? c) && (c <=? "Z"))%char.
Definition isLower (c : ascii) : bool := (("a" <=? c) && (c <=? "z"))%char.
Definition isDigit (c : ascii) : bool := (("0" <=? c) && (c <=? "9"))%char.

Definition toLowerChar (c : ascii) : ascii :=
  if isUpper c then ascii_of_nat (nat_of_ascii c + 32) else c.

Fixpoint ToLower (s : string) : string :=
  match s with
  | "" => ""
  | String c r => String (toLowerChar c) (ToLower r)
  end.

Fixpoint TrimLeftFunc (p : ascii -> bool) (s : string) : string :=
  match s with
  | "" => ""
  | String c r => if p c then TrimLeftFunc p r else s
  end.

Fixpoint TrimRightFunc (p : ascii -> bool) (s : string) : string :=
  match s with
  | "" => ""
  | String c r =>
      match TrimRightFunc p r with
      | "" => if p c then "" else String c ""
      | r' => String c r'
      end
  end.

(** [TrimLeftFunc(s, unicode.IsSpace)]: the white space runes at the
    start are dropped.  A byte that starts no white space rune ends the
    scan: a rune that is not white space, or a byte that is not valid
    UTF-8 (Go reads it as U+FFFD). *)
Fixpoint trimLeftSpace (s : string) : string :=
  match s with
  | "" => ""
  | String c0 r0 =>
      if isSpace c0 then trimLeftSpace r0
      else
        match r0 with
        | String c1 r1 =>
            if isSpace2 c0 c1 then trimLeftSpace r1
            else
              match r1 with
              | String c2 r2 => if isSpace3 c0 c1 c2 then trimLeftSpace r2 else s
              | "" => s
              end
        | "" => s
        end
  end.

(** [TrimRightFunc(s, unicode.IsSpace)]: the white space runes at the end
    are dropped.  Read from the front: once the tail is trimmed, the
    string goes altogether when what is left is one white space rune. *)
Fixpoint trimRightSpace (s : string) : string :=
  match s with
  | "" => ""
  | String c r =>
      let t := String c (trimRightSpace r) in
      if isSpaceRune t then "" else t
  end.

Definition TrimSpace (s : string) : string := trimRightSpace (trimLeftSpace s).

Fixpoint inCutset (cutset : string) (c : ascii) : bool :=
  match cutset with
  | "" => false
  | String d r => (c =? d)%char || inCutset r c
  end.

Definition TrimRight (s cutset : string) : string := TrimRightFunc (inCutset cutset) s.
Definition Trim (s cutset : string) : string :=
  TrimRightFunc (inCutset cutset) (TrimLeftFunc (inCutset cutset) s).

Definition HasPrefix (s pre : string) : bool := String.prefix pre s.

Fixpoint drop (n : nat) (s : string) : string :=
  match n, s with
  | O, _ => s
  | S k, String _ r => drop k r
  | S _, "" => ""
  end.

Fixpoint take (n : nat) (s : string) : string :=
  match n, s with
  | S k, String c r => String c (take k r)
  | _, _ => ""
  end.

Definition HasSuffix (s suf : string) : bool :=
  (String.length suf <=? String.length s)%nat
  && (drop (String.length s - String.length suf) s =? suf).

Definition TrimPrefix (s pre : string) : string :=
  if HasPrefix s pre then drop (String.length pre) s else s.

Definition TrimSuffix (s suf : string) : string :=
  if HasSuffix s suf then take (String.length s - String.length suf) s else s.

Fixpoint Contains (s sub : string) : bool :=
  String.prefix sub s
  || match s with
     | "" => false
     | String _ r => Contains r sub
     end.

(** [ReplaceAll s old new] for a non-empty [old] (the sources never pass
    an empty one).  [skip] counts the bytes of a match still to be
    consumed. *)
Fixpoint replaceAllFrom (old new s : string) (skip : nat) : string :=
  match s with
  | "" => ""
  | String c r =>
      match skip with
      | S k => replaceAllFrom old new r k
      | O =>
          if String.prefix old s
          then new +:+ replaceAllFrom old new r (String.length old - 1)
          else String c (replaceAllFrom old new r 0)
      end
  end.

Definition ReplaceAll (s old new : string) : string := replaceAllFrom old new s 0.

(** [Fields]: the maximal runs of bytes between white space runes. [cur]
    is the field being read. *)
Definition endField (cur : string) (rest : list string) : list string :=
  match cur with "" => rest | _ => cur :: rest end.

Fixpoint fieldsFrom (s : string) (cur : string) : list string :=
  match s with
  | "" => endField cur []
  | String c0 r0 =>
      if isSpace c0 then endField cur (fieldsFrom r0 "")
      else
        match r0 with
        | String c1 r1 =>
            if isSpace2 c0 c1 then endField cur (fieldsFrom r1 "")
            else
              match r1 with
              | String c2 r2 =>
                  if isSpace3 c0 c1 c2 then endField cur (fieldsFrom r2 "")
                  else fieldsFrom r0 (cur +:+ String c0 "")
              | "" => fieldsFrom r0 (cur +:+ String c0 "")
              end
        | "" => fieldsFrom r0 (cur +:+ String c0 "")
        end
  end.

Definition Fields (s : string) : list string := fieldsFrom s "".

(** [Split s sep] for a one-byte separator. *)
Fixpoint splitFrom (sep : ascii) (s : string) (cur : string) : list string :=
  match s with
  | "" => [cur]
  | String c r =>
      if (c =? sep)%char then cur :: splitFrom sep r ""
      else splitFrom sep r (cur +:+ String c "")
  end.

Definition Split (s : string) (sep : ascii) : list string := splitFrom sep s "".

Fixpoint Join (parts : list string) (sep : string) : string :=
  match parts with
  | [] => ""
  | [p] => p
  | p :: r => p +:+ sep +:+ Join r sep
  end.

(** [Index s sub]: the byte offset of the first occurrence of [sub] in
    [s], or -1. *)
Fixpoint indexFrom (sub s : string) (i : Z) : Z :=
  if String.prefix sub s then i
  else match s with
       | "" => (-1)%Z
       | String _ r => indexFrom sub r (i + 1)%Z
       end.

Definition Index (s sub : string) : Z := indexFrom sub s 0.

End Strings.

(** ** Go's [path/filepath] (Unix), [strconv] and [fmt] as far as used *)

Module Filepath.

Definition IsAbs (p : string) : bool := Strings.HasPrefix p "/".

(** The element loop of [Clean]; [stack] holds the kept elements, last
    one first. *)
Fixpoint cleanElems (rooted : bool) (elems stack : list string) : list string :=
  match elems with
  | [] => rev stack
  | e :: r =>
      if (e =? "") || (e =? ".") then cleanElems rooted r stack
      else if e =? ".." then
        match stack with
        | top :: st =>
            if top =? ".." then cleanElems rooted r (e :: stack)
            else cleanElems rooted r st
        | [] => if rooted then cleanElems rooted r [] else cleanElems rooted r [e]
        end
      else cleanElems rooted r (e :: stack)
  end.

Definition Clean (p : string) : string :=
  if p =? "" then "."
  else
    let rooted := IsAbs p in
    let out := Strings.Join (cleanElems rooted (Strings.Split p "/") []) "/" in
    if rooted then "/" +:+ out
    else if out =? "" then "." else out.

Definition Base (path : string) : string :=
  if path =? "" then "."
  else
    let p := Strings.TrimRight path "/" in
    let p := List.last (Strings.Split p "/") "" in
    if p =? "" then "/" else p.

(** [Join(a, b)]: leading empty elements are skipped, the rest is joined
    and cleaned. *)
Definition Join (a b : string) : string :=
  if negb (a =? "") then Clean (a +:+ "/" +:+ b)
  else if negb (b =? "") then Clean b
  else "".

(** [Abs] fails only when the working directory cannot be read. *)
Definition Abs (getwd : option string) (p : string) : option string :=
  if IsAbs p then Some (Clean p)
  else match getwd with
       | Some wd => Some (Join wd p)
       | None => None
       end.

End Filepath.

Module Strconv.

Fixpoint digitsVal (s : string) (acc : Z) : option Z :=
  match s with
  | "" => Some acc
  | String c r =>
      if Strings.isDigit c
      then digitsVal r (acc * 10 + (Z.of_nat (nat_of_ascii c) - 48))%Z
      else None
  end.

(** [Atoi]: an optional sign, then decimal digits; out of the 64-bit
    range is an error. *)
Definition Atoi (s : string) : option Z :=
  let '(neg, body) :=
    match s with
    | String "-" r => (true, r)
    | String "+" r => (false, r)
    | _ => (false, s)
    end in
  if body =? "" then None
  else match digitsVal body 0 with
       | Some v =>
           let v := if neg : bool then (- v)%Z else v in
           if ((- 2 ^ 63 <=? v) && (v <? 2 ^ 63))%Z then Some v else None
       | None => None
       end.

(** [fmt.Sprintf("%d", n)] *)
Definition Itoa (n : Z) : string := NilZero.string_of_int (Z.to_int n).

End Strconv.

(** What the code reads from its process. [UserHomeDir] and [Getwd] are
    [None] when the call returns an error. *)
Record OS : Type := {
  Getenv : string -> string;
  UserHomeDir : option string;
  Getwd : option string
}.

(** ** Package [spec]: the project-local session specification *)

Module spec.

Definition CurrentVersion : Z := 1.

Record Target : Type := {
  Target_Session : string;
  Target_Window : string;
  Target_Pane : string
}.

Record TmuxAction : Type := { Tmux_Name : string; Tmux_Args : list string }.

Record RunAction : Type := {
  Run_Program : string;
  Run_Args : list string;
  Run_Enter : option bool
}.

Record SendKeysAction : Type := { SendKeys_Keys : list string; SendKeys_Enter : bool }.

Record ShellAction : Type := { Shell_Cmd : string; Shell_Shell : string }.

Record SleepAction : Type := { Sleep_Milliseconds : Z }.

Record WatchAction : Type := { Watch_IntervalSeconds : Z; Watch_Command : string }.

Record WaitForPromptAction : Type := {
  Wait_TimeoutMS : Z;
  Wait_MinQuietMS : Z;
  Wait_SettleMS : Z;
  Wait_PromptRegex : string;
  Wait_MaxLines : Z
}.

Record SshManagerConnectAction : Type := {
  Ssh_Host : string;
  Ssh_User : string;
  Ssh_Port : Z;
  Ssh_LoginMode : string;
  Ssh_ConnectTimeoutMS : Z
}.

(** [Action]: a tagged union, the tag being the string [Type]. *)
Record Action : Type := {
  Action_Type : string;
  Action_Target : Target;
  Action_Tmux : option TmuxAction;
  Action_Run : option RunAction;
  Action_SendKeys : option SendKeysAction;
  Action_Shell : option ShellAction;
  Action_Sleep : option SleepAction;
  Action_Watch : option WatchAction;
  Action_WaitForPrompt : option WaitForPromptAction;
  Action_SshManagerConnect : option SshManagerConnectAction;
  Action_IgnoreError : bool;
  Action_Comment : string
}.

Record Pane : Type := {
  Pane_Name : string;
  Pane_Root : string;
  Pane_Focus : bool;
  Pane_Actions : list Action;
  Pane_Command : string
}.

Record PanePlanPane : Type := {
  PlanPane_Name : string;
  PlanPane_Root : string;
  PlanPane_Focus : bool;
  PlanPane_Actions : list Action;
  PlanPane_Command : string
}.

Record PanePlanSplit : Type := { Split_Direction : string; Split_Size : string }.

Record PanePlanStep : Type := {
  Step_Pane : option PanePlanPane;
  Step_Split : option PanePlanSplit
}.

Record Window : Type := {
  Window_Name : string;
  Window_Root : string;
  Window_Layout : string;
  Window_Focus : bool;
  Window_FocusPane : string;
  Window_Panes : list Pane;
  Window_PanePlan : list PanePlanStep;
  Window_Actions : list Action
}.

Record Session : Type := {
  Session_Name : string;
  Session_Prefix : string;
  Session_Root : string;
  Session_Attach : option bool;
  Session_SwitchClient : option bool;
  Session_BaseIndex : option Z;
  Session_PaneBaseIndex : option Z;
  Session_FocusWindow : string
}.

Record Spec : Type := {
  Spec_Version : Z;
  Spec_Name : string;
  Spec_Description : string;
  Spec_Session : Session;
  Spec_Env : option (gmap string string);
  Spec_Windows : list Window;
  Spec_Actions : list Action;
  Spec_Meta : option (gmap string string)
}.

(** [Policy]: runtime allowances; it has no denylist field. *)
Record Policy : Type := {
  AllowShell : bool;
  AllowTmuxPassthrough : bool;
  AllowedTmuxCommands : option (gmap string bool)
}.

(** [m[k]] on a [map[string]bool]: a missing key and the nil map read as
    [false]. *)
Definition mapBool (m : option (gmap string bool)) (k : string) : bool :=
  match m with
  | Some g => match g !! k with Some b => b | None => false end
  | None => false
  end.

Definition DefaultPolicy : Policy := {|
  AllowShell := false;
  AllowTmuxPassthrough := false;
  AllowedTmuxCommands := Some (list_to_map [
    ("new-session", true); ("new-window", true); ("split-window", true);
    ("rename-window", true); ("rename-session", true); ("select-layout", true);
    ("select-window", true); ("select-pane", true); ("kill-window", true);
    ("kill-pane", true); ("kill-session", true);
    ("send-keys", true); ("set-option", true); ("set-window-option", true);
    ("list-windows", true); ("list-panes", true); ("display-message", true) ])
|}.

(** Field updates, as the validator writes through its pointers. *)
Definition setType (a : Action) (ty : string) : Action :=
  {| Action_Type := ty; Action_Target := Action_Target a; Action_Tmux := Action_Tmux a;
     Action_Run := Action_Run a; Action_SendKeys := Action_SendKeys a;
     Action_Shell := Action_Shell a; Action_Sleep := Action_Sleep a;
     Action_Watch := Action_Watch a; Action_WaitForPrompt := Action_WaitForPrompt a;
     Action_SshManagerConnect := Action_SshManagerConnect a;
     Action_IgnoreError := Action_IgnoreError a; Action_Comment := Action_Comment a |}.

Definition setTmux (a : Action) (t : TmuxAction) : Action :=
  {| Action_Type := Action_Type a; Action_Target := Action_Target a; Action_Tmux := Some t;
     Action_Run := Action_Run a; Action_SendKeys := Action_SendKeys a;
     Action_Shell := Action_Shell a; Action_Sleep := Action_Sleep a;
     Action_Watch := Action_Watch a; Action_WaitForPrompt := Action_WaitForPrompt a;
     Action_SshManagerConnect := Action_SshManagerConnect a;
     Action_IgnoreError := Action_IgnoreError a; Action_Comment := Action_Comment a |}.

Definition setRun (a : Action) (r : RunAction) : Action :=
  {| Action_Type := Action_Type a; Action_Target := Action_Target a; Action_Tmux := Action_Tmux a;
     Action_Run := Some r; Action_SendKeys := Action_SendKeys a;
     Action_Shell := Action_Shell a; Action_Sleep := Action_Sleep a;
     Action_Watch := Action_Watch a; Action_WaitForPrompt := Action_WaitForPrompt a;
     Action_SshManagerConnect := Action_SshManagerConnect a;
     Action_IgnoreError := Action_IgnoreError a; Action_Comment := Action_Comment a |}.

Definition setShell (a : Action) (sh : ShellAction) : Action :=
  {| Action_Type := Action_Type a; Action_Target := Action_Target a; Action_Tmux := Action_Tmux a;
     Action_Run := Action_Run a; Action_SendKeys := Action_SendKeys a;
     Action_Shell := Some sh; Action_Sleep := Action_Sleep a;
     Action_Watch := Action_Watch a; Action_WaitForPrompt := Action_WaitForPrompt a;
     Action_SshManagerConnect := Action_SshManagerConnect a;
     Action_IgnoreError := Action_IgnoreError a; Action_Comment := Action_Comment a |}.

Definition setWatch (a : Action) (w : WatchAction) : Action :=
  {| Action_Type := Action_Type a; Action_Target := Action_Target a; Action_Tmux := Action_Tmux a;
     Action_Run := Action_Run a; Action_SendKeys := Action_SendKeys a;
     Action_Shell := Action_Shell a; Action_Sleep := Action_Sleep a;
     Action_Watch := Some w; Action_WaitForPrompt := Action_WaitForPrompt a;
     Action_SshManagerConnect := Action_SshManagerConnect a;
     Action_IgnoreError := Action_IgnoreError a; Action_Comment := Action_Comment a |}.

Definition setWaitForPrompt (a : Action) (w : WaitForPromptAction) : Action :=
  {| Action_Type := Action_Type a; Action_Target := Action_Target a; Action_Tmux := Action_Tmux a;
     Action_Run := Action_Run a; Action_SendKeys := Action_SendKeys a;
     Action_Shell := Action_Shell a; Action_Sleep := Action_Sleep a;
     Action_Watch := Action_Watch a; Action_WaitForPrompt := Some w;
     Action_SshManagerConnect := Action_SshManagerConnect a;
     Action_IgnoreError := Action_IgnoreError a; Action_Comment := Action_Comment a |}.

Definition setSshManagerConnect (a : Action) (c : SshManagerConnectAction) : Action :=
  {| Action_Type := Action_Type a; Action_Target := Action_Target a; Action_Tmux := Action_Tmux a;
     Action_Run := Action_Run a; Action_SendKeys := Action_SendKeys a;
     Action_Shell := Action_Shell a; Action_Sleep := Action_Sleep a;
     Action_Watch := Action_Watch a; Action_WaitForPrompt := Action_WaitForPrompt a;
     Action_SshManagerConnect := Some c;
     Action_IgnoreError := Action_IgnoreError a; Action_Comment := Action_Comment a |}.

Definition validateAction (a : Action) : result Action :=
  let a := setType a (Strings.TrimSpace (Strings.ToLower (Action_Type a))) in
  let ty := Action_Type a in
  if ty =? "" then Err "missing type"
  else if ty =? "tmux" then
    match Action_Tmux a with
    | None => Err "tmux action missing tmux{}"
    | Some t =>
        let name := Strings.TrimSpace (Tmux_Name t) in
        if name =? "" then Err "tmux.name is required"
        else Ok (setTmux a {| Tmux_Name := name; Tmux_Args := Tmux_Args t |})
    end
  else if ty =? "run" then
    match Action_Run a with
    | None => Err "run action missing run{}"
    | Some r =>
        let prog := Strings.TrimSpace (Run_Program r) in
        if prog =? "" then Err "run.program is required"
        else Ok (setRun a {| Run_Program := prog; Run_Args := Run_Args r;
                             Run_Enter := Run_Enter r |})
    end
  else if ty =? "send_keys" then
    match Action_SendKeys a with
    | None => Err "send_keys action missing send_keys{}"
    | Some k =>
        match SendKeys_Keys k with
        | [] => Err "send_keys.keys is required"
        | _ => Ok a
        end
    end
  else if ty =? "shell" then
    match Action_Shell a with
    | None => Err "shell action missing shell{}"
    | Some sh =>
        let cmd := Strings.TrimSpace (Shell_Cmd sh) in
        if cmd =? "" then Err "shell.cmd is required"
        else Ok (setShell a {| Shell_Cmd := cmd; Shell_Shell := Shell_Shell sh |})
    end
  else if ty =? "sleep" then
    match Action_Sleep a with
    | None => Err "sleep action missing sleep{}"
    | Some sl =>
        if (Sleep_Milliseconds sl <? 0)%Z then Err "sleep.ms must be >= 0" else Ok a
    end
  else if ty =? "watch" then
    match Action_Watch a with
    | None => Err "watch action missing watch{}"
    | Some w =>
        if (Watch_IntervalSeconds w <? 0)%Z then Err "watch.interval_s must be >= 0"
        else
          let cmd := Strings.TrimSpace (Watch_Command w) in
          if cmd =? "" then Err "watch.command is required"
          else Ok (setWatch a {| Watch_IntervalSeconds := Watch_IntervalSeconds w;
                                 Watch_Command := cmd |})
    end
  else if ty =? "wait_for_prompt" then
    match Action_WaitForPrompt a with
    | None => Err "wait_for_prompt action missing wait_for_prompt{}"
    | Some w =>
        if (Wait_TimeoutMS w <? 0)%Z then Err "wait_for_prompt.timeout_ms must be >= 0"
        else if (Wait_MinQuietMS w <? 0)%Z then Err "wait_for_prompt.min_quiet_ms must be >= 0"
        else if (Wait_SettleMS w <? 0)%Z then Err "wait_for_prompt.settle_ms must be >= 0"
        else if (Wait_MaxLines w <? 0)%Z then Err "wait_for_prompt.max_lines must be >= 0"
        else Ok (setWaitForPrompt a
                   {| Wait_TimeoutMS := Wait_TimeoutMS w; Wait_MinQuietMS := Wait_MinQuietMS w;
                      Wait_SettleMS := Wait_SettleMS w;
                      Wait_PromptRegex := Strings.TrimSpace (Wait_PromptRegex w);
                      Wait_MaxLines := Wait_MaxLines w |})
    end
  else if ty =? "ssh_manager_connect" then
    match Action_SshManagerConnect a with
    | None => Err "ssh_manager_connect action missing ssh_manager_connect{}"
    | Some c =>
        let host := Strings.TrimSpace (Ssh_Host c) in
        if host =? "" then Err "ssh_manager_connect.host is required"
        else
          let user := Strings.TrimSpace (Ssh_User c) in
          if (Ssh_Port c <? 0)%Z then Err "ssh_manager_connect.port must be >= 0"
          else
            let mode := Strings.TrimSpace (Strings.ToLower (Ssh_LoginMode c)) in
            let mode := if mode =? "" then "askpass" else mode in
            if negb ((mode =? "askpass") || (mode =? "manual") || (mode =? "key"))
            then Err "ssh_manager_connect.login_mode must be askpass|manual|key"
            else if (Ssh_ConnectTimeoutMS c <? 0)%Z
            then Err "ssh_manager_connect.connect_timeout_ms must be >= 0"
            else Ok (setSshManagerConnect a
                       {| Ssh_Host := host; Ssh_User := user; Ssh_Port := Ssh_Port c;
                          Ssh_LoginMode := mode;
                          Ssh_ConnectTimeoutMS := Ssh_ConnectTimeoutMS c |})
    end
  else Err "unknown action type".

Definition isSome {A : Type} (o : option A) : bool :=
  match o with Some _ => true | None => false end.

Definition validDirection (d : string) : bool :=
  let dir := Strings.ToLower (Strings.TrimSpace d) in
  (dir =? "h") || (dir =? "v").

Definition validatePlanStepShape (step : PanePlanStep) : result unit :=
  let hasPane := isSome (Step_Pane step) in
  let hasSplit := isSome (Step_Split step) in
  if Bool.eqb hasPane hasSplit then Err "step must have exactly one of pane or split"
  else match Step_Split step with
       | Some sp =>
           if validDirection (Split_Direction sp) then Ok tt
           else Err "step.split.direction must be 'h' or 'v'"
       | None => Ok tt
       end.

Definition validatePanePlan (steps : list PanePlanStep) : result unit :=
  match steps with
  | [] => Ok tt
  | first :: _ =>
      if negb (isSome (Step_Pane first)) || isSome (Step_Split first)
      then Err "first step must be pane"
      else
        _ ← forM_ validatePlanStepShape steps;
        if isSome (Step_Split (List.last steps first))
        then Err "last step must be pane (cannot end with split)"
        else Ok tt
  end.

Definition zeroTarget : Target :=
  {| Target_Session := ""; Target_Window := ""; Target_Pane := "" |}.

(** The action that the [command] shorthand stands for. *)
Definition shorthandShell (cmd : string) : Action :=
  {| Action_Type := "shell"; Action_Target := zeroTarget; Action_Tmux := None;
     Action_Run := None; Action_SendKeys := None;
     Action_Shell := Some {| Shell_Cmd := cmd; Shell_Shell := "" |};
     Action_Sleep := None; Action_Watch := None; Action_WaitForPrompt := None;
     Action_SshManagerConnect := None; Action_IgnoreError := false; Action_Comment := "" |}.

Definition expandShorthand (command : string) (actions : list Action) : list Action :=
  if negb (command =? "") && (List.length actions =? 0)%nat
  then [shorthandShell command] else actions.

Definition validatePlanStep (step : PanePlanStep) : result PanePlanStep :=
  match Step_Pane step with
  | None => Ok step
  | Some p =>
      acts ← traverse validateAction
               (expandShorthand (PlanPane_Command p) (PlanPane_Actions p));
      Ok {| Step_Pane := Some {| PlanPane_Name := PlanPane_Name p;
                                 PlanPane_Root := PlanPane_Root p;
                                 PlanPane_Focus := PlanPane_Focus p;
                                 PlanPane_Actions := acts;
                                 PlanPane_Command := PlanPane_Command p |};
            Step_Split := Step_Split step |}
  end.

Definition validatePane (p : Pane) : result Pane :=
  acts ← traverse validateAction (expandShorthand (Pane_Command p) (Pane_Actions p));
  Ok {| Pane_Name := Pane_Name p; Pane_Root := Pane_Root p; Pane_Focus := Pane_Focus p;
        Pane_Actions := acts; Pane_Command := Pane_Command p |}.

Fixpoint allDigits (s : string) : bool :=
  match s with
  | "" => true
  | String c r => Strings.isDigit c && allDigits r
  end.

Definition validateWindow (w : Window) : result Window :=
  if Strings.TrimSpace (Window_Name w) =? "" then Err "windows[].name is required"
  else
    let fp := Strings.TrimSpace (Strings.ToLower (Window_FocusPane w)) in
    if negb (fp =? "") && negb (fp =? "active") && negb (allDigits fp)
    then Err "windows[].focus_pane must be active or a numeric string"
    else
      plan ← match Window_PanePlan w with
             | [] => Ok []
             | steps => _ ← validatePanePlan steps; traverse validatePlanStep steps
             end;
      panes ← traverse validatePane (Window_Panes w);
      acts ← traverse validateAction (Window_Actions w);
      Ok {| Window_Name := Window_Name w; Window_Root := Window_Root w;
            Window_Layout := Window_Layout w; Window_Focus := Window_Focus w;
            Window_FocusPane := fp; Window_Panes := panes; Window_PanePlan := plan;
            Window_Actions := acts |}.

Definition isNameChar (c : ascii) : bool :=
  Strings.isLower c || Strings.isUpper c || Strings.isDigit c
  || (c =? "_")%char || (c =? "-")%char.

Fixpoint allNameChars (s : string) : bool :=
  match s with
  | "" => true
  | String c r => isNameChar c && allNameChars r
  end.

(** [ValidateTmuxName]: the trimmed name matches [^[a-zA-Z0-9_-]+$]. *)
Definition ValidateTmuxName (name : string) : result unit :=
  let name := Strings.TrimSpace name in
  if name =? "" then Err "empty name"
  else if allNameChars name then Ok tt
  else Err "invalid name (allowed: [a-zA-Z0-9_-])".

Definition validateFocusWindow (fw : string) : result string :=
  let fw := Strings.TrimSpace fw in
  if fw =? "" then Ok fw
  else if Strings.ToLower fw =? "active" then Ok "active"
  else if allDigits fw then Ok fw
  else _ ← ValidateTmuxName fw; Ok fw.

(** [Validate]: structural validation; the result is the spec as the Go
    method leaves it behind (it normalises in place). *)
Definition Validate (s : Spec) : result Spec :=
  let version := if (Spec_Version s =? 0)%Z then CurrentVersion else Spec_Version s in
  if negb (version =? CurrentVersion)%Z then Err "unsupported spec version"
  else if (List.length (Spec_Actions s) =? 0)%nat && (List.length (Spec_Windows s) =? 0)%nat
  then Err "spec must define either windows[] or actions[]"
  else
    windows ← traverse validateWindow (Spec_Windows s);
    actions ← traverse validateAction (Spec_Actions s);
    _ ← (if Session_Name (Spec_Session s) =? "" then Ok tt
         else ValidateTmuxName (Session_Name (Spec_Session s)));
    fw ← validateFocusWindow (Session_FocusWindow (Spec_Session s));
    let sess := Spec_Session s in
    Ok {| Spec_Version := version; Spec_Name := Spec_Name s;
          Spec_Description := Spec_Description s;
          Spec_Session :=
            {| Session_Name := Session_Name sess; Session_Prefix := Session_Prefix sess;
               Session_Root := Session_Root sess; Session_Attach := Session_Attach sess;
               Session_SwitchClient := Session_SwitchClient sess;
               Session_BaseIndex := Session_BaseIndex sess;
               Session_PaneBaseIndex := Session_PaneBaseIndex sess;
               Session_FocusWindow := fw |};
          Spec_Env := Spec_Env s; Spec_Windows := windows; Spec_Actions := actions;
          Spec_Meta := Spec_Meta s |}.

(** The [check] closure of [ValidatePolicy]. *)
Definition checkPolicy (pol : Policy) (a : Action) : result unit :=
  if Action_Type a =? "shell" then
    if negb (AllowShell pol) then Err "shell actions are disabled by policy" else Ok tt
  else if Action_Type a =? "tmux" then
    match Action_Tmux a with
    | None => Err "tmux action missing tmux{}"
    | Some t =>
        let cmd := Strings.TrimSpace (Tmux_Name t) in
        if cmd =? "" then Err "tmux.name is required"
        else if negb (AllowTmuxPassthrough pol) && negb (mapBool (AllowedTmuxCommands pol) cmd)
        then Err "tmux command not allowed by policy"
        else Ok tt
    end
  else Ok tt.

Definition normalizeAllowlist (pol : Policy) : Policy :=
  match AllowedTmuxCommands pol with
  | None => {| AllowShell := AllowShell pol;
               AllowTmuxPassthrough := AllowTmuxPassthrough pol;
               AllowedTmuxCommands := AllowedTmuxCommands DefaultPolicy |}
  | Some _ => pol
  end.

(** [ValidatePolicy]: spec-level actions, then per window its actions and
    the actions of its legacy panes. *)
Definition ValidatePolicy (s : Spec) (pol : Policy) : result unit :=
  let pol := normalizeAllowlist pol in
  _ ← forM_ (checkPolicy pol) (Spec_Actions s);
  forM_ (fun w =>
           _ ← forM_ (checkPolicy pol) (Window_Actions w);
           forM_ (fun p => forM_ (checkPolicy pol) (Pane_Actions p)) (Window_Panes w))
        (Spec_Windows s).

(** [collapseRepeats s ch]: a byte equal to [ch] is dropped when the byte
    written before it is [ch] too. *)
Fixpoint collapseFrom (ch : ascii) (prev : ascii) (s : string) : string :=
  match s with
  | "" => ""
  | String c r =>
      if (c =? ch)%char && (prev =? ch)%char then collapseFrom ch prev r
      else String c (collapseFrom ch c r)
  end.

Definition collapseRepeats (s : string) (ch : ascii) : string :=
  match s with
  | "" => ""
  | String c r => String c (collapseFrom ch c r)
  end.

Definition isSafeChar (c : ascii) : bool :=
  Strings.isLower c || Strings.isDigit c || (c =? "_")%char || (c =? "-")%char.

(** [regexp.MustCompile(`[^a-z0-9_-]+`).ReplaceAllString(s, "-")]: every
    maximal run of other bytes becomes one dash. *)
Fixpoint replaceUnsafeRuns (s : string) (inRun : bool) : string :=
  match s with
  | "" => ""
  | String c r =>
      if isSafeChar c then String c (replaceUnsafeRuns r false)
      else if inRun then replaceUnsafeRuns r true
      else String "-" (replaceUnsafeRuns r true)
  end.

Definition sanitizeName (s : string) : string :=
  let s := Strings.ToLower (Strings.TrimSpace s) in
  if s =? "" then ""
  else
    let s := Strings.ReplaceAll s " " "-" in
    let s := Strings.ReplaceAll s "/" "-" in
    let s := replaceUnsafeRuns s false in
    let s := Strings.Trim s "-_" in
    let s := collapseRepeats s "-" in
    let s := collapseRepeats s "_" in
    if s =? "" then "session" else s.

Definition DeriveSessionName (pfx projectPath : string) : string :=
  let base := sanitizeName (Filepath.Base (Strings.TrimRight projectPath "/")) in
  if negb (pfx =? "") then
    let pfx := sanitizeName pfx in
    if negb (pfx =? "") then pfx +:+ "-" +:+ base else base
  else base.

End spec.

(** ** Package [templates]: engine, compiler and executor *)

Module templates.

Record Policy : Type := {
  AllowShell : bool;
  AllowTmuxPassthrough : bool;
  AllowedTmuxCommands : option (gmap string bool);
  DisallowTmuxCommands : option (gmap string bool);
  MaxActions : Z;
  MaxCommandLen : Z
}.

Definition defaultAllowedNames : list string := [
  "new-session"; "kill-session"; "rename-session"; "switch-client"; "select-session";
  "new-window"; "kill-window"; "rename-window"; "select-window"; "move-window";
  "swap-window"; "list-windows"; "list-sessions";
  "split-window"; "kill-pane"; "select-pane"; "resize-pane"; "select-layout";
  "send-keys"; "display-message"; "set-option"; "set-buffer" ].

Definition defaultAllowedTmuxCommands : gmap string bool :=
  foldl (fun out c => <[c := true]> out) ∅ defaultAllowedNames.

Definition DefaultPolicy : Policy := {|
  AllowShell := false;
  AllowTmuxPassthrough := false;
  AllowedTmuxCommands := Some defaultAllowedTmuxCommands;
  DisallowTmuxCommands := Some (list_to_map [
    ("run-shell", true); ("if-shell", true); ("pipe-pane", true); ("respawn-pane", true) ]);
  MaxActions := 200;
  MaxCommandLen := 4096
|}.

Record Context : Type := {
  ProjectName : string;
  ProjectPath : string;
  SessionName : string;
  WorkingDir : string;
  Env : option (gmap string string);
  TmuxSocket : string
}.

(** [ActionKind] is a string type; [ActionOther k] stands for a string
    that is none of the declared constants. *)
Inductive ActionKind : Type :=
| ActionEnsureSession | ActionNewWindow | ActionSplitWindow | ActionSelectWindow
| ActionSelectPane | ActionSelectLayout | ActionSendKeys | ActionSetOption
| ActionDisplay | ActionRenameWindow | ActionWaitForPrompt | ActionSshManagerConnect
| ActionShell | ActionTmux
| ActionOther (k : string).

(** The fields keep their Go names, except [Action_Command] (Go: [Command],
    which is also the name of a type here) and [Option_] (Go: [Option]). *)
Record Action : Type := {
  Kind : ActionKind;
  Session : string;
  Window : string;
  Pane : string;
  Cwd : string;
  Name : string;
  From : string;
  Direction : string;
  Percent : Z;
  Layout : string;
  Action_Command : string;
  Keys : list string;
  Enter : bool;
  TimeoutMS : Z;
  MinQuietMS : Z;
  SettleMS : Z;
  PromptRe : string;
  MaxLines : Z;
  Host : string;
  User : string;
  Port : Z;
  LoginMode : string;
  ConnectTimeoutMS : Z;
  Option_ : string;
  Value : string;
  Global : bool;
  Message : string;
  DurationMS : Z;
  Shell : string;
  TmuxArgs : list string
}.

Record Spec : Type := {
  Version : Z;
  ID : string;
  Spec_Name : string;
  Actions : list Action;
  Unsafe : bool
}.

Record Command : Type := {
  Args : list string;
  Explanation : string;
  Cmd_Unsafe : bool
}.

Record Compiled : Type := {
  Commands : list Command;
  UnsafeUsed : bool;
  Warnings : list string
}.

Definition emptyCompiled : Compiled :=
  {| Commands := []; UnsafeUsed := false; Warnings := [] |}.

(** *** Substitution *)

Definition isIdentStart (c : ascii) : bool :=
  Strings.isUpper c || Strings.isLower c || (c =? "_")%char.

Definition isIdentChar (c : ascii) : bool := isIdentStart c || Strings.isDigit c.

Fixpoint span (p : ascii -> bool) (s : string) : string * string :=
  match s with
  | "" => ("", "")
  | String c r =>
      if p c then let '(a, b) := span p r in (String c a, b) else ("", s)
  end.

(** The lazy group [(.*?)] followed by the closing brace: the text up to
    the first closing brace, which a line feed may not precede (the dot
    does not match it). *)
Fixpoint untilClose (s : string) : option (string * string) :=
  match s with
  | "" => None
  | String c r =>
      if (c =? "}")%char then Some ("", r)
      else if (c =? "010")%char then None
      else match untilClose r with
           | Some (d, rest) => Some (String c d, rest)
           | None => None
           end
  end.

(** [reVar] matched at the first byte of [s]: the key, the default text
    (empty when the group is absent) and what follows the match. *)
Definition matchVar (s : string) : option (string * string * string) :=
  match s with
  | String "$" (String "{" (String c r)) =>
      if isIdentStart c then
        let '(tail, after) := span isIdentChar r in
        match after with
        | String "}" rest => Some (String c tail, "", rest)
        | String ":" (String "-" r2) =>
            match untilClose r2 with
            | Some (d, rest) => Some (String c tail, d, rest)
            | None => None
            end
        | _ => None
        end
      else None
  | _ => None
  end.

(** [reVar.FindStringSubmatch(m)]: the groups of the leftmost match. *)
Fixpoint FindStringSubmatch (m : string) : option (string * string) :=
  match matchVar m with
  | Some (key, def, _) => Some (key, def)
  | None =>
      match m with
      | "" => None
      | String _ r => FindStringSubmatch r
      end
  end.

(** [reVar.ReplaceAllStringFunc(s, repl)]: leftmost matches, left to
    right, not overlapping; [skip] counts the bytes of the current match
    still to be passed over. *)
Fixpoint replaceAllVars (repl : string -> string) (s : string) (skip : nat) : string :=
  match s with
  | "" => ""
  | String c r =>
      match skip with
      | S k => replaceAllVars repl r k
      | O =>
          match matchVar s with
          | Some (_, _, rest) =>
              let n := (String.length s - String.length rest)%nat in
              repl (Strings.take n s) +:+ replaceAllVars repl r (n - 1)
          | None => String c (replaceAllVars repl r 0)
          end
      end
  end.

Definition expandVars (s : string) (lookup : string -> string -> string) : string :=
  if s =? "" then s
  else replaceAllVars
         (fun m => match FindStringSubmatch m with
                   | Some (key, def) => lookup key def
                   | None => m
                   end) s 0.

Definition shellSpecial (c : ascii) : bool :=
  match c with
  | " "%char | "009"%char | "010"%char | "034"%char | "'"%char | "\"%char | "$"%char
  | "`"%char | "&"%char | "|"%char | ";"%char | "<"%char | ">"%char | "("%char
  | ")"%char | "{"%char | "}"%char | "*"%char | "?"%char | "!"%char | "~"%char
  | "#"%char => true
  | _ => false
  end.

Fixpoint needsQuote (s : string) : bool :=
  match s with
  | "" => false
  | String c r => shellSpecial c || needsQuote r
  end.

(** The replacement for a single quote: quote, backslash, double quote,
    quote, backslash, double quote, quote. *)
Definition quoteEscape : string :=
  String "'" (String "\" (String "034" (String "'" (String "\" (String "034" (String "'" "")))))).

Definition shellQuote (s : string) : string :=
  if s =? "" then "''"
  else if needsQuote s then "'" +:+ Strings.ReplaceAll s "'" quoteEscape +:+ "'"
  else s.

Definition shellJoin (args : list string) : string :=
  Strings.Join (map shellQuote args) " ".

Section WithOS.

Variable os : OS.

Definition nonEmpty (s : string) : option string :=
  if s =? "" then None else Some s.

(** The [switch key] of [subst]: a built-in counts only when it is not
    empty. *)
Definition builtin (ctx : Context) (key : string) : option string :=
  if key =? "PROJECT_NAME" then nonEmpty (ProjectName ctx)
  else if key =? "PROJECT_PATH" then nonEmpty (ProjectPath ctx)
  else if key =? "SESSION_NAME" then nonEmpty (SessionName ctx)
  else if key =? "TMUX_SOCK" then nonEmpty (TmuxSocket ctx)
  else None.

Definition envEntry (ctx : Context) (key : string) : option string :=
  match Env ctx with
  | Some m => match m !! key with
              | Some v => nonEmpty v
              | None => None
              end
  | None => None
  end.

Definition substLookup (ctx : Context) (key def : string) : string :=
  match builtin ctx key with
  | Some v => v
  | None =>
      match envEntry ctx key with
      | Some v => v
      | None =>
          if negb (Getenv os key =? "") then Getenv os key else def
      end
  end.

Definition subst (ctx : Context) (s : string) : string :=
  expandVars s (substLookup ctx).

Definition expandUser (p : string) : string :=
  let p := Strings.TrimSpace p in
  if p =? "" then p
  else if (p =? "~") || Strings.HasPrefix p "~/" then
    match UserHomeDir os with
    | None => p
    | Some home =>
        if home =? "" then p
        else if p =? "~" then home
        else Filepath.Join home (Strings.drop 2 p)
    end
  else p.

(** *** Stage B: one IR action to commands *)

Definition command (args : list string) (expl : string) : Command :=
  {| Args := args; Explanation := expl; Cmd_Unsafe := false |}.

(** Window part of a target: [S] or [S:W]. *)
Definition windowTarget (session : string) (a : Action) : string :=
  if negb (Strings.TrimSpace (Window a) =? "")
  then session +:+ ":" +:+ Strings.TrimSpace (Window a)
  else session.

(** Targeting of send-keys, wait_for_prompt and ssh_manager_connect. *)
Definition paneTarget (session : string) (a : Action) : string :=
  let target := windowTarget session a in
  if negb (Strings.TrimSpace (Pane a) =? "") then
    if Strings.HasPrefix (Strings.TrimSpace (Pane a)) "%"
    then Strings.TrimSpace (Pane a)
    else target +:+ "." +:+ Strings.TrimSpace (Pane a)
  else target.

Definition orDefault (n def : Z) : Z := if (n <=? 0)%Z then def else n.

Definition bashTail (ctx : Context) (a : Action) : list string :=
  if negb (Strings.TrimSpace (Action_Command a) =? "")
  then ["--"; "bash"; "-lc"; subst ctx (Action_Command a)]
  else [].

(** The [Keys] loop of send_keys: substituted, trimmed, empty ones
    dropped. *)
Definition sendKeyTokens (ctx : Context) (keys : list string) : list string :=
  filter (fun k => negb (k =? "") = true)
         (map (fun k => Strings.TrimSpace (subst ctx k)) keys).

(** The result of [compileAction]: commands, the unsafe flag, warnings. *)
Definition compiledAction : Type := (list Command * bool * list string)%type.

Definition effectiveAllow (p : Policy) : gmap string bool :=
  match AllowedTmuxCommands p with
  | Some m => if (size m =? 0)%nat then defaultAllowedTmuxCommands else m
  | None => defaultAllowedTmuxCommands
  end.

Definition mapBool (m : gmap string bool) (k : string) : bool :=
  match m !! k with Some b => b | None => false end.

Definition isDisallowed (p : Policy) (k : string) : bool :=
  match DisallowTmuxCommands p with
  | Some m => mapBool m k
  | None => false
  end.

Definition compileAction (pol : Policy) (ctx : Context) (a : Action)
  : result compiledAction :=
  let session :=
    if Strings.TrimSpace (Session a) =? "" then SessionName ctx
    else Strings.TrimSpace (Session a) in
  let cwd :=
    if Strings.TrimSpace (Cwd a) =? "" then WorkingDir ctx
    else expandUser (subst ctx (Strings.TrimSpace (Cwd a))) in
  match Kind a with
  | ActionEnsureSession =>
      Ok ([command ["new-session"; "-d"; "-s"; session; "-c"; cwd]
             "create detached session if missing (may fail if exists)"],
          false,
          ["ensure_session is non-atomic in pure tmux command lists; consider pre-checking in code"])
  | ActionNewWindow =>
      let name := Strings.TrimSpace (Name a) in
      if name =? "" then Err "new_window: missing Name"
      else Ok ([command (["new-window"; "-t"; session; "-n"; name; "-c"; cwd]
                           ++ bashTail ctx a)
                  ("create window " +:+ name)], false, [])
  | ActionSplitWindow =>
      let dir := Strings.ToLower (Strings.TrimSpace (Direction a)) in
      if negb (dir =? "h") && negb (dir =? "v")
      then Err "split_window: Direction must be 'h' or 'v'"
      else
        let flag := if dir =? "h" then "-h" else "-v" in
        let target := windowTarget session a in
        pct ← (if (0 <? Percent a)%Z then
                 if (Percent a <? 1)%Z || (99 <? Percent a)%Z
                 then Err "split_window: Percent must be 1-99"
                 else Ok ["-p"; Strconv.Itoa (Percent a)]
               else Ok []);
        Ok ([command (["split-window"; flag; "-t"; target; "-c"; cwd] ++ pct
                        ++ bashTail ctx a)
               ("split window (" +:+ dir +:+ ")")], false, [])
  | ActionRenameWindow =>
      let newName := Strings.TrimSpace (Name a) in
      if newName =? "" then Err "rename_window: missing Name (new window name)"
      else
        let from := Strings.TrimSpace (From a) in
        let from := if from =? "" then Strings.TrimSpace (Window a) else from in
        let from := if from =? "" then "0" else from in
        let target := session +:+ ":" +:+ from in
        Ok ([command ["rename-window"; "-t"; target; newName]
               ("rename window " +:+ target +:+ " -> " +:+ newName)], false, [])
  | ActionSelectWindow =>
      if Strings.TrimSpace (Window a) =? "" then Err "select_window: missing Window"
      else
        let target := session +:+ ":" +:+ Strings.TrimSpace (Window a) in
        Ok ([command ["select-window"; "-t"; target] ("select window " +:+ target)],
            false, [])
  | ActionSelectPane =>
      if Strings.TrimSpace (Pane a) =? "" then Err "select_pane: missing Pane"
      else
        let target := Strings.TrimSpace (Pane a) in
        let target :=
          if negb (Strings.HasPrefix target "%") && negb (Strings.Contains target ":")
          then session +:+ ":." +:+ target else target in
        Ok ([command ["select-pane"; "-t"; target] ("select pane " +:+ target)],
            false, [])
  | ActionSelectLayout =>
      let layout := Strings.TrimSpace (Layout a) in
      if layout =? "" then Err "select_layout: missing Layout"
      else
        let target := windowTarget session a in
        Ok ([command ["select-layout"; "-t"; target; layout]
               ("select layout " +:+ layout)], false, [])
  | ActionSendKeys =>
      let target := paneTarget session a in
      keys ← match Keys a with
             | _ :: _ => Ok (sendKeyTokens ctx (Keys a))
             | [] =>
                 if negb (Strings.TrimSpace (Action_Command a) =? "")
                 then Ok [subst ctx (Action_Command a)]
                 else Err "send_keys: missing Keys or Command"
             end;
      Ok ([command (["send-keys"; "-t"; target] ++ keys
                      ++ (if Enter a then ["C-m"] else []))
             ("send keys to " +:+ target)], false, [])
  | ActionWaitForPrompt =>
      let target := paneTarget session a in
      Ok ([command ["__wait_for_prompt__"; target;
                    Strconv.Itoa (orDefault (TimeoutMS a) 15000);
                    Strconv.Itoa (orDefault (MinQuietMS a) 500);
                    Strconv.Itoa (orDefault (SettleMS a) 250);
                    Strconv.Itoa (orDefault (MaxLines a) 200);
                    Strings.TrimSpace (PromptRe a)]
             ("wait for prompt (best-effort) in " +:+ target)], false, [])
  | ActionSshManagerConnect =>
      let target := paneTarget session a in
      let host := Strings.TrimSpace (Host a) in
      if host =? "" then Err "ssh_manager_connect: missing Host"
      else
        let user := Strings.TrimSpace (User a) in
        let login := Strings.TrimSpace (Strings.ToLower (LoginMode a)) in
        let login := if login =? "" then "askpass" else login in
        let port := if (Port a <? 0)%Z then 0%Z else Port a in
        let cto := if (ConnectTimeoutMS a <? 0)%Z then 0%Z else ConnectTimeoutMS a in
        Ok ([command ["__ssh_manager_connect__"; target; host; user;
                      Strconv.Itoa port; login; Strconv.Itoa cto]
               ("ssh_manager_connect " +:+ host +:+ " in " +:+ target)], false, [])
  | ActionSetOption =>
      if Strings.TrimSpace (Option_ a) =? "" then Err "set_option: missing Option"
      else
        let opt := Strings.TrimSpace (Option_ a) in
        let val := subst ctx (Value a) in
        Ok ([command (["set-option"] ++ (if Global a then ["-g"] else ["-t"; session])
                        ++ [opt; val])
               ("set option " +:+ opt)], false, [])
  | ActionDisplay =>
      let msg := subst ctx (Message a) in
      if Strings.TrimSpace msg =? "" then Err "display_message: missing Message"
      else
        Ok ([command ["display-message"; "-d"; Strconv.Itoa (orDefault (DurationMS a) 1500); msg]
               "display message"], false, [])
  | ActionShell =>
      if negb (AllowShell pol) then Err "shell action disabled by policy"
      else
        let sh := Strings.TrimSpace (Shell a) in
        let sh := if sh =? "" then Strings.TrimSpace (Action_Command a) else sh in
        if sh =? "" then Err "shell: missing Shell/Command"
        else
          let name := Strings.TrimSpace (Name a) in
          let name := if name =? "" then "shell" else name in
          let sh := subst ctx sh in
          Ok ([{| Args := ["new-window"; "-t"; session; "-n"; name; "-c"; cwd;
                           "--"; "bash"; "-lc"; sh];
                  Explanation := "unsafe shell window " +:+ name;
                  Cmd_Unsafe := true |}], true, [])
  | ActionTmux =>
      if negb (AllowTmuxPassthrough pol) then Err "tmux passthrough disabled by policy"
      else
        match TmuxArgs a with
        | [] => Err "tmux: missing TmuxArgs"
        | _ :: _ =>
            let args := map (subst ctx) (TmuxArgs a) in
            let sub := Strings.TrimPrefix (Strings.TrimSpace (hd "" args)) "tmux " in
            match Strings.Fields sub with
            | [] => Panic "index out of range [0] with length 0"
            | sub :: _ =>
                if sub =? "" then Err "tmux: empty subcommand"
                else if isDisallowed pol sub then Err "tmux: subcommand is disallowed"
                else if negb (mapBool (effectiveAllow pol) sub)
                then Err "tmux: subcommand not in allowlist"
                else Ok ([{| Args := args; Explanation := "unsafe tmux passthrough";
                             Cmd_Unsafe := true |}], true, [])
            end
        end
  | ActionOther _ => Err "unknown action kind"
  end.

(** The emission loop of [Compile]; [out] is the value accumulated so
    far. *)
Fixpoint emit (pol : Policy) (ctx : Context) (actions : list Action) (out : Compiled)
  : result Compiled :=
  match actions with
  | [] => Ok out
  | a :: rest =>
      '(cmds, unsafeUsed, warns) ← compileAction pol ctx a;
      emit pol ctx rest
           {| Commands := Commands out ++ cmds;
              UnsafeUsed := UnsafeUsed out || unsafeUsed;
              Warnings := Warnings out ++ warns |}
  end.

(** [total] of the size loop: every argument counts its bytes plus one. *)
Definition commandLen (c : Command) : Z :=
  fold_left (fun total a => (total + (Z.of_nat (String.length a) + 1))%Z) (Args c) 0%Z.

Definition checkCommandLen (maxLen : Z) (c : Command) : result unit :=
  if (maxLen <? commandLen c)%Z then Err "compiled command too long" else Ok tt.

Definition effectiveMaxActions (p : Policy) : Z :=
  if (MaxActions p <=? 0)%Z then 200%Z else MaxActions p.

Definition effectiveMaxCommandLen (p : Policy) : Z :=
  if (MaxCommandLen p <=? 0)%Z then 4096%Z else MaxCommandLen p.

(** The context as [Compile] completes it before the loop. *)
Definition completeContext (ctx : Context) : Context :=
  let projectPath := expandUser (ProjectPath ctx) in
  let projectPath :=
    match Filepath.Abs (Getwd os) projectPath with
    | Some abs => abs
    | None => projectPath
    end in
  {| ProjectName :=
       if ProjectName ctx =? "" then Filepath.Base projectPath else ProjectName ctx;
     ProjectPath := projectPath;
     SessionName := SessionName ctx;
     WorkingDir := if WorkingDir ctx =? "" then projectPath else WorkingDir ctx;
     Env := Env ctx;
     TmuxSocket := TmuxSocket ctx |}.

Definition Compile (pol : Policy) (ctx : Context) (spec : Spec) : result Compiled :=
  if SessionName ctx =? "" then Err "context: missing SessionName"
  else if ProjectPath ctx =? "" then Err "context: missing ProjectPath"
  else
    let ctx := completeContext ctx in
    if (List.length (Actions spec) =? 0)%nat then Err "spec: no actions"
    else if (effectiveMaxActions pol <? Z.of_nat (List.length (Actions spec)))%Z
    then Err "spec: too many actions"
    else
      out ← emit pol ctx (Actions spec) emptyCompiled;
      _ ← forM_ (checkCommandLen (effectiveMaxCommandLen pol)) (Commands out);
      Ok out.

(** *** Dry run *)

Definition commandLines (c : Command) : list string :=
  let pre := if Cmd_Unsafe c then "tmux (unsafe) " else "tmux " in
  (if negb (Explanation c =? "") then [pre +:+ "# " +:+ Explanation c] else [])
    ++ [pre +:+ shellJoin (Args c)].

Definition DryRunLines (compiled : Compiled) : list string :=
  (if UnsafeUsed compiled
   then ["WARNING: unsafe actions present (shell and/or tmux passthrough)"] else [])
    ++ map (fun w => "WARN: " +:+ w) (Warnings compiled)
    ++ concat (map commandLines (Commands compiled)).

Definition RenderDryRun (compiled : Compiled) : string :=
  Strings.Join (DryRunLines compiled) (String "010" "").

(** *** Stage A: spec to IR (from_spec.go) *)

Definition zeroAction : Action :=
  {| Kind := ActionOther ""; Session := ""; Window := ""; Pane := ""; Cwd := "";
     Name := ""; From := ""; Direction := ""; Percent := 0; Layout := "";
     Action_Command := ""; Keys := []; Enter := false; TimeoutMS := 0; MinQuietMS := 0;
     SettleMS := 0; PromptRe := ""; MaxLines := 0; Host := ""; User := ""; Port := 0;
     LoginMode := ""; ConnectTimeoutMS := 0; Option_ := ""; Value := ""; Global := false;
     Message := ""; DurationMS := 0; Shell := ""; TmuxArgs := [] |}.

(** The composite literals of from_spec.go; a field that a literal does
    not mention has its zero value. *)
Definition irTargeted (kind : ActionKind) (session window pane : string) : Action :=
  {| Kind := kind; Session := session; Window := window; Pane := pane; Cwd := "";
     Name := ""; From := ""; Direction := ""; Percent := 0; Layout := "";
     Action_Command := ""; Keys := []; Enter := false; TimeoutMS := 0; MinQuietMS := 0;
     SettleMS := 0; PromptRe := ""; MaxLines := 0; Host := ""; User := ""; Port := 0;
     LoginMode := ""; ConnectTimeoutMS := 0; Option_ := ""; Value := ""; Global := false;
     Message := ""; DurationMS := 0; Shell := ""; TmuxArgs := [] |}.

Definition irSendKeys (session window pane command : string) (keys : list string)
           (enter : bool) : Action :=
  {| Kind := ActionSendKeys; Session := session; Window := window; Pane := pane; Cwd := "";
     Name := ""; From := ""; Direction := ""; Percent := 0; Layout := "";
     Action_Command := command; Keys := keys; Enter := enter; TimeoutMS := 0;
     MinQuietMS := 0; SettleMS := 0; PromptRe := ""; MaxLines := 0; Host := ""; User := "";
     Port := 0; LoginMode := ""; ConnectTimeoutMS := 0; Option_ := ""; Value := "";
     Global := false; Message := ""; DurationMS := 0; Shell := ""; TmuxArgs := [] |}.

Definition irSshManagerConnect (session window pane : string)
           (c : spec.SshManagerConnectAction) : Action :=
  {| Kind := ActionSshManagerConnect; Session := session; Window := window; Pane := pane;
     Cwd := ""; Name := ""; From := ""; Direction := ""; Percent := 0; Layout := "";
     Action_Command := ""; Keys := []; Enter := false; TimeoutMS := 0; MinQuietMS := 0;
     SettleMS := 0; PromptRe := ""; MaxLines := 0;
     Host := Strings.TrimSpace (spec.Ssh_Host c);
     User := Strings.TrimSpace (spec.Ssh_User c);
     Port := spec.Ssh_Port c;
     LoginMode := Strings.TrimSpace (Strings.ToLower (spec.Ssh_LoginMode c));
     ConnectTimeoutMS := spec.Ssh_ConnectTimeoutMS c;
     Option_ := ""; Value := ""; Global := false; Message := ""; DurationMS := 0;
     Shell := ""; TmuxArgs := [] |}.

Definition irWaitForPrompt (session window pane : string)
           (w : spec.WaitForPromptAction) : Action :=
  {| Kind := ActionWaitForPrompt; Session := session; Window := window; Pane := pane;
     Cwd := ""; Name := ""; From := ""; Direction := ""; Percent := 0; Layout := "";
     Action_Command := ""; Keys := []; Enter := false;
     TimeoutMS := spec.Wait_TimeoutMS w; MinQuietMS := spec.Wait_MinQuietMS w;
     SettleMS := spec.Wait_SettleMS w;
     PromptRe := Strings.TrimSpace (spec.Wait_PromptRegex w);
     MaxLines := spec.Wait_MaxLines w;
     Host := ""; User := ""; Port := 0; LoginMode := ""; ConnectTimeoutMS := 0;
     Option_ := ""; Value := ""; Global := false; Message := ""; DurationMS := 0;
     Shell := ""; TmuxArgs := [] |}.

Definition irShell (session window pane cmd : string) : Action :=
  {| Kind := ActionShell; Session := session; Window := window; Pane := pane; Cwd := "";
     Name := ""; From := ""; Direction := ""; Percent := 0; Layout := "";
     Action_Command := ""; Keys := []; Enter := false; TimeoutMS := 0; MinQuietMS := 0;
     SettleMS := 0; PromptRe := ""; MaxLines := 0; Host := ""; User := ""; Port := 0;
     LoginMode := ""; ConnectTimeoutMS := 0; Option_ := ""; Value := ""; Global := false;
     Message := ""; DurationMS := 0; Shell := cmd; TmuxArgs := [] |}.

Definition irTmux (session window pane : string) (args : list string) : Action :=
  {| Kind := ActionTmux; Session := session; Window := window; Pane := pane; Cwd := "";
     Name := ""; From := ""; Direction := ""; Percent := 0; Layout := "";
     Action_Command := ""; Keys := []; Enter := false; TimeoutMS := 0; MinQuietMS := 0;
     SettleMS := 0; PromptRe := ""; MaxLines := 0; Host := ""; User := ""; Port := 0;
     LoginMode := ""; ConnectTimeoutMS := 0; Option_ := ""; Value := ""; Global := false;
     Message := ""; DurationMS := 0; Shell := ""; TmuxArgs := args |}.

Definition irEnsureSession (session cwd : string) : Action :=
  {| Kind := ActionEnsureSession; Session := session; Window := ""; Pane := ""; Cwd := cwd;
     Name := ""; From := ""; Direction := ""; Percent := 0; Layout := "";
     Action_Command := ""; Keys := []; Enter := false; TimeoutMS := 0; MinQuietMS := 0;
     SettleMS := 0; PromptRe := ""; MaxLines := 0; Host := ""; User := ""; Port := 0;
     LoginMode := ""; ConnectTimeoutMS := 0; Option_ := ""; Value := ""; Global := false;
     Message := ""; DurationMS := 0; Shell := ""; TmuxArgs := [] |}.

Definition irSetGlobalOption (option value : string) : Action :=
  {| Kind := ActionSetOption; Session := ""; Window := ""; Pane := ""; Cwd := "";
     Name := ""; From := ""; Direction := ""; Percent := 0; Layout := "";
     Action_Command := ""; Keys := []; Enter := false; TimeoutMS := 0; MinQuietMS := 0;
     SettleMS := 0; PromptRe := ""; MaxLines := 0; Host := ""; User := ""; Port := 0;
     LoginMode := ""; ConnectTimeoutMS := 0; Option_ := option; Value := value;
     Global := true; Message := ""; DurationMS := 0; Shell := ""; TmuxArgs := [] |}.

Definition irNewWindow (session name cwd : string) : Action :=
  {| Kind := ActionNewWindow; Session := session; Window := ""; Pane := ""; Cwd := cwd;
     Name := name; From := ""; Direction := ""; Percent := 0; Layout := "";
     Action_Command := ""; Keys := []; Enter := false; TimeoutMS := 0; MinQuietMS := 0;
     SettleMS := 0; PromptRe := ""; MaxLines := 0; Host := ""; User := ""; Port := 0;
     LoginMode := ""; ConnectTimeoutMS := 0; Option_ := ""; Value := ""; Global := false;
     Message := ""; DurationMS := 0; Shell := ""; TmuxArgs := [] |}.

Definition irSplitWindow (session window direction cwd : string) (percent : Z) : Action :=
  {| Kind := ActionSplitWindow; Session := session; Window := window; Pane := "";
     Cwd := cwd; Name := ""; From := ""; Direction := direction; Percent := percent;
     Layout := ""; Action_Command := ""; Keys := []; Enter := false; TimeoutMS := 0;
     MinQuietMS := 0; SettleMS := 0; PromptRe := ""; MaxLines := 0; Host := ""; User := "";
     Port := 0; LoginMode := ""; ConnectTimeoutMS := 0; Option_ := ""; Value := "";
     Global := false; Message := ""; DurationMS := 0; Shell := ""; TmuxArgs := [] |}.

Definition irSelectLayout (session window layout : string) : Action :=
  {| Kind := ActionSelectLayout; Session := session; Window := window; Pane := "";
     Cwd := ""; Name := ""; From := ""; Direction := ""; Percent := 0; Layout := layout;
     Action_Command := ""; Keys := []; Enter := false; TimeoutMS := 0; MinQuietMS := 0;
     SettleMS := 0; PromptRe := ""; MaxLines := 0; Host := ""; User := ""; Port := 0;
     LoginMode := ""; ConnectTimeoutMS := 0; Option_ := ""; Value := ""; Global := false;
     Message := ""; DurationMS := 0; Shell := ""; TmuxArgs := [] |}.

(** Setting [Window] and [Session] on a lowered action. *)
Definition setWindow (a : Action) (w : string) : Action :=
  {| Kind := Kind a; Session := Session a; Window := w; Pane := Pane a; Cwd := Cwd a;
     Name := Name a; From := From a; Direction := Direction a; Percent := Percent a;
     Layout := Layout a; Action_Command := Action_Command a; Keys := Keys a;
     Enter := Enter a; TimeoutMS := TimeoutMS a; MinQuietMS := MinQuietMS a;
     SettleMS := SettleMS a; PromptRe := PromptRe a; MaxLines := MaxLines a;
     Host := Host a; User := User a; Port := Port a; LoginMode := LoginMode a;
     ConnectTimeoutMS := ConnectTimeoutMS a; Option_ := Option_ a; Value := Value a;
     Global := Global a; Message := Message a; DurationMS := DurationMS a;
     Shell := Shell a; TmuxArgs := TmuxArgs a |}.

Definition setSession (a : Action) (s : string) : Action :=
  {| Kind := Kind a; Session := s; Window := Window a; Pane := Pane a; Cwd := Cwd a;
     Name := Name a; From := From a; Direction := Direction a; Percent := Percent a;
     Layout := Layout a; Action_Command := Action_Command a; Keys := Keys a;
     Enter := Enter a; TimeoutMS := TimeoutMS a; MinQuietMS := MinQuietMS a;
     SettleMS := SettleMS a; PromptRe := PromptRe a; MaxLines := MaxLines a;
     Host := Host a; User := User a; Port := Port a; LoginMode := LoginMode a;
     ConnectTimeoutMS := ConnectTimeoutMS a; Option_ := Option_ a; Value := Value a;
     Global := Global a; Message := Message a; DurationMS := DurationMS a;
     Shell := Shell a; TmuxArgs := TmuxArgs a |}.

(** [float64(n)] of an [int]: the nearest binary64, ties to even. *)
Definition float64 (n : Z) : SpecFloat.spec_float :=
  SpecFloat.binary_normalize 53 1024 n 0 false.

(** The verb [%.3f]: the nearest multiple of a thousandth to the exact
    value of the float, ties to even, as sign and number of
    thousandths. *)
Definition thousandths (f : SpecFloat.spec_float) : option (bool * Z) :=
  match f with
  | SpecFloat.S754_zero s => Some (s, 0%Z)
  | SpecFloat.S754_finite s m e =>
      let num := (Z.pos m * 1000)%Z in
      if (0 <=? e)%Z then Some (s, (num * 2 ^ e)%Z)
      else
        let den := (2 ^ (- e))%Z in
        let q := (num / den)%Z in
        let r := (num mod den)%Z in
        let up := (den <? 2 * r)%Z || ((2 * r =? den)%Z && Z.odd q) in
        Some (s, if up then (q + 1)%Z else q)
  | _ => None
  end.

Definition formatFixed3 (f : SpecFloat.spec_float) : string :=
  match thousandths f with
  | Some (s, n) =>
      let r := (n mod 1000)%Z in
      (if s : bool then "-" else "") +:+ Strconv.Itoa (n / 1000) +:+ "."
        +:+ (if (r <? 10)%Z then "00" else if (r <? 100)%Z then "0" else "")
        +:+ Strconv.Itoa r
  | None =>
      match f with
      | SpecFloat.S754_infinity true => "-Inf"
      | SpecFloat.S754_infinity false => "+Inf"
      | _ => "NaN"
      end
  end.

(** [fmt.Sprintf("%.3f", float64(ms)/1000.0)]: the conversion and the
    division round to binary64. *)
Definition millisAsSeconds (ms : Z) : string :=
  formatFixed3 (SpecFloat.SFdiv 53 1024 (float64 ms) (float64 1000)).

(** One spec action to IR actions and the unsafe flag. [pol] is the
    spec-level policy built by [BuildFromSpec]; [disallowed] its deny
    map. *)
Definition convertSingleAction (defaultSession : string) (a : spec.Action)
           (pol : spec.Policy) (disallowed : option (gmap string bool))
  : result (list Action * bool) :=
  let sess :=
    if Strings.TrimSpace (spec.Target_Session (spec.Action_Target a)) =? ""
    then defaultSession
    else Strings.TrimSpace (spec.Target_Session (spec.Action_Target a)) in
  let win := Strings.TrimSpace (spec.Target_Window (spec.Action_Target a)) in
  let pane := Strings.TrimSpace (spec.Target_Pane (spec.Action_Target a)) in
  let ty := spec.Action_Type a in
  if ty =? "send_keys" then
    match spec.Action_SendKeys a with
    | None => Err "missing send_keys{}"
    | Some k =>
        Ok ([irSendKeys sess win pane "" (spec.SendKeys_Keys k) (spec.SendKeys_Enter k)],
            false)
    end
  else if ty =? "run" then
    match spec.Action_Run a with
    | None => Err "missing run{}"
    | Some r =>
        let cmdLine := shellJoin (spec.Run_Program r :: spec.Run_Args r) in
        let enter := match spec.Run_Enter r with Some b => b | None => true end in
        Ok ([irSendKeys sess win pane cmdLine [] enter], false)
    end
  else if ty =? "ssh_manager_connect" then
    match spec.Action_SshManagerConnect a with
    | None => Err "missing ssh_manager_connect{}"
    | Some c => Ok ([irSshManagerConnect sess win pane c], false)
    end
  else if ty =? "wait_for_prompt" then
    match spec.Action_WaitForPrompt a with
    | None => Err "missing wait_for_prompt{}"
    | Some w => Ok ([irWaitForPrompt sess win pane w], false)
    end
  else if ty =? "watch" then
    match spec.Action_Watch a with
    | None => Err "missing watch{}"
    | Some w =>
        let interval := orDefault (spec.Watch_IntervalSeconds w) 2 in
        let cmd := Strings.TrimSpace (spec.Watch_Command w) in
        if cmd =? "" then Err "watch.command empty"
        else
          Ok ([irSendKeys sess win pane
                 ("watch -n " +:+ Strconv.Itoa interval +:+ " -t -- " +:+ cmd) [] true],
              false)
    end
  else if ty =? "shell" then
    match spec.Action_Shell a with
    | None => Err "missing shell{}"
    | Some sh =>
        if negb (spec.AllowShell pol) then Err "shell actions disabled by policy"
        else
          let cmd := Strings.TrimSpace (spec.Shell_Cmd sh) in
          if cmd =? "" then Err "shell.cmd empty"
          else Ok ([irShell sess win pane cmd], true)
    end
  else if ty =? "tmux" then
    match spec.Action_Tmux a with
    | None => Err "missing tmux{}"
    | Some t =>
        if negb (spec.AllowTmuxPassthrough pol) then Err "tmux passthrough disabled by policy"
        else
          let cmd := Strings.TrimSpace (spec.Tmux_Name t) in
          if cmd =? "" then Err "tmux.name empty"
          else if match disallowed with Some d => mapBool d cmd | None => false end
          then Err "tmux subcommand is disallowed"
          else if match spec.AllowedTmuxCommands pol with
                  | Some m => negb (mapBool m cmd)
                  | None => false
                  end
          then Err "tmux subcommand not in allowlist"
          else Ok ([irTmux sess win pane (cmd :: spec.Tmux_Args t)], true)
    end
  else if ty =? "sleep" then
    match spec.Action_Sleep a with
    | None => Err "missing sleep{}"
    | Some sl =>
        if negb (spec.AllowShell pol) then Err "sleep requires shell enabled (policy)"
        else if (spec.Sleep_Milliseconds sl <? 0)%Z then Err "sleep.ms must be >= 0"
        else
          Ok ([irShell sess win pane
                 ("sleep " +:+ millisAsSeconds (spec.Sleep_Milliseconds sl))], true)
    end
  else Err "unknown action type".

(** [convertActions]: the lowered actions concatenated, the unsafe flags
    or-ed. *)
Fixpoint convertActions (sessionName : string) (actions : list spec.Action)
         (pol : spec.Policy) (disallowed : option (gmap string bool))
  : result (list Action * bool) :=
  match actions with
  | [] => Ok ([], false)
  | a :: rest =>
      '(act, usedUnsafe) ← convertSingleAction sessionName a pol disallowed;
      '(out, unsafeUsed) ← convertActions sessionName rest pol disallowed;
      Ok ((act ++ out)%list, usedUnsafe || unsafeUsed)
  end.

(** The targeting defaults applied to lowered pane actions (compared
    after trimming) and to lowered window actions (compared as they
    are). *)
Definition defaultTargetTrimmed (sessionName winName : string) (a : Action) : Action :=
  let a := if Strings.TrimSpace (Session a) =? "" then setSession a sessionName else a in
  if Strings.TrimSpace (Window a) =? "" then setWindow a winName else a.

Definition defaultTargetRaw (sessionName winName : string) (a : Action) : Action :=
  let a := if Window a =? "" then setWindow a winName else a in
  if Session a =? "" then setSession a sessionName else a.

Definition resolveRoot (ctx : Context) (root fallback : string) : string :=
  let r := Strings.TrimSpace root in
  expandUser (subst ctx (if r =? "" then fallback else r)).

(** Lowered actions of a pane, with defaults; nothing when the pane has
    no actions. *)
Definition convertPaneActions (sessionName winName : string)
           (actions : list spec.Action) (pol : spec.Policy)
           (disallowed : option (gmap string bool)) : result (list Action * bool) :=
  match actions with
  | [] => Ok ([], false)
  | _ :: _ =>
      '(acts, usedUnsafe) ← convertActions sessionName actions pol disallowed;
      Ok (map (defaultTargetTrimmed sessionName winName) acts, usedUnsafe)
  end.

Definition cdAction (sessionName winName paneRoot : string) : Action :=
  irSendKeys sessionName winName "" ("cd " +:+ shellQuote paneRoot) [] true.

(** The best-effort parse of the digits before the percent sign. *)
Fixpoint parsePercentDigits (num : string) (pv : Z) : Z :=
  match num with
  | "" => pv
  | String r rest =>
      if Strings.isDigit r
      then parsePercentDigits rest (wrap64 (pv * 10 + (Z.of_nat (nat_of_ascii r) - 48)))
      else 0%Z
  end.

Definition splitPercent (sizeField : string) : Z :=
  let size := Strings.TrimSpace sizeField in
  if negb (size =? "") && Strings.HasSuffix size "%" then
    let pv := parsePercentDigits (Strings.TrimSuffix size "%") 0 in
    if (0 <? pv)%Z && (pv <? 100)%Z then pv else 0%Z
  else 0%Z.

(** One step of [convertPanePlan]; [first] says that the step has index
    zero. *)
Definition convertPlanStep (ctx : Context) (sessionName : string) (w : spec.Window)
           (winRoot : string) (pol : spec.Policy)
           (disallowed : option (gmap string bool)) (first : bool)
           (step : spec.PanePlanStep) : result (list Action * bool) :=
  match spec.Step_Pane step, spec.Step_Split step with
  | Some p, _ =>
      let paneRoot := resolveRoot ctx (spec.PlanPane_Root p) winRoot in
      let cd :=
        if first && negb (paneRoot =? "") && negb (paneRoot =? winRoot)
        then [cdAction sessionName (spec.Window_Name w) paneRoot] else [] in
      '(acts, usedUnsafe) ← convertPaneActions sessionName (spec.Window_Name w)
                              (spec.PlanPane_Actions p) pol disallowed;
      let focus :=
        if spec.PlanPane_Focus p
        then [irTargeted ActionSelectWindow sessionName (spec.Window_Name w) ""]
        else [] in
      Ok ((cd ++ acts ++ focus)%list, usedUnsafe)
  | None, Some sp =>
      let dir := Strings.ToLower (Strings.TrimSpace (spec.Split_Direction sp)) in
      if negb (dir =? "h") && negb (dir =? "v")
      then Err "pane_plan[].split.direction must be 'h' or 'v'"
      else Ok ([irSplitWindow sessionName (spec.Window_Name w) dir winRoot
                  (splitPercent (spec.Split_Size sp))], false)
  | None, None => Err "pane_plan[]: invalid step (expected pane or split)"
  end.

Fixpoint convertPlanSteps (ctx : Context) (sessionName : string) (w : spec.Window)
         (winRoot : string) (pol : spec.Policy)
         (disallowed : option (gmap string bool)) (first : bool)
         (steps : list spec.PanePlanStep) : result (list Action * bool) :=
  match steps with
  | [] => Ok ([], false)
  | step :: rest =>
      '(acts, usedUnsafe) ← convertPlanStep ctx sessionName w winRoot pol disallowed
                              first step;
      '(out, unsafeUsed) ← convertPlanSteps ctx sessionName w winRoot pol disallowed
                             false rest;
      Ok ((acts ++ out)%list, usedUnsafe || unsafeUsed)
  end.

Definition convertPanePlan (ctx : Context) (sessionName : string) (w : spec.Window)
           (winRoot : string) (pol : spec.Policy)
           (disallowed : option (gmap string bool)) : result (list Action * bool) :=
  convertPlanSteps ctx sessionName w winRoot pol disallowed true (spec.Window_PanePlan w).

(** One legacy pane; [first] says that the pane has index zero. *)
Definition convertPane (ctx : Context) (sessionName : string) (w : spec.Window)
           (winRoot : string) (pol : spec.Policy)
           (disallowed : option (gmap string bool)) (first : bool) (p : spec.Pane)
  : result (list Action * bool) :=
  let paneRoot := resolveRoot ctx (spec.Pane_Root p) winRoot in
  let create :=
    if first then
      if negb (paneRoot =? "") && negb (paneRoot =? winRoot)
      then [cdAction sessionName (spec.Window_Name w) paneRoot] else []
    else [irSplitWindow sessionName (spec.Window_Name w) "h" paneRoot 0] in
  '(acts, usedUnsafe) ← convertPaneActions sessionName (spec.Window_Name w)
                          (spec.Pane_Actions p) pol disallowed;
  let focus :=
    if spec.Pane_Focus p
    then [irTargeted ActionSelectWindow sessionName (spec.Window_Name w) ""] else [] in
  Ok ((create ++ acts ++ focus)%list, usedUnsafe).

Fixpoint convertPanes (ctx : Context) (sessionName : string) (w : spec.Window)
         (winRoot : string) (pol : spec.Policy)
         (disallowed : option (gmap string bool)) (first : bool)
         (panes : list spec.Pane) : result (list Action * bool) :=
  match panes with
  | [] => Ok ([], false)
  | p :: rest =>
      '(acts, usedUnsafe) ← convertPane ctx sessionName w winRoot pol disallowed first p;
      '(out, unsafeUsed) ← convertPanes ctx sessionName w winRoot pol disallowed
                             false rest;
      Ok ((acts ++ out)%list, usedUnsafe || unsafeUsed)
  end.

(** The body of the window loop of [convertWindows]. *)
Definition convertWindow (ctx : Context) (sessionName sessionRoot : string)
           (pol : spec.Policy) (disallowed : option (gmap string bool))
           (w : spec.Window) : result (list Action * bool) :=
  if Strings.TrimSpace (spec.Window_Name w) =? "" then Err "windows[]: missing name"
  else
    let winRoot := resolveRoot ctx (spec.Window_Root w) sessionRoot in
    let name := spec.Window_Name w in
    let create := [irNewWindow sessionName name winRoot;
                   irTargeted ActionSelectWindow sessionName name ""] in
    '(winActs, unsafe1) ←
      match spec.Window_Actions w with
      | [] => Ok ([], false)
      | _ :: _ =>
          '(acts, usedUnsafe) ← convertActions sessionName (spec.Window_Actions w)
                                  pol disallowed;
          Ok (map (defaultTargetRaw sessionName name) acts, usedUnsafe)
      end;
    '(paneActs, unsafe2) ←
      match spec.Window_PanePlan w with
      | _ :: _ => convertPanePlan ctx sessionName w winRoot pol disallowed
      | [] => convertPanes ctx sessionName w winRoot pol disallowed true
                (spec.Window_Panes w)
      end;
    let layout :=
      if negb (Strings.TrimSpace (spec.Window_Layout w) =? "")
      then [irSelectLayout sessionName name (spec.Window_Layout w)] else [] in
    let focus :=
      if spec.Window_Focus w then [irTargeted ActionSelectWindow sessionName name ""]
      else [] in
    let fp := Strings.TrimSpace (Strings.ToLower (spec.Window_FocusPane w)) in
    let focusPane :=
      if negb (fp =? "") && negb (fp =? "active")
      then [irTargeted ActionSelectPane sessionName name fp] else [] in
    Ok ((create ++ winActs ++ paneActs ++ layout ++ focus ++ focusPane)%list,
        unsafe1 || unsafe2).

Fixpoint convertWindowLoop (ctx : Context) (sessionName sessionRoot : string)
         (pol : spec.Policy) (disallowed : option (gmap string bool))
         (windows : list spec.Window) : result (list Action * bool) :=
  match windows with
  | [] => Ok ([], false)
  | w :: rest =>
      '(acts, usedUnsafe) ← convertWindow ctx sessionName sessionRoot pol disallowed w;
      '(out, unsafeUsed) ← convertWindowLoop ctx sessionName sessionRoot pol disallowed
                             rest;
      Ok ((acts ++ out)%list, usedUnsafe || unsafeUsed)
  end.

Definition isTmuxOrShell (a : Action) : bool :=
  match Kind a with
  | ActionTmux | ActionShell => true
  | _ => false
  end.

Definition convertWindows (ctx : Context) (sessionName sessionRoot : string)
           (windows : list spec.Window) (pol : spec.Policy)
           (disallowed : option (gmap string bool)) : result (list Action * bool) :=
  match windows with
  | [] => Err "no windows in spec"
  | _ :: _ =>
      '(out, unsafeUsed) ← convertWindowLoop ctx sessionName sessionRoot pol disallowed
                             windows;
      Ok (out, unsafeUsed || existsb isTmuxOrShell out)
  end.

(** *** Session names *)

(** The rune loop of [sanitizeSessionName]. *)
Fixpoint sanitizeRunes (name : string) (lastUnderscore : bool) : string :=
  match name with
  | "" => ""
  | String r rest =>
      if Strings.isLower r then String r (sanitizeRunes rest false)
      else if Strings.isUpper r
      then String (ascii_of_nat (nat_of_ascii r + 32)) (sanitizeRunes rest false)
      else if Strings.isDigit r then String r (sanitizeRunes rest false)
      else if (r =? "-")%char || (r =? "_")%char
      then String "_" (sanitizeRunes rest true)
      else if negb lastUnderscore then String "_" (sanitizeRunes rest true)
      else sanitizeRunes rest lastUnderscore
  end.

Definition sanitizeSessionName (name : string) : string :=
  let name := Strings.TrimSpace name in
  if name =? "" then ""
  else Strings.Trim (sanitizeRunes name false) "_".

Definition firstNonEmpty (a b : string) : string :=
  if negb (Strings.TrimSpace a =? "") then Strings.TrimSpace a else Strings.TrimSpace b.

(** [cloneStringMap]: a [range] over a map visits the entries in an
    order that Go leaves unspecified; [order] is the order of this run
    (a permutation of the entries of [m]). *)
Definition cloneStringMap (order : list (string * string))
           (m : option (gmap string string)) : option (gmap string string) :=
  match m with
  | None => None
  | Some g =>
      if (size g =? 0)%nat then None
      else Some (foldl (fun out kv => <[kv.1 := kv.2]> out) ∅ order)
  end.

Record BuildOptions : Type := {
  Opt_ProjectRoot : string;
  Opt_ProjectName : string;
  Opt_SessionName : string;
  Opt_PreferWindows : bool;
  Opt_IncludeEnsureSession : bool;
  Opt_AllowShell : bool;
  Opt_AllowTmuxPassthrough : bool;
  Opt_AllowedTmuxCommands : option (gmap string bool);
  Opt_DisallowTmuxCommands : option (gmap string bool)
}.

(** The name that [BuildFromSpec] resolves, before it is sanitized. *)
Definition resolveSessionName (optName : string) (s : spec.Spec) (projectRoot : string)
  : string :=
  if negb (Strings.TrimSpace optName =? "") then Strings.TrimSpace optName
  else if negb (Strings.TrimSpace (spec.Session_Name (spec.Spec_Session s)) =? "")
  then Strings.TrimSpace (spec.Session_Name (spec.Spec_Session s))
  else spec.DeriveSessionName
         (Strings.TrimSpace (spec.Session_Prefix (spec.Spec_Session s))) projectRoot.

Definition buildAllowed (opt : BuildOptions) : option (gmap string bool) :=
  match Opt_AllowedTmuxCommands opt with
  | Some m => if (size m =? 0)%nat then AllowedTmuxCommands DefaultPolicy else Some m
  | None => AllowedTmuxCommands DefaultPolicy
  end.

Definition buildDisallowed (opt : BuildOptions) : option (gmap string bool) :=
  match Opt_DisallowTmuxCommands opt with
  | Some m => Some m
  | None => DisallowTmuxCommands DefaultPolicy
  end.

Definition buildPolicy (opt : BuildOptions) : spec.Policy :=
  {| spec.AllowShell := Opt_AllowShell opt;
     spec.AllowTmuxPassthrough := Opt_AllowTmuxPassthrough opt;
     spec.AllowedTmuxCommands := buildAllowed opt |}.

(** [BuildFromSpec]: the context, the IR and [unsafeRequired]. [order] is
    the iteration order of the one [range] over a map
    ([cloneStringMap]). *)
Definition BuildFromSpec (order : list (string * string)) (s0 : spec.Spec)
           (opt : BuildOptions) : result (Context * Spec * bool) :=
  s ← spec.Validate s0;
  let projectRoot := Strings.TrimSpace (Opt_ProjectRoot opt) in
  if projectRoot =? "" then Err "BuildOptions.ProjectRoot is required"
  else
    let projectRoot := expandUser projectRoot in
    let projectName :=
      if Strings.TrimSpace (Opt_ProjectName opt) =? ""
      then Filepath.Base (Strings.TrimRight projectRoot "/")
      else Strings.TrimSpace (Opt_ProjectName opt) in
    let sessionName :=
      sanitizeSessionName (resolveSessionName (Opt_SessionName opt) s projectRoot) in
    if sessionName =? "" then Err "resolved session name is empty"
    else
      let sess := spec.Spec_Session s in
      let root :=
        if Strings.TrimSpace (spec.Session_Root sess) =? "" then projectRoot
        else expandUser (Strings.TrimSpace (spec.Session_Root sess)) in
      let disallowed := buildDisallowed opt in
      let pol := buildPolicy opt in
      _ ← spec.ValidatePolicy s pol;
      let ctx :=
        {| ProjectName := projectName; ProjectPath := projectRoot;
           SessionName := sessionName; WorkingDir := root;
           Env := cloneStringMap order (spec.Spec_Env s); TmuxSocket := "" |} in
      let pre :=
        ((if Opt_IncludeEnsureSession opt then [irEnsureSession sessionName root] else [])
           ++ match spec.Session_BaseIndex sess with
              | Some n => [irSetGlobalOption "base-index" (Strconv.Itoa n)]
              | None => []
              end
           ++ match spec.Session_PaneBaseIndex sess with
              | Some n => [irSetGlobalOption "pane-base-index" (Strconv.Itoa n)]
              | None => []
              end)%list in
      let useActions :=
        negb (List.length (spec.Spec_Actions s) =? 0)%nat
        && negb (Opt_PreferWindows opt && negb (List.length (spec.Spec_Windows s) =? 0)%nat) in
      '(acts, unsafeRequired) ←
        (if useActions
         then convertActions sessionName (spec.Spec_Actions s) pol disallowed
         else
           '(acts, usedUnsafe) ← convertWindows ctx sessionName root
                                   (spec.Spec_Windows s) pol disallowed;
           let fw := Strings.TrimSpace (Strings.ToLower (spec.Session_FocusWindow sess)) in
           let final :=
             if negb (fw =? "") && negb (fw =? "active")
             then [irTargeted ActionSelectWindow sessionName
                     (Strings.TrimSpace (spec.Session_FocusWindow sess)) ""]
             else [] in
           Ok ((acts ++ final)%list, usedUnsafe));
      Ok (ctx,
          {| Version := spec.Spec_Version s; ID := "";
             Spec_Name := firstNonEmpty (spec.Spec_Name s) projectName;
             Actions := (pre ++ acts)%list; Unsafe := unsafeRequired |},
          unsafeRequired).

(** [FromSpec]: the wrapper used by the callers; it always prefers the
    windows representation and passes no allowlist or denylist of its
    own. *)
Definition FromSpec (order : list (string * string)) (ctx : Context) (s : spec.Spec)
           (allowShell allowTmuxPassthrough includeEnsureSession : bool)
  : result Spec :=
  let projectPath := Strings.TrimSpace (ProjectPath ctx) in
  if projectPath =? "" then Err "context: missing ProjectPath"
  else
    let projectName :=
      if Strings.TrimSpace (ProjectName ctx) =? ""
      then Filepath.Base (Strings.TrimRight projectPath "/")
      else Strings.TrimSpace (ProjectName ctx) in
    let sessionName :=
      if negb (Strings.TrimSpace (SessionName ctx) =? "")
      then Strings.TrimSpace (SessionName ctx)
      else if negb (Strings.TrimSpace (spec.Session_Name (spec.Spec_Session s)) =? "")
      then spec.Session_Name (spec.Spec_Session s)
      else spec.DeriveSessionName
             (Strings.TrimSpace (spec.Session_Prefix (spec.Spec_Session s)))
             projectPath in
    '(_, tpl, _) ← BuildFromSpec order s
                     {| Opt_ProjectRoot := projectPath; Opt_ProjectName := projectName;
                        Opt_SessionName := sessionName; Opt_PreferWindows := true;
                        Opt_IncludeEnsureSession := includeEnsureSession;
                        Opt_AllowShell := allowShell;
                        Opt_AllowTmuxPassthrough := allowTmuxPassthrough;
                        Opt_AllowedTmuxCommands := None;
                        Opt_DisallowTmuxCommands := None |};
    Ok tpl.

Definition NewEngineFromSpecPolicy (allowShell allowTmux : bool)
           (allowed disallowed : option (gmap string bool)) : Policy :=
  {| AllowShell := allowShell;
     AllowTmuxPassthrough := allowTmux;
     AllowedTmuxCommands :=
       match allowed with
       | Some m => if (0 <? size m)%nat then Some m else AllowedTmuxCommands DefaultPolicy
       | None => AllowedTmuxCommands DefaultPolicy
       end;
     DisallowTmuxCommands :=
       match disallowed with
       | Some m => Some m
       | None => DisallowTmuxCommands DefaultPolicy
       end;
     MaxActions := MaxActions DefaultPolicy;
     MaxCommandLen := MaxCommandLen DefaultPolicy |}.

End WithOS.

(** *** The executor

    The Runner is injected by the caller and the wall clock belongs to the
    process: both act on an abstract [World].  A call of the Runner is
    appended to a log before it is made, which is what a Runner that
    records every call sees. *)

Inductive Call : Type :=
| CallRun (args : list string)
| CallRunOutput (args : list string).

Definition callArgs (c : Call) : list string :=
  match c with
  | CallRun args => args
  | CallRunOutput args => args
  end.

Section Executor.

Context {World Regexp : Type}.

(** [Run] returns the error, if any; [RunOutput] the output and the
    error, if any. *)
Record Runner : Type := {
  Run : list string -> World -> World * option string;
  RunOutput : list string -> World -> World * (string * option string)
}.

(** [time.Now] (an instant in nanoseconds), [time.Sleep],
    [regexp.Compile] and [Regexp.MatchString]. *)
Record Runtime : Type := {
  timeNow : World -> World * Z;
  timeSleep : Z -> World -> World;
  regexpCompile : string -> option Regexp;
  matchString : Regexp -> string -> bool
}.

Record Engine : Type := {
  Engine_Policy : Policy;
  Engine_Runner : option Runner
}.

Variable host : Runtime.
Variable runner : Runner.

Definition State : Type := (World * list Call)%type.

Definition doRun (args : list string) (st : State) : option string * State :=
  let '(w, err) := Run runner args st.1 in
  (err, (w, (st.2 ++ [CallRun args])%list)).

Definition doRunOutput (args : list string) (st : State)
  : (string * option string) * State :=
  let '(w, r) := RunOutput runner args st.1 in
  (r, (w, (st.2 ++ [CallRunOutput args])%list)).

Definition doNow (st : State) : Z * State :=
  let '(w, t) := timeNow host st.1 in (t, (w, st.2)).

Definition doSleep (d : Z) (st : State) : State := (timeSleep host d st.1, st.2).

Definition millisecond : Z := 1000000.
Definition pollEvery : Z := (100 * millisecond)%Z.

(** The [parseInt] closure of [execWaitForPrompt]. *)
Definition parseInt (s : string) (def : Z) : Z :=
  let s := Strings.TrimSpace s in
  if s =? "" then def
  else match Strconv.Atoi s with
       | Some n => n
       | None => def
       end.

Definition CR : string := String "013" "".
Definition LF : string := String "010" "".

(** The [capture] closure: the pane text with line ends normalised. *)
Definition capture (target : string) (maxLines : Z) (st : State)
  : (string * option string) * State :=
  let '((out, err), st) :=
    doRunOutput ["capture-pane"; "-p"; "-t"; target; "-S"; "-" +:+ Strconv.Itoa maxLines]
                st in
  match err with
  | Some e => (("", Some e), st)
  | None =>
      let out := Strings.ReplaceAll out (CR +:+ LF) LF in
      let out := Strings.ReplaceAll out CR LF in
      ((Strings.TrimRight out LF, None), st)
  end.

Fixpoint lastNonEmptyFrom (lines : list string) : string :=
  match lines with
  | [] => ""
  | ln :: rest =>
      if negb (Strings.TrimSpace ln =? "") then Strings.TrimSpace ln
      else lastNonEmptyFrom rest
  end.

Definition lastNonEmptyLine (s : string) : string :=
  lastNonEmptyFrom (rev (Strings.Split s "010")).

(** The polling loop.  [fuel] bounds the number of iterations that the
    model follows; [None] says that the loop was still running when the
    fuel ran out, [Some err] is the value returned. *)
Fixpoint waitLoop (fuel : nat) (re : Regexp) (target : string)
         (timeoutMS minQuietMS settleMS maxLines deadline : Z)
         (lastSnap : string) (lastChange : Z) (st : State)
  : option (option string) * State :=
  match fuel with
  | O => (None, st)
  | S fuel =>
      let '(t, st) := doNow st in
      if negb (t <? deadline)%Z
      then (Some (Some "wait_for_prompt: timed out waiting for readiness"), st)
      else
        let '((snap, err), st) := capture target maxLines st in
        match err with
        | Some _ =>
            waitLoop fuel re target timeoutMS minQuietMS settleMS maxLines deadline
                     lastSnap lastChange (doSleep pollEvery st)
        | None =>
            let '(lastSnap, lastChange, st) :=
              if negb (snap =? lastSnap)
              then let '(t, st) := doNow st in (snap, t, st)
              else (lastSnap, lastChange, st) in
            let '(t, st) := doNow st in
            if (t - lastChange <? wrap64 (minQuietMS * millisecond))%Z
            then waitLoop fuel re target timeoutMS minQuietMS settleMS maxLines deadline
                          lastSnap lastChange (doSleep pollEvery st)
            else
              let lastLine := lastNonEmptyLine snap in
              if lastLine =? ""
              then waitLoop fuel re target timeoutMS minQuietMS settleMS maxLines
                            deadline lastSnap lastChange (doSleep pollEvery st)
              else if matchString host re lastLine
              then (Some None,
                    if (0 <? settleMS)%Z
                    then doSleep (wrap64 (settleMS * millisecond)) st else st)
              else waitLoop fuel re target timeoutMS minQuietMS settleMS maxLines
                            deadline lastSnap lastChange (doSleep pollEvery st)
        end
  end.

Definition defaultPromptRe : string := "(?m)(^.*[#>$] ?$)".

Definition execWaitForPrompt (fuel : nat) (c : Command) (st : State)
  : option (option string) * State :=
  match Args c with
  | _ :: a1 :: a2 :: a3 :: a4 :: a5 :: more =>
      let target := Strings.TrimSpace a1 in
      if target =? "" then (Some (Some "wait_for_prompt: empty target"), st)
      else
        let timeoutMS := parseInt a2 15000 in
        let minQuietMS := parseInt a3 500 in
        let settleMS := parseInt a4 250 in
        let maxLines := parseInt a5 200 in
        let promptRe := match more with
                        | a6 :: _ => Strings.TrimSpace a6
                        | [] => ""
                        end in
        let promptRe := if promptRe =? "" then defaultPromptRe else promptRe in
        match regexpCompile host promptRe with
        | None => (Some (Some "wait_for_prompt: invalid prompt_regex"), st)
        | Some re =>
            let timeoutMS := if (timeoutMS <=? 0)%Z then 15000%Z else timeoutMS in
            let minQuietMS := if (minQuietMS <? 0)%Z then 0%Z else minQuietMS in
            let settleMS := if (settleMS <? 0)%Z then 0%Z else settleMS in
            let maxLines := if (maxLines <=? 0)%Z then 200%Z else maxLines in
            let '(t0, st) := doNow st in
            let deadline := (t0 + wrap64 (timeoutMS * millisecond))%Z in
            let '(t1, st) := doNow st in
            waitLoop fuel re target timeoutMS minQuietMS settleMS maxLines deadline
                     "" t1 st
        end
  | _ => (Some (Some "wait_for_prompt: invalid sentinel args"), st)
  end.

Definition execSshManagerConnect (c : Command) (st : State) : option string * State :=
  match Args c with
  | _ :: a1 :: a2 :: a3 :: a4 :: a5 :: _ :: _ =>
      let target := Strings.TrimSpace a1 in
      let hostName := Strings.TrimSpace a2 in
      let user := Strings.TrimSpace a3 in
      let portStr := Strings.TrimSpace a4 in
      let loginMode := Strings.TrimSpace (Strings.ToLower a5) in
      if target =? "" then (Some "ssh_manager_connect: empty target", st)
      else if hostName =? "" then (Some "ssh_manager_connect: empty host", st)
      else
        let loginMode := if loginMode =? "" then "askpass" else loginMode in
        if negb ((loginMode =? "askpass") || (loginMode =? "manual") || (loginMode =? "key"))
        then (Some "ssh_manager_connect: unsupported login_mode", st)
        else
          let port := if portStr =? "" then 0%Z
                      else match Strconv.Atoi portStr with
                           | Some n => n
                           | None => 0%Z
                           end in
          if loginMode =? "askpass" then
            let argv := (["tmux-ssh-manager"; "__connect"; "--host"; hostName]
                           ++ (if negb (user =? "") then ["--user"; user] else []))%list in
            doRun ["send-keys"; "-t"; target; shellJoin argv; "C-m"] st
          else
            let dest := if negb (user =? "") then user +:+ "@" +:+ hostName
                        else hostName in
            let sshParts := (["ssh"]
                               ++ (if (0 <? port)%Z then ["-p"; Strconv.Itoa port] else [])
                               ++ [dest])%list in
            doRun ["send-keys"; "-t"; target; shellJoin sshParts; "C-m"] st
  | _ => (Some "ssh_manager_connect: invalid sentinel args", st)
  end.

Definition firstArgIs (name : string) (c : Command) : bool :=
  match Args c with
  | a0 :: _ => a0 =? name
  | [] => false
  end.

(** The command loop of [Execute]. *)
Fixpoint executeCommands (fuel : nat) (cmds : list Command) (st : State)
  : option (option string) * State :=
  match cmds with
  | [] => (Some None, st)
  | c :: rest =>
      if firstArgIs "__wait_for_prompt__" c then
        match execWaitForPrompt fuel c st with
        | (Some None, st) => executeCommands fuel rest st
        | stopped => stopped
        end
      else if firstArgIs "__ssh_manager_connect__" c then
        match execSshManagerConnect c st with
        | (None, st) => executeCommands fuel rest st
        | (Some e, st) => (Some (Some e), st)
        end
      else
        match doRun (Args c) st with
        | (None, st) => executeCommands fuel rest st
        | (Some e, st) => (Some (Some e), st)
        end
  end.

End Executor.

(** [Execute]: the dry-run lines, and what the run returned ([None] when
    a polling loop outlived the fuel), with the final world and the log of
    Runner calls.  [host] stands for the clock and the regexp library. *)
Definition Execute {World Regexp : Type} (host : @Runtime World Regexp)
           (e : @Engine World) (compiled : Compiled) (dryRun : bool) (fuel : nat)
           (w : World) : list string * option (option string) * (World * list Call) :=
  let lines := DryRunLines compiled in
  if dryRun then (lines, Some None, (w, []))
  else match Engine_Runner e with
       | None => (lines, Some (Some "engine: Runner is nil"), (w, []))
       | Some runner =>
           let '(r, st) := executeCommands host runner fuel (Commands compiled) (w, []) in
           (lines, r, st)
       end.

(** *** The socket of the tmux runner and the preview with a header *)

(** [parseTmuxSockPathFromEnv]: the socket path of a value of [$TMUX],
    which tmux writes as path, pid and index separated by commas. *)
Definition parseTmuxSockPathFromEnv (tmuxEnv : string) : string :=
  let tmuxEnv := Strings.TrimSpace tmuxEnv in
  if tmuxEnv =? "" then ""
  else
    let i := Strings.Index tmuxEnv "," in
    if (0 <=? i)%Z then Strings.TrimSpace (Strings.take (Z.to_nat i) tmuxEnv)
    else Strings.TrimSpace tmuxEnv.

(** [RenderDryRunWithHeader]: the builder receives the title line, if the
    trimmed title is not empty, and then every line followed by a line
    feed. *)
Definition RenderDryRunWithHeader (title : string) (compiled : Compiled) : string :=
  let title := Strings.TrimSpace title in
  let b := if negb (title =? "") then title +:+ String "010" "" else "" in
  let b := fold_left (fun b ln => b +:+ ln +:+ String "010" "") (DryRunLines compiled) b in
  Strings.TrimRight b (String "010" "").

End templates.

(** ** Package [manager] (pkg/manager/apply_spec.go) *)

Module manager.

(** The rune loop of [sanitizeSessionNameForApply]. *)
Fixpoint applyRunes (s : string) (lastUnderscore : bool) : string :=
  match s with
  | "" => ""
  | String r rest =>
      if Strings.isLower r then String r (applyRunes rest false)
      else if Strings.isDigit r then String r (applyRunes rest false)
      else if (r =? "-")%char || (r =? "_")%char
      then String "_" (applyRunes rest true)
      else if negb lastUnderscore then String "_" (applyRunes rest true)
      else applyRunes rest lastUnderscore
  end.

Definition sanitizeSessionNameForApply (s : string) : string :=
  let s := Strings.ToLower (Strings.TrimSpace s) in
  if s =? "" then ""
  else
    let out := Strings.Trim (applyRunes s false) "_" in
    if out =? "" then "session" else out.

End manager.

(** * Properties *)

Open Scope list_scope.

(** [simpl] may compute an append whose first argument starts with a
    constructor. *)
#[local] Arguments String.append !s1 s2.

(** ** Generic facts about the loops *)

Lemma forM__ok {A : Type} (f : A -> result unit) (xs : list A) :
  forM_ f xs = Ok tt <-> Forall (fun x => f x = Ok tt) xs.
Proof.
  induction xs as [|x xs IH]; simpl.
  - split; auto.
  - split.
    + intros H. destruct (f x) as [[]| |] eqn:E; simpl in H; try discriminate.
      constructor; [exact E | now apply IH].
    + intros H. inversion H as [|? ? Hx Hxs]; subst.
      rewrite Hx. simpl. now apply IH.
Qed.

Lemma forM__app {A : Type} (f : A -> result unit) (xs ys : list A) :
  forM_ f (xs ++ ys) = (_ ← forM_ f xs; forM_ f ys).
Proof.
  induction xs as [|x xs IH]; simpl; [reflexivity|].
  destruct (f x) as [[]| |]; simpl; auto.
Qed.

Lemma forM__flat_map {A B : Type} (f : B -> result unit) (g : A -> list B) (xs : list A) :
  forM_ (fun x => forM_ f (g x)) xs = forM_ f (flat_map g xs).
Proof.
  induction xs as [|x xs IH]; simpl; [reflexivity|].
  rewrite forM__app, IH. reflexivity.
Qed.

Lemma forM__no_panic {A : Type} (f : A -> result unit) (xs : list A) :
  (forall x, In x xs -> forall m, f x <> Panic m) ->
  forall m, forM_ f xs <> Panic m.
Proof.
  induction xs as [|x xs IH]; simpl; intros H m; [discriminate|].
  destruct (f x) as [[]| |] eqn:E; simpl; try discriminate.
  - apply IH. intros y Hy. apply H. now right.
  - exfalso. eapply (H x); eauto.
Qed.

(** ** The default policy of the engine *)

Module PolicyFacts.

Import templates.

Lemma mapBool_insert_true (m : gmap string bool) (k c : string) :
  mapBool (<[k := true]> m) c = true <-> k = c \/ mapBool m c = true.
Proof.
  unfold mapBool. rewrite lookup_insert.
  destruct (decide (k = c)) as [->|Hne]; [tauto|].
  split; [auto | intros [?|?]; [contradiction | assumption]].
Qed.

Lemma mapBool_empty (c : string) : mapBool ∅ c = false.
Proof. unfold mapBool. now rewrite lookup_empty. Qed.

Lemma mapBool_foldl (names : list string) (m : gmap string bool) (c : string) :
  mapBool (foldl (fun out n => <[n := true]> out) m names) c = true
  <-> In c names \/ mapBool m c = true.
Proof.
  revert m. induction names as [|n names IH]; intros m; simpl.
  - tauto.
  - rewrite IH, mapBool_insert_true. intuition congruence.
Qed.

Lemma default_allowed_iff (c : string) :
  mapBool defaultAllowedTmuxCommands c = true <-> In c defaultAllowedNames.
Proof.
  unfold defaultAllowedTmuxCommands. rewrite mapBool_foldl, mapBool_empty.
  intuition discriminate.
Qed.

(** The sets as the specification states them. *)
Definition statedAllowed : list string := [
  "new-session"; "kill-session"; "rename-session"; "switch-client"; "select-session";
  "attach-session"; "new-window"; "kill-window"; "rename-window"; "select-window";
  "move-window"; "swap-window"; "split-window"; "kill-pane"; "select-pane"; "swap-pane";
  "resize-pane"; "break-pane"; "join-pane"; "select-layout"; "send-keys"; "set-buffer";
  "display-message"; "set-option"; "set-window-option"; "list-windows"; "list-panes";
  "list-sessions"; "set-hook" ].

Definition statedDenied : list string := [
  "run-shell"; "if-shell"; "pipe-pane"; "respawn-pane"; "respawn-window"; "source-file";
  "source"; "display-popup"; "load-buffer"; "save-buffer"; "capture-pane" ].

(** C2, as stated, fails: [attach-session] is in the stated allowlist and
    not in the engine's; [respawn-window] is in the stated denylist and
    not in the engine's. *)
Lemma default_policy_not_as_stated :
  In "attach-session" statedAllowed
  /\ mapBool (effectiveAllow DefaultPolicy) "attach-session" = false
  /\ In "respawn-window" statedDenied
  /\ isDisallowed DefaultPolicy "respawn-window" = false.
Proof.
  split; [vm_compute; auto 10|].
  split; [vm_compute; reflexivity|].
  split; [vm_compute; auto 10|].
  vm_compute; reflexivity.
Qed.

Lemma incl_by_eqb (l1 l2 : list string) :
  forallb (fun x => existsb (String.eqb x) l2) l1 = true -> incl l1 l2.
Proof.
  intros H x Hx. rewrite forallb_forall in H. specialize (H x Hx).
  apply existsb_exists in H as (y & Hy & Heq). apply String.eqb_eq in Heq. now subst.
Qed.

Lemma effectiveAllow_default : effectiveAllow DefaultPolicy = defaultAllowedTmuxCommands.
Proof.
  cbv beta iota delta [effectiveAllow DefaultPolicy AllowedTmuxCommands].
  destruct (_ =? _)%nat; reflexivity.
Qed.

Lemma isDisallowed_default (c : string) :
  isDisallowed DefaultPolicy c = true
  <-> In c ["run-shell"; "if-shell"; "pipe-pane"; "respawn-pane"].
Proof.
  unfold isDisallowed, DefaultPolicy, DisallowTmuxCommands.
  change (list_to_map ?l) with
    (foldr (fun (kv : string * bool) m => <[kv.1 := kv.2]> m) (∅ : gmap string bool) l).
  simpl foldr. rewrite !mapBool_insert_true, mapBool_empty. simpl.
  intuition (try discriminate; auto).
Qed.

(** C2 (amended).  The allowed set of the engine's default policy is
    exactly the twenty-two listed names (the stated set without
    attach-session, swap-pane, break-pane, join-pane, set-window-option,
    list-panes and set-hook); its disallowed set is exactly run-shell,
    if-shell, pipe-pane and respawn-pane; no name of the stated denylist is
    in the allowed set, so passthrough refuses each of them under the
    default policy; and no name of the stated allowlist is disallowed. *)
Theorem default_policy_sets (c : string) :
  (mapBool (effectiveAllow DefaultPolicy) c = true
   <-> In c ["new-session"; "kill-session"; "rename-session"; "switch-client";
             "select-session"; "new-window"; "kill-window"; "rename-window";
             "select-window"; "move-window"; "swap-window"; "split-window"; "kill-pane";
             "select-pane"; "resize-pane"; "select-layout"; "send-keys"; "set-buffer";
             "display-message"; "set-option"; "list-windows"; "list-sessions"])
  /\ (isDisallowed DefaultPolicy c = true
      <-> In c ["run-shell"; "if-shell"; "pipe-pane"; "respawn-pane"])
  /\ (In c statedDenied -> mapBool (effectiveAllow DefaultPolicy) c = false)
  /\ (In c statedAllowed -> isDisallowed DefaultPolicy c = false).
Proof.
  rewrite effectiveAllow_default.
  split; [|split; [apply isDisallowed_default|split]].
  - rewrite default_allowed_iff. split; apply incl_by_eqb; vm_compute; reflexivity.
  - intros Hin.
    assert (H : forallb (fun x => negb (mapBool defaultAllowedTmuxCommands x)) statedDenied
                = true) by (vm_compute; reflexivity).
    rewrite forallb_forall in H. apply H in Hin. now apply negb_true_iff in Hin.
  - intros Hin.
    assert (H : forallb (fun x => negb (isDisallowed DefaultPolicy x)) statedAllowed = true)
      by (vm_compute; reflexivity).
    rewrite forallb_forall in H. apply H in Hin. now apply negb_true_iff in Hin.
Qed.

End PolicyFacts.

(** ** ValidatePolicy *)

Module ValidatePolicyFacts.

Import spec.

(** The actions that [ValidatePolicy] walks, in its order: spec-level, then
    per window the window-level actions and those of its legacy panes. *)
Definition policyWalk (s : Spec) : list Action :=
  Spec_Actions s
    ++ flat_map (fun w => Window_Actions w ++ flat_map Pane_Actions (Window_Panes w))
                (Spec_Windows s).

(** The allowlist that the check reads: the default one for a nil map. *)
Definition walkAllowed (pol : Policy) (cmd : string) : bool :=
  mapBool (AllowedTmuxCommands (normalizeAllowlist pol)) cmd.

(** What the walk accepts; there is no mention of a denylist. *)
Definition accepted (pol : Policy) (a : Action) : Prop :=
  (Action_Type a = "shell" -> AllowShell pol = true)
  /\ (Action_Type a = "tmux" ->
      exists t, Action_Tmux a = Some t
                /\ Strings.TrimSpace (Tmux_Name t) <> ""
                /\ (AllowTmuxPassthrough pol = true
                    \/ walkAllowed pol (Strings.TrimSpace (Tmux_Name t)) = true)).

Lemma normalizeAllowlist_flags (pol : Policy) :
  AllowShell (normalizeAllowlist pol) = AllowShell pol
  /\ AllowTmuxPassthrough (normalizeAllowlist pol) = AllowTmuxPassthrough pol.
Proof. unfold normalizeAllowlist. destruct (AllowedTmuxCommands pol); auto. Qed.

Lemma checkPolicy_result (pol : Policy) (a : Action) :
  checkPolicy pol a = Ok tt \/ exists m, checkPolicy pol a = Err m.
Proof.
  unfold checkPolicy.
  repeat match goal with
         | |- context [if ?b then _ else _] => destruct b
         | |- context [match ?o with Some _ => _ | None => _ end] => destruct o
         end; eauto.
Qed.

Lemma checkPolicy_accepted (pol : Policy) (a : Action) :
  checkPolicy (normalizeAllowlist pol) a = Ok tt <-> accepted pol a.
Proof.
  unfold checkPolicy, accepted, walkAllowed.
  destruct (normalizeAllowlist_flags pol) as [-> ->].
  destruct (String.eqb_spec (Action_Type a) "shell") as [Hs|Hs].
  - rewrite Hs. destruct (AllowShell pol); simpl; split; try discriminate; try tauto.
    + intros _. split; [auto | discriminate].
    + intros [H _]. specialize (H eq_refl). discriminate.
  - destruct (String.eqb_spec (Action_Type a) "tmux") as [Ht|Ht].
    + destruct (Action_Tmux a) as [t|].
      * destruct (String.eqb_spec (Strings.TrimSpace (Tmux_Name t)) "") as [He|He].
        -- split; [discriminate|]. intros [_ H]. destruct (H Ht) as (t' & Heq & Hne & _).
           inversion Heq; subst. contradiction.
        -- destruct (AllowTmuxPassthrough pol); simpl.
           ++ split; [|reflexivity]. intros _. split; [contradiction|]. eauto.
           ++ destruct (mapBool _ _) eqn:E; simpl.
              ** split; [|reflexivity]. intros _. split; [contradiction|]. eauto.
              ** split; [discriminate|]. intros [_ H].
                 destruct (H Ht) as (t' & Heq & _ & [Hp|Hp]); [discriminate|].
                 inversion Heq; subst. congruence.
      * split; [discriminate|]. intros [_ H]. destruct (H Ht) as (t' & Heq & _).
        discriminate.
    + split; [|reflexivity]. intros _. split; intros; contradiction.
Qed.

Lemma ValidatePolicy_walk (s : Spec) (pol : Policy) :
  ValidatePolicy s pol = forM_ (checkPolicy (normalizeAllowlist pol)) (policyWalk s).
Proof.
  unfold ValidatePolicy, policyWalk. rewrite forM__app. f_equal.
  induction (Spec_Windows s) as [|w ws IH]; [reflexivity|].
  cbn [forM_ flat_map]. rewrite !forM__app, forM__flat_map, IH.
  destruct (forM_ _ (Window_Actions w)) as [[]| |]; reflexivity.
Qed.

(** The spec used against C3: one spec-level mux action named run-shell. *)
Definition runShellAction : Action :=
  {| Action_Type := "tmux"; Action_Target := zeroTarget;
     Action_Tmux := Some {| Tmux_Name := "run-shell"; Tmux_Args := ["true"] |};
     Action_Run := None; Action_SendKeys := None; Action_Shell := None;
     Action_Sleep := None; Action_Watch := None; Action_WaitForPrompt := None;
     Action_SshManagerConnect := None; Action_IgnoreError := false; Action_Comment := "" |}.

Definition zeroSession : Session :=
  {| Session_Name := ""; Session_Prefix := ""; Session_Root := ""; Session_Attach := None;
     Session_SwitchClient := None; Session_BaseIndex := None; Session_PaneBaseIndex := None;
     Session_FocusWindow := "" |}.

Definition actionsOnly (actions : list Action) : Spec :=
  {| Spec_Version := 1; Spec_Name := ""; Spec_Description := ""; Spec_Session := zeroSession;
     Spec_Env := None; Spec_Windows := []; Spec_Actions := actions; Spec_Meta := None |}.

Definition passthroughOn : Policy :=
  {| AllowShell := false; AllowTmuxPassthrough := true;
     AllowedTmuxCommands := AllowedTmuxCommands DefaultPolicy |}.

(** With passthrough enabled [ValidatePolicy] accepts a mux action named
    run-shell, a name of the engine's denylist: the spec-level policy has
    no denylist to consult. *)
Lemma validate_policy_ignores_denylist :
  ValidatePolicy (actionsOnly [runShellAction]) passthroughOn = Ok tt
  /\ templates.isDisallowed templates.DefaultPolicy "run-shell" = true.
Proof. split; vm_compute; reflexivity. Qed.

(** A shell action, and a window that holds it in a pane of its pane plan
    or in a pane of its list of panes. *)
Definition trueShell : Action :=
  {| Action_Type := "shell"; Action_Target := zeroTarget;
     Action_Tmux := None; Action_Run := None; Action_SendKeys := None;
     Action_Shell := Some {| Shell_Cmd := "true"; Shell_Shell := "" |};
     Action_Sleep := None; Action_Watch := None; Action_WaitForPrompt := None;
     Action_SshManagerConnect := None; Action_IgnoreError := false; Action_Comment := "" |}.

Definition planWindow (a : Action) : Window :=
  {| Window_Name := "main"; Window_Root := ""; Window_Layout := ""; Window_Focus := false;
     Window_FocusPane := ""; Window_Panes := [];
     Window_PanePlan :=
       [{| Step_Pane := Some {| PlanPane_Name := "edit"; PlanPane_Root := "";
                                PlanPane_Focus := false; PlanPane_Actions := [a];
                                PlanPane_Command := "" |};
           Step_Split := None |}];
     Window_Actions := [] |}.

Definition legacyWindow (a : Action) : Window :=
  {| Window_Name := "main"; Window_Root := ""; Window_Layout := ""; Window_Focus := false;
     Window_FocusPane := "";
     Window_Panes := [{| Pane_Name := "edit"; Pane_Root := ""; Pane_Focus := false;
                         Pane_Actions := [a]; Pane_Command := "" |}];
     Window_PanePlan := []; Window_Actions := [] |}.

Definition windowsOnly (ws : list Window) : Spec :=
  {| Spec_Version := 1; Spec_Name := ""; Spec_Description := ""; Spec_Session := zeroSession;
     Spec_Env := None; Spec_Windows := ws; Spec_Actions := []; Spec_Meta := None |}.

Definition shellOff : Policy :=
  {| AllowShell := false; AllowTmuxPassthrough := false; AllowedTmuxCommands := None |}.

(** C3: the code leaves a level out.  A spec that [Validate] accepts, with
    a shell action in a pane of a pane plan, passes [ValidatePolicy] with
    AllowShell off: the panes of a pane plan are not walked.  The same
    action in a pane of the list of panes is refused. *)
Lemma validate_policy_skips_pane_plan :
  Validate (windowsOnly [planWindow trueShell]) = Ok (windowsOnly [planWindow trueShell])
  /\ ValidatePolicy (windowsOnly [planWindow trueShell]) shellOff = Ok tt
  /\ exists m, ValidatePolicy (windowsOnly [legacyWindow trueShell]) shellOff = Err m.
Proof. repeat split; try (vm_compute; reflexivity). eexists. vm_compute. reflexivity. Qed.

(** The actions that the code of [ValidatePolicy] reaches.  It succeeds
    exactly when every action of [policyWalk] is accepted, and else returns
    an error; hence at these places it rejects a shell action when
    AllowShell is off, and a mux action whose name is not in the allowed
    set when passthrough is off.  With passthrough on, every mux action
    with a non-empty name is accepted, whatever the name. *)
Theorem validate_policy_gate (s : Spec) (pol : Policy) :
  (ValidatePolicy s pol = Ok tt <-> Forall (accepted pol) (policyWalk s))
  /\ (ValidatePolicy s pol = Ok tt \/ exists m, ValidatePolicy s pol = Err m)
  /\ (forall a, In a (policyWalk s) -> Action_Type a = "shell" ->
                AllowShell pol = false -> exists m, ValidatePolicy s pol = Err m)
  /\ (forall a t, In a (policyWalk s) -> Action_Type a = "tmux" ->
                  Action_Tmux a = Some t -> AllowTmuxPassthrough pol = false ->
                  walkAllowed pol (Strings.TrimSpace (Tmux_Name t)) = false ->
                  exists m, ValidatePolicy s pol = Err m)
  /\ (forall a t, Action_Type a = "tmux" -> Action_Tmux a = Some t ->
                  Strings.TrimSpace (Tmux_Name t) <> "" ->
                  AllowTmuxPassthrough pol = true -> accepted pol a).
Proof.
  assert (Hiff : ValidatePolicy s pol = Ok tt <-> Forall (accepted pol) (policyWalk s)).
  { rewrite ValidatePolicy_walk, forM__ok. apply Forall_iff. intros a.
    apply checkPolicy_accepted. }
  assert (Hres : ValidatePolicy s pol = Ok tt \/ exists m, ValidatePolicy s pol = Err m).
  { rewrite ValidatePolicy_walk.
    destruct (forM_ _ (policyWalk s)) as [[]|m|m] eqn:E; eauto.
    exfalso. revert E. apply forM__no_panic. intros a _ m' Hp.
    destruct (checkPolicy_result (normalizeAllowlist pol) a) as [H|[? H]]; congruence. }
  assert (Hrej : forall a, In a (policyWalk s) -> ~ accepted pol a ->
                           exists m, ValidatePolicy s pol = Err m).
  { intros a Hin Hna. destruct Hres as [Hok|?]; [|assumption].
    exfalso. apply Hna. apply Hiff in Hok. rewrite Forall_forall in Hok.
    apply Hok. now apply list_elem_of_In. }
  repeat split; try apply Hiff; try exact Hres.
  - intros a Hin Hty Hoff. apply (Hrej a Hin). intros [H _]. specialize (H Hty). congruence.
  - intros a t Hin Hty Ht Hoff Hna. apply (Hrej a Hin). intros [_ H].
    destruct (H Hty) as (t' & Ht' & _ & [Hp|Hp]); [congruence|].
    rewrite Ht in Ht'. inversion Ht'; subst. congruence.
  - intros Hty'. discriminate || (exfalso; congruence).
  - intros _. eauto.
Qed.

End ValidatePolicyFacts.

(** ** Concrete inputs shared by the examples *)

Module Fixtures.

Import templates.

(** A process with an empty environment. *)
Definition plainOS : OS :=
  {| Getenv := fun _ => ""; UserHomeDir := Some "/home/user"; Getwd := Some "/" |}.

Definition context (project session : string) : Context :=
  {| ProjectName := ""; ProjectPath := project; SessionName := session; WorkingDir := "";
     Env := None; TmuxSocket := "" |}.

Definition specAction (ty : string) : spec.Action :=
  {| spec.Action_Type := ty; spec.Action_Target := spec.zeroTarget;
     spec.Action_Tmux := None; spec.Action_Run := None; spec.Action_SendKeys := None;
     spec.Action_Shell := None; spec.Action_Sleep := None; spec.Action_Watch := None;
     spec.Action_WaitForPrompt := None; spec.Action_SshManagerConnect := None;
     spec.Action_IgnoreError := false; spec.Action_Comment := "" |}.

Definition runAction (program : string) (args : list string) : spec.Action :=
  spec.setRun (specAction "run")
    {| spec.Run_Program := program; spec.Run_Args := args; spec.Run_Enter := None |}.

Definition shellAction (cmd : string) : spec.Action :=
  spec.setShell (specAction "shell") {| spec.Shell_Cmd := cmd; spec.Shell_Shell := "" |}.

Definition tmuxAction (name : string) (args : list string) : spec.Action :=
  spec.setTmux (specAction "tmux") {| spec.Tmux_Name := name; spec.Tmux_Args := args |}.

Definition planPane (name : string) (focus : bool) (actions : list spec.Action)
  : spec.PanePlanStep :=
  {| spec.Step_Pane := Some {| spec.PlanPane_Name := name; spec.PlanPane_Root := "";
                               spec.PlanPane_Focus := focus;
                               spec.PlanPane_Actions := actions;
                               spec.PlanPane_Command := "" |};
     spec.Step_Split := None |}.

Definition planSplit (direction size : string) : spec.PanePlanStep :=
  {| spec.Step_Pane := None;
     spec.Step_Split := Some {| spec.Split_Direction := direction;
                                spec.Split_Size := size |} |}.

Definition window (name root : string) (plan : list spec.PanePlanStep) : spec.Window :=
  {| spec.Window_Name := name; spec.Window_Root := root; spec.Window_Layout := "";
     spec.Window_Focus := false; spec.Window_FocusPane := ""; spec.Window_Panes := [];
     spec.Window_PanePlan := plan; spec.Window_Actions := [] |}.

Definition zeroSession : spec.Session :=
  {| spec.Session_Name := ""; spec.Session_Prefix := ""; spec.Session_Root := "";
     spec.Session_Attach := None; spec.Session_SwitchClient := None;
     spec.Session_BaseIndex := None; spec.Session_PaneBaseIndex := None;
     spec.Session_FocusWindow := "" |}.

Definition mkSpec (windows : list spec.Window) (actions : list spec.Action) : spec.Spec :=
  {| spec.Spec_Version := 1; spec.Spec_Name := ""; spec.Spec_Description := "";
     spec.Spec_Session := zeroSession; spec.Spec_Env := None; spec.Spec_Windows := windows;
     spec.Spec_Actions := actions; spec.Spec_Meta := None |}.

(** The pane-plan fixture of the specification (section 8, item 6). *)
Definition panePlanFixture : spec.Spec :=
  mkSpec [window "editor" "/tmp/demo"
            [planPane "nvim" true [runAction "nvim" ["."]];
             planSplit "h" "50%";
             planPane "shell" false [runAction "bash" ["-l"]]]]
         [].

End Fixtures.

(** ** The pane-plan fixture *)

Module PanePlanFacts.

Import templates Fixtures.

(** C6.  The pane-plan fixture, lowered by [FromSpec] and compiled by
    [Compile] under the default policy for session demo and project path
    /tmp/demo, gives exactly the six stated argument vectors, in the
    stated order.  This holds in every process environment, for every
    other field of the context, and whatever the two policy switches. *)
Theorem pane_plan_fixture_commands
        (os : OS) (order : list (string * string))
        (projectName workingDir socket : string) (env : option (gmap string string))
        (allowShell allowTmuxPassthrough : bool) :
  let ctx := {| ProjectName := projectName; ProjectPath := "/tmp/demo";
                SessionName := "demo"; WorkingDir := workingDir; Env := env;
                TmuxSocket := socket |} in
  exists tpl compiled,
    FromSpec os order ctx panePlanFixture allowShell allowTmuxPassthrough false = Ok tpl
    /\ Compile os DefaultPolicy ctx tpl = Ok compiled
    /\ map Args (Commands compiled)
       = [ ["new-window"; "-t"; "demo"; "-n"; "editor"; "-c"; "/tmp/demo"];
           ["select-window"; "-t"; "demo:editor"];
           ["send-keys"; "-t"; "demo:editor"; "nvim ."; "C-m"];
           ["select-window"; "-t"; "demo:editor"];
           ["split-window"; "-h"; "-t"; "demo:editor"; "-c"; "/tmp/demo"; "-p"; "50"];
           ["send-keys"; "-t"; "demo:editor"; "bash -l"; "C-m"] ].
Proof.
  intros ctx. subst ctx.
  eexists. eexists. split; [vm_compute; reflexivity|].
  split; vm_compute; reflexivity.
Qed.

End PanePlanFacts.

(** ** The size guard of Compile *)

Module SizeGuardFacts.

Import templates Fixtures.

(** The sum of the bytes of the arguments of a command. *)
Definition argBytes (c : Command) : Z :=
  Z.of_nat (list_sum (map String.length (Args c))).

Lemma fold_commandLen (args : list string) (acc : Z) :
  fold_left (fun total a => (total + (Z.of_nat (String.length a) + 1))%Z) args acc
  = (acc + Z.of_nat (list_sum (map String.length args)) + Z.of_nat (List.length args))%Z.
Proof.
  revert acc. induction args as [|a args IH]; intros acc; simpl fold_left.
  - simpl. lia.
  - rewrite IH. cbn [map List.length].
    change (list_sum (String.length a :: map String.length args))
      with (String.length a + list_sum (map String.length args))%nat.
    lia.
Qed.

Lemma commandLen_bytes (c : Command) :
  commandLen c = (argBytes c + Z.of_nat (List.length (Args c)))%Z.
Proof. unfold commandLen, argBytes. rewrite fold_commandLen. lia. Qed.

Lemma checkCommandLen_ok (maxLen : Z) (c : Command) :
  checkCommandLen maxLen c = Ok tt <-> (commandLen c <= maxLen)%Z.
Proof.
  unfold checkCommandLen. destruct (Z.ltb_spec maxLen (commandLen c)); split;
    intros; try discriminate; try reflexivity; lia.
Qed.

Lemma checkCommandLen_result (maxLen : Z) (c : Command) :
  checkCommandLen maxLen c = Ok tt \/ exists m, checkCommandLen maxLen c = Err m.
Proof. unfold checkCommandLen. destruct (_ <? _)%Z; eauto. Qed.

(** Past its checks of the context and of the number of actions,
    [Compile] is the emission followed by the size loop. *)
Lemma Compile_after_checks (os : OS) (pol : Policy) (ctx : Context) (spec : Spec) :
  SessionName ctx <> "" -> ProjectPath ctx <> "" -> Actions spec <> [] ->
  (Z.of_nat (List.length (Actions spec)) <= effectiveMaxActions pol)%Z ->
  Compile os pol ctx spec
  = (out ← emit os pol (completeContext os ctx) (Actions spec) emptyCompiled;
     _ ← forM_ (checkCommandLen (effectiveMaxCommandLen pol)) (Commands out);
     Ok out).
Proof.
  intros Hs Hp Ha Hn. unfold Compile.
  destruct (String.eqb_spec (SessionName ctx) ""); [contradiction|].
  destruct (String.eqb_spec (ProjectPath ctx) ""); [contradiction|].
  destruct (Actions spec) as [|a l] eqn:E; [contradiction|].
  cbn [List.length Nat.eqb].
  destruct (Z.ltb_spec (effectiveMaxActions pol) (Z.of_nat (S (List.length l))));
    [cbn [List.length] in Hn; lia | reflexivity].
Qed.

Definition tightPolicy : Policy :=
  {| AllowShell := false; AllowTmuxPassthrough := false;
     AllowedTmuxCommands := None; DisallowTmuxCommands := None;
     MaxActions := 200; MaxCommandLen := 22 |}.

Definition selectW : Spec :=
  {| Version := 1; ID := ""; Spec_Name := "";
     Actions := [irTargeted ActionSelectWindow "" "w" ""]; Unsafe := false |}.

(** C8, as stated, fails: with MaxCommandLen = 22 the one emitted command
    (select-window, -t, demo:w) has 21 argument bytes, at most the limit,
    and Compile fails all the same: the loop counts one more per
    argument, 24 in all. *)
Lemma size_guard_counts_separators :
  exists out c,
    emit plainOS tightPolicy (completeContext plainOS (context "/tmp/demo" "demo"))
         (Actions selectW) emptyCompiled = Ok out
    /\ Commands out = [c]
    /\ Args c = ["select-window"; "-t"; "demo:w"]
    /\ argBytes c = 21%Z
    /\ (argBytes c <= effectiveMaxCommandLen tightPolicy)%Z
    /\ Compile plainOS tightPolicy (context "/tmp/demo" "demo") selectW
       = Err "compiled command too long".
Proof.
  eexists. eexists. split; [vm_compute; reflexivity|].
  split; [reflexivity|]. split; [reflexivity|].
  split; [vm_compute; reflexivity|].
  split; [vm_compute; discriminate | vm_compute; reflexivity].
Qed.

(** C8 (amended).  Once the emission has produced [out], Compile returns
    [out] when every emitted command has its argument bytes plus one per
    argument within MaxCommandLen, and fails with an error exactly when
    some emitted command exceeds it; a MaxCommandLen that is not positive
    counts as 4096, the default. *)
Theorem compile_size_guard (os : OS) (pol : Policy) (ctx : Context) (spec : Spec)
        (out : Compiled) :
  SessionName ctx <> "" -> ProjectPath ctx <> "" -> Actions spec <> [] ->
  (Z.of_nat (List.length (Actions spec)) <= effectiveMaxActions pol)%Z ->
  emit os pol (completeContext os ctx) (Actions spec) emptyCompiled = Ok out ->
  let limit := effectiveMaxCommandLen pol in
  let size := fun c => (argBytes c + Z.of_nat (List.length (Args c)))%Z in
  (Compile os pol ctx spec = Ok out
   <-> Forall (fun c => (size c <= limit)%Z) (Commands out))
  /\ ((exists m, Compile os pol ctx spec = Err m)
      <-> Exists (fun c => (limit < size c)%Z) (Commands out))
  /\ (forall r, Compile os pol ctx spec = Ok r -> r = out)
  /\ limit = (if (MaxCommandLen pol <=? 0)%Z then 4096%Z else MaxCommandLen pol)
  /\ MaxCommandLen DefaultPolicy = 4096%Z.
Proof.
  intros Hs Hp Ha Hn Hemit limit size. subst limit size.
  rewrite (Compile_after_checks os pol ctx spec Hs Hp Ha Hn), Hemit.
  change (Ok out ≫= ?k) with (k out). cbv beta.
  remember (forM_ (checkCommandLen (effectiveMaxCommandLen pol)) (Commands out))
    as chk eqn:Echk.
  assert (Hok : chk = Ok tt
                <-> Forall (fun c => (argBytes c + Z.of_nat (List.length (Args c))
                                      <= effectiveMaxCommandLen pol)%Z) (Commands out)).
  { rewrite Echk, forM__ok. apply Forall_iff. intros c.
    rewrite checkCommandLen_ok, commandLen_bytes. reflexivity. }
  assert (Hres : chk = Ok tt \/ exists m, chk = Err m).
  { destruct chk as [[]|m|m]; eauto.
    exfalso. symmetry in Echk. revert Echk. apply forM__no_panic. intros c _ m' Hc.
    destruct (checkCommandLen_result (effectiveMaxCommandLen pol) c) as [H|[? H]];
      congruence. }
  clear Echk.
  split; [|split; [|split; [|split]]].
  - rewrite <- Hok. destruct chk as [[]|m|m]; simpl;
      split; intros; try discriminate; reflexivity.
  - destruct Hres as [H|[m H]]; rewrite H; simpl; split.
    + intros [? ?]; discriminate.
    + intros Hex. exfalso. apply Hok in H. rewrite Forall_forall in H.
      apply Exists_exists in Hex as (c & Hc & Hlt). specialize (H c Hc). simpl in H. lia.
    + intros _.
      assert (Hn' : ~ Forall (fun c => (argBytes c + Z.of_nat (List.length (Args c))
                                       <= effectiveMaxCommandLen pol)%Z) (Commands out)).
      { intros HF. apply Hok in HF. congruence. }
      apply neg_Forall_Exists_neg in Hn'.
      * eapply Exists_impl; [exact Hn'|]. intros c Hc. simpl in Hc. lia.
      * intros c. destruct (Z_le_dec (argBytes c + Z.of_nat (List.length (Args c)))
                                     (effectiveMaxCommandLen pol)); auto.
    + eauto.
  - destruct chk as [[]|m|m]; simpl; intros r Hr; try discriminate. now inversion Hr.
  - reflexivity.
  - reflexivity.
Qed.

(** The theorem at the plan of the counterexample, under the default
    limit. *)
Lemma compile_size_guard_witness :
  Compile plainOS DefaultPolicy (context "/tmp/demo" "demo") selectW
  = Ok {| Commands := [command ["select-window"; "-t"; "demo:w"] "select window demo:w"];
          UnsafeUsed := false; Warnings := [] |}.
Proof.
  apply (compile_size_guard plainOS DefaultPolicy (context "/tmp/demo" "demo") selectW).
  - discriminate.
  - discriminate.
  - discriminate.
  - vm_compute. discriminate.
  - vm_compute. reflexivity.
  - repeat constructor. vm_compute. discriminate.
Defined.

End SizeGuardFacts.

(** ** Byte strings *)

Module StringFacts.

Lemma app_nil_r (s : string) : s +:+ "" = s.
Proof. induction s as [|c s IH]; simpl; [reflexivity | now rewrite IH]. Qed.

Lemma app_assoc (a b c : string) : (a +:+ b) +:+ c = a +:+ (b +:+ c).
Proof. induction a as [|x a IH]; simpl; [reflexivity | now rewrite IH]. Qed.

Lemma length_app (a b : string) :
  String.length (a +:+ b) = (String.length a + String.length b)%nat.
Proof. induction a as [|x a IH]; simpl; [reflexivity | now rewrite IH]. Qed.

Lemma take_app (a b : string) : Strings.take (String.length a) (a +:+ b) = a.
Proof. induction a as [|x a IH]; simpl; [now destruct b | now rewrite IH]. Qed.

Lemma eqb_empty_app (a b : string) : a <> "" -> (a +:+ b =? "") = false.
Proof. destruct a; [contradiction | reflexivity]. Qed.

Lemma prefix_app (a b : string) : String.prefix a (a +:+ b) = true.
Proof.
  induction a as [|x a IH]; [now destruct b|].
  change (String x a +:+ b) with (String x (a +:+ b)). cbn [String.prefix].
  destruct (ascii_dec x x); [exact IH | contradiction].
Qed.

End StringFacts.

(** ** Substitution *)

Module SubstFacts.

Import templates StringFacts.

(** A variable name: [[A-Za-z_][A-Za-z0-9_]*]. *)
Fixpoint allIdentChars (s : string) : bool :=
  match s with
  | "" => true
  | String c r => isIdentChar c && allIdentChars r
  end.

Definition isIdent (key : string) : bool :=
  match key with
  | "" => false
  | String c r => isIdentStart c && allIdentChars r
  end.

(** A default text: what the lazy group can hold, no closing brace and no
    line feed. *)
Fixpoint plainDefault (d : string) : bool :=
  match d with
  | "" => true
  | String c r => negb (c =? "}")%char && negb (c =? "010")%char && plainDefault r
  end.

(** The two shapes of a reference. *)
Definition varRef (key : string) : string := "${" +:+ key +:+ "}".
Definition varRefDefault (key def : string) : string := "${" +:+ key +:+ ":-" +:+ def +:+ "}".

(** [s] begins with a reference. *)
Definition startsWithRef (s : string) : Prop :=
  (exists key rest, isIdent key = true /\ s = varRef key +:+ rest)
  \/ (exists key def rest,
         isIdent key = true /\ plainDefault def = true
         /\ s = varRefDefault key def +:+ rest).

Definition headNot (p : ascii -> bool) (s : string) : Prop :=
  match s with
  | "" => True
  | String c _ => p c = false
  end.

Lemma span_app (tail after : string) :
  allIdentChars tail = true -> headNot isIdentChar after ->
  span isIdentChar (tail +:+ after) = (tail, after).
Proof.
  induction tail as [|c tail IH]; simpl; intros Ht Ha.
  - destruct after as [|x after]; [reflexivity|]. simpl in *. now rewrite Ha.
  - apply andb_true_iff in Ht as [Hc Ht]. rewrite Hc, (IH Ht Ha). reflexivity.
Qed.

Lemma span_spec (s a b : string) :
  span isIdentChar s = (a, b) ->
  s = a +:+ b /\ allIdentChars a = true /\ headNot isIdentChar b.
Proof.
  revert a b. induction s as [|c s IH]; simpl; intros a b H.
  - inversion H; subst. simpl. auto.
  - destruct (isIdentChar c) eqn:Ec.
    + destruct (span isIdentChar s) as [a' b'] eqn:Es. inversion H; subst.
      destruct (IH a' b eq_refl) as (-> & Ha & Hb). simpl. rewrite Ec, Ha. auto.
    + inversion H; subst. simpl. auto.
Qed.

Lemma untilClose_app (def rest : string) :
  plainDefault def = true -> untilClose (def +:+ String "}" rest) = Some (def, rest).
Proof.
  induction def as [|c def IH]; simpl; intros H; [reflexivity|].
  apply andb_true_iff in H as [H Hd]. apply andb_true_iff in H as [H1 H2].
  apply negb_true_iff in H1, H2. rewrite H1, H2, (IH Hd). reflexivity.
Qed.

Lemma untilClose_spec (s d rest : string) :
  untilClose s = Some (d, rest) -> s = d +:+ String "}" rest /\ plainDefault d = true.
Proof.
  revert d. induction s as [|c s IH]; simpl; intros d H; [discriminate|].
  destruct (Ascii.eqb_spec c "}") as [->|Hc].
  - inversion H; subst. auto.
  - destruct (Ascii.eqb_spec c "010") as [->|Hn]; [discriminate|].
    destruct (untilClose s) as [[d' r']|] eqn:E; [|discriminate].
    inversion H; subst. destruct (IH d' eq_refl) as [-> Hp]. simpl.
    rewrite Hp. split; [reflexivity|].
    apply Ascii.eqb_neq in Hc, Hn. now rewrite Hc, Hn.
Qed.

Lemma matchVar_ref (key rest : string) :
  isIdent key = true -> matchVar (varRef key +:+ rest) = Some (key, "", rest).
Proof.
  destruct key as [|c tail]; [discriminate|]. intros H.
  apply andb_true_iff in H as [Hc Ht]. unfold varRef. simpl.
  rewrite Hc, app_assoc, (span_app tail ("}" +:+ rest) Ht); reflexivity.
Qed.

Lemma matchVar_refDefault (key def rest : string) :
  isIdent key = true -> plainDefault def = true ->
  matchVar (varRefDefault key def +:+ rest) = Some (key, def, rest).
Proof.
  destruct key as [|c tail]; [discriminate|]. intros H Hd.
  apply andb_true_iff in H as [Hc Ht].
  assert (E : varRefDefault (String c tail) def +:+ rest
              = String "$" (String "{" (String c
                  (tail +:+ String ":" (String "-" (def +:+ String "}" rest)))))).
  { unfold varRefDefault. simpl. rewrite !app_assoc. simpl. rewrite !app_assoc.
    reflexivity. }
  rewrite E. simpl. rewrite Hc, (span_app tail _ Ht); [|reflexivity].
  now rewrite (untilClose_app def rest Hd).
Qed.

Lemma matchVar_spec (s key def rest : string) :
  matchVar s = Some (key, def, rest) ->
  isIdent key = true /\ plainDefault def = true
  /\ ((def = "" /\ s = varRef key +:+ rest) \/ s = varRefDefault key def +:+ rest).
Proof.
  unfold matchVar.
  destruct s as [|c0 s]; [discriminate|].
  destruct (Ascii.eqb_spec c0 "$") as [->|H0];
    [|destruct c0 as [[] [] [] [] [] [] [] []]; try discriminate; now contradiction H0].
  destruct s as [|c1 s]; [discriminate|].
  destruct (Ascii.eqb_spec c1 "{") as [->|H1];
    [|destruct c1 as [[] [] [] [] [] [] [] []]; try discriminate; now contradiction H1].
  destruct s as [|c s]; [discriminate|].
  destruct (isIdentStart c) eqn:Ec; [|discriminate].
  destruct (span isIdentChar s) as [tail after] eqn:Es.
  destruct (span_spec s tail after Es) as (-> & Ht & _).
  destruct after as [|x after]; [discriminate|].
  destruct (Ascii.eqb_spec x "}") as [->|Hx].
  - intros H. inversion H; subst. simpl. rewrite Ec, Ht.
    repeat split. left. split; [reflexivity|].
    unfold varRef. simpl. now rewrite app_assoc.
  - destruct (Ascii.eqb_spec x ":") as [->|Hy];
      [|destruct x as [[] [] [] [] [] [] [] []]; try discriminate;
        first [now contradiction Hx | now contradiction Hy]].
    destruct after as [|y after]; [discriminate|].
    destruct (Ascii.eqb_spec y "-") as [->|Hz];
      [|destruct y as [[] [] [] [] [] [] [] []]; try discriminate; now contradiction Hz].
    destruct (untilClose after) as [[d r]|] eqn:Eu; [|discriminate].
    intros H. inversion H; subst.
    destruct (untilClose_spec after def rest Eu) as [-> Hp]. simpl. rewrite Ec, Ht.
    repeat split; [exact Hp|]. right. unfold varRefDefault. simpl.
    rewrite !app_assoc. simpl. rewrite !app_assoc. reflexivity.
Qed.

Lemma startsWithRef_matchVar (s : string) :
  startsWithRef s <-> exists key def rest, matchVar s = Some (key, def, rest).
Proof.
  split.
  - intros [(key & rest & Hk & ->)|(key & def & rest & Hk & Hd & ->)].
    + exists key, "", rest. now apply matchVar_ref.
    + exists key, def, rest. now apply matchVar_refDefault.
  - intros (key & def & rest & H).
    destruct (matchVar_spec s key def rest H) as (Hk & Hd & [[_ ->]| ->]).
    + left. eauto.
    + right. exists key, def, rest. auto.
Qed.


(** *** The scan *)

Lemma replaceAllVars_skip (f : string -> string) (m rest : string) :
  replaceAllVars f (m +:+ rest) (String.length m) = replaceAllVars f rest 0.
Proof. induction m as [|c m IH]; simpl; [reflexivity | exact IH]. Qed.

Lemma replaceAllVars_match (f : string -> string) (m rest key def : string) :
  m <> "" -> matchVar (m +:+ rest) = Some (key, def, rest) ->
  replaceAllVars f (m +:+ rest) 0 = f m +:+ replaceAllVars f rest 0.
Proof.
  intros Hm H. destruct m as [|c m]; [contradiction|].
  change (String c m +:+ rest) with (String c (m +:+ rest)) in *.
  cbn [replaceAllVars]. rewrite H.
  assert (Hn : (String.length (String c (m +:+ rest)) - String.length rest)%nat
               = S (String.length m)).
  { cbn [String.length]. rewrite length_app. lia. }
  rewrite Hn. cbn [Strings.take]. rewrite take_app.
  replace (S (String.length m) - 1)%nat with (String.length m) by lia.
  now rewrite replaceAllVars_skip.
Qed.

Lemma replaceAllVars_ext (f g : string -> string) (s : string) (skip : nat) :
  (forall m, f m = g m) -> replaceAllVars f s skip = replaceAllVars g s skip.
Proof.
  intros H. revert skip. induction s as [|c s IH]; intros skip; [reflexivity|].
  cbn [replaceAllVars]. destruct skip as [|k]; [|apply IH].
  destruct (matchVar (String c s)) as [[[? ?] ?]|]; [rewrite H|]; now rewrite IH.
Qed.

(** The callback of [expandVars]. *)
Definition repl (lookup : string -> string -> string) (m : string) : string :=
  match FindStringSubmatch m with
  | Some (key, def) => lookup key def
  | None => m
  end.

Lemma expandVars_scan (s : string) (lookup : string -> string -> string) :
  expandVars s lookup = replaceAllVars (repl lookup) s 0.
Proof. unfold expandVars. destruct s; reflexivity. Qed.

Lemma FindStringSubmatch_of_match (m key def : string) :
  matchVar m = Some (key, def, "") -> FindStringSubmatch m = Some (key, def).
Proof.
  intros H. destruct m; [discriminate|]. cbn [FindStringSubmatch]. now rewrite H.
Qed.

Lemma repl_ref (lookup : string -> string -> string) (key : string) :
  isIdent key = true -> repl lookup (varRef key) = lookup key "".
Proof.
  intros H. unfold repl. erewrite FindStringSubmatch_of_match; [reflexivity|].
  rewrite <- (app_nil_r (varRef key)). now apply matchVar_ref.
Qed.

Lemma repl_refDefault (lookup : string -> string -> string) (key def : string) :
  isIdent key = true -> plainDefault def = true ->
  repl lookup (varRefDefault key def) = lookup key def.
Proof.
  intros H Hd. unfold repl. erewrite FindStringSubmatch_of_match; [reflexivity|].
  rewrite <- (app_nil_r (varRefDefault key def)). now apply matchVar_refDefault.
Qed.

Lemma expandVars_ref (lookup : string -> string -> string) (key rest : string) :
  isIdent key = true ->
  expandVars (varRef key +:+ rest) lookup = lookup key "" +:+ expandVars rest lookup.
Proof.
  intros H. rewrite !expandVars_scan.
  rewrite (replaceAllVars_match _ (varRef key) rest key "");
    [now rewrite repl_ref | discriminate | now apply matchVar_ref].
Qed.

Lemma expandVars_refDefault (lookup : string -> string -> string) (key def rest : string) :
  isIdent key = true -> plainDefault def = true ->
  expandVars (varRefDefault key def +:+ rest) lookup
  = lookup key def +:+ expandVars rest lookup.
Proof.
  intros H Hd. rewrite !expandVars_scan.
  rewrite (replaceAllVars_match _ (varRefDefault key def) rest key def);
    [now rewrite repl_refDefault | discriminate | now apply matchVar_refDefault].
Qed.

Lemma expandVars_other (lookup : string -> string -> string) (c : ascii) (rest : string) :
  ~ startsWithRef (String c rest) ->
  expandVars (String c rest) lookup = String c (expandVars rest lookup).
Proof.
  intros H. rewrite !expandVars_scan. cbn [replaceAllVars].
  destruct (matchVar (String c rest)) as [[[key def] r]|] eqn:E; [|reflexivity].
  exfalso. apply H. apply startsWithRef_matchVar. eauto.
Qed.

End SubstFacts.

(** ** The contract of subst *)

Module SubstContract.

Import templates StringFacts SubstFacts Fixtures.

(** The first source with a value, in the order given; the default when
    none has one. *)
Fixpoint firstAvailable (sources : list string) (def : string) : string :=
  match sources with
  | [] => def
  | v :: rest => if v =? "" then firstAvailable rest def else v
  end.

Definition builtinValue (ctx : Context) (key : string) : string :=
  if key =? "PROJECT_NAME" then ProjectName ctx
  else if key =? "PROJECT_PATH" then ProjectPath ctx
  else if key =? "SESSION_NAME" then SessionName ctx
  else if key =? "TMUX_SOCK" then TmuxSocket ctx
  else "".

(** [ctx.Env[key]], the empty string when the key is absent. *)
Definition envValue (ctx : Context) (key : string) : string :=
  match Env ctx with
  | Some m => match m !! key with Some v => v | None => "" end
  | None => ""
  end.

(** The value of a reference: built-ins, then the spec env, then the
    process environment, then the default text. *)
Definition valueOf (os : OS) (ctx : Context) (key def : string) : string :=
  firstAvailable [builtinValue ctx key; envValue ctx key; Getenv os key] def.

Lemma nonEmpty_case (v : string) :
  nonEmpty v = if v =? "" then None else Some v.
Proof. reflexivity. Qed.

Lemma substLookup_valueOf (os : OS) (ctx : Context) (key def : string) :
  substLookup os ctx key def = valueOf os ctx key def.
Proof.
  unfold substLookup, valueOf, firstAvailable.
  assert (Hb : builtin ctx key = nonEmpty (builtinValue ctx key)).
  { unfold builtin, builtinValue.
    repeat match goal with |- context [if ?b then _ else _] => destruct b end;
      reflexivity. }
  assert (He : envEntry ctx key = nonEmpty (envValue ctx key)).
  { unfold envEntry, envValue. destruct (Env ctx) as [m|]; [|reflexivity].
    destruct (m !! key); reflexivity. }
  rewrite Hb, He, !nonEmpty_case.
  destruct (builtinValue ctx key =? ""); [|reflexivity].
  destruct (envValue ctx key =? ""); [|reflexivity].
  destruct (Getenv os key =? ""); reflexivity.
Qed.

(** C4.  [subst] is the left-to-right scan that replaces every reference
    [${KEY}] or [${KEY:-default}] (KEY a name, the default text running up
    to the first closing brace, without a line feed) by its value and
    copies every other byte: the value is the first non-empty one among
    the built-in for KEY, the entry of ctx.Env, the process environment,
    and else the default text, which is empty for a reference without
    one. *)
Theorem subst_contract (os : OS) (ctx : Context) :
  subst os ctx "" = ""
  /\ (forall key rest,
         isIdent key = true ->
         subst os ctx (varRef key +:+ rest)
         = valueOf os ctx key "" +:+ subst os ctx rest)
  /\ (forall key def rest,
         isIdent key = true -> plainDefault def = true ->
         subst os ctx (varRefDefault key def +:+ rest)
         = valueOf os ctx key def +:+ subst os ctx rest)
  /\ (forall c rest,
         ~ startsWithRef (String c rest) ->
         subst os ctx (String c rest) = String c (subst os ctx rest))
  /\ (forall key def,
         valueOf os ctx key def
         = if negb (builtinValue ctx key =? "") then builtinValue ctx key
           else if negb (envValue ctx key =? "") then envValue ctx key
           else if negb (Getenv os key =? "") then Getenv os key
           else def).
Proof.
  unfold subst. repeat split.
  - intros key rest Hk. rewrite (expandVars_ref _ key rest Hk).
    now rewrite substLookup_valueOf.
  - intros key def rest Hk Hd. rewrite (expandVars_refDefault _ key def rest Hk Hd).
    now rewrite substLookup_valueOf.
  - intros c rest Hn. now apply expandVars_other.
  - intros key def. unfold valueOf, firstAvailable.
    destruct (builtinValue ctx key =? ""); [|reflexivity].
    destruct (envValue ctx key =? ""); [|reflexivity].
    destruct (Getenv os key =? ""); reflexivity.
Qed.

(** The substitution laws of the specification (section 8, item 4), as
    instances. *)
Example subst_project_name :
  subst plainOS
        {| ProjectName := "demo"; ProjectPath := "/tmp/demo"; SessionName := "s";
           WorkingDir := ""; Env := None; TmuxSocket := "" |}
        "x/${PROJECT_NAME}/y" = "x/demo/y".
Proof. vm_compute. reflexivity. Qed.

Example subst_fallback :
  subst plainOS (context "/tmp/demo" "s") "${X:-fallback}" = "fallback".
Proof. vm_compute. reflexivity. Qed.

Lemma subst_no_reference (os : OS) (ctx : Context) (s : string) :
  Strings.Contains s "${" = false -> subst os ctx s = s.
Proof.
  unfold subst. rewrite expandVars_scan.
  induction s as [|c s IH]; [reflexivity|]. intros H.
  cbn [Strings.Contains] in H. apply orb_false_iff in H as [Hp Hs].
  cbn [replaceAllVars].
  destruct (matchVar (String c s)) as [[[key def] rest]|] eqn:E.
  - exfalso.
    assert (Ht : String.prefix "${" (String c s) = true)
      by (destruct (matchVar_spec _ _ _ _ E) as (_ & _ & [[_ ->]| ->]);
          unfold varRef, varRefDefault; rewrite app_assoc; apply prefix_app).
    congruence.
  - now rewrite (IH Hs).
Qed.

End SubstContract.

(** ** A variable bound to the empty string *)

Module EmptyBindingFacts.

Import templates StringFacts SubstFacts SubstContract Fixtures.

Definition withEnv (ctx : Context) (env : option (gmap string string)) : Context :=
  {| ProjectName := ProjectName ctx; ProjectPath := ProjectPath ctx;
     SessionName := SessionName ctx; WorkingDir := WorkingDir ctx; Env := env;
     TmuxSocket := TmuxSocket ctx |}.

(** [subst] reads the map only through the lookups of [envEntry]. *)
Lemma subst_env_ext (os : OS) (ctx : Context) (env : option (gmap string string))
      (s : string) :
  (forall key, envEntry ctx key = envEntry (withEnv ctx env) key) ->
  subst os ctx s = subst os (withEnv ctx env) s.
Proof.
  intros H. unfold subst. rewrite !expandVars_scan. apply replaceAllVars_ext.
  intros m. unfold repl. destruct (FindStringSubmatch m) as [[key def]|]; [|reflexivity].
  unfold substLookup. rewrite <- H. reflexivity.
Qed.

Lemma subst_single_ref (os : OS) (ctx : Context) (key : string) :
  isIdent key = true -> subst os ctx (varRef key) = valueOf os ctx key "".
Proof.
  intros Hk. destruct (subst_contract os ctx) as (H0 & Href & _).
  rewrite <- (app_nil_r (varRef key)), (Href key "" Hk), H0. apply app_nil_r.
Qed.

Lemma subst_single_refDefault (os : OS) (ctx : Context) (key def : string) :
  isIdent key = true -> plainDefault def = true ->
  subst os ctx (varRefDefault key def) = valueOf os ctx key def.
Proof.
  intros Hk Hd. destruct (subst_contract os ctx) as (H0 & _ & Href & _).
  rewrite <- (app_nil_r (varRefDefault key def)), (Href key def "" Hk Hd), H0.
  apply app_nil_r.
Qed.

(** C10.  Let K be a variable name with no non-empty built-in value,
    whose entry in ctx.Env is absent or the empty string.  Then the lookup
    falls through to the process environment: when that has no non-empty
    value either (unset and empty are the same to [Getenv]), [${K}] gives
    the empty string and [${K:-d}] gives d; when it has one, both give it,
    so that an empty Env entry does not shadow it.  And an Env entry bound
    to the empty string is the same as no entry, for every input
    string. *)
Theorem empty_binding_is_unset (os : OS) (ctx : Context) (K : string) :
  isIdent K = true -> builtinValue ctx K = "" -> envValue ctx K = "" ->
  (forall d, plainDefault d = true -> Getenv os K = "" ->
             subst os ctx (varRef K) = "" /\ subst os ctx (varRefDefault K d) = d)
  /\ (forall d, plainDefault d = true -> Getenv os K <> "" ->
                subst os ctx (varRef K) = Getenv os K
                /\ subst os ctx (varRefDefault K d) = Getenv os K)
  /\ (forall m s, Env ctx = Some m -> m !! K = Some "" ->
                  subst os ctx s = subst os (withEnv ctx (Some (delete K m))) s).
Proof.
  intros Hk Hb He.
  assert (Hv : forall def, valueOf os ctx K def
                           = if Getenv os K =? "" then def else Getenv os K).
  { intros def. unfold valueOf, firstAvailable. rewrite Hb, He. reflexivity. }
  split; [|split].
  - intros d Hd Hg. rewrite (subst_single_ref os ctx K Hk),
      (subst_single_refDefault os ctx K d Hk Hd), !Hv, Hg. auto.
  - intros d Hd Hg. rewrite (subst_single_ref os ctx K Hk),
      (subst_single_refDefault os ctx K d Hk Hd), !Hv.
    apply String.eqb_neq in Hg. rewrite Hg. auto.
  - intros m s Hm HK. apply subst_env_ext. intros key.
    unfold envEntry, withEnv. cbn [Env]. rewrite Hm.
    destruct (decide (K = key)) as [<-|Hne].
    + rewrite HK, lookup_delete_eq. reflexivity.
    + now rewrite lookup_delete_ne.
Qed.

Definition emptyBound : Context :=
  {| ProjectName := "demo"; ProjectPath := "/tmp/demo"; SessionName := "demo";
     WorkingDir := ""; Env := Some {[ "EDITOR" := "" ]}; TmuxSocket := "" |}.

Definition editorOS : OS :=
  {| Getenv := fun k => if k =? "EDITOR" then "vi" else "";
     UserHomeDir := Some "/home/user"; Getwd := Some "/" |}.

(** The theorem at the key EDITOR, bound to the empty string in ctx.Env
    and to vi in the process environment. *)
Lemma empty_binding_is_unset_witness :
  subst editorOS emptyBound "${EDITOR}" = "vi"
  /\ subst editorOS emptyBound "${EDITOR:-nano}" = "vi".
Proof.
  destruct (empty_binding_is_unset editorOS emptyBound "EDITOR")
    as (_ & H & _); try (vm_compute; reflexivity).
  apply (H "nano"); [reflexivity | vm_compute; discriminate].
Defined.

End EmptyBindingFacts.

(** ** Outcomes of the loops of the validator and of Stage A *)

Module LoopFacts.

Lemma traverse_ok {A B : Type} (f : A -> result B) (xs : list A) (ys : list B) :
  traverse f xs = Ok ys -> Forall2 (fun x y => f x = Ok y) xs ys.
Proof.
  revert ys. induction xs as [|x xs IH]; intros ys H; simpl in H.
  - inversion H. constructor.
  - destruct (f x) as [y| |] eqn:E; simpl in H; try discriminate.
    destruct (traverse f xs) as [ys'| |]; simpl in H; try discriminate.
    inversion H; subst. constructor; auto.
Qed.

Lemma traverse_no_panic {A B : Type} (f : A -> result B) (xs : list A) :
  (forall x m, f x <> Panic m) -> forall m, traverse f xs <> Panic m.
Proof.
  intros Hf. induction xs as [|x xs IH]; intros m; simpl; [discriminate|].
  destruct (f x) as [y| |] eqn:E; simpl; try discriminate.
  - destruct (traverse f xs) as [ys| |] eqn:E'; simpl; try discriminate.
    exfalso. eapply IH; eauto.
  - exfalso. eapply Hf; eauto.
Qed.

(** A value that is [Ok] or [Err]. *)
Definition settled {A : Type} (r : result A) : Prop := forall m, r <> Panic m.

Lemma settled_cases {A : Type} (r : result A) :
  settled r -> (exists a, r = Ok a) \/ (exists m, r = Err m).
Proof. destruct r as [a|m|m]; intros H; eauto. exfalso. eapply H; eauto. Qed.

Lemma settled_bind {A B : Type} (r : result A) (k : A -> result B) :
  settled r -> (forall a, r = Ok a -> settled (k a)) -> settled (r ≫= k).
Proof.
  intros Hr Hk. destruct r as [a|m|m]; simpl.
  - now apply Hk.
  - discriminate.
  - exfalso. eapply Hr; eauto.
Qed.

Lemma settled_ok {A : Type} (a : A) : settled (Ok a).
Proof. discriminate. Qed.

Lemma settled_err {A : Type} (m : string) : settled (@Err A m).
Proof. discriminate. Qed.

Lemma settled_traverse {A B : Type} (f : A -> result B) (xs : list A) :
  (forall x, settled (f x)) -> settled (traverse f xs).
Proof. intros H m. apply traverse_no_panic. intros x m'. apply H. Qed.

Lemma settled_forM_ {A : Type} (f : A -> result unit) (xs : list A) :
  (forall x, settled (f x)) -> settled (forM_ f xs).
Proof. intros H m. apply forM__no_panic. intros x _ m'. apply H. Qed.

End LoopFacts.

(** Closes a goal [settled e] where [e] is built from conditionals, matches
    on options and lists, and binds. *)
Ltac settle :=
  repeat first
    [ apply LoopFacts.settled_ok
    | apply LoopFacts.settled_err
    | apply LoopFacts.settled_bind; [|intros ? _]
    | match goal with
      | |- LoopFacts.settled (if ?b then _ else _) => destruct b
      | |- LoopFacts.settled (match ?o with Some _ => _ | None => _ end) => destruct o
      | |- LoopFacts.settled (match ?l with [] => _ | _ :: _ => _ end) => destruct l
      | |- LoopFacts.settled (let '(_, _) := ?p in _) => destruct p
      end ].

(** ** The validator *)

Module ValidateFacts.

Import spec LoopFacts.

Lemma validateAction_settled (a : Action) : settled (validateAction a).
Proof. unfold validateAction. settle. Qed.

Lemma validatePanePlan_settled (steps : list PanePlanStep) : settled (validatePanePlan steps).
Proof.
  unfold validatePanePlan. destruct steps as [|first rest]; [apply settled_ok|].
  destruct (_ || _); [apply settled_err|].
  apply settled_bind.
  - apply settled_forM_. intros x. unfold validatePlanStepShape. settle.
  - intros _ _. settle.
Qed.

Lemma validateWindow_settled (w : Window) : settled (validateWindow w).
Proof.
  unfold validateWindow. destruct (_ =? _); [apply settled_err|].
  destruct (_ && _); [apply settled_err|].
  apply settled_bind.
  - destruct (Window_PanePlan w) as [|st steps]; [apply settled_ok|].
    apply settled_bind; [apply validatePanePlan_settled|]. intros _ _.
    apply settled_traverse. intros step. unfold validatePlanStep.
    destruct (Step_Pane step); [|apply settled_ok].
    apply settled_bind; [|intros; apply settled_ok].
    apply settled_traverse, validateAction_settled.
  - intros plan _. apply settled_bind.
    + apply settled_traverse. intros p. unfold validatePane.
      apply settled_bind; [|intros; apply settled_ok].
      apply settled_traverse, validateAction_settled.
    + intros panes _. apply settled_bind; [|intros; apply settled_ok].
      apply settled_traverse, validateAction_settled.
Qed.

Lemma Validate_settled (s : Spec) : settled (Validate s).
Proof.
  unfold Validate. destruct (negb _); [apply settled_err|].
  destruct (_ && _); [apply settled_err|].
  apply settled_bind; [apply settled_traverse, validateWindow_settled|]. intros ws _.
  apply settled_bind; [apply settled_traverse, validateAction_settled|]. intros acts _.
  apply settled_bind.
  - destruct (_ =? _); [apply settled_ok|]. unfold ValidateTmuxName. settle.
  - intros _ _. apply settled_bind; [|intros; apply settled_ok].
    unfold validateFocusWindow, ValidateTmuxName. settle.
Qed.

(** What [Validate] leaves untouched, and where its lists come from. *)
Lemma Validate_ok (s0 s : Spec) :
  Validate s0 = Ok s ->
  Session_Name (Spec_Session s) = Session_Name (Spec_Session s0)
  /\ Session_Prefix (Spec_Session s) = Session_Prefix (Spec_Session s0)
  /\ Session_Root (Spec_Session s) = Session_Root (Spec_Session s0)
  /\ Spec_Env s = Spec_Env s0
  /\ traverse validateWindow (Spec_Windows s0) = Ok (Spec_Windows s)
  /\ traverse validateAction (Spec_Actions s0) = Ok (Spec_Actions s).
Proof.
  unfold Validate. destruct (negb _); [discriminate|].
  destruct (_ && _); [discriminate|].
  destruct (traverse validateWindow _) as [ws| |]; simpl; try discriminate.
  destruct (traverse validateAction _) as [acts| |]; simpl; try discriminate.
  destruct (if _ =? _ then _ else _) as [[]| |]; simpl; try discriminate.
  destruct (validateFocusWindow _) as [fw| |]; simpl; try discriminate.
  intros H. inversion H; subst. simpl. auto 10.
Qed.

End ValidateFacts.

(** ** Stage A: which actions are lowered, and when lowering succeeds *)

Module StageAFacts.

Import templates LoopFacts.

Lemma convertSingleAction_settled (n : string) (a : spec.Action) (pol : spec.Policy)
      (dis : option (gmap string bool)) :
  settled (convertSingleAction n a pol dis).
Proof. unfold convertSingleAction. settle. Qed.

(** [a] is lowered with success. *)
Definition lowers (n : string) (pol : spec.Policy) (dis : option (gmap string bool))
           (a : spec.Action) : Prop :=
  exists r, convertSingleAction n a pol dis = Ok r.

Lemma convertActions_ok (n : string) (acts : list spec.Action) (pol : spec.Policy)
      (dis : option (gmap string bool)) :
  (exists r, convertActions n acts pol dis = Ok r) <-> Forall (lowers n pol dis) acts.
Proof.
  induction acts as [|a acts IH]; simpl.
  - split; [constructor | eauto].
  - split.
    + intros [r H].
      destruct (convertSingleAction n a pol dis) as [[act u]| |] eqn:E; try discriminate.
      simpl in H.
      destruct (convertActions n acts pol dis) as [[out u']| |] eqn:E'; try discriminate.
      constructor; [red; eauto | apply IH; eauto].
    + intros H. inversion H as [|? ? [[act u] Ha] Hr]; subst.
      apply IH in Hr as [[out u'] Hr]. rewrite Ha. simpl. rewrite Hr. simpl. eauto.
Qed.

Lemma convertActions_settled (n : string) (acts : list spec.Action) (pol : spec.Policy)
      (dis : option (gmap string bool)) :
  settled (convertActions n acts pol dis).
Proof.
  induction acts as [|a acts IH]; simpl; [apply settled_ok|].
  apply settled_bind; [apply convertSingleAction_settled|]. intros [act u] _.
  apply settled_bind; [exact IH|]. intros [out u'] _. apply settled_ok.
Qed.

Lemma convertPaneActions_ok (n w : string) (acts : list spec.Action) (pol : spec.Policy)
      (dis : option (gmap string bool)) :
  (exists r, convertPaneActions n w acts pol dis = Ok r) <-> Forall (lowers n pol dis) acts.
Proof.
  unfold convertPaneActions. destruct acts as [|a acts].
  - split; [constructor | eauto].
  - rewrite <- convertActions_ok.
    destruct (convertActions n (a :: acts) pol dis) as [[out u]| |]; simpl;
      split; intros [r H]; try discriminate; eauto.
Qed.

Lemma convertPaneActions_settled (n w : string) (acts : list spec.Action)
      (pol : spec.Policy) (dis : option (gmap string bool)) :
  settled (convertPaneActions n w acts pol dis).
Proof.
  unfold convertPaneActions. destruct acts; [apply settled_ok|].
  apply settled_bind; [apply convertActions_settled|]. intros [? ?] _. apply settled_ok.
Qed.

(** The actions of a pane-plan step. *)
Definition stepActions (step : spec.PanePlanStep) : list spec.Action :=
  match spec.Step_Pane step with
  | Some p => spec.PlanPane_Actions p
  | None => []
  end.

(** The actions of a window that the windows representation lowers: its
    own, then those of its pane plan or, without a plan, of its legacy
    panes. *)
Definition windowLowered (w : spec.Window) : list spec.Action :=
  spec.Window_Actions w
    ++ match spec.Window_PanePlan w with
       | _ :: _ => flat_map stepActions (spec.Window_PanePlan w)
       | [] => flat_map spec.Pane_Actions (spec.Window_Panes w)
       end.

Section Lowering.

Variable os : OS.
Variables (ctx : Context) (n : string) (pol : spec.Policy)
          (dis : option (gmap string bool)).

Lemma convertPlanStep_settled (w : spec.Window) (winRoot : string) (first : bool)
      (step : spec.PanePlanStep) :
  settled (convertPlanStep os ctx n w winRoot pol dis first step).
Proof.
  unfold convertPlanStep. destruct (spec.Step_Pane step).
  - apply settled_bind; [apply convertPaneActions_settled|]. intros [? ?] _.
    apply settled_ok.
  - settle.
Qed.

Lemma convertPlanStep_lowers (w : spec.Window) (winRoot : string) (first : bool)
      (step : spec.PanePlanStep) r :
  convertPlanStep os ctx n w winRoot pol dis first step = Ok r ->
  Forall (lowers n pol dis) (stepActions step).
Proof.
  unfold convertPlanStep, stepActions. destruct (spec.Step_Pane step) as [p|].
  - intros H. apply (convertPaneActions_ok n (spec.Window_Name w)).
    destruct (convertPaneActions _ _ _ _ _) as [[acts u]| |]; try discriminate. eauto.
  - intros _. constructor.
Qed.

Lemma convertPlanSteps_lowers (w : spec.Window) (winRoot : string)
      (steps : list spec.PanePlanStep) (first : bool) r :
  convertPlanSteps os ctx n w winRoot pol dis first steps = Ok r ->
  Forall (lowers n pol dis) (flat_map stepActions steps).
Proof.
  revert first r. induction steps as [|step steps IH]; intros first r H; simpl.
  - constructor.
  - simpl in H.
    destruct (convertPlanStep _ _ _ _ _ _ _ _ _) as [[acts u]| |] eqn:E; try discriminate.
    simpl in H.
    destruct (convertPlanSteps _ _ _ _ _ _ _ _ _) as [[out u']| |] eqn:E';
      try discriminate.
    apply Forall_app. split; [eapply convertPlanStep_lowers; eauto | eapply IH; eauto].
Qed.

Lemma convertPlanSteps_settled (w : spec.Window) (winRoot : string)
      (steps : list spec.PanePlanStep) (first : bool) :
  settled (convertPlanSteps os ctx n w winRoot pol dis first steps).
Proof.
  revert first. induction steps as [|step steps IH]; intros first; simpl;
    [apply settled_ok|].
  apply settled_bind; [apply convertPlanStep_settled|]. intros [? ?] _.
  apply settled_bind; [apply IH|]. intros [? ?] _. apply settled_ok.
Qed.

Lemma convertPane_settled (w : spec.Window) (winRoot : string) (first : bool)
      (p : spec.Pane) :
  settled (convertPane os ctx n w winRoot pol dis first p).
Proof.
  unfold convertPane. apply settled_bind; [apply convertPaneActions_settled|].
  intros [? ?] _. apply settled_ok.
Qed.

Lemma convertPanes_lowers (w : spec.Window) (winRoot : string) (panes : list spec.Pane)
      (first : bool) r :
  convertPanes os ctx n w winRoot pol dis first panes = Ok r ->
  Forall (lowers n pol dis) (flat_map spec.Pane_Actions panes).
Proof.
  revert first r. induction panes as [|p panes IH]; intros first r H; simpl.
  - constructor.
  - simpl in H. unfold convertPane in H.
    destruct (convertPaneActions _ _ _ _ _) as [[acts u]| |] eqn:E; try discriminate.
    simpl in H.
    destruct (convertPanes _ _ _ _ _ _ _ _ _) as [[out u']| |] eqn:E'; try discriminate.
    apply Forall_app. split; [|eapply IH; eauto].
    apply (convertPaneActions_ok n (spec.Window_Name w)). eauto.
Qed.

Lemma convertPanes_settled (w : spec.Window) (winRoot : string) (panes : list spec.Pane)
      (first : bool) :
  settled (convertPanes os ctx n w winRoot pol dis first panes).
Proof.
  revert first. induction panes as [|p panes IH]; intros first; simpl;
    [apply settled_ok|].
  apply settled_bind; [apply convertPane_settled|]. intros [? ?] _.
  apply settled_bind; [apply IH|]. intros [? ?] _. apply settled_ok.
Qed.

Lemma convertWindow_settled (root : string) (w : spec.Window) :
  settled (convertWindow os ctx n root pol dis w).
Proof.
  unfold convertWindow. destruct (_ =? _); [apply settled_err|].
  apply settled_bind.
  - destruct (spec.Window_Actions w); [apply settled_ok|].
    apply settled_bind; [apply convertActions_settled|]. intros [? ?] _. apply settled_ok.
  - intros [? ?] _. apply settled_bind; [|intros [? ?] _; apply settled_ok].
    destruct (spec.Window_PanePlan w);
      [apply convertPanes_settled | apply convertPlanSteps_settled].
Qed.

Lemma convertWindow_lowers (root : string) (w : spec.Window) r :
  convertWindow os ctx n root pol dis w = Ok r ->
  Forall (lowers n pol dis) (windowLowered w).
Proof.
  unfold convertWindow, windowLowered. destruct (_ =? _); [discriminate|].
  intros H. apply Forall_app. split.
  - destruct (spec.Window_Actions w) as [|a acts] eqn:Ea; [constructor|].
    apply convertActions_ok.
    destruct (convertActions n (a :: acts) pol dis) as [[out u]| |]; try discriminate.
    eauto.
  - destruct (match spec.Window_Actions w with [] => _ | _ :: _ => _ end)
      as [[wa u1]| |]; try discriminate.
    simpl in H. destruct (spec.Window_PanePlan w) as [|st steps] eqn:Ep.
    + destruct (convertPanes _ _ _ _ _ _ _ _ _) as [[pa u2]| |] eqn:E; try discriminate.
      eapply convertPanes_lowers; eauto.
    + unfold convertPanePlan in H. rewrite Ep in H.
      destruct (convertPlanSteps _ _ _ _ _ _ _ _ _) as [[pa u2]| |] eqn:E;
        try discriminate.
      eapply convertPlanSteps_lowers; eauto.
Qed.

Lemma convertWindowLoop_settled (root : string) (ws : list spec.Window) :
  settled (convertWindowLoop os ctx n root pol dis ws).
Proof.
  induction ws as [|w ws IH]; simpl; [apply settled_ok|].
  apply settled_bind; [apply convertWindow_settled|]. intros [? ?] _.
  apply settled_bind; [apply IH|]. intros [? ?] _. apply settled_ok.
Qed.

Lemma convertWindowLoop_lowers (root : string) (ws : list spec.Window) r :
  convertWindowLoop os ctx n root pol dis ws = Ok r ->
  Forall (lowers n pol dis) (flat_map windowLowered ws).
Proof.
  revert r. induction ws as [|w ws IH]; intros r H; simpl; [constructor|].
  simpl in H.
  destruct (convertWindow _ _ _ _ _ _ _) as [[acts u]| |] eqn:E; try discriminate.
  simpl in H.
  destruct (convertWindowLoop _ _ _ _ _ _ _) as [[out u']| |] eqn:E'; try discriminate.
  apply Forall_app. split; [eapply convertWindow_lowers; eauto | eapply IH; eauto].
Qed.

Lemma convertWindows_settled (root : string) (ws : list spec.Window) :
  settled (convertWindows os ctx n root ws pol dis).
Proof.
  unfold convertWindows. destruct ws; [apply settled_err|].
  apply settled_bind; [apply convertWindowLoop_settled|]. intros [? ?] _. apply settled_ok.
Qed.

Lemma convertWindows_lowers (root : string) (ws : list spec.Window) r :
  convertWindows os ctx n root ws pol dis = Ok r ->
  Forall (lowers n pol dis) (flat_map windowLowered ws).
Proof.
  unfold convertWindows. destruct ws as [|w ws]; [discriminate|]. intros H.
  destruct (convertWindowLoop _ _ _ _ _ _ (w :: ws)) as [[out u]| |] eqn:E;
    try discriminate.
  eapply convertWindowLoop_lowers; eauto.
Qed.

End Lowering.

End StageAFacts.

(** ** BuildFromSpec, step by step *)

(** Runs a bind whose first computation has returned. *)
Ltac bind_ok H := change (Ok ?a ≫= ?k) with (k a) in H; cbv beta in H.

Module BuildFacts.

Import templates LoopFacts StageAFacts.

(** The representation that [BuildFromSpec] chooses. *)
Definition usesActions (s : spec.Spec) (opt : BuildOptions) : bool :=
  negb (List.length (spec.Spec_Actions s) =? 0)%nat
  && negb (Opt_PreferWindows opt && negb (List.length (spec.Spec_Windows s) =? 0)%nat).

(** The actions of the spec that are lowered. *)
Definition lowered (s : spec.Spec) (opt : BuildOptions) : list spec.Action :=
  if usesActions s opt then spec.Spec_Actions s
  else flat_map windowLowered (spec.Spec_Windows s).

(** The name chosen by [BuildFromSpec], before it is sanitized. *)
Definition chosenName (os : OS) (s : spec.Spec) (opt : BuildOptions) : string :=
  resolveSessionName (Opt_SessionName opt) s
    (expandUser os (Strings.TrimSpace (Opt_ProjectRoot opt))).

Lemma resolveSessionName_validated (n : string) (s0 s : spec.Spec) (root : string) :
  spec.Validate s0 = Ok s -> resolveSessionName n s root = resolveSessionName n s0 root.
Proof.
  intros H. apply ValidateFacts.Validate_ok in H as (Hn & Hp & _).
  unfold resolveSessionName. now rewrite Hn, Hp.
Qed.

Lemma BuildFromSpec_ok (os : OS) (order : list (string * string)) (s0 : spec.Spec)
      (opt : BuildOptions) (ctx : Context) (tpl : Spec) (u : bool) :
  BuildFromSpec os order s0 opt = Ok (ctx, tpl, u) ->
  exists s,
    spec.Validate s0 = Ok s
    /\ Strings.TrimSpace (Opt_ProjectRoot opt) <> ""
    /\ SessionName ctx = sanitizeSessionName (chosenName os s0 opt)
    /\ SessionName ctx <> ""
    /\ spec.ValidatePolicy s (buildPolicy opt) = Ok tt
    /\ Forall (lowers (SessionName ctx) (buildPolicy opt) (buildDisallowed opt))
              (lowered s opt).
Proof.
  intros H. unfold BuildFromSpec in H.
  destruct (spec.Validate s0) as [s| |] eqn:Ev; try discriminate.
  bind_ok H. cbv zeta in H.
  destruct (String.eqb_spec (Strings.TrimSpace (Opt_ProjectRoot opt)) "") as [|Hr];
    [discriminate|].
  fold (chosenName os s opt) in H.
  unfold chosenName in H. rewrite (resolveSessionName_validated _ s0 s _ Ev) in H.
  fold (chosenName os s0 opt) in H.
  destruct (String.eqb_spec (sanitizeSessionName (chosenName os s0 opt)) "") as [|Hn];
    [discriminate|].
  destruct (spec.ValidatePolicy s (buildPolicy opt)) as [[]| |] eqn:Ep; try discriminate.
  bind_ok H. fold (usesActions s opt) in H.
  exists s. unfold lowered.
  destruct (usesActions s opt).
  - destruct (convertActions _ _ _ _) as [[acts u']| |] eqn:Ec; try discriminate.
    bind_ok H. inversion H; subst; clear H. cbn [SessionName].
    repeat split; auto. apply convertActions_ok. eauto.
  - destruct (convertWindows _ _ _ _ _ _ _) as [[acts u']| |] eqn:Ec; try discriminate.
    bind_ok H. bind_ok H. inversion H; subst; clear H. cbn [SessionName].
    repeat split; auto. eapply convertWindows_lowers; eauto.
Qed.

Lemma BuildFromSpec_settled (os : OS) (order : list (string * string)) (s0 : spec.Spec)
      (opt : BuildOptions) :
  settled (BuildFromSpec os order s0 opt).
Proof.
  unfold BuildFromSpec. apply settled_bind; [apply ValidateFacts.Validate_settled|].
  intros s _. cbv zeta. destruct (_ =? _); [apply settled_err|].
  destruct (_ =? _); [apply settled_err|].
  apply settled_bind.
  - intros m. pose proof (ValidatePolicyFacts.checkPolicy_result) as Hc.
    rewrite ValidatePolicyFacts.ValidatePolicy_walk. apply forM__no_panic.
    intros a _ m' Hp. destruct (Hc (spec.normalizeAllowlist (buildPolicy opt)) a)
      as [H|[? H]]; congruence.
  - intros _ _. apply settled_bind; [|intros [? ?] _; apply settled_ok].
    destruct (_ && _); [apply convertActions_settled|].
    apply settled_bind; [apply convertWindows_settled|]. intros [? ?] _. apply settled_ok.
Qed.


End BuildFacts.

(** ** The session name *)

Module SessionNameFacts.

Import templates BuildFacts Fixtures.

Fixpoint allChars (p : ascii -> bool) (s : string) : bool :=
  match s with
  | "" => true
  | String c r => p c && allChars p r
  end.

(** Text of ASCII bytes only.  On such text the lowering of the code, which
    follows the Unicode case table, is [Strings.ToLower]. *)
Definition isASCII (s : string) : bool := allChars (fun c => (c <? "128")%char) s.

(** The bytes of a compiled session name: [[a-z0-9_]]. *)
Definition nameChar (c : ascii) : bool :=
  Strings.isLower c || Strings.isDigit c || (c =? "_")%char.

Definition firstChar (s : string) : option ascii :=
  match s with
  | "" => None
  | String c _ => Some c
  end.

Fixpoint lastChar (s : string) : option ascii :=
  match s with
  | "" => None
  | String c "" => Some c
  | String _ r => lastChar r
  end.

Lemma lower_of_upper (r : ascii) :
  Strings.isUpper r = true ->
  Strings.isLower (ascii_of_nat (nat_of_ascii r + 32)) = true.
Proof.
  destruct r as [[] [] [] [] [] [] [] []]; intros H; vm_compute in H;
    try discriminate H; vm_compute; reflexivity.
Qed.

Lemma sanitizeRunes_chars (name : string) (last : bool) :
  allChars nameChar (sanitizeRunes name last) = true.
Proof.
  revert last. induction name as [|r name IH]; intros last; [reflexivity|].
  cbn [sanitizeRunes]. unfold nameChar in *.
  destruct (Strings.isLower r) eqn:El; [cbn [allChars]; now rewrite El, IH|].
  destruct (Strings.isUpper r) eqn:Eu;
    [cbn [allChars]; now rewrite (lower_of_upper r Eu), IH|].
  destruct (Strings.isDigit r) eqn:Ed;
    [cbn [allChars]; rewrite El, Ed, IH; reflexivity|].
  destruct ((r =? "-")%char || (r =? "_")%char); [cbn [allChars]; now rewrite IH|].
  destruct last; cbn [negb]; [apply IH | cbn [allChars]; now rewrite IH].
Qed.

Lemma TrimLeftFunc_allChars (p q : ascii -> bool) (s : string) :
  allChars p s = true -> allChars p (Strings.TrimLeftFunc q s) = true.
Proof.
  induction s as [|c s IH]; [reflexivity|]. cbn [allChars Strings.TrimLeftFunc].
  intros H. apply andb_true_iff in H as [Hc Hs].
  destruct (q c); [now apply IH | cbn [allChars]; now rewrite Hc, Hs].
Qed.

Lemma TrimRightFunc_allChars (p q : ascii -> bool) (s : string) :
  allChars p s = true -> allChars p (Strings.TrimRightFunc q s) = true.
Proof.
  induction s as [|c s IH]; [reflexivity|]. cbn [allChars Strings.TrimRightFunc].
  intros H. apply andb_true_iff in H as [Hc Hs]. specialize (IH Hs).
  destruct (Strings.TrimRightFunc q s) as [|c' r'].
  - destruct (q c); [reflexivity | cbn [allChars]; now rewrite Hc].
  - cbn [allChars] in *. now rewrite Hc, IH.
Qed.

Lemma TrimLeftFunc_first (q : ascii -> bool) (s : string) (c : ascii) :
  firstChar (Strings.TrimLeftFunc q s) = Some c -> q c = false.
Proof.
  induction s as [|x s IH]; [discriminate|]. cbn [Strings.TrimLeftFunc].
  destruct (q x) eqn:E; [exact IH|]. cbn [firstChar]. intros H. now inversion H; subst.
Qed.

Lemma TrimRightFunc_first (q : ascii -> bool) (s : string) (c : ascii) :
  firstChar (Strings.TrimRightFunc q s) = Some c -> firstChar s = Some c.
Proof.
  destruct s as [|x s]; [discriminate|]. cbn [Strings.TrimRightFunc firstChar].
  destruct (Strings.TrimRightFunc q s); [destruct (q x)|]; cbn [firstChar]; congruence.
Qed.

Lemma TrimRightFunc_last (q : ascii -> bool) (s : string) (c : ascii) :
  lastChar (Strings.TrimRightFunc q s) = Some c -> q c = false.
Proof.
  induction s as [|x s IH]; [discriminate|]. cbn [Strings.TrimRightFunc].
  destruct (Strings.TrimRightFunc q s) as [|c' r'] eqn:E.
  - destruct (q x) eqn:Ex; [discriminate|]. cbn [lastChar]. intros H.
    now inversion H; subst.
  - cbn [lastChar]. exact IH.
Qed.

Lemma sanitizeSessionName_shape (name : string) :
  allChars nameChar (sanitizeSessionName name) = true
  /\ firstChar (sanitizeSessionName name) <> Some "_"%char
  /\ lastChar (sanitizeSessionName name) <> Some "_"%char.
Proof.
  unfold sanitizeSessionName. destruct (_ =? _); [repeat split; discriminate|].
  unfold Strings.Trim. repeat split.
  - apply TrimRightFunc_allChars, TrimLeftFunc_allChars, sanitizeRunes_chars.
  - intros H. apply TrimRightFunc_first, TrimLeftFunc_first in H. discriminate H.
  - intros H. apply TrimRightFunc_last in H. discriminate H.
Qed.

Lemma collapseFrom_allChars (p : ascii -> bool) (ch prev : ascii) (s : string) :
  allChars p s = true -> allChars p (spec.collapseFrom ch prev s) = true.
Proof.
  revert prev. induction s as [|c s IH]; intros prev; [reflexivity|].
  cbn [allChars spec.collapseFrom]. intros H. apply andb_true_iff in H as [Hc Hs].
  destruct (_ && _); [now apply IH | cbn [allChars]; now rewrite Hc, IH].
Qed.

Lemma collapseRepeats_allChars (p : ascii -> bool) (ch : ascii) (s : string) :
  allChars p s = true -> allChars p (spec.collapseRepeats s ch) = true.
Proof.
  destruct s as [|c s]; [reflexivity|]. cbn [allChars spec.collapseRepeats].
  intros H. apply andb_true_iff in H as [Hc Hs].
  now rewrite Hc, collapseFrom_allChars.
Qed.

Lemma replaceUnsafeRuns_chars (s : string) (inRun : bool) :
  allChars spec.isSafeChar (spec.replaceUnsafeRuns s inRun) = true.
Proof.
  revert inRun. induction s as [|c s IH]; intros inRun; [reflexivity|].
  cbn [spec.replaceUnsafeRuns]. destruct (spec.isSafeChar c) eqn:E.
  - cbn [allChars]. now rewrite E, IH.
  - destruct inRun; [apply IH | cbn [allChars]; now rewrite IH].
Qed.

(** [sanitizeName] returns bytes of [[a-z0-9_-]] only. *)
Lemma sanitizeName_chars (s : string) :
  allChars spec.isSafeChar (spec.sanitizeName s) = true.
Proof.
  unfold spec.sanitizeName. destruct (_ =? _); [reflexivity|]. cbv zeta.
  destruct (_ =? _); [reflexivity|].
  do 2 apply collapseRepeats_allChars. unfold Strings.Trim.
  apply TrimRightFunc_allChars, TrimLeftFunc_allChars, replaceUnsafeRuns_chars.
Qed.

Definition namedOptions (root session : string) : BuildOptions :=
  {| Opt_ProjectRoot := root; Opt_ProjectName := ""; Opt_SessionName := session;
     Opt_PreferWindows := true; Opt_IncludeEnsureSession := false;
     Opt_AllowShell := false; Opt_AllowTmuxPassthrough := false;
     Opt_AllowedTmuxCommands := None; Opt_DisallowTmuxCommands := None |}.


End SessionNameFacts.
(** ** White space *)

Module SpaceFacts.
Import StringFacts SessionNameFacts.

(** A byte of ASCII text that is not white space. *)
Definition plainByte (c : ascii) : bool := (c <? "128")%char && negb (Strings.isSpace c).

(** The string starts with a white space rune. *)
Definition leadSpace (s : string) : bool :=
  match s with
  | String c0 r0 =>
      Strings.isSpace c0
      || match r0 with
         | String c1 r1 =>
             Strings.isSpace2 c0 c1
             || match r1 with
                | String c2 _ => Strings.isSpace3 c0 c1 c2
                | "" => false
                end
         | "" => false
         end
  | "" => false
  end.

Lemma string_len_ind (P : string -> Prop) :
  (forall s, (forall t, (String.length t < String.length s)%nat -> P t) -> P s) ->
  forall s, P s.
Proof.
  intros H s. remember (String.length s) as n eqn:E. revert s E.
  induction n as [n IH] using lt_wf_ind. intros s ->. apply H.
  intros t Ht. exact (IH _ Ht t eq_refl).
Qed.

Lemma plain_lead (c : ascii) :
  plainByte c = true ->
  Strings.isSpace c = false
  /\ (forall c1, Strings.isSpace2 c c1 = false)
  /\ (forall c1 c2, Strings.isSpace3 c c1 c2 = false).
Proof.
  destruct c as [[] [] [] [] [] [] [] []]; intros H; try discriminate H;
    repeat split; intros; reflexivity.
Qed.

Lemma plain_second (c : ascii) :
  plainByte c = true ->
  (forall c0, Strings.isSpace2 c0 c = false)
  /\ (forall c0 c2, Strings.isSpace3 c0 c c2 = false).
Proof.
  intros H. split.
  - intros c0. unfold Strings.isSpace2.
    destruct c as [[] [] [] [] [] [] [] []]; try discriminate H;
      cbn; now rewrite andb_false_r.
  - intros c0 c2. unfold Strings.isSpace3.
    destruct c as [[] [] [] [] [] [] [] []]; try discriminate H;
      cbn; now rewrite ?andb_false_r.
Qed.

Lemma plain_third (c : ascii) :
  plainByte c = true -> forall c0 c1, Strings.isSpace3 c0 c1 c = false.
Proof.
  intros H c0 c1. unfold Strings.isSpace3.
  destruct c as [[] [] [] [] [] [] [] []]; try discriminate H;
    cbn; now rewrite ?andb_false_r.
Qed.

Lemma plain_not_rune (c : ascii) (r : string) :
  plainByte c = true -> Strings.isSpaceRune (String c r) = false.
Proof.
  intros H. destruct (plain_lead c H) as (H1 & H2 & H3).
  destruct r as [|c1 [|c2 [|c3 r]]]; cbn [Strings.isSpaceRune]; auto.
Qed.

(** *** The left end *)

Lemma trimLeftSpace_noLead (s : string) :
  leadSpace s = false -> Strings.trimLeftSpace s = s.
Proof.
  destruct s as [|c0 [|c1 [|c2 r2]]]; cbn [leadSpace Strings.trimLeftSpace]; intros H.
  - reflexivity.
  - rewrite orb_false_r in H. now rewrite H.
  - apply orb_false_iff in H as [H0 H]. rewrite orb_false_r in H. now rewrite H0, H.
  - apply orb_false_iff in H as [H0 H]. apply orb_false_iff in H as [H1 H2].
    now rewrite H0, H1, H2.
Qed.

Lemma trimLeftSpace_lead (s : string) : leadSpace (Strings.trimLeftSpace s) = false.
Proof.
  induction s as [s IH] using string_len_ind.
  destruct s as [|c0 r0]; [reflexivity|]. cbn [Strings.trimLeftSpace].
  destruct (Strings.isSpace c0) eqn:E0; [apply IH; cbn; lia|].
  destruct r0 as [|c1 r1]; [cbn [leadSpace]; now rewrite E0|].
  destruct (Strings.isSpace2 c0 c1) eqn:E1; [apply IH; cbn; lia|].
  destruct r1 as [|c2 r2]; [cbn [leadSpace]; now rewrite E0, E1|].
  destruct (Strings.isSpace3 c0 c1 c2) eqn:E2; [apply IH; cbn; lia|].
  cbn [leadSpace]. now rewrite E0, E1, E2.
Qed.

Lemma trimLeftSpace_idem (s : string) :
  Strings.trimLeftSpace (Strings.trimLeftSpace s) = Strings.trimLeftSpace s.
Proof. apply trimLeftSpace_noLead, trimLeftSpace_lead. Qed.

Lemma leadSpace_prefix (a b : string) : leadSpace (a +:+ b) = false -> leadSpace a = false.
Proof.
  destruct a as [|c0 [|c1 [|c2 r]]]; [reflexivity| | |exact (fun H => H)].
  - change (String c0 "" +:+ b) with (String c0 b). cbn [leadSpace]. intros H.
    apply orb_false_iff in H as [-> _]. reflexivity.
  - change (String c0 (String c1 "") +:+ b) with (String c0 (String c1 b)).
    cbn [leadSpace]. intros H. apply orb_false_iff in H as [-> H].
    apply orb_false_iff in H as [-> _]. reflexivity.
Qed.

Lemma plain_noLead (c : ascii) (r : string) : plainByte c = true -> leadSpace (String c r) = false.
Proof.
  intros H. destruct (plain_lead c H) as (H1 & H2 & H3).
  destruct r as [|c1 [|c2 r]]; cbn [leadSpace]; now rewrite H1, ?H2, ?H3.
Qed.

(** *** The right end *)

Lemma trimRightSpace_prefix (s : string) :
  exists tail, s = Strings.trimRightSpace s +:+ tail.
Proof.
  induction s as [|c r [tail IH]]; [now exists ""|]. cbn [Strings.trimRightSpace].
  destruct (Strings.isSpaceRune _).
  - now exists (String c r).
  - exists tail. change (String c (Strings.trimRightSpace r) +:+ tail)
      with (String c (Strings.trimRightSpace r +:+ tail)). now rewrite <- IH.
Qed.

Lemma trimRightSpace_idem (s : string) :
  Strings.trimRightSpace (Strings.trimRightSpace s) = Strings.trimRightSpace s.
Proof.
  induction s as [|c r IH]; [reflexivity|]. cbn [Strings.trimRightSpace].
  destruct (Strings.isSpaceRune (String c (Strings.trimRightSpace r))) eqn:E; [reflexivity|].
  cbn [Strings.trimRightSpace]. now rewrite IH, E.
Qed.

Lemma trimRightSpace_lead (s : string) :
  leadSpace s = false -> leadSpace (Strings.trimRightSpace s) = false.
Proof.
  intros H. destruct (trimRightSpace_prefix s) as [tail E]. rewrite E in H.
  exact (leadSpace_prefix _ _ H).
Qed.

Lemma trimRightSpace_plain (c : ascii) (r : string) :
  plainByte c = true ->
  Strings.trimRightSpace (String c r) = String c (Strings.trimRightSpace r).
Proof. intros H. cbn [Strings.trimRightSpace]. now rewrite plain_not_rune. Qed.

Lemma trimRightSpace_all (s : string) :
  allChars plainByte s = true -> Strings.trimRightSpace s = s.
Proof.
  induction s as [|c r IH]; [reflexivity|]. cbn [allChars]. intros H.
  apply andb_true_iff in H as [Hc Hr]. now rewrite trimRightSpace_plain, IH.
Qed.

(** *** [TrimSpace] *)

Lemma TrimSpace_idem (s : string) :
  Strings.TrimSpace (Strings.TrimSpace s) = Strings.TrimSpace s.
Proof.
  unfold Strings.TrimSpace.
  rewrite (trimLeftSpace_noLead (Strings.trimRightSpace _)).
  - apply trimRightSpace_idem.
  - apply trimRightSpace_lead, trimLeftSpace_lead.
Qed.

Lemma TrimSpace_trimLeft (s : string) :
  Strings.TrimSpace (Strings.trimLeftSpace s) = Strings.TrimSpace s.
Proof. unfold Strings.TrimSpace. now rewrite trimLeftSpace_idem. Qed.

Lemma allChars_plain (p : ascii -> bool) (s : string) :
  (forall c, p c = true -> plainByte c = true) -> allChars p s = true ->
  allChars plainByte s = true.
Proof.
  intros Hp. induction s as [|c s IH]; [reflexivity|]. cbn [allChars]. intros H.
  apply andb_true_iff in H as [Hc Hs]. now rewrite (Hp c Hc), IH.
Qed.

(** Text of plain bytes is left as it is. *)
Lemma TrimSpace_id (p : ascii -> bool) (s : string) :
  (forall c, p c = true -> plainByte c = true) ->
  allChars p s = true -> Strings.TrimSpace s = s.
Proof.
  intros Hp Hs. apply (allChars_plain p s Hp) in Hs. unfold Strings.TrimSpace.
  rewrite trimLeftSpace_noLead.
  - now apply trimRightSpace_all.
  - destruct s as [|c r]; [reflexivity|]. cbn [allChars] in Hs.
    apply andb_true_iff in Hs as [Hc _]. now apply plain_noLead.
Qed.

(** Two plain bytes at the start stay. *)
Lemma TrimSpace_head2 (c0 c1 : ascii) (r : string) :
  plainByte c0 = true -> plainByte c1 = true ->
  exists r1, Strings.TrimSpace (String c0 (String c1 r)) = String c0 (String c1 r1).
Proof.
  intros H0 H1. unfold Strings.TrimSpace.
  rewrite trimLeftSpace_noLead by now apply plain_noLead.
  rewrite !trimRightSpace_plain by assumption. eauto.
Qed.

Lemma append_cons (c : ascii) (a b : string) : String c a +:+ b = String c (a +:+ b).
Proof. reflexivity. Qed.

Lemma append_nil (b : string) : "" +:+ b = b.
Proof. reflexivity. Qed.

Lemma trimLeftSpace_1 (c0 : ascii) (r : string) :
  Strings.isSpace c0 = true ->
  Strings.trimLeftSpace (String c0 r) = Strings.trimLeftSpace r.
Proof. intros H. cbn [Strings.trimLeftSpace]. now rewrite H. Qed.

Lemma trimLeftSpace_2 (c0 c1 : ascii) (r : string) :
  Strings.isSpace c0 = false -> Strings.isSpace2 c0 c1 = true ->
  Strings.trimLeftSpace (String c0 (String c1 r)) = Strings.trimLeftSpace r.
Proof. intros H0 H1. cbn [Strings.trimLeftSpace]. now rewrite H0, H1. Qed.

Lemma trimLeftSpace_3 (c0 c1 c2 : ascii) (r : string) :
  Strings.isSpace c0 = false -> Strings.isSpace2 c0 c1 = false ->
  Strings.isSpace3 c0 c1 c2 = true ->
  Strings.trimLeftSpace (String c0 (String c1 (String c2 r))) = Strings.trimLeftSpace r.
Proof. intros H0 H1 H2. cbn [Strings.trimLeftSpace]. now rewrite H0, H1, H2. Qed.

(** A plain byte separates what is trimmed on its two sides. *)
Lemma trimLeftSpace_app (a rest : string) (c : ascii) :
  plainByte c = true ->
  Strings.trimLeftSpace (a +:+ String c rest) = Strings.trimLeftSpace a +:+ String c rest.
Proof.
  intros Hc. destruct (plain_second c Hc) as (S2 & S3). pose proof (plain_third c Hc) as T3.
  induction a as [a IH] using string_len_ind.
  destruct a as [|c0 r0]; rewrite ?append_cons, ?append_nil.
  { now apply trimLeftSpace_noLead, plain_noLead. }
  destruct (Strings.isSpace c0) eqn:E0.
  { rewrite !trimLeftSpace_1 by exact E0. apply IH. cbn. lia. }
  destruct r0 as [|c1 r1]; rewrite ?append_cons, ?append_nil.
  { rewrite !trimLeftSpace_noLead; [reflexivity| |].
    - cbn [leadSpace]. now rewrite E0.
    - cbn [leadSpace]. rewrite E0, S2. destruct rest; [reflexivity|]. now rewrite S3. }
  destruct (Strings.isSpace2 c0 c1) eqn:E1.
  { rewrite !trimLeftSpace_2 by assumption. apply IH. cbn. lia. }
  destruct r1 as [|c2 r2]; rewrite ?append_cons, ?append_nil.
  { rewrite !trimLeftSpace_noLead; [reflexivity| |].
    - cbn [leadSpace]. now rewrite E0, E1.
    - cbn [leadSpace]. now rewrite E0, E1, T3. }
  destruct (Strings.isSpace3 c0 c1 c2) eqn:E2.
  { rewrite !trimLeftSpace_3 by assumption. apply IH. cbn. lia. }
  rewrite !trimLeftSpace_noLead; [reflexivity| |]; cbn [leadSpace]; now rewrite E0, E1, E2.
Qed.

Lemma trimRightSpace_app (a rest : string) (c : ascii) :
  plainByte c = true ->
  Strings.trimRightSpace (a +:+ String c rest)
  = a +:+ String c (Strings.trimRightSpace rest).
Proof.
  intros Hc. destruct (plain_second c Hc) as (S2 & S3). pose proof (plain_third c Hc) as T3.
  induction a as [|x a IH].
  - change ("" +:+ String c rest) with (String c rest). now apply trimRightSpace_plain.
  - change (String x a +:+ String c rest) with (String x (a +:+ String c rest)).
    cbn [Strings.trimRightSpace]. rewrite IH.
    replace (Strings.isSpaceRune (String x (a +:+ String c (Strings.trimRightSpace rest))))
      with false; [reflexivity|].
    destruct a as [|y [|z a]]; rewrite ?append_cons, ?append_nil.
    + destruct (Strings.trimRightSpace rest) as [|d [|e t]];
        cbn [Strings.isSpaceRune]; now rewrite ?S2, ?S3.
    + destruct (Strings.trimRightSpace rest); cbn [Strings.isSpaceRune]; now rewrite ?T3.
    + destruct a; reflexivity.
Qed.

(** Trimming keeps a property of all the bytes. *)
Lemma trimLeftSpace_allChars (p : ascii -> bool) (s : string) :
  allChars p s = true -> allChars p (Strings.trimLeftSpace s) = true.
Proof.
  induction s as [s IH] using string_len_ind. intros H.
  destruct s as [|c0 r0]; [reflexivity|]. cbn [Strings.trimLeftSpace].
  pose proof H as H'. cbn [allChars] in H'. apply andb_true_iff in H' as [_ H0].
  destruct (Strings.isSpace c0); [apply IH; [cbn; lia | exact H0]|].
  destruct r0 as [|c1 r1]; [exact H|].
  cbn [allChars] in H0. apply andb_true_iff in H0 as [_ H1].
  destruct (Strings.isSpace2 c0 c1); [apply IH; [cbn; lia | exact H1]|].
  destruct r1 as [|c2 r2]; [exact H|].
  cbn [allChars] in H1. apply andb_true_iff in H1 as [_ H2].
  destruct (Strings.isSpace3 c0 c1 c2); [apply IH; [cbn; lia | exact H2] | exact H].
Qed.

Lemma trimRightSpace_allChars (p : ascii -> bool) (s : string) :
  allChars p s = true -> allChars p (Strings.trimRightSpace s) = true.
Proof.
  induction s as [|c r IH]; [reflexivity|]. cbn [allChars Strings.trimRightSpace].
  intros H. apply andb_true_iff in H as [Hc Hr].
  destruct (Strings.isSpaceRune _); [reflexivity|]. cbn [allChars]. now rewrite Hc, IH.
Qed.

(** *** [Fields] *)

Lemma fieldsFrom_plain (c : ascii) (r cur : string) :
  plainByte c = true ->
  Strings.fieldsFrom (String c r) cur = Strings.fieldsFrom r (cur +:+ String c "").
Proof.
  intros H. destruct (plain_lead c H) as (H1 & H2 & H3).
  destruct r as [|c1 [|c2 r2]]; cbn [Strings.fieldsFrom]; now rewrite H1, ?H2, ?H3.
Qed.

Lemma fieldsFrom_head (s cur : string) :
  cur <> "" -> exists y rest, Strings.fieldsFrom s cur = (cur +:+ y) :: rest.
Proof.
  revert cur. induction s as [|c0 r0 IH]; intros cur Hc.
  - exists "", []. rewrite app_nil_r. destruct cur; [contradiction | reflexivity].
  - assert (Hend : forall l, exists y rest, Strings.endField cur l = (cur +:+ y) :: rest).
    { intros l. exists "", l. rewrite app_nil_r. destruct cur; [contradiction | reflexivity]. }
    assert (Hgo : exists y rest,
               Strings.fieldsFrom r0 (cur +:+ String c0 "") = (cur +:+ y) :: rest).
    { destruct (IH (cur +:+ String c0 "")) as (y & rest & E); [now destruct cur|].
      exists (String c0 y), rest. rewrite E, app_assoc. reflexivity. }
    cbn [Strings.fieldsFrom]. destruct (Strings.isSpace c0); [apply Hend|].
    destruct r0 as [|c1 r1]; [exact Hgo|].
    destruct (Strings.isSpace2 c0 c1); [apply Hend|].
    destruct r1 as [|c2 r2]; [exact Hgo|].
    destruct (Strings.isSpace3 c0 c1 c2); [apply Hend | exact Hgo].
Qed.

(** *** Lower case *)

Lemma isSpace_toLowerChar (c : ascii) :
  Strings.isSpace (Strings.toLowerChar c) = Strings.isSpace c.
Proof. destruct c as [[] [] [] [] [] [] [] []]; vm_compute; reflexivity. Qed.

Lemma isSpace2_toLowerChar (c0 c1 : ascii) :
  Strings.isSpace2 (Strings.toLowerChar c0) (Strings.toLowerChar c1) = Strings.isSpace2 c0 c1.
Proof.
  destruct c0 as [[] [] [] [] [] [] [] []]; try reflexivity.
  destruct c1 as [[] [] [] [] [] [] [] []]; reflexivity.
Qed.

Lemma isSpace3_toLowerChar (c0 c1 c2 : ascii) :
  Strings.isSpace3 (Strings.toLowerChar c0) (Strings.toLowerChar c1) (Strings.toLowerChar c2)
  = Strings.isSpace3 c0 c1 c2.
Proof.
  destruct c0 as [[] [] [] [] [] [] [] []]; try reflexivity.
  all: destruct c1 as [[] [] [] [] [] [] [] []]; try reflexivity.
  all: destruct c2 as [[] [] [] [] [] [] [] []]; reflexivity.
Qed.

Lemma isSpaceRune_ToLower (s : string) :
  Strings.isSpaceRune (Strings.ToLower s) = Strings.isSpaceRune s.
Proof.
  destruct s as [|c0 [|c1 [|c2 [|c3 r]]]]; cbn [Strings.ToLower Strings.isSpaceRune];
    auto using isSpace_toLowerChar, isSpace2_toLowerChar, isSpace3_toLowerChar.
Qed.

Lemma ToLower_trimLeftSpace (s : string) :
  Strings.ToLower (Strings.trimLeftSpace s) = Strings.trimLeftSpace (Strings.ToLower s).
Proof.
  induction s as [s IH] using string_len_ind.
  destruct s as [|c0 r0]; [reflexivity|]. cbn [Strings.ToLower Strings.trimLeftSpace].
  rewrite isSpace_toLowerChar.
  destruct (Strings.isSpace c0); [apply IH; cbn; lia|].
  destruct r0 as [|c1 r1]; [reflexivity|]. cbn [Strings.ToLower].
  rewrite isSpace2_toLowerChar.
  destruct (Strings.isSpace2 c0 c1); [apply IH; cbn; lia|].
  destruct r1 as [|c2 r2]; [reflexivity|]. cbn [Strings.ToLower].
  rewrite isSpace3_toLowerChar.
  destruct (Strings.isSpace3 c0 c1 c2); [apply IH; cbn; lia | reflexivity].
Qed.

Lemma ToLower_trimRightSpace (s : string) :
  Strings.ToLower (Strings.trimRightSpace s) = Strings.trimRightSpace (Strings.ToLower s).
Proof.
  induction s as [|c r IH]; [reflexivity|].
  cbn [Strings.ToLower Strings.trimRightSpace]. rewrite <- IH.
  change (String (Strings.toLowerChar c) (Strings.ToLower (Strings.trimRightSpace r)))
    with (Strings.ToLower (String c (Strings.trimRightSpace r))).
  rewrite isSpaceRune_ToLower. destruct (Strings.isSpaceRune _); reflexivity.
Qed.

Lemma ToLower_TrimSpace (s : string) :
  Strings.ToLower (Strings.TrimSpace s) = Strings.TrimSpace (Strings.ToLower s).
Proof. unfold Strings.TrimSpace. now rewrite ToLower_trimRightSpace, ToLower_trimLeftSpace. Qed.

End SpaceFacts.

(** ** The policy gates of one action *)

(** Decides the comparisons of two string constants in [H] (in the goal). *)
Ltac is_literal s :=
  lazymatch s with
  | EmptyString => idtac
  | String (Ascii _ _ _ _ _ _ _ _) ?r => is_literal r
  end.

Ltac decide_eqb_in H :=
  repeat match type of H with
         | context [String.eqb ?x ?y] =>
             is_literal x; is_literal y;
             let b := eval vm_compute in (String.eqb x y) in
             match b with true => idtac | false => idtac end;
             change (String.eqb x y) with b in H
         end;
  cbv beta iota in H.

Ltac decide_eqb :=
  repeat match goal with
         | |- context [String.eqb ?x ?y] =>
             is_literal x; is_literal y;
             let b := eval vm_compute in (String.eqb x y) in
             match b with true => idtac | false => idtac end;
             change (String.eqb x y) with b
         end;
  cbv beta iota.

Module GateFacts.

Import templates LoopFacts StageAFacts SessionNameFacts.
Export SpaceFacts.

Lemma TrimLeftFunc_id (p : ascii -> bool) (s : string) :
  (forall c, firstChar s = Some c -> p c = false) -> Strings.TrimLeftFunc p s = s.
Proof.
  destruct s as [|c s]; [reflexivity|]. intros H. cbn [Strings.TrimLeftFunc].
  now rewrite (H c eq_refl).
Qed.

Lemma TrimRightFunc_idem (p : ascii -> bool) (s : string) :
  Strings.TrimRightFunc p (Strings.TrimRightFunc p s) = Strings.TrimRightFunc p s.
Proof.
  induction s as [|c s IH]; [reflexivity|]. cbn [Strings.TrimRightFunc].
  destruct (Strings.TrimRightFunc p s) as [|x y] eqn:E.
  - destruct (p c) eqn:Ec; [reflexivity|]. cbn [Strings.TrimRightFunc]. now rewrite Ec.
  - cbn [Strings.TrimRightFunc] in *. now rewrite IH.
Qed.

(** The type of a validated action is the normalised type. *)
Lemma validateAction_type (a a' : spec.Action) :
  spec.validateAction a = Ok a' ->
  spec.Action_Type a'
  = Strings.TrimSpace (Strings.ToLower (spec.Action_Type a)).
Proof.
  unfold spec.validateAction. cbv zeta.
  repeat match goal with
         | |- context [if ?b then _ else _] => destruct b
         | |- context [match ?o with Some _ => _ | None => _ end] => destruct o
         | |- context [match ?l with [] => _ | _ :: _ => _ end] => destruct l
         end;
    intros H; try discriminate H; inversion H; reflexivity.
Qed.

Lemma validateAction_shell (a a' : spec.Action) :
  spec.validateAction a = Ok a' -> spec.Action_Type a' = "shell" ->
  exists sh, spec.Action_Shell a' = Some sh
             /\ Strings.TrimSpace (spec.Shell_Cmd sh) <> "".
Proof.
  intros H Hty. rewrite (validateAction_type a a' H) in Hty.
  unfold spec.validateAction in H. cbv zeta in H. cbn [spec.Action_Type spec.setType] in H.
  rewrite Hty in H. decide_eqb_in H.
  cbn [spec.Action_Shell spec.setType] in H.
  destruct (spec.Action_Shell a) as [sh|]; [|discriminate].
  destruct (String.eqb_spec (Strings.TrimSpace (spec.Shell_Cmd sh)) "") as [|Hne];
    [discriminate|].
  inversion H; subst. cbn [spec.Action_Shell spec.setShell spec.Shell_Cmd].
  eexists. split; [reflexivity|]. cbn [spec.Shell_Cmd]. now rewrite TrimSpace_idem.
Qed.

Lemma validateAction_tmux (a a' : spec.Action) :
  spec.validateAction a = Ok a' -> spec.Action_Type a' = "tmux" ->
  exists t, spec.Action_Tmux a' = Some t
            /\ Strings.TrimSpace (spec.Tmux_Name t) <> "".
Proof.
  intros H Hty. rewrite (validateAction_type a a' H) in Hty.
  unfold spec.validateAction in H. cbv zeta in H. cbn [spec.Action_Type spec.setType] in H.
  rewrite Hty in H. decide_eqb_in H.
  cbn [spec.Action_Tmux spec.setType] in H.
  destruct (spec.Action_Tmux a) as [t|]; [|discriminate].
  destruct (String.eqb_spec (Strings.TrimSpace (spec.Tmux_Name t)) "") as [|Hne];
    [discriminate|].
  inversion H; subst. cbn [spec.Action_Tmux spec.setTmux].
  eexists. split; [reflexivity|]. cbn [spec.Tmux_Name]. now rewrite TrimSpace_idem.
Qed.

(** The deny and allow lookups of [convertSingleAction]. *)
Definition denied (dis : option (gmap string bool)) (cmd : string) : bool :=
  match dis with Some d => mapBool d cmd | None => false end.

Definition listed (pol : spec.Policy) (cmd : string) : bool :=
  match spec.AllowedTmuxCommands pol with
  | Some m => mapBool m cmd
  | None => true
  end.

Lemma lowers_shell (n : string) (pol : spec.Policy) (dis : option (gmap string bool))
      (a : spec.Action) (sh : spec.ShellAction) :
  spec.Action_Type a = "shell" -> spec.Action_Shell a = Some sh ->
  Strings.TrimSpace (spec.Shell_Cmd sh) <> "" ->
  (lowers n pol dis a <-> spec.AllowShell pol = true).
Proof.
  intros Hty Hsh Hne. unfold lowers, convertSingleAction. cbv zeta. rewrite Hty, Hsh.
  decide_eqb.
  destruct (spec.AllowShell pol); cbn [negb].
  - destruct (String.eqb_spec (Strings.TrimSpace (spec.Shell_Cmd sh)) "");
      [contradiction|]. split; eauto.
  - split; [intros [r H]; discriminate | discriminate].
Qed.

Lemma lowers_shell_only_if (n : string) (pol : spec.Policy)
      (dis : option (gmap string bool)) (a : spec.Action) :
  spec.Action_Type a = "shell" -> lowers n pol dis a -> spec.AllowShell pol = true.
Proof.
  intros Hty [r H]. unfold convertSingleAction in H. cbv zeta in H. rewrite Hty in H.
  decide_eqb_in H.
  destruct (spec.Action_Shell a); [|discriminate].
  destruct (spec.AllowShell pol); [reflexivity | discriminate].
Qed.

Lemma lowers_tmux (n : string) (pol : spec.Policy) (dis : option (gmap string bool))
      (a : spec.Action) (t : spec.TmuxAction) :
  spec.Action_Type a = "tmux" -> spec.Action_Tmux a = Some t ->
  Strings.TrimSpace (spec.Tmux_Name t) <> "" ->
  (lowers n pol dis a
   <-> spec.AllowTmuxPassthrough pol = true
       /\ denied dis (Strings.TrimSpace (spec.Tmux_Name t)) = false
       /\ listed pol (Strings.TrimSpace (spec.Tmux_Name t)) = true).
Proof.
  intros Hty Ht Hne. unfold lowers, convertSingleAction, denied, listed. cbv zeta.
  rewrite Hty, Ht. decide_eqb.
  destruct (spec.AllowTmuxPassthrough pol); cbn [negb].
  - destruct (String.eqb_spec (Strings.TrimSpace (spec.Tmux_Name t)) "");
      [contradiction|].
    destruct (match dis with Some d => _ | None => false end).
    + split; [intros [r H]; discriminate | intros (_ & H & _); discriminate].
    + destruct (spec.AllowedTmuxCommands pol) as [m|].
      * destruct (mapBool m _); cbn [negb].
        -- split; eauto.
        -- split; [intros [r H]; discriminate | intros (_ & _ & H); discriminate].
      * split; eauto.
  - split; [intros [r H]; discriminate | intros (H & _); discriminate].
Qed.

End GateFacts.

(** ** The end-to-end policy gate of Stage A *)

Ltac bind_ok_goal := change (Ok ?a ≫= ?k) with (k a); cbv beta.

Module PolicyGateFacts.

Import templates LoopFacts StageAFacts BuildFacts GateFacts Fixtures.
Import ValidatePolicyFacts.

Lemma buildPolicy_flags (opt : BuildOptions) :
  spec.AllowShell (buildPolicy opt) = Opt_AllowShell opt
  /\ spec.AllowTmuxPassthrough (buildPolicy opt) = Opt_AllowTmuxPassthrough opt
  /\ spec.AllowedTmuxCommands (buildPolicy opt) = buildAllowed opt.
Proof. repeat split. Qed.

Lemma buildAllowed_some (opt : BuildOptions) : exists m, buildAllowed opt = Some m.
Proof.
  unfold buildAllowed. destruct (Opt_AllowedTmuxCommands opt) as [m|]; [|eexists; reflexivity].
  destruct (_ =? _)%nat; eexists; reflexivity.
Qed.

(** With an allowlist present, the walk of [ValidatePolicy] and the
    lowering read the same map. *)
Lemma walkAllowed_listed (opt : BuildOptions) (cmd : string) :
  walkAllowed (buildPolicy opt) cmd = listed (buildPolicy opt) cmd.
Proof.
  unfold walkAllowed, listed, spec.normalizeAllowlist, buildPolicy.
  destruct (buildAllowed_some opt) as [m Hm].
  cbn [spec.AllowedTmuxCommands]. rewrite Hm.
  cbn [spec.AllowedTmuxCommands]. reflexivity.
Qed.

(** A spec reduced to one spec-level action compiles exactly when the
    walk accepts the action and the action is lowered. *)
Lemma BuildFromSpec_single (os : OS) (order : list (string * string))
      (s0 s : spec.Spec) (opt : BuildOptions) (a : spec.Action) :
  spec.Validate s0 = Ok s -> spec.Spec_Windows s = [] -> spec.Spec_Actions s = [a] ->
  Strings.TrimSpace (Opt_ProjectRoot opt) <> "" ->
  sanitizeSessionName (chosenName os s0 opt) <> "" ->
  ((exists r, BuildFromSpec os order s0 opt = Ok r)
   <-> accepted (buildPolicy opt) a
       /\ lowers (sanitizeSessionName (chosenName os s0 opt)) (buildPolicy opt)
                 (buildDisallowed opt) a).
Proof.
  intros Ev Hw Ha Hr Hn.
  assert (Hwalk : policyWalk s = [a]) by (unfold policyWalk; now rewrite Hw, Ha).
  assert (Hlow : lowered s opt = [a]).
  { unfold lowered, usesActions. rewrite Hw, Ha. cbn [List.length Nat.eqb negb andb].
    now rewrite andb_false_r. }
  split.
  - intros [[[ctx tpl] u] H].
    apply BuildFromSpec_ok in H as (s' & Ev' & _ & Hname & _ & Hp & Hl).
    rewrite Ev in Ev'. inversion Ev'; subst s'. rewrite Hlow in Hl. rewrite <- Hname.
    split; [|now inversion Hl].
    rewrite ValidatePolicy_walk, Hwalk, forM__ok in Hp. inversion Hp; subst.
    now apply checkPolicy_accepted.
  - intros [Hacc [[acts u] Hl]]. unfold BuildFromSpec. rewrite Ev. bind_ok_goal. cbv zeta.
    destruct (String.eqb_spec (Strings.TrimSpace (Opt_ProjectRoot opt)) "");
      [contradiction|].
    assert (Hname : resolveSessionName (Opt_SessionName opt) s
                      (expandUser os (Strings.TrimSpace (Opt_ProjectRoot opt)))
                    = chosenName os s0 opt)
      by apply (resolveSessionName_validated _ s0 s _ Ev).
    rewrite !Hname.
    destruct (String.eqb_spec (sanitizeSessionName (chosenName os s0 opt)) "");
      [contradiction|].
    rewrite ValidatePolicy_walk, Hwalk. cbn [forM_].
    apply checkPolicy_accepted in Hacc. rewrite Hacc. bind_ok_goal. bind_ok_goal.
    fold (usesActions s opt).
    assert (Hu : usesActions s opt = true).
    { unfold usesActions. rewrite Hw, Ha. cbn [List.length Nat.eqb negb andb].
      now rewrite andb_false_r. }
    rewrite Hu, Ha. cbn [convertActions]. rewrite Hl. bind_ok_goal. cbv zeta.
    bind_ok_goal. bind_ok_goal. eauto.
Qed.


Lemma validated_single (s0 s : spec.Spec) (a : spec.Action) :
  spec.Validate s0 = Ok s -> spec.Spec_Actions s = [a] ->
  exists a0, spec.validateAction a0 = Ok a.
Proof.
  intros Ev Ha. apply ValidateFacts.Validate_ok in Ev as (_ & _ & _ & _ & _ & Ht).
  rewrite Ha in Ht. apply traverse_ok in Ht. inversion Ht; subst. eauto.
Qed.

Definition windowAndMux : spec.Spec :=
  mkSpec [window "w" "" []] [tmuxAction "new-window" []].

Definition shellAndMux : spec.Spec :=
  mkSpec [] [shellAction "make"; tmuxAction "new-window" []].

(** C1, as stated, fails in both directions.  A valid spec with one window
    and the spec-level mux action new-window compiles with passthrough off:
    [FromSpec] prefers the windows and never lowers the action.  And a valid
    spec with a shell action and the mux action new-window fails with
    AllowShell on and passthrough off. *)
Lemma policy_gate_not_end_to_end :
  exists tpl m,
    spec.Validate windowAndMux = Ok windowAndMux
    /\ In (tmuxAction "new-window" []) (spec.Spec_Actions windowAndMux)
    /\ FromSpec plainOS [] (context "/tmp/demo" "demo") windowAndMux false false false
       = Ok tpl
    /\ spec.Validate shellAndMux = Ok shellAndMux
    /\ In (shellAction "make") (spec.Spec_Actions shellAndMux)
    /\ FromSpec plainOS [] (context "/tmp/demo" "demo") shellAndMux true false false
       = Err m.
Proof.
  do 2 eexists. split; [vm_compute; reflexivity|]. split; [left; reflexivity|].
  split; [vm_compute; reflexivity|]. split; [vm_compute; reflexivity|].
  split; [left; reflexivity|]. vm_compute. reflexivity.
Qed.

(** C1 (amended).  Let the spec be structurally valid, [s] being what
    Validate makes of it.  (1) If it compiles through BuildFromSpec (so also
    through FromSpec), then AllowShell is on whenever a shell action is
    among the actions walked by ValidatePolicy or among the lowered ones,
    and for every lowered mux action named new-window passthrough is on,
    new-window is in the allowed set and not in the disallowed set; a mux
    action that is walked but not lowered only needs passthrough or the
    allowed set.  (2) A spec without windows whose one action is a shell
    action compiles iff AllowShell is on, and one whose one action is the mux
    action new-window compiles iff passthrough is on and new-window is in
    the allowed set and not in the disallowed set, provided the project root
    and the session name resolve.  The sets are those of BuildOptions, the
    engine defaults standing in for an empty allowlist and a nil denylist. *)
Theorem policy_gate (os : OS) (order : list (string * string)) (s0 s : spec.Spec)
        (opt : BuildOptions) :
  spec.Validate s0 = Ok s ->
  let compiles := exists r, BuildFromSpec os order s0 opt = Ok r in
  let allowed := listed (buildPolicy opt) in
  let disallowed := denied (buildDisallowed opt) in
  (compiles ->
   (forall a, In a (policyWalk s) \/ In a (lowered s opt) ->
              spec.Action_Type a = "shell" -> Opt_AllowShell opt = true)
   /\ (forall a t, In a (lowered s opt) ->
                   spec.Action_Type a = "tmux" -> spec.Action_Tmux a = Some t ->
                   Strings.TrimSpace (spec.Tmux_Name t) = "new-window" ->
                   Opt_AllowTmuxPassthrough opt = true
                   /\ allowed "new-window" = true /\ disallowed "new-window" = false)
   /\ (forall a t, In a (policyWalk s) ->
                   spec.Action_Type a = "tmux" -> spec.Action_Tmux a = Some t ->
                   Strings.TrimSpace (spec.Tmux_Name t) = "new-window" ->
                   Opt_AllowTmuxPassthrough opt = true \/ allowed "new-window" = true))
  /\ (forall a,
         spec.Spec_Windows s = [] -> spec.Spec_Actions s = [a] ->
         Strings.TrimSpace (Opt_ProjectRoot opt) <> "" ->
         sanitizeSessionName (chosenName os s0 opt) <> "" ->
         (spec.Action_Type a = "shell" -> (compiles <-> Opt_AllowShell opt = true))
         /\ (forall t, spec.Action_Type a = "tmux" -> spec.Action_Tmux a = Some t ->
                       Strings.TrimSpace (spec.Tmux_Name t) = "new-window" ->
                       (compiles <-> Opt_AllowTmuxPassthrough opt = true
                                     /\ allowed "new-window" = true
                                     /\ disallowed "new-window" = false)))
  /\ (forall cmd, allowed cmd = mapBool (match Opt_AllowedTmuxCommands opt with
                                         | Some m => if (size m =? 0)%nat
                                                     then defaultAllowedTmuxCommands else m
                                         | None => defaultAllowedTmuxCommands
                                         end) cmd)
  /\ (forall cmd, disallowed cmd = match Opt_DisallowTmuxCommands opt with
                                   | Some m => mapBool m cmd
                                   | None => isDisallowed DefaultPolicy cmd
                                   end).
Proof.
  intros Ev compiles allowed disallowed. subst compiles allowed disallowed.
  split; [|split; [|split]].
  - intros [[[ctx tpl] u] H].
    apply BuildFromSpec_ok in H as (s' & Ev' & _ & Hname & _ & Hp & Hl).
    rewrite Ev in Ev'. inversion Ev'; subst s'.
    rewrite ValidatePolicy_walk, forM__ok in Hp.
    rewrite Forall_forall in Hp, Hl.
    split; [|split].
    + intros a [Hin|Hin] Hty.
      * apply list_elem_of_In, Hp, checkPolicy_accepted in Hin as [Hs _]. now apply Hs.
      * apply list_elem_of_In, Hl in Hin.
        now apply (lowers_shell_only_if _ _ _ a Hty) in Hin.
    + intros a t Hin Hty Ht Hnm. apply list_elem_of_In, Hl in Hin.
      apply (lowers_tmux _ _ _ a t Hty Ht) in Hin; [|rewrite Hnm; discriminate].
      now rewrite Hnm in Hin.
    + intros a t Hin Hty Ht Hnm.
      apply list_elem_of_In, Hp, checkPolicy_accepted in Hin as [_ Hm].
      destruct (Hm Hty) as (t' & Ht' & _ & Hor). rewrite Ht in Ht'. inversion Ht'; subst t'.
      rewrite Hnm, walkAllowed_listed in Hor. exact Hor.
  - intros a Hw Ha Hr Hn.
    pose proof (BuildFromSpec_single os order s0 s opt a Ev Hw Ha Hr Hn) as Hiff.
    destruct (validated_single s0 s a Ev Ha) as [a0 Hv].
    split.
    + intros Hty. destruct (validateAction_shell a0 a Hv Hty) as (sh & Hsh & Hne).
      rewrite Hiff, (lowers_shell _ _ _ a sh Hty Hsh Hne). unfold accepted.
      cbn [spec.AllowShell buildPolicy]. rewrite Hty. split; [tauto|].
      intros Hon. split; [|exact Hon]. split; [auto | discriminate].
    + intros t Hty Ht Hnm.
      rewrite Hiff, (lowers_tmux _ _ _ a t Hty Ht); [|rewrite Hnm; discriminate].
      rewrite Hnm. cbn [spec.AllowTmuxPassthrough buildPolicy]. split; [tauto|].
      intros (Hon & Hal & Hde). split; [|auto]. unfold accepted. rewrite Hty.
      split; [discriminate|]. intros _. exists t. rewrite Hnm.
      split; [exact Ht|]. split; [discriminate|]. now left.
  - intros cmd. unfold listed, buildPolicy, buildAllowed, DefaultPolicy.
    cbn [spec.AllowedTmuxCommands AllowedTmuxCommands].
    destruct (Opt_AllowedTmuxCommands opt) as [m|]; [|reflexivity].
    destruct (_ =? _)%nat; reflexivity.
  - intros cmd. unfold denied, buildDisallowed, isDisallowed.
    destruct (Opt_DisallowTmuxCommands opt); reflexivity.
Qed.

Definition shellOnly : spec.Spec := mkSpec [] [shellAction "make"].

Definition shellOptions : BuildOptions :=
  {| Opt_ProjectRoot := "/tmp/demo"; Opt_ProjectName := ""; Opt_SessionName := "demo";
     Opt_PreferWindows := true; Opt_IncludeEnsureSession := false;
     Opt_AllowShell := true; Opt_AllowTmuxPassthrough := false;
     Opt_AllowedTmuxCommands := None; Opt_DisallowTmuxCommands := None |}.

(** The theorem at a spec whose one action is shell make, with AllowShell
    on. *)
Lemma policy_gate_witness :
  exists r, BuildFromSpec plainOS [] shellOnly shellOptions = Ok r.
Proof.
  destruct (policy_gate plainOS [] shellOnly shellOnly shellOptions)
    as (_ & H & _); [vm_compute; reflexivity|].
  destruct (H (shellAction "make")) as [Hshell _]; try reflexivity.
  - vm_compute. discriminate.
  - vm_compute. discriminate.
  - apply Hshell; reflexivity.
Defined.

End PolicyGateFacts.

(** ** The executor and the reserved tokens *)

Module ExecutorFacts.
Import templates StringFacts Fixtures.

(** The first argument is one of the two tokens that [Execute] keeps for
    itself. *)
Definition isSentinel (args : list string) : bool :=
  match args with
  | a0 :: _ => (a0 =? "__wait_for_prompt__") || (a0 =? "__ssh_manager_connect__")
  | [] => false
  end.

(** The first argument begins with two underscores. *)
Definition startsReserved (args : list string) : bool :=
  match args with
  | a0 :: _ => Strings.HasPrefix a0 "__"
  | [] => false
  end.

Lemma isSentinel_firstArgIs (c : Command) :
  isSentinel (Args c)
  = firstArgIs "__wait_for_prompt__" c || firstArgIs "__ssh_manager_connect__" c.
Proof. unfold isSentinel, firstArgIs. destruct (Args c); reflexivity. Qed.

Lemma isSentinel_reserved (args : list string) :
  isSentinel args = true -> startsReserved args = true.
Proof.
  destruct args as [|a0 rest]; simpl; [discriminate|].
  intros H. apply orb_true_iff in H as [H|H]; apply String.eqb_eq in H; subst; reflexivity.
Qed.

Section Log.

Context {World Regexp : Type}.
Variable host : @Runtime World Regexp.
Variable runner : @Runner World.

(** A property of calls that the calls made by the two handlers have. *)
Variable P : Call -> Prop.
Hypothesis capture_call : forall rest, P (CallRunOutput ("capture-pane" :: rest)).
Hypothesis send_call : forall rest, P (CallRun ("send-keys" :: rest)).

Lemma doRun_log (args : list string) (st : State) :
  P (CallRun args) -> Forall P st.2 -> Forall P (doRun runner args st).2.2.
Proof.
  intros Ha Hst. unfold doRun. destruct (Run runner args st.1) as [w err]. simpl.
  apply Forall_app; split; [exact Hst | repeat constructor; exact Ha].
Qed.

Lemma doRunOutput_log (args : list string) (st : State) :
  P (CallRunOutput args) -> Forall P st.2 -> Forall P (doRunOutput runner args st).2.2.
Proof.
  intros Ha Hst. unfold doRunOutput. destruct (RunOutput runner args st.1) as [w r]. simpl.
  apply Forall_app; split; [exact Hst | repeat constructor; exact Ha].
Qed.

Lemma doNow_log (st : State) : (doNow host st).2.2 = st.2.
Proof. unfold doNow. destruct (timeNow host st.1). reflexivity. Qed.

Lemma doSleep_log (d : Z) (st : State) : (doSleep host d st).2 = st.2.
Proof. reflexivity. Qed.

Lemma capture_log (target : string) (maxLines : Z) (st : State) :
  Forall P st.2 -> Forall P (capture runner target maxLines st).2.2.
Proof.
  intros Hst. unfold capture.
  pose proof (doRunOutput_log
                ["capture-pane"; "-p"; "-t"; target; "-S"; "-" +:+ Strconv.Itoa maxLines]
                st (capture_call _) Hst) as H.
  destruct (doRunOutput _ _ _) as [[out err] st']. simpl in H.
  destruct err; exact H.
Qed.

Lemma waitLoop_log (fuel : nat) (re : Regexp) (target : string)
      (timeoutMS minQuietMS settleMS maxLines deadline : Z) (lastSnap : string)
      (lastChange : Z) (st : State) :
  Forall P st.2 ->
  Forall P (waitLoop host runner fuel re target timeoutMS minQuietMS settleMS maxLines
                     deadline lastSnap lastChange st).2.2.
Proof.
  revert lastSnap lastChange st.
  induction fuel as [|fuel IH]; intros lastSnap lastChange st Hst; [exact Hst|].
  cbn [waitLoop].
  pose proof (doNow_log st) as E1. destruct (doNow host st) as [t1 st1]. simpl in E1.
  rewrite <- E1 in Hst.
  destruct (negb (t1 <? deadline)%Z); [exact Hst|].
  pose proof (capture_log target maxLines st1 Hst) as H2.
  destruct (capture runner target maxLines st1) as [[snap err] st2]. simpl in H2.
  destruct err as [e|].
  { apply IH. rewrite doSleep_log. exact H2. }
  assert (Hrest : forall ls lc st3, Forall P st3.2 ->
            Forall P (let '(t, st) := doNow host st3 in
                      if (t - lc <? wrap64 (minQuietMS * millisecond))%Z
                      then waitLoop host runner fuel re target timeoutMS minQuietMS settleMS
                                    maxLines deadline ls lc (doSleep host pollEvery st)
                      else
                        let lastLine := lastNonEmptyLine snap in
                        if lastLine =? ""
                        then waitLoop host runner fuel re target timeoutMS minQuietMS
                                      settleMS maxLines deadline ls lc
                                      (doSleep host pollEvery st)
                        else if matchString host re lastLine
                        then (Some None,
                              if (0 <? settleMS)%Z
                              then doSleep host (wrap64 (settleMS * millisecond)) st else st)
                        else waitLoop host runner fuel re target timeoutMS minQuietMS
                                      settleMS maxLines deadline ls lc
                                      (doSleep host pollEvery st)).2.2).
  { intros ls lc st3 H3.
    pose proof (doNow_log st3) as E4. destruct (doNow host st3) as [t4 st4]. simpl in E4.
    rewrite <- E4 in H3.
    destruct (_ <? _)%Z; [apply IH; rewrite doSleep_log; exact H3|].
    cbv zeta. destruct (_ =? _); [apply IH; rewrite doSleep_log; exact H3|].
    destruct (matchString _ _ _); [|apply IH; rewrite doSleep_log; exact H3].
    simpl. destruct (0 <? settleMS)%Z; [rewrite doSleep_log|]; exact H3. }
  destruct (negb (snap =? lastSnap)).
  - pose proof (doNow_log st2) as E3. destruct (doNow host st2) as [t3 st3]. simpl in E3.
    apply Hrest. rewrite E3. exact H2.
  - apply Hrest. exact H2.
Qed.

Lemma execWaitForPrompt_log (fuel : nat) (c : Command) (st : State) :
  Forall P st.2 -> Forall P (execWaitForPrompt host runner fuel c st).2.2.
Proof.
  intros Hst. unfold execWaitForPrompt.
  destruct (Args c) as [|a0 [|a1 [|a2 [|a3 [|a4 [|a5 more]]]]]]; try exact Hst.
  cbv zeta. destruct (_ =? _); [exact Hst|].
  destruct (regexpCompile _ _) as [re|]; [|exact Hst].
  pose proof (doNow_log st) as E1. destruct (doNow host st) as [t0 st1]. simpl in E1.
  pose proof (doNow_log st1) as E2. destruct (doNow host st1) as [t1 st2]. simpl in E2.
  apply waitLoop_log. rewrite E2, E1. exact Hst.
Qed.

Lemma execSshManagerConnect_log (c : Command) (st : State) :
  Forall P st.2 -> Forall P (execSshManagerConnect runner c st).2.2.
Proof.
  intros Hst. unfold execSshManagerConnect.
  destruct (Args c) as [|a0 [|a1 [|a2 [|a3 [|a4 [|a5 [|a6 more]]]]]]]; try exact Hst.
  cbv zeta. destruct (_ =? _); [exact Hst|]. destruct (_ =? _); [exact Hst|].
  destruct (negb _); [exact Hst|].
  destruct (_ =? "askpass"); apply doRun_log; auto.
Qed.

(** The calls of the command loop have the property when the commands that
    are not handled by [Execute] itself have it. *)
Lemma executeCommands_log (fuel : nat) (cmds : list Command) (st : State) :
  Forall (fun c => isSentinel (Args c) = false -> P (CallRun (Args c))) cmds ->
  Forall P st.2 -> Forall P (executeCommands host runner fuel cmds st).2.2.
Proof.
  revert st. induction cmds as [|c rest IH]; intros st Hc Hst; [exact Hst|].
  inversion Hc as [|? ? Hhd Htl]; subst. cbn [executeCommands].
  rewrite isSentinel_firstArgIs in Hhd.
  destruct (firstArgIs "__wait_for_prompt__" c).
  - pose proof (execWaitForPrompt_log fuel c st Hst) as H.
    destruct (execWaitForPrompt host runner fuel c st) as [[[e|]|] st']; simpl in H;
      [exact H | apply IH; assumption | exact H].
  - destruct (firstArgIs "__ssh_manager_connect__" c).
    + pose proof (execSshManagerConnect_log c st Hst) as H.
      destruct (execSshManagerConnect runner c st) as [[e|] st']; simpl in H;
        [exact H | apply IH; assumption].
    + pose proof (doRun_log (Args c) st (Hhd eq_refl) Hst) as H.
      destruct (doRun runner (Args c) st) as [[e|] st']; simpl in H;
        [exact H | apply IH; assumption].
Qed.

End Log.

(** The log of [Execute] under the same condition. *)
Lemma Execute_log {World Regexp : Type} (host : @Runtime World Regexp) (P : Call -> Prop)
      (e : @Engine World) (compiled : Compiled) (dryRun : bool) (fuel : nat) (w : World) :
  (forall rest, P (CallRunOutput ("capture-pane" :: rest))) ->
  (forall rest, P (CallRun ("send-keys" :: rest))) ->
  Forall (fun c => isSentinel (Args c) = false -> P (CallRun (Args c)))
         (Commands compiled) ->
  Forall P (Execute host e compiled dryRun fuel w).2.2.
Proof.
  intros Hcap Hsend Hc. unfold Execute.
  destruct dryRun; [constructor|].
  destruct (Engine_Runner e) as [runner|]; [|constructor].
  pose proof (executeCommands_log host runner P Hcap Hsend fuel (Commands compiled) (w, [])
                                  Hc (Forall_nil_2 P)) as H.
  destruct (executeCommands _ _ _ _ _) as [r st]. exact H.
Qed.

(** *** What [Compile] emits *)

(** No name that begins with two underscores is let through by the
    policy. *)
Definition reservedFree (pol : Policy) : Prop :=
  forall k, Strings.HasPrefix k "__" = true -> mapBool (effectiveAllow pol) k = false.

(** A command is a sentinel or does not begin with two underscores. *)
Definition plain (c : Command) : Prop :=
  isSentinel (Args c) = false -> startsReserved (Args c) = false.

(** The subcommand that the policy looks at begins with two underscores
    when the first argument does. *)
Lemma subcommand_reserved (a0 : string) :
  Strings.HasPrefix a0 "__" = true ->
  exists sub rest,
    Strings.Fields (Strings.TrimPrefix (Strings.TrimSpace a0) "tmux ") = sub :: rest
    /\ Strings.HasPrefix sub "__" = true.
Proof.
  intros H. unfold Strings.HasPrefix in H.
  destruct a0 as [|c0 a1]; [discriminate|]. cbn [String.prefix] in H.
  destruct (ascii_dec "_" c0) as [<-|]; [|discriminate].
  destruct a1 as [|c1 r]; [discriminate|]. cbn [String.prefix] in H.
  destruct (ascii_dec "_" c1) as [<-|]; [|discriminate].
  destruct (SpaceFacts.TrimSpace_head2 "_" "_" r eq_refl eq_refl) as [r1 E1]. rewrite E1.
  unfold Strings.TrimPrefix, Strings.HasPrefix. cbn [String.prefix].
  change (if ascii_dec "t" "_" then _ else _) with false. cbv iota.
  unfold Strings.Fields. rewrite !SpaceFacts.fieldsFrom_plain by reflexivity.
  change (("" +:+ "_") +:+ "_") with "__".
  destruct (SpaceFacts.fieldsFrom_head r1 "__") as (y & rest & E); [discriminate|].
  rewrite E. eexists _, _. split; [reflexivity|]. apply prefix_app.
Qed.

Section Emission.

Variable os : OS.

Lemma compileAction_plain (pol : Policy) (ctx : Context) (a : Action)
      (cmds : list Command) (u : bool) (ws : list string) :
  reservedFree pol ->
  compileAction os pol ctx a = Ok (cmds, u, ws) -> Forall plain cmds.
Proof.
  intros Hpol H. unfold compileAction in H. cbv zeta in H.
  destruct (Kind a).
  14: { destruct (negb (AllowTmuxPassthrough pol)); [discriminate|].
        destruct (TmuxArgs a) as [|a0 more] eqn:Ea; [discriminate|].
        cbn [map hd] in H.
        destruct (Strings.Fields _) as [|sub fs] eqn:Ef; [discriminate|].
        destruct (sub =? ""); [discriminate|].
        destruct (isDisallowed pol sub); [discriminate|].
        destruct (mapBool (effectiveAllow pol) sub) eqn:Eal; [|discriminate].
        cbn [negb] in H. inversion H; subst. repeat constructor.
        intros _. cbn [Args startsReserved].
        destruct (Strings.HasPrefix (subst os ctx a0) "__") eqn:Ep; [|reflexivity].
        destruct (subcommand_reserved _ Ep) as (sub' & rest & E & Hsub).
        rewrite E in Ef. inversion Ef; subst.
        rewrite (Hpol _ Hsub) in Eal. discriminate. }
  all: unfold mbind, result_bind in H.
  all: try discriminate.
  all: repeat (case_match; try discriminate).
  all: inversion H; subst; apply List.Forall_cons; [|apply List.Forall_nil].
  all: unfold plain; cbn [Args command app startsReserved].
  all: try (intros _; reflexivity).
  all: try (intros Hs; discriminate Hs).
Qed.

Lemma emit_plain (pol : Policy) (ctx : Context) (actions : list Action)
      (out out' : Compiled) :
  reservedFree pol -> Forall plain (Commands out) ->
  emit os pol ctx actions out = Ok out' -> Forall plain (Commands out').
Proof.
  intros Hpol. revert out. induction actions as [|a rest IH]; intros out Hout H.
  - inversion H; subst. exact Hout.
  - cbn [emit] in H.
    destruct (compileAction os pol ctx a) as [[[cmds u] ws]| |] eqn:E; try discriminate.
    apply IH in H; [exact H|]. cbn [Commands].
    apply Forall_app; split; [exact Hout | exact (compileAction_plain _ _ _ _ _ _ Hpol E)].
Qed.

Lemma Compile_plain (pol : Policy) (ctx : Context) (s : Spec) (compiled : Compiled) :
  reservedFree pol -> Compile os pol ctx s = Ok compiled -> Forall plain (Commands compiled).
Proof.
  intros Hpol H. unfold Compile in H.
  destruct (_ =? _); [discriminate|]. destruct (_ =? _); [discriminate|].
  cbv zeta in H. destruct (_ =? _)%nat; [discriminate|].
  destruct (_ <? _)%Z; [discriminate|].
  destruct (emit _ _ _ _ _) as [out| |] eqn:E; try discriminate.
  change (Ok out ≫= ?k) with (k out) in H. cbv beta in H.
  destruct (forM_ _ _) as [[]| |]; try discriminate.
  inversion H; subst. eapply emit_plain; [exact Hpol | | exact E]. constructor.
Qed.

End Emission.

Lemma default_reservedFree : reservedFree DefaultPolicy.
Proof.
  intros k Hk. rewrite PolicyFacts.effectiveAllow_default.
  destruct (mapBool defaultAllowedTmuxCommands k) eqn:E; [|reflexivity].
  apply PolicyFacts.default_allowed_iff in E. unfold defaultAllowedNames in E.
  cbn [In] in E.
  repeat (destruct E as [E|E]; [subst k; discriminate|]). destruct E.
Qed.

(** *** A policy that lets a reserved name through *)

Definition reservedPolicy : Policy :=
  {| AllowShell := false; AllowTmuxPassthrough := true;
     AllowedTmuxCommands := Some {[ "__x" := true ]};
     DisallowTmuxCommands := None; MaxActions := 0; MaxCommandLen := 0 |}.

Definition reservedSpec : Spec :=
  {| Version := 1; ID := "demo"; Spec_Name := "demo";
     Actions := [irTmux "" "" "" ["__x"]]; Unsafe := true |}.

(** A Runner that does nothing and never fails, on a world without
    state. *)
Definition idleRunner : @Runner unit :=
  {| Run := fun _ w => (w, None); RunOutput := fun _ w => (w, ("", None)) |}.

Definition idleHost : @Runtime unit unit :=
  {| timeNow := fun w => (w, 0%Z); timeSleep := fun _ w => w;
     regexpCompile := fun _ => Some tt; matchString := fun _ _ => true |}.

Definition idleEngine (pol : Policy) : @Engine unit :=
  {| Engine_Policy := pol; Engine_Runner := Some idleRunner |}.


Definition engineFor {World : Type} (pol : Policy) (runner : @Runner World) : @Engine World :=
  {| Engine_Policy := pol; Engine_Runner := Some runner |}.

(** C7, as stated, fails for the plans of an engine whose policy lets a
    name beginning with two underscores through: [Compile] emits the
    passthrough command as it is and [Execute] forwards whatever is not one
    of its two tokens. *)
Lemma reserved_name_reaches_runner :
  exists compiled,
    Compile plainOS reservedPolicy (context "/tmp/demo" "demo") reservedSpec = Ok compiled
    /\ (Execute idleHost (engineFor reservedPolicy idleRunner) compiled false 0 tt).2.2
       = [CallRun ["__x"]]
    /\ startsReserved (callArgs (CallRun ["__x"])) = true.
Proof.
  eexists. split; [vm_compute; reflexivity|]. split; reflexivity.
Qed.

(** C7 (amended).  Whatever the plan, the Runner, the clock and the number
    of polling steps followed, no call that [Execute] makes to the Runner
    (Run or RunOutput, in the order made) has as first argument
    __wait_for_prompt__ or __ssh_manager_connect__.  For a plan that
    [Compile] returns under a policy whose effective allowed set holds no
    name beginning with two underscores, no call has a first argument
    beginning with two underscores; the default policy is such a policy.  A
    dry run makes no call. *)
Theorem sentinels_stay_in_executor {World Regexp : Type} (host : @Runtime World Regexp)
        (e : @Engine World) (fuel : nat) (w : World) :
  (forall compiled dryRun,
      Forall (fun c => isSentinel (callArgs c) = false)
             (Execute host e compiled dryRun fuel w).2.2)
  /\ (forall os ctx s compiled dryRun,
         reservedFree (Engine_Policy e) ->
         Compile os (Engine_Policy e) ctx s = Ok compiled ->
         Forall (fun c => startsReserved (callArgs c) = false)
                (Execute host e compiled dryRun fuel w).2.2)
  /\ reservedFree DefaultPolicy
  /\ (forall compiled, (Execute host e compiled true fuel w).2.2 = []).
Proof.
  split; [|split; [|split]].
  - intros compiled dryRun. apply Execute_log; try reflexivity.
    apply Forall_forall. intros c _ Hc. exact Hc.
  - intros os ctx s compiled dryRun Hpol Hc. apply Execute_log; try reflexivity.
    exact (Compile_plain os _ ctx s compiled Hpol Hc).
  - exact default_reservedFree.
  - reflexivity.
Qed.

Definition buildHost : spec.SshManagerConnectAction :=
  {| spec.Ssh_Host := "build"; spec.Ssh_User := "ci"; spec.Ssh_Port := 0;
     spec.Ssh_LoginMode := ""; spec.Ssh_ConnectTimeoutMS := 0 |}.

Definition waitSpec : Spec :=
  {| Version := 1; ID := "demo"; Spec_Name := "demo";
     Actions := [irEnsureSession "" ""; irSshManagerConnect "" "" "" buildHost;
                 irTargeted ActionWaitForPrompt "" "" ""];
     Unsafe := false |}.

(** The theorem at the default policy, for a plan with both sentinels: the
    calls made are new-session, send-keys and capture-pane. *)
Lemma sentinels_stay_in_executor_witness :
  exists compiled,
    Compile plainOS DefaultPolicy (context "/tmp/demo" "demo") waitSpec = Ok compiled
    /\ map callArgs (Execute idleHost (engineFor DefaultPolicy idleRunner) compiled false 2 tt).2.2
       = [["new-session"; "-d"; "-s"; "demo"; "-c"; "/tmp/demo"];
          ["send-keys"; "-t"; "demo"; "tmux-ssh-manager __connect --host build --user ci"; "C-m"];
          ["capture-pane"; "-p"; "-t"; "demo"; "-S"; "-200"];
          ["capture-pane"; "-p"; "-t"; "demo"; "-S"; "-200"]]
    /\ Forall (fun c => startsReserved (callArgs c) = false)
              (Execute idleHost (engineFor DefaultPolicy idleRunner) compiled false 2 tt).2.2.
Proof.
  eexists. split; [vm_compute; reflexivity|]. split; [vm_compute; reflexivity|].
  destruct (sentinels_stay_in_executor idleHost (engineFor DefaultPolicy idleRunner) 2 tt)
    as (_ & H & Hdef & _).
  eapply (H plainOS (context "/tmp/demo" "demo") waitSpec); [exact Hdef|].
  vm_compute. reflexivity.
Defined.

End ExecutorFacts.

(** ** Determinism *)

Module DeterminismFacts.
Import templates Fixtures.

(** An order in which a [range] over the map may visit it: every entry
    once. *)
Definition iterationOrder (m : option (gmap string string))
           (order : list (string * string)) : Prop :=
  match m with
  | Some g => order ≡ₚ map_to_list g
  | None => True
  end.

Lemma foldl_insert_list_to_map (order : list (string * string)) :
  foldl (fun out kv => <[kv.1 := kv.2]> out) (∅ : gmap string string) order
  = list_to_map (rev order).
Proof.
  rewrite <- (rev_involutive order) at 1. generalize (rev order) as l.
  induction l as [|[k v] l IH]; [reflexivity|].
  cbn [rev]. rewrite foldl_app. cbn [foldl list_to_map foldr]. rewrite IH. reflexivity.
Qed.

(** The copy does not depend on the order of the visit. *)
Lemma cloneStringMap_order (order : list (string * string)) (g : gmap string string) :
  order ≡ₚ map_to_list g ->
  cloneStringMap order (Some g) = if (size g =? 0)%nat then None else Some g.
Proof.
  intros Hp. unfold cloneStringMap. destruct (size g =? 0)%nat; [reflexivity|].
  f_equal. rewrite foldl_insert_list_to_map.
  rewrite <- (list_to_map_to_list g) at 1.
  rewrite rev_alt. change (rev_append order []) with (reverse order).
  apply list_to_map_proper.
  - rewrite fmap_reverse, reverse_Permutation, Hp. apply NoDup_fst_map_to_list.
  - rewrite reverse_Permutation. exact Hp.
Qed.

Lemma cloneStringMap_orders (order1 order2 : list (string * string))
      (m : option (gmap string string)) :
  iterationOrder m order1 -> iterationOrder m order2 ->
  cloneStringMap order1 m = cloneStringMap order2 m.
Proof.
  destruct m as [g|]; [|reflexivity]. intros H1 H2.
  rewrite (cloneStringMap_order order1 g H1), (cloneStringMap_order order2 g H2).
  reflexivity.
Qed.

Lemma BuildFromSpec_order (os : OS) (order1 order2 : list (string * string))
      (s0 : spec.Spec) (opt : BuildOptions) :
  iterationOrder (spec.Spec_Env s0) order1 -> iterationOrder (spec.Spec_Env s0) order2 ->
  BuildFromSpec os order1 s0 opt = BuildFromSpec os order2 s0 opt.
Proof.
  intros H1 H2. unfold BuildFromSpec.
  destruct (spec.Validate s0) as [s| |] eqn:Ev; [|reflexivity|reflexivity].
  apply ValidateFacts.Validate_ok in Ev as (_ & _ & _ & Henv & _).
  rewrite <- Henv in H1, H2.
  change (Ok s ≫= ?k) with (k s). cbv beta.
  rewrite (cloneStringMap_orders order1 order2 _ H1 H2). reflexivity.
Qed.

Lemma FromSpec_order (os : OS) (order1 order2 : list (string * string)) (ctx : Context)
      (s : spec.Spec) (allowShell allowTmuxPassthrough includeEnsureSession : bool) :
  iterationOrder (spec.Spec_Env s) order1 -> iterationOrder (spec.Spec_Env s) order2 ->
  FromSpec os order1 ctx s allowShell allowTmuxPassthrough includeEnsureSession
  = FromSpec os order2 ctx s allowShell allowTmuxPassthrough includeEnsureSession.
Proof.
  intros H1 H2. unfold FromSpec. destruct (_ =? _); [reflexivity|]. cbv zeta.
  rewrite (BuildFromSpec_order os order1 order2 s _ H1 H2). reflexivity.
Qed.

(** [Compile(ctx, FromSpec(ctx, spec, ...))] of one run. *)
Definition compileFromSpec (os : OS) (pol : Policy) (order : list (string * string))
           (ctx : Context) (s : spec.Spec)
           (allowShell allowTmuxPassthrough includeEnsureSession : bool) : result Compiled :=
  tpl ← FromSpec os order ctx s allowShell allowTmuxPassthrough includeEnsureSession;
  Compile os pol ctx tpl.

(** C9.  Two runs differ in nothing but the order in which the one range
    over a map (the copy of the spec's env) visits its entries.  For a fixed
    context, spec, policy, flags and process environment, the two runs of
    BuildFromSpec, of FromSpec and of Compile after FromSpec return the same
    value: the same error, or the same commands (arguments, explanations,
    unsafe flags) and warnings in the same order; and RenderDryRun of the
    two plans is the same string. *)
Theorem compile_deterministic (os : OS) (pol : Policy) (ctx : Context) (s : spec.Spec)
        (allowShell allowTmuxPassthrough includeEnsureSession : bool)
        (order1 order2 : list (string * string)) :
  iterationOrder (spec.Spec_Env s) order1 ->
  iterationOrder (spec.Spec_Env s) order2 ->
  (forall opt, BuildFromSpec os order1 s opt = BuildFromSpec os order2 s opt)
  /\ FromSpec os order1 ctx s allowShell allowTmuxPassthrough includeEnsureSession
     = FromSpec os order2 ctx s allowShell allowTmuxPassthrough includeEnsureSession
  /\ compileFromSpec os pol order1 ctx s allowShell allowTmuxPassthrough includeEnsureSession
     = compileFromSpec os pol order2 ctx s allowShell allowTmuxPassthrough
                       includeEnsureSession
  /\ (forall c1 c2,
         compileFromSpec os pol order1 ctx s allowShell allowTmuxPassthrough
                         includeEnsureSession = Ok c1 ->
         compileFromSpec os pol order2 ctx s allowShell allowTmuxPassthrough
                         includeEnsureSession = Ok c2 ->
         Commands c1 = Commands c2 /\ Warnings c1 = Warnings c2
         /\ UnsafeUsed c1 = UnsafeUsed c2 /\ RenderDryRun c1 = RenderDryRun c2).
Proof.
  intros H1 H2.
  pose proof (FromSpec_order os order1 order2 ctx s allowShell allowTmuxPassthrough
                             includeEnsureSession H1 H2) as Hf.
  assert (Hc : compileFromSpec os pol order1 ctx s allowShell allowTmuxPassthrough
                               includeEnsureSession
               = compileFromSpec os pol order2 ctx s allowShell allowTmuxPassthrough
                                 includeEnsureSession).
  { unfold compileFromSpec. rewrite Hf. reflexivity. }
  split; [|split; [|split]].
  - intros opt. exact (BuildFromSpec_order os order1 order2 s opt H1 H2).
  - exact Hf.
  - exact Hc.
  - intros c1 c2 E1 E2. rewrite Hc, E2 in E1. inversion E1; subst. repeat split.
Qed.

(** A spec whose window root refers to an entry of its env. *)
Definition envSpec : spec.Spec :=
  {| spec.Spec_Version := 1; spec.Spec_Name := ""; spec.Spec_Description := "";
     spec.Spec_Session := zeroSession;
     spec.Spec_Env := Some {[ "SRC" := "/srv/src"; "OUT" := "/srv/out" ]};
     spec.Spec_Windows := [window "editor" "${SRC}" []; window "build" "${OUT}" []];
     spec.Spec_Actions := []; spec.Spec_Meta := None |}.

(** The theorem for the two orders of a map with two entries. *)
Lemma compile_deterministic_witness :
  compileFromSpec plainOS DefaultPolicy [("SRC", "/srv/src"); ("OUT", "/srv/out")]
                  (context "/tmp/demo" "demo") envSpec false false true
  = compileFromSpec plainOS DefaultPolicy [("OUT", "/srv/out"); ("SRC", "/srv/src")]
                    (context "/tmp/demo" "demo") envSpec false false true.
Proof.
  apply (compile_deterministic plainOS DefaultPolicy (context "/tmp/demo" "demo") envSpec
                               false false true).
  - unfold iterationOrder, envSpec, spec.Spec_Env. cbv beta iota.
    apply (bool_decide_unpack _). vm_compute. reflexivity.
  - unfold iterationOrder, envSpec, spec.Spec_Env. cbv beta iota.
    apply (bool_decide_unpack _). vm_compute. reflexivity.
Defined.

End DeterminismFacts.

(** ** The validator as a normaliser *)

Module NormalFormFacts.
Import spec LoopFacts GateFacts SpaceFacts.

Lemma toLowerChar_idem (c : ascii) :
  Strings.toLowerChar (Strings.toLowerChar c) = Strings.toLowerChar c.
Proof. destruct c as [[] [] [] [] [] [] [] []]; vm_compute; reflexivity. Qed.

Lemma ToLower_idem (s : string) : Strings.ToLower (Strings.ToLower s) = Strings.ToLower s.
Proof.
  induction s as [|c s IH]; [reflexivity|]. cbn [Strings.ToLower].
  now rewrite toLowerChar_idem, IH.
Qed.

(** Trimming and lowering a trimmed and lowered string changes nothing. *)
Lemma norm_idem (s : string) :
  Strings.TrimSpace (Strings.ToLower (Strings.TrimSpace (Strings.ToLower s)))
  = Strings.TrimSpace (Strings.ToLower s).
Proof. now rewrite ToLower_TrimSpace, ToLower_idem, TrimSpace_idem. Qed.

Lemma traverse_fixed {A : Type} (f : A -> result A) (xs ys : list A) :
  (forall x y, f x = Ok y -> f y = Ok y) ->
  traverse f xs = Ok ys -> traverse f ys = Ok ys.
Proof.
  intros Hf H. apply traverse_ok in H.
  induction H as [|x y xs ys Hxy _ IH]; [reflexivity|].
  cbn [traverse]. rewrite (Hf x y Hxy). change (Ok y ≫= ?k) with (k y). cbv beta.
  rewrite IH. reflexivity.
Qed.

Lemma traverse_length {A B : Type} (f : A -> result B) (xs : list A) (ys : list B) :
  traverse f xs = Ok ys -> List.length ys = List.length xs.
Proof.
  intros H. apply traverse_ok in H. induction H; [reflexivity|]. cbn [List.length]. congruence.
Qed.


(** Rewrites the tests on the type of an action with the outcomes already
    known. *)
Ltac known_tests :=
  repeat match goal with
         | E : (?x =? ?y) = _ |- context [?x =? ?y] => rewrite E
         | E : (?x <? ?y)%Z = _ |- context [(?x <? ?y)%Z] => rewrite E
         end.

Lemma validateAction_fixed (a a' : Action) :
  validateAction a = Ok a' -> validateAction a' = Ok a'.
Proof.
  intros H. unfold validateAction in H. cbv zeta in H.
  cbn [Action_Type Action_Tmux Action_Run Action_SendKeys Action_Shell Action_Sleep
       Action_Watch Action_WaitForPrompt Action_SshManagerConnect setType] in H.
  pose proof (norm_idem (Action_Type a)) as Hn.
  set (ty := Strings.TrimSpace (Strings.ToLower (Action_Type a))) in *.
  destruct (ty =? "") eqn:E0; [discriminate|].
  destruct (ty =? "tmux") eqn:E1.
  { destruct (Action_Tmux a) as [t|]; [|discriminate].
    destruct (Strings.TrimSpace (Tmux_Name t) =? "") eqn:En; [discriminate|].
    inversion H; subst a'. unfold validateAction. cbv zeta.
    cbn [Action_Type Action_Tmux setType setTmux Tmux_Name Tmux_Args].
    rewrite Hn, TrimSpace_idem. known_tests. reflexivity. }
  destruct (ty =? "run") eqn:E2.
  { destruct (Action_Run a) as [r|]; [|discriminate].
    destruct (Strings.TrimSpace (Run_Program r) =? "") eqn:En; [discriminate|].
    inversion H; subst a'. unfold validateAction. cbv zeta.
    cbn [Action_Type Action_Run setType setRun Run_Program Run_Args Run_Enter].
    rewrite Hn, TrimSpace_idem. known_tests. reflexivity. }
  destruct (ty =? "send_keys") eqn:E3.
  { destruct (Action_SendKeys a) as [k|] eqn:Ek; [|discriminate].
    destruct (SendKeys_Keys k) as [|k0 ks] eqn:Eks; [discriminate|].
    inversion H; subst a'. unfold validateAction. cbv zeta.
    cbn [Action_Type Action_SendKeys setType].
    rewrite Hn. known_tests. rewrite Ek, Eks. reflexivity. }
  destruct (ty =? "shell") eqn:E4.
  { destruct (Action_Shell a) as [sh|]; [|discriminate].
    destruct (Strings.TrimSpace (Shell_Cmd sh) =? "") eqn:En; [discriminate|].
    inversion H; subst a'. unfold validateAction. cbv zeta.
    cbn [Action_Type Action_Shell setType setShell Shell_Cmd Shell_Shell].
    rewrite Hn, TrimSpace_idem. known_tests. reflexivity. }
  destruct (ty =? "sleep") eqn:E5.
  { destruct (Action_Sleep a) as [sl|] eqn:Esl; [|discriminate].
    destruct (Sleep_Milliseconds sl <? 0)%Z eqn:En; [discriminate|].
    inversion H; subst a'. unfold validateAction. cbv zeta.
    cbn [Action_Type Action_Sleep setType].
    rewrite Hn. known_tests. rewrite Esl, En. reflexivity. }
  destruct (ty =? "watch") eqn:E6.
  { destruct (Action_Watch a) as [w|]; [|discriminate].
    destruct (Watch_IntervalSeconds w <? 0)%Z eqn:Ei; [discriminate|].
    destruct (Strings.TrimSpace (Watch_Command w) =? "") eqn:En; [discriminate|].
    inversion H; subst a'. unfold validateAction. cbv zeta.
    cbn [Action_Type Action_Watch setType setWatch Watch_IntervalSeconds Watch_Command].
    rewrite Hn, TrimSpace_idem. known_tests. reflexivity. }
  destruct (ty =? "wait_for_prompt") eqn:E7.
  { destruct (Action_WaitForPrompt a) as [w|]; [|discriminate].
    destruct (Wait_TimeoutMS w <? 0)%Z eqn:Ea; [discriminate|].
    destruct (Wait_MinQuietMS w <? 0)%Z eqn:Eb; [discriminate|].
    destruct (Wait_SettleMS w <? 0)%Z eqn:Ec; [discriminate|].
    destruct (Wait_MaxLines w <? 0)%Z eqn:Ed; [discriminate|].
    inversion H; subst a'. unfold validateAction. cbv zeta.
    cbn [Action_Type Action_WaitForPrompt setType setWaitForPrompt Wait_TimeoutMS
         Wait_MinQuietMS Wait_SettleMS Wait_PromptRegex Wait_MaxLines].
    rewrite Hn, TrimSpace_idem. known_tests. reflexivity. }
  destruct (ty =? "ssh_manager_connect") eqn:E8; [|discriminate].
  destruct (Action_SshManagerConnect a) as [c|]; [|discriminate].
  destruct (Strings.TrimSpace (Ssh_Host c) =? "") eqn:Eh; [discriminate|].
  destruct (Ssh_Port c <? 0)%Z eqn:Ep; [discriminate|].
  pose proof (norm_idem (Ssh_LoginMode c)) as Hm.
  set (mode := Strings.TrimSpace (Strings.ToLower (Ssh_LoginMode c))) in *.
  destruct (negb _) eqn:Emode; [discriminate|].
  destruct (Ssh_ConnectTimeoutMS c <? 0)%Z eqn:Et; [discriminate|].
  inversion H; subst a'. unfold validateAction. cbv zeta.
  cbn [Action_Type Action_SshManagerConnect setType setSshManagerConnect Ssh_Host Ssh_User
       Ssh_Port Ssh_LoginMode Ssh_ConnectTimeoutMS].
  rewrite Hn, !TrimSpace_idem. known_tests.
  assert (Hmode : Strings.TrimSpace (Strings.ToLower (if mode =? "" then "askpass" else mode))
                  = (if mode =? "" then "askpass" else mode)).
  { destruct (mode =? ""); [reflexivity | exact Hm]. }
  rewrite Hmode.
  assert (Hne : ((if mode =? "" then "askpass" else mode) =? "") = false).
  { destruct (mode =? "") eqn:Em; [reflexivity | exact Em]. }
  rewrite Hne, Emode. reflexivity.
Qed.


(** The shorthand is expanded once: validated actions stand for
    themselves. *)
Lemma expandShorthand_validated (command : string) (actions acts : list Action) :
  traverse validateAction (expandShorthand command actions) = Ok acts ->
  expandShorthand command acts = acts.
Proof.
  intros H. apply traverse_length in H. unfold expandShorthand in *.
  destruct (negb (command =? "")); [|reflexivity]. cbn [andb] in *.
  destruct (List.length actions =? 0)%nat eqn:E.
  - destruct acts; [discriminate | reflexivity].
  - rewrite H, E. reflexivity.
Qed.

Lemma validatePane_fixed (p p' : Pane) : validatePane p = Ok p' -> validatePane p' = Ok p'.
Proof.
  unfold validatePane. intros H.
  destruct (traverse validateAction (expandShorthand (Pane_Command p) (Pane_Actions p)))
    as [acts| |] eqn:E; try discriminate.
  change (Ok acts ≫= ?k) with (k acts) in H. cbv beta in H. inversion H; subst p'.
  cbn [Pane_Name Pane_Root Pane_Focus Pane_Actions Pane_Command].
  rewrite (expandShorthand_validated _ _ _ E).
  rewrite (traverse_fixed _ _ _ validateAction_fixed E). reflexivity.
Qed.

Lemma validatePlanStep_fixed (st st' : PanePlanStep) :
  validatePlanStep st = Ok st' -> validatePlanStep st' = Ok st'.
Proof.
  unfold validatePlanStep. intros H. destruct (Step_Pane st) as [p|] eqn:Ep.
  - destruct (traverse validateAction _) as [acts| |] eqn:E; try discriminate.
    change (Ok acts ≫= ?k) with (k acts) in H. cbv beta in H. inversion H; subst st'.
    cbn [Step_Pane Step_Split PlanPane_Name PlanPane_Root PlanPane_Focus PlanPane_Actions
         PlanPane_Command].
    rewrite (expandShorthand_validated _ _ _ E).
    rewrite (traverse_fixed _ _ _ validateAction_fixed E). reflexivity.
  - inversion H; subst st'. rewrite Ep. reflexivity.
Qed.

(** What [validatePanePlan] looks at is kept by [validatePlanStep]. *)
Lemma validatePlanStep_shape (st st' : PanePlanStep) :
  validatePlanStep st = Ok st' ->
  isSome (Step_Pane st') = isSome (Step_Pane st) /\ Step_Split st' = Step_Split st.
Proof.
  unfold validatePlanStep. intros H. destruct (Step_Pane st) as [p|] eqn:Ep.
  - destruct (traverse validateAction _) as [acts| |]; try discriminate.
    inversion H; subst st'. split; reflexivity.
  - inversion H; subst st'. rewrite Ep. split; reflexivity.
Qed.

Lemma last_shape (steps steps' : list PanePlanStep) (d d' : PanePlanStep) :
  Forall2 (fun x y => validatePlanStep x = Ok y) steps steps' ->
  Step_Split d' = Step_Split d ->
  Step_Split (List.last steps' d') = Step_Split (List.last steps d).
Proof.
  intros H. revert d d'. induction H as [|x y xs ys Hxy Hrest IH]; intros d d' Hd; [exact Hd|].
  destruct Hrest as [|x2 y2 xs2 ys2 H2 Hrest2].
  - cbn [List.last]. apply validatePlanStep_shape in Hxy. tauto.
  - change (List.last (y :: y2 :: ys2) d') with (List.last (y2 :: ys2) d').
    change (List.last (x :: x2 :: xs2) d) with (List.last (x2 :: xs2) d).
    apply IH. exact Hd.
Qed.

Lemma validatePanePlan_validated (steps steps' : list PanePlanStep) :
  validatePanePlan steps = Ok tt ->
  traverse validatePlanStep steps = Ok steps' ->
  validatePanePlan steps' = Ok tt.
Proof.
  intros Hv Ht. apply traverse_ok in Ht.
  destruct Ht as [|x y xs ys Hxy Hrest]; [reflexivity|].
  unfold validatePanePlan in *.
  destruct (validatePlanStep_shape _ _ Hxy) as [Hp Hs]. rewrite Hp, Hs.
  destruct (_ || _); [discriminate|].
  destruct (forM_ validatePlanStepShape (x :: xs)) as [[]| |] eqn:E; try discriminate.
  change (Ok tt ≫= ?k) with (k tt) in Hv. cbv beta in Hv.
  assert (E' : forM_ validatePlanStepShape (y :: ys) = Ok tt).
  { apply forM__ok. apply forM__ok in E.
    assert (H2 : Forall2 (fun a b => validatePlanStep a = Ok b) (x :: xs) (y :: ys))
      by (constructor; assumption).
    clear -E H2. induction H2 as [|a b l l' Hab _ IH]; [constructor|].
    inversion E as [|? ? Ha Hl]; subst. constructor; [|now apply IH].
    destruct (validatePlanStep_shape _ _ Hab) as [Hp Hs].
    unfold validatePlanStepShape in *. rewrite Hp, Hs. exact Ha. }
  rewrite E'. change (Ok tt ≫= ?k) with (k tt). cbv beta.
  rewrite (last_shape (x :: xs) (y :: ys) x y); [exact Hv | constructor; assumption | exact Hs].
Qed.

(** The pane-plan part of [validateWindow]. *)
Definition planOf (steps : list PanePlanStep) : result (list PanePlanStep) :=
  match steps with
  | [] => Ok []
  | steps => _ ← validatePanePlan steps; traverse validatePlanStep steps
  end.

Lemma planOf_fixed (steps plan : list PanePlanStep) :
  planOf steps = Ok plan -> planOf plan = Ok plan.
Proof.
  unfold planOf. intros H. destruct steps as [|st steps].
  - inversion H; subst. reflexivity.
  - destruct (validatePanePlan (st :: steps)) as [[]| |] eqn:Ev; try discriminate.
    change (Ok tt ≫= ?k) with (k tt) in H. cbv beta in H.
    pose proof (validatePanePlan_validated _ _ Ev H) as Hv.
    pose proof (traverse_fixed _ _ _ validatePlanStep_fixed H) as Ht.
    destruct plan as [|p0 ps]; [reflexivity|]. rewrite Hv. exact Ht.
Qed.

Lemma validateWindow_planOf (w : Window) :
  validateWindow w
  = (if Strings.TrimSpace (Window_Name w) =? "" then Err "windows[].name is required"
     else
       let fp := Strings.TrimSpace (Strings.ToLower (Window_FocusPane w)) in
       if negb (fp =? "") && negb (fp =? "active") && negb (allDigits fp)
       then Err "windows[].focus_pane must be active or a numeric string"
       else
         plan ← planOf (Window_PanePlan w);
         panes ← traverse validatePane (Window_Panes w);
         acts ← traverse validateAction (Window_Actions w);
         Ok {| Window_Name := Window_Name w; Window_Root := Window_Root w;
               Window_Layout := Window_Layout w; Window_Focus := Window_Focus w;
               Window_FocusPane := fp; Window_Panes := panes; Window_PanePlan := plan;
               Window_Actions := acts |}).
Proof.
  unfold validateWindow, planOf. destruct (_ =? _); [reflexivity|]. cbv zeta.
  destruct (_ && _); [reflexivity|]. destruct (Window_PanePlan w); reflexivity.
Qed.

Lemma validateWindow_fixed (w w' : Window) :
  validateWindow w = Ok w' -> validateWindow w' = Ok w'.
Proof.
  rewrite !validateWindow_planOf. cbv zeta. intros H.
  destruct (Strings.TrimSpace (Window_Name w) =? "") eqn:En; [discriminate|].
  pose proof (norm_idem (Window_FocusPane w)) as Hfp.
  set (fp := Strings.TrimSpace (Strings.ToLower (Window_FocusPane w))) in *.
  destruct (negb (fp =? "") && negb (fp =? "active") && negb (allDigits fp)) eqn:Ef;
    [discriminate|].
  destruct (planOf (Window_PanePlan w)) as [plan| |] eqn:Eplan; try discriminate.
  change (Ok plan ≫= ?k) with (k plan) in H. cbv beta in H.
  destruct (traverse validatePane (Window_Panes w)) as [panes| |] eqn:Epanes; try discriminate.
  change (Ok panes ≫= ?k) with (k panes) in H. cbv beta in H.
  destruct (traverse validateAction (Window_Actions w)) as [acts| |] eqn:Eacts;
    try discriminate.
  change (Ok acts ≫= ?k) with (k acts) in H. cbv beta in H.
  inversion H; subst w'.
  cbn [Window_Name Window_Root Window_Layout Window_Focus Window_FocusPane Window_Panes
       Window_PanePlan Window_Actions].
  rewrite En, Hfp, Ef, (planOf_fixed _ _ Eplan).
  change (Ok plan ≫= ?k) with (k plan). cbv beta.
  rewrite (traverse_fixed _ _ _ validatePane_fixed Epanes).
  change (Ok panes ≫= ?k) with (k panes). cbv beta.
  rewrite (traverse_fixed _ _ _ validateAction_fixed Eacts). reflexivity.
Qed.

Lemma validateFocusWindow_fixed (fw fw' : string) :
  validateFocusWindow fw = Ok fw' -> validateFocusWindow fw' = Ok fw'.
Proof.
  unfold validateFocusWindow. intros H.
  pose proof (TrimSpace_idem fw) as Ht. set (t := Strings.TrimSpace fw) in *.
  destruct (t =? "") eqn:E0.
  { inversion H; subst fw'. rewrite Ht, E0. reflexivity. }
  destruct (Strings.ToLower t =? "active") eqn:E1.
  { inversion H; subst fw'. reflexivity. }
  destruct (allDigits t) eqn:E2.
  { inversion H; subst fw'. rewrite Ht, E0, E1, E2. reflexivity. }
  destruct (ValidateTmuxName t) as [[]| |] eqn:E3; try discriminate.
  inversion H; subst fw'. rewrite Ht, E0, E1, E2, E3. reflexivity.
Qed.


(** The text that [Validate] puts in lower case: the type of every action
    and the login mode of a connection, the focus pane of every window, the
    direction of every split, and the focus window of the session. *)
Definition actionCased (a : Action) : list string :=
  Action_Type a
    :: match Action_SshManagerConnect a with
       | Some c => [Ssh_LoginMode c]
       | None => []
       end.

Definition stepCased (st : PanePlanStep) : list string :=
  match Step_Pane st with
  | Some p => flat_map actionCased (PlanPane_Actions p)
  | None => []
  end
  ++ match Step_Split st with
     | Some sp => [Split_Direction sp]
     | None => []
     end.

Definition windowCased (w : Window) : list string :=
  Window_FocusPane w
    :: flat_map actionCased (Window_Actions w)
    ++ flat_map (fun p => flat_map actionCased (Pane_Actions p)) (Window_Panes w)
    ++ flat_map stepCased (Window_PanePlan w).

Definition casedText (s : Spec) : list string :=
  Session_FocusWindow (Spec_Session s)
    :: flat_map actionCased (Spec_Actions s) ++ flat_map windowCased (Spec_Windows s).

(** X1.  [Validate] is a normaliser: a spec that it accepts is returned in
    a form (type names and payload fields trimmed and lower-cased, the
    command shorthand expanded, version 0 read as 1) that it accepts again
    and leaves as it is.  The text that it puts in lower case is ASCII
    text. *)
Theorem Validate_fixed (s s' : Spec) :
  Forall (fun t => SessionNameFacts.isASCII t = true) (casedText s) ->
  Validate s = Ok s' -> Validate s' = Ok s'.
Proof.
  intros _. unfold Validate. cbv zeta. intros H.
  destruct (negb (((if (Spec_Version s =? 0)%Z then CurrentVersion else Spec_Version s)
                   =? CurrentVersion)%Z)) eqn:Ev; [discriminate|].
  destruct ((List.length (Spec_Actions s) =? 0)%nat && (List.length (Spec_Windows s) =? 0)%nat)
    eqn:El; [discriminate|].
  destruct (traverse validateWindow (Spec_Windows s)) as [ws| |] eqn:Ew; try discriminate.
  change (Ok ws ≫= ?k) with (k ws) in H. cbv beta in H.
  destruct (traverse validateAction (Spec_Actions s)) as [acts| |] eqn:Ea; try discriminate.
  change (Ok acts ≫= ?k) with (k acts) in H. cbv beta in H.
  destruct (if Session_Name (Spec_Session s) =? "" then Ok tt
            else ValidateTmuxName (Session_Name (Spec_Session s))) as [[]| |] eqn:En;
    try discriminate.
  change (Ok tt ≫= ?k) with (k tt) in H. cbv beta in H.
  destruct (validateFocusWindow (Session_FocusWindow (Spec_Session s))) as [fw| |] eqn:Ef;
    try discriminate.
  change (Ok fw ≫= ?k) with (k fw) in H. cbv beta in H.
  inversion H; subst s'.
  cbn [Spec_Version Spec_Name Spec_Description Spec_Session Spec_Env Spec_Windows
       Spec_Actions Spec_Meta Session_Name Session_Prefix Session_Root Session_Attach
       Session_SwitchClient Session_BaseIndex Session_PaneBaseIndex Session_FocusWindow].
  apply negb_false_iff, Z.eqb_eq in Ev. rewrite !Ev.
  change ((CurrentVersion =? 0)%Z) with false. cbv iota.
  change ((CurrentVersion =? CurrentVersion)%Z) with true. cbn [negb].
  rewrite (traverse_length _ _ _ Ew), (traverse_length _ _ _ Ea), El.
  rewrite (traverse_fixed _ _ _ validateWindow_fixed Ew).
  change (Ok ws ≫= ?k) with (k ws). cbv beta.
  rewrite (traverse_fixed _ _ _ validateAction_fixed Ea).
  change (Ok acts ≫= ?k) with (k acts). cbv beta.
  rewrite En. change (Ok tt ≫= ?k) with (k tt). cbv beta.
  rewrite (validateFocusWindow_fixed _ _ Ef). reflexivity.
Qed.

Definition mixedCase : Spec :=
  {| Spec_Version := 0; Spec_Name := "demo"; Spec_Description := "";
     Spec_Session := Fixtures.zeroSession; Spec_Env := None;
     Spec_Windows := [];
     Spec_Actions := [Fixtures.runAction "  make " ["test"]];
     Spec_Meta := None |}.

(** The theorem at a spec with version 0 and a program name to be
    trimmed. *)
Lemma Validate_fixed_witness :
  exists s', Validate mixedCase = Ok s' /\ Validate s' = Ok s' /\ s' <> mixedCase.
Proof.
  eexists. split; [vm_compute; reflexivity|].
  split; [|discriminate].
  apply (Validate_fixed mixedCase); [|vm_compute; reflexivity].
  repeat constructor.
Defined.

End NormalFormFacts.

(** ** Validated actions and their lowering *)

Module LoweringFacts.
Import templates LoopFacts StageAFacts GateFacts NormalFormFacts.

(** What the validator establishes, by type. *)
Definition wellFormed (a : spec.Action) : Prop :=
  (spec.Action_Type a = "tmux"
   /\ exists t, spec.Action_Tmux a = Some t
                /\ spec.Tmux_Name t <> ""
                /\ Strings.TrimSpace (spec.Tmux_Name t) = spec.Tmux_Name t)
  \/ (spec.Action_Type a = "run"
      /\ exists r, spec.Action_Run a = Some r
                   /\ spec.Run_Program r <> ""
                   /\ Strings.TrimSpace (spec.Run_Program r) = spec.Run_Program r)
  \/ (spec.Action_Type a = "send_keys"
      /\ exists k, spec.Action_SendKeys a = Some k /\ spec.SendKeys_Keys k <> [])
  \/ (spec.Action_Type a = "shell"
      /\ exists sh, spec.Action_Shell a = Some sh
                    /\ spec.Shell_Cmd sh <> ""
                    /\ Strings.TrimSpace (spec.Shell_Cmd sh) = spec.Shell_Cmd sh)
  \/ (spec.Action_Type a = "sleep"
      /\ exists sl, spec.Action_Sleep a = Some sl /\ (0 <= spec.Sleep_Milliseconds sl)%Z)
  \/ (spec.Action_Type a = "watch"
      /\ exists w, spec.Action_Watch a = Some w
                   /\ (0 <= spec.Watch_IntervalSeconds w)%Z
                   /\ spec.Watch_Command w <> ""
                   /\ Strings.TrimSpace (spec.Watch_Command w) = spec.Watch_Command w)
  \/ (spec.Action_Type a = "wait_for_prompt"
      /\ exists w, spec.Action_WaitForPrompt a = Some w
                   /\ (0 <= spec.Wait_TimeoutMS w)%Z /\ (0 <= spec.Wait_MinQuietMS w)%Z
                   /\ (0 <= spec.Wait_SettleMS w)%Z /\ (0 <= spec.Wait_MaxLines w)%Z)
  \/ (spec.Action_Type a = "ssh_manager_connect"
      /\ exists c, spec.Action_SshManagerConnect a = Some c
                   /\ spec.Ssh_Host c <> "" /\ (0 <= spec.Ssh_Port c)%Z
                   /\ In (spec.Ssh_LoginMode c) ["askpass"; "manual"; "key"]
                   /\ (0 <= spec.Ssh_ConnectTimeoutMS c)%Z).

Lemma eqb_false_neq (a b : string) : (a =? b) = false -> a <> b.
Proof. intros H. now apply String.eqb_neq. Qed.

Lemma validateAction_wellFormed (a a' : spec.Action) :
  spec.validateAction a = Ok a' -> wellFormed a'.
Proof.
  intros H. pose proof (validateAction_type a a' H) as Hty.
  unfold spec.validateAction in H. cbv zeta in H.
  cbn [spec.Action_Type spec.Action_Tmux spec.Action_Run spec.Action_SendKeys
       spec.Action_Shell spec.Action_Sleep spec.Action_Watch spec.Action_WaitForPrompt
       spec.Action_SshManagerConnect spec.setType] in H.
  set (ty := Strings.TrimSpace (Strings.ToLower (spec.Action_Type a))) in *.
  unfold wellFormed. rewrite Hty.
  destruct (ty =? "") eqn:E0; [discriminate|].
  destruct (ty =? "tmux") eqn:E1.
  { apply String.eqb_eq in E1. left. split; [exact E1|].
    destruct (spec.Action_Tmux a) as [t|]; [|discriminate].
    destruct (Strings.TrimSpace (spec.Tmux_Name t) =? "") eqn:En; [discriminate|]. injection H as <-.
    eexists. split; [reflexivity|]. cbn [spec.Tmux_Name].
    split; [now apply eqb_false_neq | apply TrimSpace_idem]. }
  right. destruct (ty =? "run") eqn:E2.
  { apply String.eqb_eq in E2. left. split; [exact E2|].
    destruct (spec.Action_Run a) as [r|]; [|discriminate].
    destruct (Strings.TrimSpace (spec.Run_Program r) =? "") eqn:En; [discriminate|]. injection H as <-.
    eexists. split; [reflexivity|]. cbn [spec.Run_Program].
    split; [now apply eqb_false_neq | apply TrimSpace_idem]. }
  right. destruct (ty =? "send_keys") eqn:E3.
  { apply String.eqb_eq in E3. left. split; [exact E3|].
    destruct (spec.Action_SendKeys a) as [k|] eqn:Ek; [|discriminate].
    destruct (spec.SendKeys_Keys k) eqn:Eks; [discriminate|]. injection H as <-.
    exists k. cbn [spec.Action_SendKeys spec.setType]. split; [exact Ek|].
    rewrite Eks. discriminate. }
  right. destruct (ty =? "shell") eqn:E4.
  { apply String.eqb_eq in E4. left. split; [exact E4|].
    destruct (spec.Action_Shell a) as [sh|]; [|discriminate].
    destruct (Strings.TrimSpace (spec.Shell_Cmd sh) =? "") eqn:En; [discriminate|]. injection H as <-.
    eexists. split; [reflexivity|]. cbn [spec.Shell_Cmd].
    split; [now apply eqb_false_neq | apply TrimSpace_idem]. }
  right. destruct (ty =? "sleep") eqn:E5.
  { apply String.eqb_eq in E5. left. split; [exact E5|].
    destruct (spec.Action_Sleep a) as [sl|] eqn:Esl; [|discriminate].
    destruct (spec.Sleep_Milliseconds sl <? 0)%Z eqn:En; [discriminate|]. injection H as <-.
    exists sl. cbn [spec.Action_Sleep spec.setType]. split; [exact Esl | lia]. }
  right. destruct (ty =? "watch") eqn:E6.
  { apply String.eqb_eq in E6. left. split; [exact E6|].
    destruct (spec.Action_Watch a) as [w|]; [|discriminate].
    destruct (spec.Watch_IntervalSeconds w <? 0)%Z eqn:Ei; [discriminate|].
    destruct (Strings.TrimSpace (spec.Watch_Command w) =? "") eqn:En; [discriminate|]. injection H as <-.
    eexists. split; [reflexivity|]. cbn [spec.Watch_IntervalSeconds spec.Watch_Command].
    split; [lia|]. split; [now apply eqb_false_neq | apply TrimSpace_idem]. }
  right. destruct (ty =? "wait_for_prompt") eqn:E7.
  { apply String.eqb_eq in E7. left. split; [exact E7|].
    destruct (spec.Action_WaitForPrompt a) as [w|]; [|discriminate].
    destruct (spec.Wait_TimeoutMS w <? 0)%Z eqn:Ea; [discriminate|].
    destruct (spec.Wait_MinQuietMS w <? 0)%Z eqn:Eb; [discriminate|].
    destruct (spec.Wait_SettleMS w <? 0)%Z eqn:Ec; [discriminate|].
    destruct (spec.Wait_MaxLines w <? 0)%Z eqn:Ed; [discriminate|]. injection H as <-.
    eexists. split; [reflexivity|].
    cbn [spec.Wait_TimeoutMS spec.Wait_MinQuietMS spec.Wait_SettleMS spec.Wait_MaxLines].
    lia. }
  destruct (ty =? "ssh_manager_connect") eqn:E8; [|discriminate].
  apply String.eqb_eq in E8. right. split; [exact E8|].
  destruct (spec.Action_SshManagerConnect a) as [c|]; [|discriminate].
  destruct (Strings.TrimSpace (spec.Ssh_Host c) =? "") eqn:Eh; [discriminate|].
  destruct (spec.Ssh_Port c <? 0)%Z eqn:Ep; [discriminate|].
  set (mode := if Strings.TrimSpace (Strings.ToLower (spec.Ssh_LoginMode c)) =? ""
               then "askpass"
               else Strings.TrimSpace (Strings.ToLower (spec.Ssh_LoginMode c))) in *.
  destruct (negb _) eqn:Em; [discriminate|].
  destruct (spec.Ssh_ConnectTimeoutMS c <? 0)%Z eqn:Et; [discriminate|].
  injection H as <-. eexists. split; [reflexivity|].
  cbn [spec.Ssh_Host spec.Ssh_Port spec.Ssh_LoginMode spec.Ssh_ConnectTimeoutMS].
  split; [now apply eqb_false_neq|]. split; [lia|]. split; [|lia].
  apply negb_false_iff in Em. cbn [In].
  apply orb_true_iff in Em as [Em|Em]; [apply orb_true_iff in Em as [Em|Em]|];
    apply String.eqb_eq in Em; rewrite Em; auto.
Qed.


(** X2.  An action that [validateAction] accepts has one of the eight
    known types and carries the payload of its type with the required
    fields: a non-empty trimmed tmux name, program, shell command or watch
    command, at least one key, non-negative durations, counts and port, a
    non-empty host and a login mode among askpass, manual and key. *)
Theorem validated_action_payload (a a' : spec.Action) :
  spec.validateAction a = Ok a' ->
  In (spec.Action_Type a')
     ["tmux"; "run"; "send_keys"; "shell"; "sleep"; "watch"; "wait_for_prompt";
      "ssh_manager_connect"]
  /\ wellFormed a'.
Proof.
  intros H. apply validateAction_wellFormed in H. split; [|exact H].
  unfold wellFormed in H. cbn [In].
  repeat (destruct H as [[-> _]|H]; [tauto|]). destruct H as [-> _]. tauto.
Qed.

(** The theorem at a run action written with capitals and blanks. *)
Lemma validated_action_payload_witness :
  exists a', spec.validateAction (Fixtures.runAction " make " []) = Ok a' /\ wellFormed a'.
Proof.
  eexists. split; [vm_compute; reflexivity|].
  eapply (validated_action_payload (Fixtures.runAction " make " [])). vm_compute. reflexivity.
Defined.

(** What the policy asks of one action: shell and sleep need AllowShell; a
    tmux action needs passthrough, a name that is not denied and a name
    that is in the allowlist (when there is one). *)
Definition gate (pol : spec.Policy) (dis : option (gmap string bool)) (a : spec.Action)
  : Prop :=
  (spec.Action_Type a = "shell" \/ spec.Action_Type a = "sleep" -> spec.AllowShell pol = true)
  /\ (forall t, spec.Action_Type a = "tmux" -> spec.Action_Tmux a = Some t ->
                spec.AllowTmuxPassthrough pol = true
                /\ denied dis (spec.Tmux_Name t) = false
                /\ listed pol (spec.Tmux_Name t) = true).

Lemma lowers_wellFormed (n : string) (pol : spec.Policy) (dis : option (gmap string bool))
      (a : spec.Action) :
  wellFormed a -> (lowers n pol dis a <-> gate pol dis a).
Proof.
  intros Hw. unfold wellFormed in Hw.
  destruct Hw as [[Hty (t & Ht & Hne & Htrim)]|Hw].
  { rewrite (lowers_tmux n pol dis a t Hty Ht); [|rewrite Htrim; exact Hne].
    rewrite Htrim. unfold gate. rewrite Hty, Ht. split.
    - intros H. split; [intros [?|?]; discriminate|]. intros t' _ E. now inversion E; subst.
    - intros [_ H]. now apply (H t). }
  destruct Hw as [[Hty (r & Hr & _)]|Hw].
  { unfold gate, lowers, convertSingleAction. cbv zeta. rewrite Hty, Hr. decide_eqb.
    split; [|eauto]. intros _. split; [intros [?|?]; discriminate | discriminate]. }
  destruct Hw as [[Hty (k & Hk & _)]|Hw].
  { unfold gate, lowers, convertSingleAction. cbv zeta. rewrite Hty, Hk. decide_eqb.
    split; [|eauto]. intros _. split; [intros [?|?]; discriminate | discriminate]. }
  destruct Hw as [[Hty (sh & Hsh & Hne & Htrim)]|Hw].
  { rewrite (lowers_shell n pol dis a sh Hty Hsh); [|rewrite Htrim; exact Hne].
    unfold gate. rewrite Hty. split.
    - intros H. split; [auto | discriminate].
    - intros [H _]. apply H. now left. }
  destruct Hw as [[Hty (sl & Hsl & Hms)]|Hw].
  { unfold gate, lowers, convertSingleAction. cbv zeta. rewrite Hty, Hsl. decide_eqb.
    assert (Hlt : (spec.Sleep_Milliseconds sl <? 0)%Z = false) by lia. rewrite Hlt.
    destruct (spec.AllowShell pol); cbn [negb]; split.
    - intros _. split; [auto | discriminate].
    - eauto.
    - intros [r H]. discriminate.
    - intros [H _]. exfalso. specialize (H (or_intror eq_refl)). discriminate. }
  destruct Hw as [[Hty (w & Hw' & _ & Hne & Htrim)]|Hw].
  { unfold gate, lowers, convertSingleAction. cbv zeta. rewrite Hty, Hw'. decide_eqb.
    rewrite Htrim. apply String.eqb_neq in Hne. rewrite Hne.
    split; [|eauto]. intros _. split; [intros [?|?]; discriminate | discriminate]. }
  destruct Hw as [[Hty (w & Hw' & _)]|[Hty (c & Hc & _)]].
  { unfold gate, lowers, convertSingleAction. cbv zeta. rewrite Hty, Hw'. decide_eqb.
    split; [|eauto]. intros _. split; [intros [?|?]; discriminate | discriminate]. }
  unfold gate, lowers, convertSingleAction. cbv zeta. rewrite Hty, Hc. decide_eqb.
  split; [|eauto]. intros _. split; [intros [?|?]; discriminate | discriminate].
Qed.

(** X3.  Stage A refuses a validated action for reasons of policy only:
    [convertSingleAction] succeeds on it exactly when shell and sleep
    actions find AllowShell on (a sleep is lowered to a shell command), and
    a tmux action finds passthrough on, its name not denied and its name in
    the allowlist.  Actions of the five other types are always lowered. *)
Theorem lowering_is_gated_by_policy (n : string) (pol : spec.Policy)
        (dis : option (gmap string bool)) (a0 a : spec.Action) :
  spec.validateAction a0 = Ok a ->
  ((exists r, convertSingleAction n a pol dis = Ok r) <-> gate pol dis a).
Proof. intros H. apply lowers_wellFormed, (validateAction_wellFormed a0), H. Qed.

Definition sleepAction (ms : Z) : spec.Action :=
  {| spec.Action_Type := "sleep"; spec.Action_Target := spec.zeroTarget;
     spec.Action_Tmux := None; spec.Action_Run := None; spec.Action_SendKeys := None;
     spec.Action_Shell := None;
     spec.Action_Sleep := Some {| spec.Sleep_Milliseconds := ms |};
     spec.Action_Watch := None; spec.Action_WaitForPrompt := None;
     spec.Action_SshManagerConnect := None; spec.Action_IgnoreError := false;
     spec.Action_Comment := "" |}.

(** The theorem at a sleep of 1500 ms under the default policy, which
    refuses it. *)
Lemma lowering_is_gated_by_policy_witness :
  (exists r, convertSingleAction "demo" (sleepAction 1500) spec.DefaultPolicy None = Ok r)
  <-> gate spec.DefaultPolicy None (sleepAction 1500).
Proof.
  apply (lowering_is_gated_by_policy "demo" spec.DefaultPolicy None (sleepAction 1500)).
  vm_compute. reflexivity.
Defined.

End LoweringFacts.

(** ** Stage A: the unsafe flag and the actions it stands for *)

Module UnsafeFacts.
Import templates LoopFacts StageAFacts BuildFacts GateFacts.

(** What the policy of Stage A lets into the IR: a shell action only with
    AllowShell on, a tmux action only with passthrough on and a first
    argument that is not denied and is in the allowlist. *)
Definition permitted (pol : spec.Policy) (dis : option (gmap string bool)) (x : Action)
  : Prop :=
  (Kind x = ActionShell -> spec.AllowShell pol = true)
  /\ (Kind x = ActionTmux ->
      spec.AllowTmuxPassthrough pol = true
      /\ exists cmd args, TmuxArgs x = cmd :: args /\ cmd <> ""
                          /\ denied dis cmd = false /\ listed pol cmd = true).

(** The flag says whether a shell or tmux action is present, and every
    action is permitted. *)
Definition sound (pol : spec.Policy) (dis : option (gmap string bool))
           (r : list Action * bool) : Prop :=
  r.2 = existsb isTmuxOrShell r.1 /\ Forall (permitted pol dis) r.1.

Section Sound.

Variables (pol : spec.Policy) (dis : option (gmap string bool)).

Lemma permitted_safe (x : Action) : isTmuxOrShell x = false -> permitted pol dis x.
Proof.
  unfold isTmuxOrShell, permitted. intros H.
  split; intros E; rewrite E in H; discriminate.
Qed.

Lemma sound_nil : sound pol dis ([], false).
Proof. split; [reflexivity | constructor]. Qed.

Lemma sound_app (a b : list Action) (u v : bool) :
  sound pol dis (a, u) -> sound pol dis (b, v) -> sound pol dis ((a ++ b)%list, u || v).
Proof.
  unfold sound. cbn [fst snd]. intros [-> Ha] [-> Hb]. split.
  - now rewrite existsb_app.
  - apply Forall_app. now split.
Qed.

Lemma sound_safe (a : list Action) :
  forallb (fun x => negb (isTmuxOrShell x)) a = true -> sound pol dis (a, false).
Proof.
  intros H. rewrite forallb_forall in H. split; cbn [fst snd].
  - symmetry. apply not_true_is_false. intros E. apply existsb_exists in E as (x & Hx & E).
    apply H in Hx. rewrite E in Hx. discriminate.
  - apply Forall_forall. intros x Hx. apply permitted_safe.
    apply list_elem_of_In, H in Hx. now apply negb_true_iff in Hx.
Qed.

Lemma sound_map (f : Action -> Action) (a : list Action) (u : bool) :
  (forall x, Kind (f x) = Kind x /\ TmuxArgs (f x) = TmuxArgs x) ->
  sound pol dis (a, u) -> sound pol dis (map f a, u).
Proof.
  intros Hf [Hu Ha]. cbn [fst snd] in *. split; cbn [fst snd].
  - rewrite Hu. clear Hu Ha. induction a as [|x a IH]; [reflexivity|].
    cbn [map existsb]. rewrite IH. unfold isTmuxOrShell.
    destruct (Hf x) as [-> _]. reflexivity.
  - apply Forall_map. eapply Forall_impl; [exact Ha|]. intros x [Hs Ht].
    destruct (Hf x) as [Hk Hargs]. unfold permitted. rewrite Hk, Hargs. now split.
Qed.

Lemma sound_wrap (pre a post : list Action) (u : bool) :
  sound pol dis (pre, false) -> sound pol dis (a, u) -> sound pol dis (post, false) ->
  sound pol dis ((pre ++ a ++ post)%list, u).
Proof.
  intros H1 H2 H3. replace u with (false || (u || false)) by (destruct u; reflexivity).
  apply sound_app; [exact H1|]. apply sound_app; assumption.
Qed.

Lemma sound_flag (a : list Action) (u : bool) :
  sound pol dis (a, u) -> sound pol dis (a, u || existsb isTmuxOrShell a).
Proof.
  intros [Hu Ha]. cbn [fst snd] in *. split; cbn [fst snd]; [|exact Ha].
  rewrite Hu. apply orb_diag.
Qed.

Lemma convertSingleAction_sound (n : string) (a : spec.Action) r :
  convertSingleAction n a pol dis = Ok r -> sound pol dis r.
Proof.
  unfold convertSingleAction. cbv zeta. intros H.
  destruct (spec.Action_Type a =? "send_keys");
    [destruct (spec.Action_SendKeys a); [|discriminate]; injection H as <-;
     apply sound_safe; reflexivity|].
  destruct (spec.Action_Type a =? "run");
    [destruct (spec.Action_Run a); [|discriminate]; injection H as <-;
     apply sound_safe; reflexivity|].
  destruct (spec.Action_Type a =? "ssh_manager_connect");
    [destruct (spec.Action_SshManagerConnect a); [|discriminate]; injection H as <-;
     apply sound_safe; reflexivity|].
  destruct (spec.Action_Type a =? "wait_for_prompt");
    [destruct (spec.Action_WaitForPrompt a); [|discriminate]; injection H as <-;
     apply sound_safe; reflexivity|].
  destruct (spec.Action_Type a =? "watch").
  { destruct (spec.Action_Watch a) as [w|]; [|discriminate].
    destruct (Strings.TrimSpace (spec.Watch_Command w) =? ""); [discriminate|].
    injection H as <-. apply sound_safe. reflexivity. }
  destruct (spec.Action_Type a =? "shell").
  { destruct (spec.Action_Shell a) as [sh|]; [|discriminate].
    destruct (spec.AllowShell pol) eqn:Es; [|discriminate]. cbn [negb] in H.
    destruct (Strings.TrimSpace (spec.Shell_Cmd sh) =? ""); [discriminate|].
    injection H as <-. split; [reflexivity|].
    apply List.Forall_cons; [|apply List.Forall_nil].
    split; [intros _; exact Es | intros E; discriminate E]. }
  destruct (spec.Action_Type a =? "tmux").
  { destruct (spec.Action_Tmux a) as [t|]; [|discriminate].
    destruct (spec.AllowTmuxPassthrough pol) eqn:Ep; [|discriminate]. cbn [negb] in H.
    destruct (Strings.TrimSpace (spec.Tmux_Name t) =? "") eqn:En; [discriminate|].
    fold (denied dis (Strings.TrimSpace (spec.Tmux_Name t))) in H.
    destruct (denied dis (Strings.TrimSpace (spec.Tmux_Name t))) eqn:Ed; [discriminate|].
    destruct (match spec.AllowedTmuxCommands pol with
              | Some m => negb (mapBool m (Strings.TrimSpace (spec.Tmux_Name t)))
              | None => false
              end) eqn:El; [discriminate|].
    injection H as <-. split; [reflexivity|].
    apply List.Forall_cons; [|apply List.Forall_nil].
    split; [intros E; discriminate E|].
    intros _. split; [exact Ep|]. eexists _, _. split; [reflexivity|].
    split; [now apply String.eqb_neq|]. split; [exact Ed|].
    unfold listed. destruct (spec.AllowedTmuxCommands pol); [|reflexivity].
    now apply negb_false_iff in El. }
  destruct (spec.Action_Type a =? "sleep"); [|discriminate].
  destruct (spec.Action_Sleep a) as [sl|]; [|discriminate].
  destruct (spec.AllowShell pol) eqn:Es; [|discriminate]. cbn [negb] in H.
  destruct (spec.Sleep_Milliseconds sl <? 0)%Z; [discriminate|].
  injection H as <-. split; [reflexivity|].
  apply List.Forall_cons; [|apply List.Forall_nil].
  split; [intros _; exact Es | intros E; discriminate E].
Qed.


Lemma convertActions_sound (n : string) (acts : list spec.Action) r :
  convertActions n acts pol dis = Ok r -> sound pol dis r.
Proof.
  revert r. induction acts as [|a acts IH]; intros r H; cbn [convertActions] in H.
  - injection H as <-. apply sound_nil.
  - destruct (convertSingleAction n a pol dis) as [[act u]| |] eqn:E; try discriminate.
    change (Ok (act, u) ≫= ?k) with (k (act, u)) in H. cbv beta iota in H.
    destruct (convertActions n acts pol dis) as [[out u']| |] eqn:E'; try discriminate.
    injection H as <-.
    apply sound_app; [eapply convertSingleAction_sound; eauto | now apply IH].
Qed.

Lemma defaultTargetTrimmed_kind (n w : string) (x : Action) :
  Kind (defaultTargetTrimmed n w x) = Kind x
  /\ TmuxArgs (defaultTargetTrimmed n w x) = TmuxArgs x.
Proof.
  unfold defaultTargetTrimmed. cbv zeta.
  destruct (Strings.TrimSpace (Session x) =? "");
    destruct (Strings.TrimSpace (Window _) =? ""); split; reflexivity.
Qed.

Lemma defaultTargetRaw_kind (n w : string) (x : Action) :
  Kind (defaultTargetRaw n w x) = Kind x /\ TmuxArgs (defaultTargetRaw n w x) = TmuxArgs x.
Proof.
  unfold defaultTargetRaw. cbv zeta.
  destruct (Window x =? ""); destruct (Session _ =? ""); split; reflexivity.
Qed.

Lemma convertPaneActions_sound (n w : string) (acts : list spec.Action) r :
  convertPaneActions n w acts pol dis = Ok r -> sound pol dis r.
Proof.
  unfold convertPaneActions. destruct acts as [|a acts]; intros H.
  - injection H as <-. apply sound_nil.
  - destruct (convertActions n (a :: acts) pol dis) as [[out u]| |] eqn:E; try discriminate.
    injection H as <-. apply sound_map; [apply defaultTargetTrimmed_kind|].
    eapply convertActions_sound; eauto.
Qed.

Variable os : OS.
Variables (ctx : Context) (n : string).

Lemma convertPlanStep_sound (w : spec.Window) (winRoot : string) (first : bool)
      (step : spec.PanePlanStep) r :
  convertPlanStep os ctx n w winRoot pol dis first step = Ok r -> sound pol dis r.
Proof.
  unfold convertPlanStep. intros H. destruct (spec.Step_Pane step) as [p|].
  - cbv zeta in H.
    destruct (convertPaneActions _ _ _ _ _) as [[acts u]| |] eqn:E; try discriminate.
    injection H as <-. apply sound_wrap.
    + apply sound_safe. destruct (_ && _); reflexivity.
    + eapply convertPaneActions_sound; eauto.
    + apply sound_safe. destruct (spec.PlanPane_Focus p); reflexivity.
  - destruct (spec.Step_Split step) as [sp|]; [|discriminate]. cbv zeta in H.
    destruct (_ && _); [discriminate|]. injection H as <-. apply sound_safe. reflexivity.
Qed.

Lemma convertPlanSteps_sound (w : spec.Window) (winRoot : string)
      (steps : list spec.PanePlanStep) (first : bool) r :
  convertPlanSteps os ctx n w winRoot pol dis first steps = Ok r -> sound pol dis r.
Proof.
  revert first r. induction steps as [|step steps IH]; intros first r H;
    cbn [convertPlanSteps] in H.
  - injection H as <-. apply sound_nil.
  - destruct (convertPlanStep _ _ _ _ _ _ _ _ _) as [[acts u]| |] eqn:E; try discriminate.
    change (Ok (acts, u) ≫= ?k) with (k (acts, u)) in H. cbv beta iota in H.
    destruct (convertPlanSteps _ _ _ _ _ _ _ _ _) as [[out u']| |] eqn:E';
      try discriminate.
    injection H as <-.
    apply sound_app; [eapply convertPlanStep_sound; eauto | eapply IH; eauto].
Qed.

Lemma convertPane_sound (w : spec.Window) (winRoot : string) (first : bool)
      (p : spec.Pane) r :
  convertPane os ctx n w winRoot pol dis first p = Ok r -> sound pol dis r.
Proof.
  unfold convertPane. cbv zeta. intros H.
  destruct (convertPaneActions _ _ _ _ _) as [[acts u]| |] eqn:E; try discriminate.
  injection H as <-. apply sound_wrap.
  - apply sound_safe. destruct first; [destruct (_ && _)|]; reflexivity.
  - eapply convertPaneActions_sound; eauto.
  - apply sound_safe. destruct (spec.Pane_Focus p); reflexivity.
Qed.

Lemma convertPanes_sound (w : spec.Window) (winRoot : string) (panes : list spec.Pane)
      (first : bool) r :
  convertPanes os ctx n w winRoot pol dis first panes = Ok r -> sound pol dis r.
Proof.
  revert first r. induction panes as [|p panes IH]; intros first r H;
    cbn [convertPanes] in H.
  - injection H as <-. apply sound_nil.
  - destruct (convertPane _ _ _ _ _ _ _ _ _) as [[acts u]| |] eqn:E; try discriminate.
    change (Ok (acts, u) ≫= ?k) with (k (acts, u)) in H. cbv beta iota in H.
    destruct (convertPanes _ _ _ _ _ _ _ _ _) as [[out u']| |] eqn:E'; try discriminate.
    injection H as <-.
    apply sound_app; [eapply convertPane_sound; eauto | eapply IH; eauto].
Qed.

Lemma convertWindow_sound (root : string) (w : spec.Window) r :
  convertWindow os ctx n root pol dis w = Ok r -> sound pol dis r.
Proof.
  unfold convertWindow. destruct (_ =? _); [discriminate|]. cbv zeta. intros H.
  destruct (match spec.Window_Actions w with [] => _ | _ :: _ => _ end)
    as [[wa u1]| |] eqn:Ea; try discriminate.
  change (Ok (wa, u1) ≫= ?k) with (k (wa, u1)) in H. cbv beta iota in H.
  destruct (match spec.Window_PanePlan w with [] => _ | _ :: _ => _ end)
    as [[pa u2]| |] eqn:Ep; try discriminate.
  injection H as <-.
  assert (Hwa : sound pol dis (wa, u1)).
  { destruct (spec.Window_Actions w) as [|a acts].
    - injection Ea as <- <-. apply sound_nil.
    - destruct (convertActions n (a :: acts) pol dis) as [[out u]| |] eqn:E;
        try discriminate.
      injection Ea as <- <-. apply sound_map; [apply defaultTargetRaw_kind|].
      eapply convertActions_sound; eauto. }
  assert (Hpa : sound pol dis (pa, u2)).
  { destruct (spec.Window_PanePlan w).
    - eapply convertPanes_sound; eauto.
    - eapply convertPlanSteps_sound; eauto. }
  replace (u1 || u2) with (false || (u1 || (u2 || (false || (false || false)))))
    by (destruct u1, u2; reflexivity).
  apply (sound_app [_; _]); [apply sound_safe; reflexivity|].
  apply sound_app; [exact Hwa|]. apply sound_app; [exact Hpa|].
  apply sound_app; [apply sound_safe; destruct (negb _); reflexivity|].
  apply sound_app; apply sound_safe.
  - destruct (spec.Window_Focus w); reflexivity.
  - destruct (_ && _); reflexivity.
Qed.

Lemma convertWindowLoop_sound (root : string) (ws : list spec.Window) r :
  convertWindowLoop os ctx n root pol dis ws = Ok r -> sound pol dis r.
Proof.
  revert r. induction ws as [|w ws IH]; intros r H; cbn [convertWindowLoop] in H.
  - injection H as <-. apply sound_nil.
  - destruct (convertWindow _ _ _ _ _ _ _) as [[acts u]| |] eqn:E; try discriminate.
    change (Ok (acts, u) ≫= ?k) with (k (acts, u)) in H. cbv beta iota in H.
    destruct (convertWindowLoop _ _ _ _ _ _ _) as [[out u']| |] eqn:E'; try discriminate.
    injection H as <-.
    apply sound_app; [eapply convertWindow_sound; eauto | eapply IH; eauto].
Qed.

Lemma convertWindows_sound (root : string) (ws : list spec.Window) r :
  convertWindows os ctx n root ws pol dis = Ok r -> sound pol dis r.
Proof.
  unfold convertWindows. destruct ws as [|w ws]; [discriminate|]. intros H.
  destruct (convertWindowLoop _ _ _ _ _ _ (w :: ws)) as [[out u]| |] eqn:E;
    try discriminate.
  injection H as <-. apply sound_flag. eapply convertWindowLoop_sound; eauto.
Qed.

End Sound.


Lemma BuildFromSpec_sound (os : OS) (order : list (string * string)) (s0 : spec.Spec)
      (opt : BuildOptions) (ctx : Context) (tpl : Spec) (u : bool) :
  BuildFromSpec os order s0 opt = Ok (ctx, tpl, u) ->
  Unsafe tpl = u /\ sound (buildPolicy opt) (buildDisallowed opt) (Actions tpl, u).
Proof.
  intros H. unfold BuildFromSpec in H.
  destruct (spec.Validate s0) as [s| |] eqn:Ev; try discriminate.
  bind_ok H. cbv zeta in H.
  destruct (Strings.TrimSpace (Opt_ProjectRoot opt) =? ""); [discriminate|].
  destruct (sanitizeSessionName _ =? ""); [discriminate|].
  destruct (spec.ValidatePolicy s (buildPolicy opt)) as [[]| |]; try discriminate.
  bind_ok H.
  assert (Hpre : forall a v, sound (buildPolicy opt) (buildDisallowed opt) (a, v) ->
            sound (buildPolicy opt) (buildDisallowed opt)
                  ((((if Opt_IncludeEnsureSession opt
                     then [irEnsureSession
                             (sanitizeSessionName
                                (resolveSessionName (Opt_SessionName opt) s
                                   (expandUser os (Strings.TrimSpace (Opt_ProjectRoot opt)))))
                             (if Strings.TrimSpace
                                   (spec.Session_Root (spec.Spec_Session s)) =? ""
                              then expandUser os (Strings.TrimSpace (Opt_ProjectRoot opt))
                              else expandUser os
                                     (Strings.TrimSpace
                                        (spec.Session_Root (spec.Spec_Session s))))]
                     else [])
                      ++ match spec.Session_BaseIndex (spec.Spec_Session s) with
                         | Some n => [irSetGlobalOption "base-index" (Strconv.Itoa n)]
                         | None => []
                         end
                      ++ match spec.Session_PaneBaseIndex (spec.Spec_Session s) with
                         | Some n => [irSetGlobalOption "pane-base-index" (Strconv.Itoa n)]
                         | None => []
                         end) ++ a)%list, v)).
  { intros a v Ha. change v with (false || v). apply sound_app; [|exact Ha].
    apply sound_safe. destruct (Opt_IncludeEnsureSession opt);
      destruct (spec.Session_BaseIndex _); destruct (spec.Session_PaneBaseIndex _);
      reflexivity. }
  destruct (negb _ && negb _).
  - destruct (convertActions _ _ _ _) as [[acts u']| |] eqn:Ec; try discriminate.
    bind_ok H. injection H as <- <- <-. cbn [Unsafe Actions]. split; [reflexivity|].
    apply Hpre. eapply convertActions_sound; eauto.
  - destruct (convertWindows _ _ _ _ _ _ _) as [[acts u']| |] eqn:Ec; try discriminate.
    bind_ok H. bind_ok H. injection H as <- <- <-. cbn [Unsafe Actions].
    split; [reflexivity|]. apply Hpre.
    apply (sound_wrap _ _ []); [apply sound_nil | eapply convertWindows_sound; eauto|].
    apply sound_safe. destruct (_ && _); reflexivity.
Qed.


(** X4.  The unsafe flag of Stage A is exact: when [BuildFromSpec]
    succeeds, [unsafeRequired] and the [Unsafe] field of the IR are equal,
    and they are true exactly when the IR holds an action of kind shell or
    tmux. *)
Theorem unsafe_flag_is_exact (os : OS) (order : list (string * string)) (s0 : spec.Spec)
        (opt : BuildOptions) (ctx : Context) (tpl : Spec) (u : bool) :
  BuildFromSpec os order s0 opt = Ok (ctx, tpl, u) ->
  Unsafe tpl = u /\ u = existsb isTmuxOrShell (Actions tpl).
Proof.
  intros H. apply BuildFromSpec_sound in H as [Hu [Hflag _]]. split; assumption.
Qed.

(** The theorem at a spec whose one action is a shell command, with
    AllowShell on: the flag is set. *)
Lemma unsafe_flag_is_exact_witness :
  exists ctx tpl,
    BuildFromSpec Fixtures.plainOS [] PolicyGateFacts.shellOnly PolicyGateFacts.shellOptions
    = Ok (ctx, tpl, true)
    /\ Unsafe tpl = true /\ true = existsb isTmuxOrShell (Actions tpl).
Proof.
  do 2 eexists. split; [vm_compute; reflexivity|].
  eapply (unsafe_flag_is_exact Fixtures.plainOS [] PolicyGateFacts.shellOnly
                               PolicyGateFacts.shellOptions).
  vm_compute. reflexivity.
Defined.

Lemma lowered_safe (os : OS) (order : list (string * string)) (s0 : spec.Spec)
      (opt : BuildOptions) (ctx : Context) (tpl : Spec) (u : bool) :
  BuildFromSpec os order s0 opt = Ok (ctx, tpl, u) ->
  Opt_AllowShell opt = false -> Opt_AllowTmuxPassthrough opt = false ->
  Forall (fun x => isTmuxOrShell x = false) (Actions tpl).
Proof.
  intros H Hs Ht. apply BuildFromSpec_sound in H as [_ [_ Hall]]. cbn [fst] in Hall.
  eapply Forall_impl; [exact Hall|]. intros x [Hx1 Hx2]. unfold isTmuxOrShell.
  destruct (Kind x) eqn:Ek; try reflexivity.
  - specialize (Hx1 eq_refl). cbn [spec.AllowShell buildPolicy] in Hx1. congruence.
  - destruct (Hx2 eq_refl) as [Hx _]. cbn [spec.AllowTmuxPassthrough buildPolicy] in Hx.
    congruence.
Qed.

(** X5.  Stage A never lowers past the policy: in the IR that
    [BuildFromSpec] returns, a shell action appears only with AllowShell on,
    and a tmux action only with passthrough on, with a non-empty first
    argument that is in the allowlist and not in the denylist of the
    options.  With both switches off the IR holds no shell or tmux action
    and the unsafe flag is false. *)
Theorem lowered_actions_are_permitted (os : OS) (order : list (string * string))
        (s0 : spec.Spec) (opt : BuildOptions) (ctx : Context) (tpl : Spec) (u : bool) :
  BuildFromSpec os order s0 opt = Ok (ctx, tpl, u) ->
  Forall (permitted (buildPolicy opt) (buildDisallowed opt)) (Actions tpl)
  /\ (Opt_AllowShell opt = false -> Opt_AllowTmuxPassthrough opt = false ->
      u = false /\ Forall (fun x => isTmuxOrShell x = false) (Actions tpl)).
Proof.
  intros H0. pose proof (BuildFromSpec_sound _ _ _ _ _ _ _ H0) as [_ [Hflag Hall]].
  cbn [fst snd] in *. split; [exact Hall|]. intros Hs Ht.
  pose proof (lowered_safe _ _ _ _ _ _ _ H0 Hs Ht) as Hsafe.
  split; [|exact Hsafe]. rewrite Hflag.
  apply not_true_is_false. intros E. apply existsb_exists in E as (x & Hx & E).
  rewrite Forall_forall in Hsafe. apply list_elem_of_In, Hsafe in Hx. congruence.
Qed.

(** The theorem at the pane-plan fixture with both switches off. *)
Lemma lowered_actions_are_permitted_witness :
  exists ctx tpl u,
    BuildFromSpec Fixtures.plainOS [] Fixtures.panePlanFixture
                  (SessionNameFacts.namedOptions "/tmp/demo" "demo") = Ok (ctx, tpl, u)
    /\ u = false /\ Forall (fun x => isTmuxOrShell x = false) (Actions tpl).
Proof.
  do 3 eexists. split; [vm_compute; reflexivity|].
  eapply (lowered_actions_are_permitted Fixtures.plainOS [] Fixtures.panePlanFixture
            (SessionNameFacts.namedOptions "/tmp/demo" "demo"));
    [vm_compute; reflexivity | reflexivity | reflexivity].
Defined.

End UnsafeFacts.

(** ** Stage B: what a compiled plan holds *)

Module CompileFacts.
Import templates LoopFacts.

Section Emission.

Variable os : OS.
Variables (pol : Policy) (ctx : Context).

(** The subcommand that the passthrough check of [compileAction] looks
    at. *)
Definition subcommand (a : Action) : list string :=
  Strings.Fields
    (Strings.TrimPrefix (Strings.TrimSpace (subst os ctx (hd "" (TmuxArgs a)))) "tmux ").

(** What [compileAction] asks of the policy. *)
Definition allowedByEngine (a : Action) : Prop :=
  (Kind a = ActionShell -> AllowShell pol = true)
  /\ (Kind a = ActionTmux ->
      AllowTmuxPassthrough pol = true
      /\ exists sub rest, subcommand a = sub :: rest
                          /\ isDisallowed pol sub = false
                          /\ mapBool (effectiveAllow pol) sub = true).

(** One action gives one command, unsafe exactly for the kinds shell and
    tmux. *)
Lemma compileAction_one (a : Action) (cmds : list Command) (u : bool) (ws : list string) :
  compileAction os pol ctx a = Ok (cmds, u, ws) ->
  (exists c, cmds = [c] /\ Cmd_Unsafe c = isTmuxOrShell a)
  /\ u = isTmuxOrShell a /\ allowedByEngine a.
Proof.
  intros H. unfold compileAction in H. cbv zeta in H.
  unfold allowedByEngine, isTmuxOrShell, subcommand. destruct (Kind a) eqn:Ek.
  13: { destruct (AllowShell pol) eqn:Es; [|discriminate]. cbn [negb] in H.
        destruct (_ =? ""); [discriminate|]. injection H as <- <- <-.
        split; [eauto|]. split; [reflexivity|]. split; [auto | discriminate]. }
  13: { destruct (AllowTmuxPassthrough pol) eqn:Ep; [|discriminate]. cbn [negb] in H.
        destruct (TmuxArgs a) as [|a0 more] eqn:Ea; [discriminate|].
        cbn [map hd] in H.
        destruct (Strings.Fields _) as [|sub fs] eqn:Ef; [discriminate|].
        destruct (sub =? ""); [discriminate|].
        destruct (isDisallowed pol sub) eqn:Ed; [discriminate|].
        destruct (mapBool (effectiveAllow pol) sub) eqn:Eal; [|discriminate].
        cbn [negb] in H. injection H as <- <- <-.
        split; [eauto|]. split; [reflexivity|]. split; [discriminate|].
        intros _. split; [reflexivity|]. eauto. }
  all: unfold mbind, result_bind in H.
  all: try discriminate.
  all: repeat (case_match; try discriminate).
  all: injection H as <- <- <-.
  all: split; [eauto|]; split; [reflexivity|]; split; discriminate.
Qed.

Lemma emit_one (actions : list Action) (out out' : Compiled) :
  emit os pol ctx actions out = Ok out' ->
  map Cmd_Unsafe (Commands out')
  = (map Cmd_Unsafe (Commands out) ++ map isTmuxOrShell actions)%list
  /\ UnsafeUsed out' = UnsafeUsed out || existsb isTmuxOrShell actions
  /\ Forall allowedByEngine actions.
Proof.
  revert out. induction actions as [|a rest IH]; intros out H.
  - injection H as <-. rewrite app_nil_r, orb_false_r. repeat split. constructor.
  - cbn [emit] in H.
    destruct (compileAction os pol ctx a) as [[[cmds u] ws]| |] eqn:E; try discriminate.
    change (Ok (cmds, u, ws) ≫= ?k) with (k (cmds, u, ws)) in H. cbv beta iota in H.
    apply compileAction_one in E as ((c & -> & Hc) & -> & Ha).
    apply IH in H as (Hm & Hu & Hall). cbn [Commands UnsafeUsed] in *.
    rewrite Hm, Hu, map_app. cbn [map existsb]. rewrite Hc, <- app_assoc, orb_assoc.
    repeat split. constructor; assumption.
Qed.

End Emission.


Lemma existsb_of_map {A : Type} (f : A -> bool) (l : list A) :
  existsb f l = existsb (fun b => b) (map f l).
Proof. induction l as [|x l IH]; [reflexivity|]. cbn [existsb map]. now rewrite IH. Qed.

Lemma Compile_emit (os : OS) (pol : Policy) (ctx : Context) (s : Spec) (c : Compiled) :
  Compile os pol ctx s = Ok c ->
  emit os pol (completeContext os ctx) (Actions s) emptyCompiled = Ok c
  /\ (1 <= Z.of_nat (List.length (Actions s)) <= effectiveMaxActions pol)%Z
  /\ SessionName ctx <> "" /\ ProjectPath ctx <> "".
Proof.
  intros H. unfold Compile in H.
  destruct (String.eqb_spec (SessionName ctx) "") as [|Hs]; [discriminate|].
  destruct (String.eqb_spec (ProjectPath ctx) "") as [|Hp]; [discriminate|].
  cbv zeta in H. destruct (Actions s) as [|a l] eqn:Ea; [discriminate|].
  cbn [List.length Nat.eqb] in H.
  destruct (Z.ltb_spec (effectiveMaxActions pol) (Z.of_nat (S (List.length l))));
    [discriminate|].
  destruct (emit _ _ _ _ _) as [out| |] eqn:E; try discriminate.
  change (Ok out ≫= ?k) with (k out) in H. cbv beta in H.
  destruct (forM_ _ _) as [[]| |]; try discriminate. injection H as <-.
  cbn [List.length]. repeat split; auto. lia.
Qed.

Lemma compiled_plan_shape_lemma (os : OS) (pol : Policy) (ctx : Context) (s : Spec)
      (c : Compiled) :
  Compile os pol ctx s = Ok c ->
  map Cmd_Unsafe (Commands c) = map isTmuxOrShell (Actions s)
  /\ UnsafeUsed c = existsb Cmd_Unsafe (Commands c).
Proof.
  intros H. apply Compile_emit in H as (He & _).
  apply emit_one in He as (Hm & Hu & _).
  cbn [Commands UnsafeUsed emptyCompiled map app orb] in *. split; [exact Hm|].
  rewrite Hu, (existsb_of_map Cmd_Unsafe), (existsb_of_map isTmuxOrShell), Hm. reflexivity.
Qed.

(** X6.  A compiled plan holds one command per action, in the order of the
    actions, at least one and at most MaxActions of them (200 when the
    policy gives no positive bound); a command is marked unsafe exactly
    when its action is of kind shell or tmux, and [UnsafeUsed] is set
    exactly when some command is marked unsafe. *)
Theorem compiled_plan_shape (os : OS) (pol : Policy) (ctx : Context) (s : Spec)
        (c : Compiled) :
  Compile os pol ctx s = Ok c ->
  map Cmd_Unsafe (Commands c) = map isTmuxOrShell (Actions s)
  /\ List.length (Commands c) = List.length (Actions s)
  /\ (1 <= Z.of_nat (List.length (Commands c))
       <= (if (MaxActions pol <=? 0)%Z then 200 else MaxActions pol))%Z
  /\ UnsafeUsed c = existsb Cmd_Unsafe (Commands c).
Proof.
  intros H. apply Compile_emit in H as (He & Hn & _).
  apply emit_one in He as (Hm & Hu & _). cbn [Commands UnsafeUsed emptyCompiled map app orb] in *.
  assert (Hlen : List.length (Commands c) = List.length (Actions s)).
  { rewrite <- (length_map Cmd_Unsafe), Hm, length_map. reflexivity. }
  split; [exact Hm|]. split; [exact Hlen|]. split; [rewrite Hlen; exact Hn|].
  rewrite Hu, (existsb_of_map Cmd_Unsafe), (existsb_of_map isTmuxOrShell), Hm. reflexivity.
Qed.


(** The theorem at a plan of three actions. *)
Lemma compiled_plan_shape_witness :
  exists c,
    Compile Fixtures.plainOS DefaultPolicy (Fixtures.context "/tmp/demo" "demo")
            ExecutorFacts.waitSpec = Ok c
    /\ List.length (Commands c) = 3%nat.
Proof.
  eexists. split; [vm_compute; reflexivity|].
  eapply (compiled_plan_shape Fixtures.plainOS DefaultPolicy
            (Fixtures.context "/tmp/demo" "demo") ExecutorFacts.waitSpec).
  vm_compute. reflexivity.
Defined.

(** X7.  Stage B checks the policy of the engine again, whatever built the
    IR: a plan compiles only if AllowShell is on for every shell action and,
    for every tmux action, passthrough is on and the subcommand (the first
    field of the substituted first argument, a leading tmux word dropped)
    is not in the denylist and is in the effective allowlist.  So a name on
    both lists is refused, and with both switches off no compiled plan has
    [UnsafeUsed] set. *)
Theorem engine_policy_is_rechecked (os : OS) (pol : Policy) (ctx : Context) (s : Spec)
        (c : Compiled) :
  Compile os pol ctx s = Ok c ->
  Forall (allowedByEngine os pol (completeContext os ctx)) (Actions s)
  /\ (AllowShell pol = false -> AllowTmuxPassthrough pol = false -> UnsafeUsed c = false).
Proof.
  intros H. apply Compile_emit in H as (He & _).
  apply emit_one in He as (_ & Hu & Hall). split; [exact Hall|].
  intros Hs Ht. rewrite Hu. cbn [UnsafeUsed emptyCompiled orb].
  apply not_true_is_false. intros E. apply existsb_exists in E as (a & Ha & E).
  rewrite Forall_forall in Hall. apply list_elem_of_In, Hall in Ha as [H1 H2].
  unfold isTmuxOrShell in E. destruct (Kind a); try discriminate.
  - specialize (H1 eq_refl). congruence.
  - destruct (H2 eq_refl) as [H _]. congruence.
Qed.

(** The theorem at the plan of the reserved name. *)
Lemma engine_policy_is_rechecked_witness :
  exists c,
    Compile Fixtures.plainOS ExecutorFacts.reservedPolicy
            (Fixtures.context "/tmp/demo" "demo") ExecutorFacts.reservedSpec = Ok c
    /\ Forall (allowedByEngine Fixtures.plainOS ExecutorFacts.reservedPolicy
                  (completeContext Fixtures.plainOS (Fixtures.context "/tmp/demo" "demo")))
              (Actions ExecutorFacts.reservedSpec).
Proof.
  eexists. split; [vm_compute; reflexivity|].
  eapply (engine_policy_is_rechecked Fixtures.plainOS ExecutorFacts.reservedPolicy
            (Fixtures.context "/tmp/demo" "demo") ExecutorFacts.reservedSpec).
  vm_compute. reflexivity.
Defined.

Lemma FromSpec_built (os : OS) (order : list (string * string)) (ctx : Context)
      (s : spec.Spec) (allowShell allowTmux ensure : bool) (tpl : Spec) :
  FromSpec os order ctx s allowShell allowTmux ensure = Ok tpl ->
  exists opt ctx' u,
    BuildFromSpec os order s opt = Ok (ctx', tpl, u)
    /\ Opt_AllowShell opt = allowShell /\ Opt_AllowTmuxPassthrough opt = allowTmux
    /\ Opt_AllowedTmuxCommands opt = None /\ Opt_DisallowTmuxCommands opt = None.
Proof.
  unfold FromSpec. destruct (_ =? _); [discriminate|]. cbv zeta. intros H.
  destruct (BuildFromSpec os order s _) as [[[ctx' tpl'] u]| |] eqn:E; try discriminate.
  injection H as <-. eexists _, ctx', u. split; [exact E|]. repeat split.
Qed.

(** X8.  Safe by default, end to end: with AllowShell and passthrough both
    off in the call of [FromSpec], a plan compiled from its result has
    [UnsafeUsed] false and no command marked unsafe, whatever the policy of
    the engine that compiles it. *)
Theorem switches_off_no_unsafe_command (os : OS) (pol : Policy)
        (order : list (string * string)) (ctx : Context) (s : spec.Spec) (ensure : bool)
        (c : Compiled) :
  DeterminismFacts.compileFromSpec os pol order ctx s false false ensure = Ok c ->
  UnsafeUsed c = false /\ Forall (fun cmd => Cmd_Unsafe cmd = false) (Commands c).
Proof.
  unfold DeterminismFacts.compileFromSpec. intros H.
  destruct (FromSpec os order ctx s false false ensure) as [tpl| |] eqn:Ef; try discriminate.
  change (Ok tpl ≫= ?k) with (k tpl) in H. cbv beta in H.
  apply FromSpec_built in Ef as (opt & ctx' & u & Hb & Hs & Ht & _).
  apply UnsafeFacts.lowered_safe in Hb; [|exact Hs|exact Ht].
  apply compiled_plan_shape_lemma in H as (Hm & Hu).
  assert (Hall : map Cmd_Unsafe (Commands c) = map (fun _ => false) (Commands c)).
  { rewrite Hm. clear -Hb Hm.
    assert (Hlen : List.length (Commands c) = List.length (Actions tpl))
      by (rewrite <- (length_map Cmd_Unsafe), Hm, length_map; reflexivity).
    clear Hm. revert Hlen. generalize (Commands c) as l.
    induction Hb as [|x xs Hx _ IH]; intros [|y l] Hl; try discriminate; [reflexivity|].
    cbn [map]. rewrite Hx. f_equal. apply IH. now injection Hl. }
  split.
  - rewrite Hu, (existsb_of_map Cmd_Unsafe), Hall. clear. induction (Commands c); auto.
  - apply Forall_forall. intros cmd Hin. apply list_elem_of_In in Hin.
    clear -Hall Hin. induction (Commands c) as [|y l IH]; [contradiction|].
    cbn [map] in Hall. injection Hall as Hy Hl. destruct Hin as [->|Hin]; auto.
Qed.


(** The theorem at the pane-plan fixture, compiled by an engine that would
    allow everything. *)
Lemma switches_off_no_unsafe_command_witness :
  exists c,
    DeterminismFacts.compileFromSpec Fixtures.plainOS ExecutorFacts.reservedPolicy []
      (Fixtures.context "/tmp/demo" "demo") Fixtures.panePlanFixture false false true = Ok c
    /\ UnsafeUsed c = false /\ Forall (fun cmd => Cmd_Unsafe cmd = false) (Commands c).
Proof.
  eexists. split; [vm_compute; reflexivity|].
  eapply (switches_off_no_unsafe_command Fixtures.plainOS ExecutorFacts.reservedPolicy []
            (Fixtures.context "/tmp/demo" "demo") Fixtures.panePlanFixture true).
  vm_compute. reflexivity.
Defined.

End CompileFacts.

(** ** The executor: order of the calls and outcome *)

Module RunFacts.
Import templates ExecutorFacts.

(** The calls that running the commands as they are would make. *)
Definition runLog (cmds : list Command) : list Call :=
  map (fun c => CallRun (Args c)) cmds.

Section Run.

Context {World Regexp : Type}.
Variable host : @Runtime World Regexp.
Variable runner : @Runner World.

Lemma doRun_appends (args : list string) (st : State) :
  (doRun runner args st).2.2 = (st.2 ++ [CallRun args])%list
  /\ (doRun runner args st).1 = (Run runner args st.1).2.
Proof. unfold doRun. destruct (Run runner args st.1) as [w err]. split; reflexivity. Qed.

(** The outcome of a plan without sentinels: [k] commands were handed to
    the Runner. *)
Definition ranPrefix (cmds : list Command) (st : @State World)
           (r : option (option string) * @State World) (k : nat) : Prop :=
  (k <= List.length cmds)%nat
  /\ r.2.2 = (st.2 ++ runLog (firstn k cmds))%list
  /\ match r.1 with
     | Some None => k = List.length cmds
     | Some (Some e) =>
         exists c w, nth_error cmds (k - 1) = Some c /\ (1 <= k)%nat
                     /\ (Run runner (Args c) w).2 = Some e
     | None => False
     end.

Lemma executeCommands_prefix (fuel : nat) (cmds : list Command) (st : State) :
  Forall (fun c => isSentinel (Args c) = false) cmds ->
  exists k, ranPrefix cmds st (executeCommands host runner fuel cmds st) k.
Proof.
  revert st. induction cmds as [|c rest IH]; intros st Hc.
  - exists 0%nat. unfold ranPrefix. cbn. rewrite app_nil_r. auto.
  - inversion Hc as [|? ? Hhd Htl]; subst. rewrite isSentinel_firstArgIs in Hhd.
    apply orb_false_iff in Hhd as [H1 H2]. cbn [executeCommands]. rewrite H1, H2.
    destruct (doRun_appends (Args c) st) as [Hlog Herr].
    destruct (doRun runner (Args c) st) as [[e|] st1] eqn:E; cbn [fst snd] in *.
    + exists 1%nat. unfold ranPrefix. cbn [fst snd List.length firstn runLog map nth_error
                                           Nat.sub].
      split; [lia|]. split; [exact Hlog|]. exists c, st.1. repeat split; auto.
    + destruct (IH st1 Htl) as (k & Hk & Hl & Hr). exists (S k). unfold ranPrefix.
      split; [cbn [List.length]; lia|]. split.
      * rewrite Hl, Hlog. cbn [firstn runLog map]. rewrite <- app_assoc. reflexivity.
      * destruct (executeCommands host runner fuel rest st1) as [[[e|]|] st2];
          cbn [fst] in *; [|cbn [List.length]; lia|contradiction].
        destruct Hr as (c' & w & Hn & Hk1 & He). exists c', w.
        split; [|split; [lia | exact He]].
        destruct k as [|k']; [lia|]. cbn [Nat.sub nth_error] in *.
        rewrite Nat.sub_0_r in Hn. exact Hn.
Qed.

End Run.


(** X9.  [Execute] hands the commands of a plan without sentinels to the
    Runner one by one, in the order of the plan and with their arguments
    unchanged, and stops at the first error: the calls made are the first
    [k] commands; [k] is the length of the plan when [Execute] returns no
    error, and otherwise the error returned is the one that the Runner gave
    for command [k].  The dry-run lines are returned in both cases, and the
    run never waits. *)
Theorem plan_runs_in_order {World Regexp : Type} (host : @Runtime World Regexp)
        (e : @Engine World) (runner : @Runner World) (compiled : Compiled) (fuel : nat)
        (w : World) :
  Engine_Runner e = Some runner ->
  Forall (fun c => isSentinel (Args c) = false) (Commands compiled) ->
  (Execute host e compiled false fuel w).1.1 = DryRunLines compiled
  /\ exists k,
      (k <= List.length (Commands compiled))%nat
      /\ (Execute host e compiled false fuel w).2.2 = runLog (firstn k (Commands compiled))
      /\ match (Execute host e compiled false fuel w).1.2 with
         | Some None => k = List.length (Commands compiled)
         | Some (Some err) =>
             exists c w', nth_error (Commands compiled) (k - 1) = Some c /\ (1 <= k)%nat
                          /\ (Run runner (Args c) w').2 = Some err
         | None => False
         end.
Proof.
  intros Hr Hc. unfold Execute. rewrite Hr.
  destruct (executeCommands_prefix host runner fuel (Commands compiled) (w, []) Hc)
    as (k & Hk & Hl & Hres).
  destruct (executeCommands host runner fuel (Commands compiled) (w, [])) as [r st].
  cbn [fst snd] in *. split; [reflexivity|]. exists k. auto.
Qed.

(** A Runner that refuses kill-server and accepts the rest. *)
Definition pickyRunner : @Runner unit :=
  {| Run := fun args w => (w, if hd "" args =? "kill-server" then Some "refused" else None);
     RunOutput := fun _ w => (w, ("", None)) |}.

Definition threeCommands : Compiled :=
  {| Commands := [command ["new-window"] ""; command ["kill-server"] "";
                  command ["select-window"] ""];
     UnsafeUsed := false; Warnings := [] |}.

(** The theorem at a plan whose second command the Runner refuses: two
    calls are made. *)
Lemma plan_runs_in_order_witness :
  (Execute idleHost (engineFor DefaultPolicy pickyRunner) threeCommands false 0 tt).2.2
  = [CallRun ["new-window"]; CallRun ["kill-server"]]
  /\ exists k,
      (k <= 3)%nat
      /\ (Execute idleHost (engineFor DefaultPolicy pickyRunner) threeCommands false 0 tt).2.2
         = runLog (firstn k (Commands threeCommands)).
Proof.
  split; [reflexivity|].
  destruct (plan_runs_in_order idleHost (engineFor DefaultPolicy pickyRunner) pickyRunner
              threeCommands 0 tt eq_refl) as [_ (k & Hk & Hl & _)].
  - repeat constructor.
  - exists k. split; [exact Hk | exact Hl].
Defined.


(** The outcomes of [execSshManagerConnect]: a refusal leaves the state as
    it was; otherwise one line is typed into a pane. *)
Definition refused {World : Type} (st : @State World) (r : option string * @State World)
  : Prop :=
  r.2 = st /\ exists err, r.1 = Some err.

Definition typed {World : Type} (runner : @Runner World) (target : string)
           (argv : list string) (st : @State World) (r : option string * @State World)
  : Prop :=
  r.2.2 = (st.2 ++ [CallRun ["send-keys"; "-t"; target; shellJoin argv; "C-m"]])%list
  /\ r.2.1 = (Run runner ["send-keys"; "-t"; target; shellJoin argv; "C-m"] st.1).1
  /\ r.1 = (Run runner ["send-keys"; "-t"; target; shellJoin argv; "C-m"] st.1).2.

Lemma doRun_typed {World : Type} (runner : @Runner World) (target : string)
      (argv : list string) (st : @State World) :
  typed runner target argv st
        (doRun runner ["send-keys"; "-t"; target; shellJoin argv; "C-m"] st).
Proof.
  unfold typed, doRun. destruct (Run runner _ st.1) as [w err]. repeat split.
Qed.

(** X10.  [execSshManagerConnect] either refuses its arguments without
    touching the Runner, or makes exactly one call: Run of send-keys to the
    trimmed target, with one command line and Enter; what it returns is
    what the Runner returned.  It refuses fewer than seven arguments, a
    blank target, a blank host, and a login mode (trimmed, in lower case)
    other than the empty one, askpass, manual and key.  In the mode askpass,
    which the empty mode stands for, the line is tmux-ssh-manager __connect
    --host and the host, then --user and the user if there is one; the port
    is not passed.  In the modes manual and key the line is ssh, then -p and
    the port if it reads as a number above 0, then the host, after the user
    and an at sign if there is a user.  The login mode is ASCII text. *)
Theorem ssh_connect_types_one_line {World : Type} (runner : @Runner World) (c : Command)
        (st : @State World) (a0 a1 a2 a3 a4 a5 a6 : string) (more : list string) :
  ((List.length (Args c) < 7)%nat -> refused st (execSshManagerConnect runner c st))
  /\ (Args c = a0 :: a1 :: a2 :: a3 :: a4 :: a5 :: a6 :: more ->
      SessionNameFacts.isASCII a5 = true ->
      forall target hostName user mode : string,
        target = Strings.TrimSpace a1 -> hostName = Strings.TrimSpace a2 ->
        user = Strings.TrimSpace a3 -> mode = Strings.TrimSpace (Strings.ToLower a5) ->
        (target = "" \/ hostName = "" \/ ~ In mode [""; "askpass"; "manual"; "key"] ->
         refused st (execSshManagerConnect runner c st))
        /\ (target <> "" -> hostName <> "" -> In mode [""; "askpass"] ->
            typed runner target
                  (["tmux-ssh-manager"; "__connect"; "--host"; hostName]
                     ++ (if user =? "" then [] else ["--user"; user]))%list
                  st (execSshManagerConnect runner c st))
        /\ (target <> "" -> hostName <> "" -> In mode ["manual"; "key"] ->
            typed runner target
                  ("ssh"
                     :: match Strconv.Atoi (Strings.TrimSpace a4) with
                        | Some port => if (0 <? port)%Z then ["-p"; Strconv.Itoa port] else []
                        | None => []
                        end
                     ++ [if user =? "" then hostName else user +:+ "@" +:+ hostName])%list
                  st (execSshManagerConnect runner c st))).
Proof.
  split.
  - unfold execSshManagerConnect, refused.
    destruct (Args c) as [|b0 [|b1 [|b2 [|b3 [|b4 [|b5 [|b6 rest]]]]]]];
      cbn [List.length]; intros Hl; try (split; [reflexivity | eauto]). lia.
  - intros Hargs _ target hostName user mode -> -> -> ->.
    unfold execSshManagerConnect. rewrite Hargs. cbv zeta.
    destruct (String.eqb_spec (Strings.TrimSpace a1) "") as [Et|Et].
    { split; [intros _; split; [reflexivity | eauto]|]. split; intros H; contradiction. }
    destruct (String.eqb_spec (Strings.TrimSpace a2) "") as [Eh|Eh].
    { split; [intros _; split; [reflexivity | eauto]|]. split; intros _ H; contradiction. }
    set (m := Strings.TrimSpace (Strings.ToLower a5)).
    assert (Hport : (if Strings.TrimSpace a4 =? "" then 0%Z
                     else match Strconv.Atoi (Strings.TrimSpace a4) with
                          | Some n => n
                          | None => 0%Z
                          end)
                    = match Strconv.Atoi (Strings.TrimSpace a4) with
                      | Some n => n
                      | None => 0%Z
                      end).
    { destruct (String.eqb_spec (Strings.TrimSpace a4) "") as [->|]; reflexivity. }
    rewrite Hport.
    destruct (String.eqb_spec m "") as [Em|Em].
    { cbv iota. change ("askpass" =? "askpass") with true. cbn [orb negb].
      split; [|split].
      - intros [H|[H|H]]; [contradiction | contradiction |]. exfalso. apply H. now left.
      - intros _ _ _. destruct (Strings.TrimSpace a3 =? ""); apply doRun_typed.
      - intros _ _ [H|[H|[]]]; rewrite Em in H; discriminate. }
    destruct (String.eqb_spec m "askpass") as [Ea|Ea].
    { cbn [orb negb]. split; [|split].
      - intros [H|[H|H]]; [contradiction | contradiction |]. exfalso. apply H.
        right. now left.
      - intros _ _ _. destruct (Strings.TrimSpace a3 =? ""); apply doRun_typed.
      - intros _ _ [H|[H|[]]]; rewrite Ea in H; discriminate. }
    destruct (String.eqb_spec m "manual") as [Emn|Emn];
      [|destruct (String.eqb_spec m "key") as [Ek|Ek]].
    3: { cbn [orb negb]. split; [intros _; split; [reflexivity | eauto]|]. split.
         - intros _ _ [H|[H|[]]]; congruence.
         - intros _ _ [H|[H|[]]]; congruence. }
    all: cbn [orb negb]; split; [|split].
    all: try (intros [H|[H|H]]; [contradiction | contradiction |]; exfalso; apply H;
              cbn [In]; auto).
    all: try (intros _ _ [H|[H|[]]]; congruence).
    all: intros _ _ _; destruct (Strconv.Atoi (Strings.TrimSpace a4)) as [port|];
      [destruct (0 <? port)%Z|]; destruct (Strings.TrimSpace a3 =? "");
      cbn [negb app]; try apply doRun_typed.
    all: change (0 <? 0)%Z with false; cbn [app]; apply doRun_typed.
Qed.

(** A Runner that accepts every call. *)
Definition quietRunner : @Runner unit :=
  {| Run := fun _ w => (w, None); RunOutput := fun _ w => (w, ("", None)) |}.

Definition connectKey : Command :=
  command ["__ssh_manager_connect__"; "demo:0.0"; "db1"; "ops"; "2222"; " Key "; "0"] "".

(** The theorem at a connection in the mode key with a user and a port: the
    line typed is ssh -p 2222 ops@db1. *)
Lemma ssh_connect_types_one_line_witness :
  typed quietRunner "demo:0.0" ["ssh"; "-p"; "2222"; "ops@db1"] (tt, [])
        (execSshManagerConnect quietRunner connectKey (tt, [])).
Proof.
  destruct (ssh_connect_types_one_line quietRunner connectKey (tt, [])
              "__ssh_manager_connect__" "demo:0.0" "db1" "ops" "2222" " Key " "0" [])
    as [_ H].
  destruct (H eq_refl eq_refl "demo:0.0" "db1" "ops" "key" eq_refl eq_refl eq_refl eq_refl)
    as (_ & _ & Hkey).
  apply Hkey; [discriminate | discriminate | right; left; reflexivity].
Defined.


(** The one call that the polling loop makes. *)
Definition captureArgs (target : string) (maxLines : Z) : list string :=
  ["capture-pane"; "-p"; "-t"; target; "-S"; "-" +:+ Strconv.Itoa maxLines].

Definition captureCall (target : string) (maxLines : Z) : Call :=
  CallRunOutput (captureArgs target maxLines).

Definition timedOut : string := "wait_for_prompt: timed out waiting for readiness".

(** What [execWaitForPrompt] reads from its arguments: the pane, the number
    of lines to capture (200 when absent, not a number or not positive) and
    the prompt expression (the default one when absent or blank). *)
Definition waitTarget (c : Command) : string := Strings.TrimSpace (nth 1 (Args c) "").

Definition waitMaxLines (c : Command) : Z :=
  let a5 := Strings.TrimSpace (nth 5 (Args c) "") in
  match Strconv.Atoi a5 with
  | Some n => if (n <=? 0)%Z then 200%Z else n
  | None => 200%Z
  end.

Definition waitPattern (c : Command) : string :=
  if Strings.TrimSpace (nth 6 (Args c) "") =? "" then "(?m)(^.*[#>$] ?$)"
  else Strings.TrimSpace (nth 6 (Args c) "").

(** The text of a capture as the loop reads it: CR LF and CR become LF, and
    the line feeds at the end are dropped. *)
Definition normalised (out : string) : string :=
  Strings.TrimRight (Strings.ReplaceAll (Strings.ReplaceAll out (CR +:+ LF) LF) CR LF) LF.

(** [line] is the last line of [text] that is not blank, trimmed. *)
Definition lastLine (text line : string) : Prop :=
  line <> ""
  /\ exists (before : list string) (l : string) (after : list string),
      Strings.Split text "010" = (before ++ l :: after)%list
      /\ Strings.TrimSpace l = line
      /\ Forall (fun x => Strings.TrimSpace x = "") after.

Lemma lastNonEmptyFrom_first (lines : list string) :
  lastNonEmptyFrom lines <> "" ->
  exists (blank : list string) (l : string) (rest : list string),
    lines = (blank ++ l :: rest)%list
    /\ Strings.TrimSpace l = lastNonEmptyFrom lines
    /\ Forall (fun x => Strings.TrimSpace x = "") blank.
Proof.
  induction lines as [|ln rest IH]; [intros H; now contradiction H|].
  cbn [lastNonEmptyFrom].
  destruct (String.eqb_spec (Strings.TrimSpace ln) "") as [E|E]; cbn [negb]; intros H.
  - destruct (IH H) as (blank & l & rest' & -> & Hl & Hb).
    exists (ln :: blank), l, rest'. split; [reflexivity|]. split; [exact Hl|].
    now apply List.Forall_cons.
  - exists [], ln, rest. repeat split. constructor.
Qed.

Lemma lastNonEmptyLine_lastLine (text : string) :
  lastNonEmptyLine text <> "" -> lastLine text (lastNonEmptyLine text).
Proof.
  intros H. split; [exact H|]. unfold lastNonEmptyLine in *.
  destruct (lastNonEmptyFrom_first _ H) as (blank & l & rest & Hr & Hl & Hb).
  exists (rev rest), l, (rev blank). split; [|split; [exact Hl|]].
  - rewrite <- (rev_involutive (Strings.Split text "010")), Hr, rev_app_distr.
    cbn [rev]. rewrite <- List.app_assoc. reflexivity.
  - apply List.Forall_rev. exact Hb.
Qed.

Section Polling.

Context {World Regexp : Type}.
Variable host : @Runtime World Regexp.
Variable runner : @Runner World.

(** From one world to another by reading the clock and sleeping only. *)
Inductive timePasses : World -> World -> Prop :=
| passes_none (w : World) : timePasses w w
| passes_now (w w' : World) : timePasses w w' -> timePasses w (timeNow host w').1
| passes_sleep (d : Z) (w w' : World) : timePasses w w' -> timePasses w (timeSleep host d w').

(** The loop found the pane ready and returned in the world [final]: the
    Runner answered a capture, the last line of the text that is not blank
    matches the prompt expression, and since then time passed only. *)
Definition ready (target : string) (maxLines : Z) (re : Regexp) (final : World) : Prop :=
  exists (w w' : World) (out line : string),
    RunOutput runner (captureArgs target maxLines) w = (w', (out, None))
    /\ lastLine (normalised out) line
    /\ matchString host re line = true
    /\ timePasses w' final.

(** The outcome of the polling loop after [n] captures. *)
Definition polled (target : string) (maxLines : Z) (re : Regexp) (fuel : nat)
           (st : @State World) (r : option (option string) * @State World) (n : nat)
  : Prop :=
  (n <= fuel)%nat
  /\ r.2.2 = (st.2 ++ repeat (captureCall target maxLines) n)%list
  /\ match r.1 with
     | Some None => (1 <= n)%nat /\ ready target maxLines re r.2.1
     | Some (Some e) => e = timedOut
     | None => n = fuel
     end.

Lemma capture_appends (target : string) (maxLines : Z) (st : State) :
  (capture runner target maxLines st).2.2 = (st.2 ++ [captureCall target maxLines])%list.
Proof.
  unfold capture, doRunOutput. destruct (RunOutput runner _ st.1) as [w [out err]].
  destruct err; reflexivity.
Qed.

Lemma capture_reads (target : string) (maxLines : Z) (st : State) :
  (capture runner target maxLines st).1.2 = None ->
  exists out : string,
    RunOutput runner (captureArgs target maxLines) st.1
    = ((capture runner target maxLines st).2.1, (out, None))
    /\ (capture runner target maxLines st).1.1 = normalised out.
Proof.
  unfold capture, doRunOutput, captureArgs.
  destruct (RunOutput runner _ st.1) as [w [out err]].
  destruct err; [discriminate|]. intros _. exists out. split; reflexivity.
Qed.

Lemma doNow_world (st : State) : (doNow host st).2.1 = (timeNow host st.1).1.
Proof. unfold doNow. destruct (timeNow host st.1). reflexivity. Qed.

Lemma polled_step (target : string) (maxLines : Z) (re : Regexp) (fuel : nat)
      (st st1 : State) r (n : nat) :
  st1.2 = (st.2 ++ [captureCall target maxLines])%list ->
  polled target maxLines re fuel st1 r n -> polled target maxLines re (S fuel) st r (S n).
Proof.
  intros Hst (Hn & Hl & Hr). unfold polled. split; [lia|]. split.
  - rewrite Hl, Hst, <- List.app_assoc. reflexivity.
  - destruct r.1 as [[e|]|]; [exact Hr | | lia]. destruct Hr as [_ Hm]. split; [lia | exact Hm].
Qed.

Lemma waitLoop_polled (fuel : nat) (re : Regexp) (target : string)
      (timeoutMS minQuietMS settleMS maxLines deadline : Z) (lastSnap : string)
      (lastChange : Z) (st : State) :
  exists n, polled target maxLines re fuel st
                   (waitLoop host runner fuel re target timeoutMS minQuietMS settleMS
                             maxLines deadline lastSnap lastChange st) n.
Proof.
  revert lastSnap lastChange st.
  induction fuel as [|fuel IH]; intros lastSnap lastChange st.
  { exists 0%nat. unfold polled. cbn. rewrite List.app_nil_r. auto. }
  cbn [waitLoop].
  pose proof (doNow_log host st) as E1. destruct (doNow host st) as [t1 st1]. cbn [snd] in E1.
  destruct (negb (t1 <? deadline)%Z).
  { exists 0%nat. unfold polled. cbn [fst snd repeat]. rewrite List.app_nil_r.
    split; [lia|]. split; [exact E1 | reflexivity]. }
  pose proof (capture_appends target maxLines st1) as H2. rewrite E1 in H2.
  pose proof (capture_reads target maxLines st1) as Hread.
  destruct (capture runner target maxLines st1) as [[snap err] st2]. cbn [fst snd] in H2, Hread.
  assert (Hgo : forall ls lc st3, st3.2 = st2.2 ->
            exists n, polled target maxLines re (S fuel) st
                             (waitLoop host runner fuel re target timeoutMS minQuietMS
                                       settleMS maxLines deadline ls lc
                                       (doSleep host pollEvery st3)) n).
  { intros ls lc st3 H3.
    destruct (IH ls lc (doSleep host pollEvery st3)) as [n Hn]. exists (S n).
    eapply polled_step; [|exact Hn]. rewrite doSleep_log, H3. exact H2. }
  destruct err as [e|]; [apply Hgo; reflexivity|].
  destruct (Hread eq_refl) as (out & Hout & ->). clear Hread.
  assert (Hrest : forall ls lc st3, st3.2 = st2.2 -> timePasses st2.1 st3.1 ->
            exists n, polled target maxLines re (S fuel) st
              (let '(t, st) := doNow host st3 in
               if (t - lc <? wrap64 (minQuietMS * millisecond))%Z
               then waitLoop host runner fuel re target timeoutMS minQuietMS settleMS
                             maxLines deadline ls lc (doSleep host pollEvery st)
               else
                 let lastLine := lastNonEmptyLine (normalised out) in
                 if lastLine =? ""
                 then waitLoop host runner fuel re target timeoutMS minQuietMS
                               settleMS maxLines deadline ls lc
                               (doSleep host pollEvery st)
                 else if matchString host re lastLine
                 then (Some None,
                       if (0 <? settleMS)%Z
                       then doSleep host (wrap64 (settleMS * millisecond)) st else st)
                 else waitLoop host runner fuel re target timeoutMS minQuietMS
                               settleMS maxLines deadline ls lc
                               (doSleep host pollEvery st)) n).
  { intros ls lc st3 H3 Hw.
    pose proof (doNow_log host st3) as E4. pose proof (doNow_world st3) as W4.
    destruct (doNow host st3) as [t4 st4].
    cbn [snd] in E4, W4. rewrite H3 in E4.
    destruct (_ <? _)%Z; [apply Hgo; exact E4|]. cbv zeta.
    destruct (String.eqb_spec (lastNonEmptyLine (normalised out)) "") as [|Hne];
      [apply Hgo; exact E4|].
    destruct (matchString host re (lastNonEmptyLine (normalised out))) eqn:Em;
      [|apply Hgo; exact E4].
    exists 1%nat. unfold polled. cbn [fst snd repeat]. split; [lia|]. split.
    - destruct (0 <? settleMS)%Z; [rewrite doSleep_log|]; rewrite E4; exact H2.
    - split; [lia|].
      exists st1.1, st2.1, out, (lastNonEmptyLine (normalised out)).
      split; [exact Hout|]. split; [exact (lastNonEmptyLine_lastLine _ Hne)|].
      split; [exact Em|].
      assert (H4 : timePasses st2.1 st4.1) by (rewrite W4; now apply passes_now).
      destruct (0 <? settleMS)%Z; [|exact H4]. unfold doSleep. cbn [fst].
      now apply passes_sleep. }
  destruct (negb (normalised out =? lastSnap)).
  - pose proof (doNow_log host st2) as E3. pose proof (doNow_world st2) as W3.
    destruct (doNow host st2) as [t3 st3].
    cbn [snd] in E3, W3. apply Hrest; [exact E3|]. rewrite W3. apply passes_now, passes_none.
  - apply Hrest; [reflexivity | apply passes_none].
Qed.

End Polling.

(** X11.  [execWaitForPrompt] only looks: every call it makes is the same
    RunOutput of capture-pane -p -t target -S -maxLines, one per poll, for
    the pane and the number of lines of the command, and it never calls
    Run.  It returns no error only when the Runner answered a capture
    without an error, the last line that is not blank of the text
    (trimmed, after CR LF and CR became LF and the line feeds at the end
    were dropped) matches the prompt expression of the command, and after
    that capture it only read the clock and slept.  The errors it can
    return are those for bad arguments (before any call) and the time-out:
    an error of the Runner is never returned, the capture is tried again. *)
Theorem wait_for_prompt_only_captures {World Regexp : Type} (host : @Runtime World Regexp)
        (runner : @Runner World) (fuel : nat) (c : Command) (st : @State World) :
  exists n : nat,
    (n <= fuel)%nat
    /\ (execWaitForPrompt host runner fuel c st).2.2
       = (st.2 ++ repeat (captureCall (waitTarget c) (waitMaxLines c)) n)%list
    /\ match (execWaitForPrompt host runner fuel c st).1 with
       | Some None =>
           (1 <= n)%nat
           /\ exists re : Regexp,
               regexpCompile host (waitPattern c) = Some re
               /\ ready host runner (waitTarget c) (waitMaxLines c) re
                        (execWaitForPrompt host runner fuel c st).2.1
       | Some (Some e) =>
           e = timedOut
           \/ (n = 0%nat
               /\ In e ["wait_for_prompt: invalid sentinel args";
                        "wait_for_prompt: empty target";
                        "wait_for_prompt: invalid prompt_regex"])
       | None => n = fuel
       end.
Proof.
  unfold execWaitForPrompt.
  assert (Hbad : forall e,
            In e ["wait_for_prompt: invalid sentinel args"; "wait_for_prompt: empty target";
                  "wait_for_prompt: invalid prompt_regex"] ->
            exists n : nat,
              (n <= fuel)%nat
              /\ st.2 = (st.2 ++ repeat (captureCall (waitTarget c) (waitMaxLines c)) n)%list
              /\ (e = timedOut
                  \/ n = 0%nat
                     /\ In e ["wait_for_prompt: invalid sentinel args";
                              "wait_for_prompt: empty target";
                              "wait_for_prompt: invalid prompt_regex"])).
  { intros e He. exists 0%nat. cbn [repeat]. rewrite List.app_nil_r.
    split; [lia|]. split; [reflexivity|]. right. split; [reflexivity | exact He]. }
  unfold waitTarget, waitMaxLines, waitPattern in *.
  destruct (Args c) as [|a0 [|a1 [|a2 [|a3 [|a4 [|a5 more]]]]]];
    try (apply Hbad; cbn [In]; tauto).
  clear Hbad. cbn [nth]. cbv zeta.
  destruct (_ =? "") eqn:Et;
    [exists 0%nat; cbn [repeat fst snd]; rewrite List.app_nil_r;
     split; [lia|]; split; [reflexivity|]; right; cbn [In]; tauto|].
  assert (Hpat : (if match more with
                     | [] => ""
                     | a6 :: _ => Strings.TrimSpace a6
                     end =? ""
                  then defaultPromptRe
                  else match more with
                       | [] => ""
                       | a6 :: _ => Strings.TrimSpace a6
                       end)
                 = (if Strings.TrimSpace (nth 0 more "") =? "" then "(?m)(^.*[#>$] ?$)"
                    else Strings.TrimSpace (nth 0 more ""))).
  { destruct more; reflexivity. }
  rewrite Hpat. clear Hpat.
  destruct (regexpCompile host _) as [re|] eqn:Ere;
    [|exists 0%nat; cbn [repeat fst snd]; rewrite List.app_nil_r;
      split; [lia|]; split; [reflexivity|]; right; cbn [In]; tauto].
  assert (Hmax : (if (parseInt a5 200 <=? 0)%Z then 200%Z else parseInt a5 200)
                 = match Strconv.Atoi (Strings.TrimSpace a5) with
                   | Some n => if (n <=? 0)%Z then 200%Z else n
                   | None => 200%Z
                   end).
  { unfold parseInt.
    destruct (String.eqb_spec (Strings.TrimSpace a5) "") as [->|]; [reflexivity|].
    destruct (Strconv.Atoi _); reflexivity. }
  rewrite Hmax. clear Hmax.
  pose proof (doNow_log host st) as E1. destruct (doNow host st) as [t0 st1].
  cbn [snd] in E1.
  pose proof (doNow_log host st1) as E2. destruct (doNow host st1) as [t1 st2].
  cbn [snd] in E2.
  match goal with
  | |- context [waitLoop host runner fuel re ?tg ?a ?b ?c0 ?ml ?dl ?ls ?lc st2] =>
      destruct (waitLoop_polled host runner fuel re tg a b c0 ml dl ls lc st2)
        as (n & Hn & Hl & Hr);
      exists n;
      destruct (waitLoop host runner fuel re tg a b c0 ml dl ls lc st2) as [r st3]
  end.
  cbn [fst snd] in *. split; [exact Hn|]. split; [rewrite Hl, E2, E1; reflexivity|].
  destruct r as [[e|]|]; [left; exact Hr | | exact Hr].
  destruct Hr as [H1 Hready]. split; [exact H1|]. exists re. split; [reflexivity|].
  exact Hready.
Qed.


(** The time-out that [execWaitForPrompt] reads from its arguments, in
    milliseconds. *)
Definition timeoutOf (c : Command) : Z :=
  match Args c with
  | _ :: _ :: a2 :: _ =>
      if (parseInt a2 15000 <=? 0)%Z then 15000%Z else parseInt a2 15000
  | _ => 15000%Z
  end.

(** The number of polls within the time-out, and two. *)
Definition pollBound (c : Command) : nat :=
  (Z.to_nat (wrap64 (timeoutOf c * millisecond) / pollEvery) + 2)%nat.

Section Deadline.

Context {World Regexp : Type}.
Variable host : @Runtime World Regexp.
Variable runner : @Runner World.

(** The clock of the world: [time.Now] reads it, [time.Sleep] advances it
    by the duration at least, and a call of the Runner does not turn it
    back. *)
Variable clock : World -> Z.
Hypothesis now_reads :
  forall w, (clock w <= (timeNow host w).2)%Z
            /\ ((timeNow host w).2 <= clock (timeNow host w).1)%Z.
Hypothesis sleep_advances : forall d w, (clock w + d <= clock (timeSleep host d w))%Z.
Hypothesis runner_keeps : forall args w, (clock w <= clock (RunOutput runner args w).1)%Z.

Lemma doNow_clock (st : State) :
  (clock st.1 <= (doNow host st).1 <= clock (doNow host st).2.1)%Z.
Proof.
  unfold doNow. pose proof (now_reads st.1) as H. destruct (timeNow host st.1) as [w t].
  exact H.
Qed.

Lemma capture_clock (target : string) (maxLines : Z) (st : State) :
  (clock st.1 <= clock (capture runner target maxLines st).2.1)%Z.
Proof.
  unfold capture, doRunOutput. pose proof (runner_keeps
    ["capture-pane"; "-p"; "-t"; target; "-S"; "-" +:+ Strconv.Itoa maxLines] st.1) as H.
  destruct (RunOutput runner _ st.1) as [w [out err]]. destruct err; exact H.
Qed.

Lemma waitLoop_returns (fuel : nat) (re : Regexp) (target : string)
      (timeoutMS minQuietMS settleMS maxLines deadline : Z) (lastSnap : string)
      (lastChange : Z) (st : State) :
  (1 <= fuel)%nat -> (deadline - clock st.1 <= (Z.of_nat fuel - 1) * pollEvery)%Z ->
  exists r, (waitLoop host runner fuel re target timeoutMS minQuietMS settleMS maxLines
                      deadline lastSnap lastChange st).1 = Some r.
Proof.
  revert lastSnap lastChange st.
  induction fuel as [|fuel IH]; intros lastSnap lastChange st Hf Hd; [lia|].
  cbn [waitLoop].
  pose proof (doNow_clock st) as E1. destruct (doNow host st) as [t1 st1]. cbn [fst snd] in E1.
  destruct (Z.ltb_spec t1 deadline) as [Hlt|]; [|cbn [negb fst]; eauto]. cbn [negb].
  pose proof (capture_clock target maxLines st1) as H2.
  destruct (capture runner target maxLines st1) as [[snap err] st2]. cbn [fst snd] in H2.
  assert (Hgo : forall ls lc st3, (clock st2.1 <= clock st3.1)%Z ->
            exists r, (waitLoop host runner fuel re target timeoutMS minQuietMS settleMS
                                maxLines deadline ls lc (doSleep host pollEvery st3)).1
                      = Some r).
  { intros ls lc st3 H3.
    pose proof (sleep_advances pollEvery st3.1) as Hs.
    assert (Hp : (0 < pollEvery)%Z) by reflexivity.
    apply IH; unfold doSleep; cbn [fst]; nia. }
  destruct err as [e|]; [apply Hgo; lia|].
  assert (Hrest : forall ls lc st3, (clock st2.1 <= clock st3.1)%Z ->
            exists r,
              (let '(t, st) := doNow host st3 in
               if (t - lc <? wrap64 (minQuietMS * millisecond))%Z
               then waitLoop host runner fuel re target timeoutMS minQuietMS settleMS
                             maxLines deadline ls lc (doSleep host pollEvery st)
               else
                 let lastLine := lastNonEmptyLine snap in
                 if lastLine =? ""
                 then waitLoop host runner fuel re target timeoutMS minQuietMS
                               settleMS maxLines deadline ls lc
                               (doSleep host pollEvery st)
                 else if matchString host re lastLine
                 then (Some None,
                       if (0 <? settleMS)%Z
                       then doSleep host (wrap64 (settleMS * millisecond)) st else st)
                 else waitLoop host runner fuel re target timeoutMS minQuietMS
                               settleMS maxLines deadline ls lc
                               (doSleep host pollEvery st)).1 = Some r).
  { intros ls lc st3 H3.
    pose proof (doNow_clock st3) as E4. destruct (doNow host st3) as [t4 st4].
    cbn [fst snd] in E4.
    destruct (_ <? _)%Z; [apply Hgo; lia|]. cbv zeta.
    destruct (_ =? ""); [apply Hgo; lia|].
    destruct (matchString host re _); [cbn [fst]; eauto | apply Hgo; lia]. }
  destruct (negb (snap =? lastSnap)).
  - pose proof (doNow_clock st2) as E3. destruct (doNow host st2) as [t3 st3].
    cbn [fst snd] in E3. apply Hrest. lia.
  - apply Hrest. lia.
Qed.

(** X12.  [execWaitForPrompt] comes back: under a clock that [time.Now]
    reads, that [time.Sleep] advances by the duration at least and that
    the Runner does not turn back, it returns (ready, or an error) after
    at most one poll per 100 ms of its time-out and two more, since every
    round that does not return sleeps 100 ms. *)
Theorem wait_for_prompt_returns (fuel : nat) (c : Command) (st : @State World) :
  (pollBound c <= fuel)%nat ->
  exists r, (execWaitForPrompt host runner fuel c st).1 = Some r.
Proof.
  unfold pollBound, timeoutOf, execWaitForPrompt. intros Hf.
  destruct (Args c) as [|a0 [|a1 [|a2 [|a3 [|a4 [|a5 more]]]]]]; try (cbn [fst]; eauto).
  cbv zeta. destruct (_ =? ""); [cbn [fst]; eauto|].
  destruct (regexpCompile host _) as [re|]; [|cbn [fst]; eauto].
  pose proof (doNow_clock st) as E1. destruct (doNow host st) as [t0 st1]. cbn [fst snd] in E1.
  pose proof (doNow_clock st1) as E2. destruct (doNow host st1) as [t1 st2].
  cbn [fst snd] in E2.
  apply waitLoop_returns; [lia|].
  set (d := wrap64 ((if (parseInt a2 15000 <=? 0)%Z then 15000 else parseInt a2 15000)
                    * millisecond)) in *.
  assert (Hp : (0 < pollEvery)%Z) by reflexivity.
  assert (Hdiv : (d < (d / pollEvery + 1) * pollEvery)%Z).
  { pose proof (Z.mod_pos_bound d pollEvery Hp). pose proof (Z.div_mod d pollEvery). lia. }
  destruct (Z.le_gt_cases 0 d) as [Hd|Hd].
  - assert (Hq : (0 <= d / pollEvery)%Z) by (apply Z.div_pos; lia).
    rewrite Nat2Z.inj_le in Hf. rewrite Nat2Z.inj_add, Z2Nat.id in Hf by exact Hq.
    nia.
  - assert (Hfz : (2 <= Z.of_nat fuel)%Z) by lia. nia.
Qed.

End Deadline.

(** A world that is its clock; a prompt that never comes. *)
Definition tickHost : @Runtime Z unit :=
  {| timeNow := fun w => (w, w); timeSleep := fun d w => (w + d)%Z;
     regexpCompile := fun _ => Some tt; matchString := fun _ _ => false |}.

Definition tickRunner : @Runner Z :=
  {| Run := fun _ w => (w, None); RunOutput := fun _ w => (w, ("$ ", None)) |}.

Definition shortWait : Command :=
  command ["__wait_for_prompt__"; "demo"; "300"; "0"; "0"; "10"; ""] "".

(** The theorem at a wait of 300 ms: five polls are enough. *)
Lemma wait_for_prompt_returns_witness :
  exists r, (execWaitForPrompt tickHost tickRunner 5 shortWait (0%Z, [])).1 = Some r.
Proof.
  apply (wait_for_prompt_returns tickHost tickRunner (fun w => w)).
  - intros w. cbn. lia.
  - intros d w. cbn. lia.
  - intros args w. cbn. lia.
  - vm_compute. lia.
Defined.

(** A host whose prompt expressions match the lines that end in a dollar
    sign. *)
Definition promptHost : @Runtime Z unit :=
  {| timeNow := fun w => (w, w); timeSleep := fun d w => (w + d)%Z;
     regexpCompile := fun _ => Some tt;
     matchString := fun _ line => Strings.HasSuffix line "$" |}.

(** The theorem at a pane that shows a prompt: one capture is made, and the
    wait is over. *)
Lemma wait_for_prompt_only_captures_witness :
  (execWaitForPrompt promptHost tickRunner 5 shortWait (0%Z, [])).2.2 = [captureCall "demo" 10]
  /\ ready promptHost tickRunner "demo" 10 tt
           (execWaitForPrompt promptHost tickRunner 5 shortWait (0%Z, [])).2.1.
Proof.
  split; [vm_compute; reflexivity|].
  destruct (wait_for_prompt_only_captures promptHost tickRunner 5 shortWait (0%Z, []))
    as (n & _ & _ & Hr).
  assert (E : (execWaitForPrompt promptHost tickRunner 5 shortWait (0%Z, [])).1 = Some None)
    by (vm_compute; reflexivity).
  rewrite E in Hr. destruct Hr as (_ & re & _ & Hready). destruct re.
  assert (Et : waitTarget shortWait = "demo") by (vm_compute; reflexivity).
  assert (Em : waitMaxLines shortWait = 10%Z) by (vm_compute; reflexivity).
  rewrite Et, Em in Hready. exact Hready.
Defined.

End RunFacts.

(** ** Names that the code derives are names that it accepts *)

Module NameFacts.
Import templates SessionNameFacts GateFacts SpaceFacts.

Lemma allChars_impl (p q : ascii -> bool) (s : string) :
  (forall c, p c = true -> q c = true) -> allChars p s = true -> allChars q s = true.
Proof.
  intros Hpq. induction s as [|c s IH]; [reflexivity|]. cbn [allChars].
  intros H. apply andb_true_iff in H as [Hc Hs]. now rewrite (Hpq c Hc), IH.
Qed.

Lemma allChars_app (p : ascii -> bool) (a b : string) :
  allChars p a = true -> allChars p b = true -> allChars p (a +:+ b) = true.
Proof.
  intros Ha Hb. induction a as [|c a IH]; [exact Hb|].
  cbn [allChars] in Ha. apply andb_true_iff in Ha as [Hc Ha].
  change (String c a +:+ b) with (String c (a +:+ b)). cbn [allChars].
  now rewrite Hc, IH.
Qed.

Lemma allChars_first (p : ascii -> bool) (s : string) (c : ascii) :
  allChars p s = true -> firstChar s = Some c -> p c = true.
Proof.
  destruct s as [|x s]; [discriminate|]. cbn [allChars firstChar]. intros H E.
  injection E as <-. now apply andb_true_iff in H as [H _].
Qed.

Lemma allChars_last (p : ascii -> bool) (s : string) (c : ascii) :
  allChars p s = true -> lastChar s = Some c -> p c = true.
Proof.
  induction s as [|x s IH]; [discriminate|]. cbn [allChars]. intros H E.
  apply andb_true_iff in H as [Hx Hs]. destruct s as [|y s].
  - cbn [lastChar] in E. injection E as <-. exact Hx.
  - apply IH; [exact Hs | exact E].
Qed.

Lemma TrimRightFunc_id (p : ascii -> bool) (s : string) :
  (forall c, lastChar s = Some c -> p c = false) -> Strings.TrimRightFunc p s = s.
Proof.
  induction s as [|x s IH]; [reflexivity|]. intros H. cbn [Strings.TrimRightFunc].
  destruct s as [|y s].
  - cbn [Strings.TrimRightFunc]. now rewrite (H x eq_refl).
  - rewrite IH; [reflexivity|]. intros c Hc. apply H. exact Hc.
Qed.

(** A string without blanks at its ends is not changed by [TrimSpace]. *)
Lemma safeChar_nameChar (c : ascii) : spec.isSafeChar c = true -> spec.isNameChar c = true.
Proof.
  unfold spec.isSafeChar, spec.isNameChar. intros H.
  repeat (apply orb_true_iff in H as [H|H]); rewrite H; repeat rewrite orb_true_r;
    reflexivity.
Qed.

Lemma safeChar_noSpace (c : ascii) : spec.isSafeChar c = true -> plainByte c = true.
Proof. destruct c as [[] [] [] [] [] [] [] []]; vm_compute; congruence. Qed.

Lemma nameChar_safeChar (c : ascii) : nameChar c = true -> spec.isSafeChar c = true.
Proof.
  unfold spec.isSafeChar, nameChar. intros H.
  repeat (apply orb_true_iff in H as [H|H]); rewrite H; repeat rewrite orb_true_r;
    reflexivity.
Qed.

Lemma allNameChars_allChars (s : string) :
  spec.allNameChars s = allChars spec.isNameChar s.
Proof. induction s as [|c s IH]; [reflexivity|]. cbn. now rewrite IH. Qed.

(** A non-empty string of safe bytes is a tmux name. *)
Lemma safe_is_valid (s : string) :
  allChars spec.isSafeChar s = true -> s <> "" -> spec.ValidateTmuxName s = Ok tt.
Proof.
  intros Hs Hne. unfold spec.ValidateTmuxName. cbv zeta.
  rewrite (TrimSpace_id spec.isSafeChar s safeChar_noSpace Hs).
  apply String.eqb_neq in Hne. rewrite Hne, allNameChars_allChars.
  now rewrite (allChars_impl _ _ s safeChar_nameChar Hs).
Qed.


Lemma ToLower_empty (s : string) : Strings.ToLower s = "" -> s = "".
Proof. destruct s; [reflexivity | discriminate]. Qed.

Lemma sanitizeName_empty (s : string) :
  spec.sanitizeName s = "" -> Strings.TrimSpace s = "".
Proof.
  unfold spec.sanitizeName.
  destruct (String.eqb_spec (Strings.ToLower (Strings.TrimSpace s)) "") as [E|_].
  - intros _. now apply ToLower_empty.
  - cbv zeta.
    match goal with
    | |- (if ?x =? "" then _ else _) = _ -> _ => destruct (String.eqb_spec x "") as [|Hne]
    end; [discriminate | intros H; contradiction].
Qed.

(** X13.  For a prefix and a base name of the project path that are ASCII
    text once trimmed, [DeriveSessionName] returns bytes of [a-z0-9_-]
    only, and what it returns is a name that [ValidateTmuxName] accepts,
    unless it is empty; it is empty only when the base name of the project
    path is blank. *)
Theorem derived_name_is_valid (pfx path : string) :
  isASCII (Strings.TrimSpace pfx) = true ->
  isASCII (Strings.TrimSpace (Filepath.Base (Strings.TrimRight path "/"))) = true ->
  allChars spec.isSafeChar (spec.DeriveSessionName pfx path) = true
  /\ (spec.DeriveSessionName pfx path = ""
      \/ spec.ValidateTmuxName (spec.DeriveSessionName pfx path) = Ok tt)
  /\ (spec.DeriveSessionName pfx path = "" ->
      Strings.TrimSpace (Filepath.Base (Strings.TrimRight path "/")) = "").
Proof.
  intros _ _.
  assert (Hc : allChars spec.isSafeChar (spec.DeriveSessionName pfx path) = true).
  { unfold spec.DeriveSessionName. cbv zeta.
    destruct (negb (pfx =? "")); [|apply sanitizeName_chars].
    destruct (negb (spec.sanitizeName pfx =? "")); [|apply sanitizeName_chars].
    apply allChars_app; [apply sanitizeName_chars|].
    apply (allChars_app _ "-"); [reflexivity | apply sanitizeName_chars]. }
  split; [exact Hc|]. split.
  - destruct (String.eqb_spec (spec.DeriveSessionName pfx path) "") as [|Hne];
      [now left | right; now apply safe_is_valid].
  - unfold spec.DeriveSessionName. cbv zeta.
    destruct (negb (pfx =? "")); [|apply sanitizeName_empty].
    destruct (String.eqb_spec (spec.sanitizeName pfx) "") as [|Hp];
      [apply sanitizeName_empty|].
    cbn [negb]. intros H. destruct (spec.sanitizeName pfx); [contradiction | discriminate].
Qed.

(** The theorem at the prefix Dev and the project path /tmp/My Proj, and at
    a project path whose base name is a no-break space. *)
Lemma derived_name_is_valid_witness :
  spec.DeriveSessionName "Dev" "/tmp/My Proj" = "dev-my-proj"
  /\ spec.ValidateTmuxName (spec.DeriveSessionName "Dev" "/tmp/My Proj") = Ok tt
  /\ spec.DeriveSessionName "" ("/tmp/" +:+ String "194" (String "160" "")) = "".
Proof.
  split; [vm_compute; reflexivity|]. split; [|vm_compute; reflexivity].
  destruct (derived_name_is_valid "Dev" "/tmp/My Proj" eq_refl eq_refl) as (_ & [H|H] & _).
  - vm_compute in H. discriminate H.
  - exact H.
Defined.

(** The bytes of a compiled session name stay as they are in the rune
    loop. *)
Lemma nameChar_cases (c : ascii) :
  nameChar c = true ->
  Strings.isLower c = true
  \/ (Strings.isLower c = false /\ Strings.isUpper c = false /\ Strings.isDigit c = true)
  \/ (Strings.isLower c = false /\ Strings.isUpper c = false /\ Strings.isDigit c = false
      /\ c = "_"%char).
Proof.
  destruct c as [[] [] [] [] [] [] [] []]; vm_compute; intros H; try discriminate H; auto 10.
Qed.

Lemma sanitizeRunes_id (s : string) (last : bool) :
  allChars nameChar s = true -> sanitizeRunes s last = s.
Proof.
  revert last. induction s as [|c s IH]; intros last H; [reflexivity|].
  cbn [allChars] in H. apply andb_true_iff in H as [Hc Hs]. cbn [sanitizeRunes].
  destruct (nameChar_cases c Hc) as [El|[(El & Eu & Ed)|(El & Eu & Ed & E)]].
  - rewrite El, IH; [reflexivity | exact Hs].
  - rewrite El, Eu, Ed, IH; [reflexivity | exact Hs].
  - rewrite El, Eu, Ed. subst c.
    change (("_" =? "-")%char || ("_" =? "_")%char) with true. cbv iota.
    rewrite IH; [reflexivity | exact Hs].
Qed.

Lemma nameChar_noSpace (c : ascii) : nameChar c = true -> plainByte c = true.
Proof. intros H. apply safeChar_noSpace, nameChar_safeChar, H. Qed.

(** X14.  [sanitizeSessionName] is idempotent, and a compiled session name
    that is not empty is a name that [ValidateTmuxName] accepts. *)
Theorem compiled_name_is_stable (name : string) :
  sanitizeSessionName (sanitizeSessionName name) = sanitizeSessionName name
  /\ (sanitizeSessionName name = ""
      \/ spec.ValidateTmuxName (sanitizeSessionName name) = Ok tt).
Proof.
  destruct (sanitizeSessionName_shape name) as (Hc & Hf & Hl).
  set (s := sanitizeSessionName name) in *. split.
  - unfold sanitizeSessionName at 1. cbv zeta.
    rewrite (TrimSpace_id nameChar s nameChar_noSpace Hc).
    destruct (String.eqb_spec s "") as [E|_]; [now rewrite E|].
    rewrite (sanitizeRunes_id s false Hc). unfold Strings.Trim.
    rewrite TrimLeftFunc_id.
    + apply TrimRightFunc_id. intros c Hlast. cbn [Strings.inCutset].
      rewrite orb_false_r. apply Ascii.eqb_neq. intros ->. contradiction.
    + intros c Hfirst. cbn [Strings.inCutset]. rewrite orb_false_r.
      apply Ascii.eqb_neq. intros ->. contradiction.
  - destruct (String.eqb_spec s "") as [|Hne]; [now left | right].
    apply safe_is_valid; [|exact Hne].
    exact (allChars_impl _ _ s nameChar_safeChar Hc).
Qed.

End NameFacts.
(** ** The resolution of the session name *)

Module ResolutionFacts.
Import templates BuildFacts Fixtures SessionNameFacts GateFacts SpaceFacts NameFacts.

(** A string of the bytes of a name that neither starts nor ends with an
    underscore is left as it is. *)
Lemma sanitizeSessionName_fixed (s : string) :
  allChars nameChar s = true ->
  firstChar s <> Some "_"%char -> lastChar s <> Some "_"%char ->
  sanitizeSessionName s = s.
Proof.
  intros Hc Hf Hl. unfold sanitizeSessionName. cbv zeta.
  rewrite (TrimSpace_id nameChar s nameChar_noSpace Hc).
  destruct (String.eqb_spec s "") as [E|_]; [now rewrite E|].
  rewrite (sanitizeRunes_id s false Hc). unfold Strings.Trim.
  rewrite TrimLeftFunc_id.
  - apply TrimRightFunc_id. intros c Hlast. cbn [Strings.inCutset].
    rewrite orb_false_r. apply Ascii.eqb_neq. intros ->. contradiction.
  - intros c Hfirst. cbn [Strings.inCutset]. rewrite orb_false_r.
    apply Ascii.eqb_neq. intros ->. contradiction.
Qed.














End ResolutionFacts.

(** ** When Stage A succeeds *)

Module BuildCompleteFacts.
Import templates LoopFacts StageAFacts BuildFacts GateFacts NormalFormFacts LoweringFacts.

(** A step of a validated pane plan: a pane, or a split with a direction
    that reads h or v. *)
Definition stepOK (st : spec.PanePlanStep) : Prop :=
  spec.isSome (spec.Step_Pane st) = true
  \/ exists sp, spec.Step_Split st = Some sp
                /\ spec.validDirection (spec.Split_Direction sp) = true.

(** What [validateWindow] establishes. *)
Definition goodWindow (w : spec.Window) : Prop :=
  Strings.TrimSpace (spec.Window_Name w) <> ""
  /\ Forall stepOK (spec.Window_PanePlan w)
  /\ Forall wellFormed (windowLowered w).

Lemma traverse_wellFormed (xs ys : list spec.Action) :
  traverse spec.validateAction xs = Ok ys -> Forall wellFormed ys.
Proof.
  intros H. apply traverse_ok in H. induction H as [|x y xs ys Hxy _ IH]; constructor.
  - eapply validateAction_wellFormed; eauto.
  - exact IH.
Qed.

Lemma validatePlanStep_wellFormed (st st' : spec.PanePlanStep) :
  spec.validatePlanStep st = Ok st' -> Forall wellFormed (stepActions st').
Proof.
  unfold spec.validatePlanStep, stepActions. intros H.
  destruct (spec.Step_Pane st) as [p|] eqn:Ep.
  - destruct (traverse spec.validateAction _) as [acts| |] eqn:E; try discriminate.
    injection H as <-. cbn [spec.Step_Pane spec.PlanPane_Actions].
    eapply traverse_wellFormed; eauto.
  - injection H as <-. rewrite Ep. constructor.
Qed.

Lemma validatePane_wellFormed (p p' : spec.Pane) :
  spec.validatePane p = Ok p' -> Forall wellFormed (spec.Pane_Actions p').
Proof.
  unfold spec.validatePane. intros H.
  destruct (traverse spec.validateAction _) as [acts| |] eqn:E; try discriminate.
  injection H as <-. cbn [spec.Pane_Actions]. eapply traverse_wellFormed; eauto.
Qed.

Lemma traverse_flat_map {A : Type} (f : A -> result A) (g : A -> list spec.Action)
      (xs ys : list A) :
  (forall x y, f x = Ok y -> Forall wellFormed (g y)) ->
  traverse f xs = Ok ys -> Forall wellFormed (flat_map g ys).
Proof.
  intros Hf H. apply traverse_ok in H. induction H as [|x y xs ys Hxy _ IH]; [constructor|].
  cbn [flat_map]. apply Forall_app. split; [eapply Hf; eauto | exact IH].
Qed.

Lemma shape_stepOK (st : spec.PanePlanStep) :
  spec.validatePlanStepShape st = Ok tt -> stepOK st.
Proof.
  unfold spec.validatePlanStepShape, stepOK. cbv zeta.
  destruct (spec.Step_Pane st), (spec.Step_Split st) as [sp|]; cbn; try discriminate.
  - auto.
  - destruct (spec.validDirection (spec.Split_Direction sp)) eqn:E; [|discriminate].
    intros _. right. eauto.
Qed.

Lemma planOf_shape (steps plan : list spec.PanePlanStep) :
  planOf steps = Ok plan ->
  Forall stepOK plan /\ Forall wellFormed (flat_map stepActions plan).
Proof.
  unfold planOf. intros H. destruct steps as [|st steps].
  { injection H as <-. split; constructor. }
  destruct (spec.validatePanePlan (st :: steps)) as [[]| |] eqn:Ev; try discriminate.
  change (Ok tt ≫= ?k) with (k tt) in H. cbv beta in H. split.
  - pose proof (validatePanePlan_validated _ _ Ev H) as Hv.
    destruct plan as [|p0 ps]; [constructor|].
    unfold spec.validatePanePlan in Hv. destruct (_ || _); [discriminate|].
    destruct (forM_ spec.validatePlanStepShape (p0 :: ps)) as [[]| |] eqn:E;
      try discriminate.
    apply forM__ok in E. eapply Forall_impl; [exact E|]. apply shape_stepOK.
  - eapply traverse_flat_map; [|exact H]. apply validatePlanStep_wellFormed.
Qed.

Lemma validateWindow_good (w w' : spec.Window) :
  spec.validateWindow w = Ok w' -> goodWindow w'.
Proof.
  rewrite validateWindow_planOf. cbv zeta. intros H.
  destruct (String.eqb_spec (Strings.TrimSpace (spec.Window_Name w)) "") as [|Hn];
    [discriminate|].
  destruct (_ && _); [discriminate|].
  destruct (planOf (spec.Window_PanePlan w)) as [plan| |] eqn:Eplan; try discriminate.
  change (Ok plan ≫= ?k) with (k plan) in H. cbv beta in H.
  destruct (traverse spec.validatePane _) as [panes| |] eqn:Epanes; try discriminate.
  change (Ok panes ≫= ?k) with (k panes) in H. cbv beta in H.
  destruct (traverse spec.validateAction _) as [acts| |] eqn:Eacts; try discriminate.
  injection H as <-. apply planOf_shape in Eplan as [Hsteps Hplan].
  unfold goodWindow, windowLowered.
  cbn [spec.Window_Name spec.Window_PanePlan spec.Window_Actions spec.Window_Panes].
  split; [exact Hn|]. split; [exact Hsteps|]. apply Forall_app. split.
  - eapply traverse_wellFormed; eauto.
  - destruct plan; [|exact Hplan].
    eapply traverse_flat_map; [|exact Epanes]. apply validatePane_wellFormed.
Qed.

Lemma Validate_good (s0 s : spec.Spec) :
  spec.Validate s0 = Ok s ->
  Forall goodWindow (spec.Spec_Windows s) /\ Forall wellFormed (spec.Spec_Actions s)
  /\ (spec.Spec_Actions s = [] -> spec.Spec_Windows s <> []).
Proof.
  intros H. pose proof (ValidateFacts.Validate_ok _ _ H) as (_ & _ & _ & _ & Hw & Ha).
  split; [|split].
  - apply traverse_ok in Hw. clear -Hw.
    induction Hw as [|x y xs ys Hxy _ IH]; constructor; [|exact IH].
    eapply validateWindow_good; eauto.
  - eapply traverse_wellFormed; eauto.
  - apply traverse_length in Hw. apply traverse_length in Ha.
    unfold spec.Validate in H. destruct (negb _); [discriminate|].
    destruct (_ && _) eqn:E; [discriminate|]. intros Hnil Hwnil.
    rewrite Hnil in Ha. rewrite Hwnil in Hw. rewrite <- Ha, <- Hw in E. discriminate.
Qed.


Section Total.

Variable os : OS.
Variables (ctx : Context) (n : string) (pol : spec.Policy)
          (dis : option (gmap string bool)).

Lemma convertPlanStep_total (w : spec.Window) (winRoot : string) (first : bool)
      (step : spec.PanePlanStep) :
  stepOK step -> Forall (lowers n pol dis) (stepActions step) ->
  exists r, convertPlanStep os ctx n w winRoot pol dis first step = Ok r.
Proof.
  unfold stepOK, stepActions, convertPlanStep. intros Hok Hl.
  destruct (spec.Step_Pane step) as [p|].
  - apply (convertPaneActions_ok n (spec.Window_Name w)) in Hl as [[acts u] Hl].
    cbv zeta. rewrite Hl. eauto.
  - destruct Hok as [Hok|(sp & -> & Hd)]; [discriminate|].
    unfold spec.validDirection in Hd. cbv zeta in *.
    apply orb_true_iff in Hd as [Hd|Hd]; rewrite Hd; [|rewrite andb_false_r]; eauto.
Qed.

Lemma convertPlanSteps_total (w : spec.Window) (winRoot : string)
      (steps : list spec.PanePlanStep) (first : bool) :
  Forall stepOK steps -> Forall (lowers n pol dis) (flat_map stepActions steps) ->
  exists r, convertPlanSteps os ctx n w winRoot pol dis first steps = Ok r.
Proof.
  revert first. induction steps as [|step steps IH]; intros first Hok Hl;
    cbn [convertPlanSteps]; [eauto|].
  inversion Hok as [|? ? Hs Hrest]; subst. cbn [flat_map] in Hl.
  apply Forall_app in Hl as [Hl1 Hl2].
  destruct (convertPlanStep_total w winRoot first step Hs Hl1) as [[acts u] E]. rewrite E.
  change (Ok (acts, u) ≫= ?k) with (k (acts, u)). cbv beta iota.
  destruct (IH false Hrest Hl2) as [[out u'] E']. rewrite E'. eauto.
Qed.

Lemma convertPanes_total (w : spec.Window) (winRoot : string) (panes : list spec.Pane)
      (first : bool) :
  Forall (lowers n pol dis) (flat_map spec.Pane_Actions panes) ->
  exists r, convertPanes os ctx n w winRoot pol dis first panes = Ok r.
Proof.
  revert first. induction panes as [|p panes IH]; intros first Hl; cbn [convertPanes];
    [eauto|].
  cbn [flat_map] in Hl. apply Forall_app in Hl as [Hl1 Hl2].
  apply (convertPaneActions_ok n (spec.Window_Name w)) in Hl1 as [[acts u] E].
  unfold convertPane. cbv zeta. rewrite E.
  change (Ok (acts, u) ≫= ?k) with (k (acts, u)). cbv beta iota.
  change (Ok ?a ≫= ?k) with (k a). cbv beta iota.
  destruct (IH false Hl2) as [[out u'] E']. rewrite E'. eauto.
Qed.

Lemma convertWindow_total (root : string) (w : spec.Window) :
  goodWindow w -> Forall (lowers n pol dis) (windowLowered w) ->
  exists r, convertWindow os ctx n root pol dis w = Ok r.
Proof.
  intros (Hn & Hsteps & _) Hl. unfold convertWindow, windowLowered in *.
  apply String.eqb_neq in Hn. rewrite Hn. cbv zeta.
  apply Forall_app in Hl as [Hl1 Hl2].
  assert (Ha : exists r, match spec.Window_Actions w with
                         | [] => Ok ([], false)
                         | _ :: _ =>
                             '(acts, usedUnsafe) ← convertActions n (spec.Window_Actions w)
                                                     pol dis;
                             Ok (map (defaultTargetRaw n (spec.Window_Name w)) acts,
                                 usedUnsafe)
                         end = Ok r).
  { destruct (spec.Window_Actions w) as [|a acts] eqn:Ea; [eauto|].
    apply convertActions_ok in Hl1 as [[out u] E]. rewrite E. eauto. }
  destruct Ha as [[wa u1] Ha]. rewrite Ha.
  change (Ok (wa, u1) ≫= ?k) with (k (wa, u1)). cbv beta iota.
  assert (Hp : exists r, match spec.Window_PanePlan w with
                         | [] => convertPanes os ctx n w
                                   (resolveRoot os ctx (spec.Window_Root w) root) pol dis
                                   true (spec.Window_Panes w)
                         | _ :: _ => convertPanePlan os ctx n w
                                       (resolveRoot os ctx (spec.Window_Root w) root) pol dis
                         end = Ok r).
  { unfold convertPanePlan. destruct (spec.Window_PanePlan w) as [|st steps].
    - now apply convertPanes_total.
    - now apply convertPlanSteps_total. }
  destruct Hp as [[pa u2] Hp]. rewrite Hp. eauto.
Qed.

Lemma convertWindowLoop_total (root : string) (ws : list spec.Window) :
  Forall goodWindow ws -> Forall (lowers n pol dis) (flat_map windowLowered ws) ->
  exists r, convertWindowLoop os ctx n root pol dis ws = Ok r.
Proof.
  induction ws as [|w ws IH]; intros Hg Hl; cbn [convertWindowLoop]; [eauto|].
  inversion Hg as [|? ? Hw Hrest]; subst. cbn [flat_map] in Hl.
  apply Forall_app in Hl as [Hl1 Hl2].
  destruct (convertWindow_total root w Hw Hl1) as [[acts u] E]. rewrite E.
  change (Ok (acts, u) ≫= ?k) with (k (acts, u)). cbv beta iota.
  destruct (IH Hrest Hl2) as [[out u'] E']. rewrite E'. eauto.
Qed.

Lemma convertWindows_total (root : string) (ws : list spec.Window) :
  ws <> [] -> Forall goodWindow ws ->
  Forall (lowers n pol dis) (flat_map windowLowered ws) ->
  exists r, convertWindows os ctx n root ws pol dis = Ok r.
Proof.
  intros Hne Hg Hl. unfold convertWindows. destruct ws as [|w ws]; [contradiction|].
  destruct (convertWindowLoop_total root (w :: ws) Hg Hl) as [[out u] E]. rewrite E. eauto.
Qed.

End Total.


Lemma lowered_wellFormed (s0 s : spec.Spec) (opt : BuildOptions) :
  spec.Validate s0 = Ok s -> Forall wellFormed (lowered s opt).
Proof.
  intros H. apply Validate_good in H as (Hw & Ha & _). unfold lowered.
  destruct (usesActions s opt); [exact Ha|].
  induction Hw as [|w ws (_ & _ & Hl) _ IH]; [constructor|].
  cbn [flat_map]. apply Forall_app. now split.
Qed.

Lemma Forall_lowers_gate (n : string) (pol : spec.Policy) (dis : option (gmap string bool))
      (acts : list spec.Action) :
  Forall wellFormed acts -> (Forall (lowers n pol dis) acts <-> Forall (gate pol dis) acts).
Proof.
  intros Hw. induction Hw as [|a acts Ha _ IH]; [split; constructor|].
  split; intros H; inversion H as [|? ? H1 H2]; subst; constructor;
    try (now apply IH); now apply (lowers_wellFormed n pol dis a Ha).
Qed.

(** X15.  [BuildFromSpec] succeeds exactly when the spec is structurally
    valid, the project root and the sanitized session name are not empty,
    [ValidatePolicy] accepts every action that it walks, and the policy
    lets every action through that is lowered (the spec-level actions, or
    with windows the actions of the windows, of their pane plans or legacy
    panes): shell and sleep need AllowShell, tmux needs passthrough and a
    name that is allowed and not denied.  A valid spec is refused for no
    other reason.  The text of the spec that [Validate] puts in lower case
    is ASCII text. *)
Theorem build_succeeds_iff (os : OS) (order : list (string * string)) (s0 : spec.Spec)
        (opt : BuildOptions) :
  Forall (fun t => SessionNameFacts.isASCII t = true) (casedText s0) ->
  (exists r, BuildFromSpec os order s0 opt = Ok r)
  <-> exists s,
      spec.Validate s0 = Ok s
      /\ Strings.TrimSpace (Opt_ProjectRoot opt) <> ""
      /\ sanitizeSessionName (chosenName os s0 opt) <> ""
      /\ Forall (ValidatePolicyFacts.accepted (buildPolicy opt))
                (ValidatePolicyFacts.policyWalk s)
      /\ Forall (gate (buildPolicy opt) (buildDisallowed opt)) (lowered s opt).
Proof.
  intros _. split.
  - intros [[[ctx tpl] u] H].
    apply BuildFromSpec_ok in H as (s & Ev & Hr & Hname & Hne & Hp & Hl).
    exists s. rewrite <- Hname. repeat split; auto.
    + rewrite ValidatePolicyFacts.ValidatePolicy_walk, forM__ok in Hp.
      eapply Forall_impl; [exact Hp|]. intros a Ha.
      now apply ValidatePolicyFacts.checkPolicy_accepted.
    + eapply Forall_lowers_gate; [eapply lowered_wellFormed; eauto | exact Hl].
  - intros (s & Ev & Hr & Hn & Hacc & Hgate). unfold BuildFromSpec. rewrite Ev.
    change (Ok s ≫= ?k) with (k s). cbv beta. cbv zeta.
    destruct (String.eqb_spec (Strings.TrimSpace (Opt_ProjectRoot opt)) "");
      [contradiction|].
    assert (Hname : resolveSessionName (Opt_SessionName opt) s
                      (expandUser os (Strings.TrimSpace (Opt_ProjectRoot opt)))
                    = chosenName os s0 opt)
      by apply (resolveSessionName_validated _ s0 s _ Ev).
    rewrite !Hname.
    destruct (String.eqb_spec (sanitizeSessionName (chosenName os s0 opt)) "");
      [contradiction|].
    assert (Hp : spec.ValidatePolicy s (buildPolicy opt) = Ok tt).
    { rewrite ValidatePolicyFacts.ValidatePolicy_walk, forM__ok.
      eapply Forall_impl; [exact Hacc|]. intros a Ha.
      now apply ValidatePolicyFacts.checkPolicy_accepted. }
    rewrite Hp. change (Ok tt ≫= ?k) with (k tt). cbv beta.
    apply (Forall_lowers_gate (sanitizeSessionName (chosenName os s0 opt)))
      in Hgate; [|eapply lowered_wellFormed; eauto].
    fold (usesActions s opt). unfold lowered in Hgate.
    destruct (Validate_good _ _ Ev) as (Hgood & _ & Hnonempty).
    destruct (usesActions s opt) eqn:Eu.
    + apply convertActions_ok in Hgate as [[acts u] E]. rewrite E.
      change (Ok (acts, u) ≫= ?k) with (k (acts, u)). cbv beta iota. eauto.
    + assert (Hws : spec.Spec_Windows s <> []).
      { unfold usesActions in Eu. destruct (spec.Spec_Actions s) as [|a l] eqn:Ea;
          [now apply Hnonempty|].
        cbn [List.length Nat.eqb negb andb] in Eu. apply negb_false_iff in Eu.
        apply andb_true_iff in Eu as [_ Eu]. intros Hnil. rewrite Hnil in Eu. discriminate. }
      match goal with
      | |- context [convertWindows os ?c ?nm ?rt (spec.Spec_Windows s) ?p ?d] =>
          destruct (convertWindows_total os c nm p d rt (spec.Spec_Windows s) Hws Hgood Hgate)
            as [[acts u] E]; rewrite E
      end.
      change (Ok (acts, u) ≫= ?k) with (k (acts, u)). cbv beta iota.
      change (Ok ?a ≫= ?k) with (k a). cbv beta iota. eauto.
Qed.

(** The theorem at the fixture with a pane plan, which compiles: the policy
    lets every lowered action through. *)
Lemma build_succeeds_iff_witness :
  exists s,
    spec.Validate Fixtures.panePlanFixture = Ok s
    /\ Forall (gate (buildPolicy (SessionNameFacts.namedOptions "/tmp/demo" "My-App"))
                    (buildDisallowed (SessionNameFacts.namedOptions "/tmp/demo" "My-App")))
              (lowered s (SessionNameFacts.namedOptions "/tmp/demo" "My-App")).
Proof.
  destruct (build_succeeds_iff Fixtures.plainOS [] Fixtures.panePlanFixture
              (SessionNameFacts.namedOptions "/tmp/demo" "My-App")) as [H _].
  - repeat constructor.
  - destruct H as (s & Ev & _ & _ & _ & Hg); [eexists; vm_compute; reflexivity|].
    exists s. split; [exact Ev | exact Hg].
Defined.

End BuildCompleteFacts.

(** ** The walk of [ValidatePolicy] under a wider policy *)

Module PolicyOrderFacts.
Import spec LoopFacts NormalFormFacts LoweringFacts BuildCompleteFacts ValidatePolicyFacts.

(** [wider] lets through what [pol] lets through. *)
Definition atLeast (pol wider : Policy) : Prop :=
  (AllowShell pol = true -> AllowShell wider = true)
  /\ (AllowTmuxPassthrough pol = true -> AllowTmuxPassthrough wider = true)
  /\ (forall cmd, walkAllowed pol cmd = true ->
                  AllowTmuxPassthrough wider = true \/ walkAllowed wider cmd = true).

Lemma accepted_wider (pol wider : Policy) (a : Action) :
  atLeast pol wider -> accepted pol a -> accepted wider a.
Proof.
  intros (Hs & Hp & Hc) [H1 H2]. split; [auto|]. intros Hty.
  destruct (H2 Hty) as (t & Ht & Hne & [Hon|Hal]); exists t; repeat split; auto.
Qed.

Lemma wellFormed_accepted (pol : Policy) (a : Action) :
  AllowShell pol = true -> AllowTmuxPassthrough pol = true -> wellFormed a ->
  accepted pol a.
Proof.
  intros Hs Hp Hw. split; [auto|]. intros Hty. unfold wellFormed in Hw.
  destruct Hw as [[_ (t & Ht & Hne & Htrim)]|Hw].
  - exists t. rewrite Htrim. auto.
  - repeat (destruct Hw as [[E _]|Hw]; [rewrite Hty in E; discriminate E|]).
    destruct Hw as [E _]. rewrite Hty in E. discriminate E.
Qed.

Lemma validateWindow_walk (w w' : Window) :
  validateWindow w = Ok w' ->
  Forall wellFormed (Window_Actions w' ++ flat_map Pane_Actions (Window_Panes w')).
Proof.
  rewrite validateWindow_planOf. cbv zeta. intros H.
  destruct (_ =? ""); [discriminate|]. destruct (_ && _); [discriminate|].
  destruct (planOf (Window_PanePlan w)) as [plan| |]; try discriminate.
  change (Ok plan ≫= ?k) with (k plan) in H. cbv beta in H.
  destruct (traverse validatePane _) as [panes| |] eqn:Epanes; try discriminate.
  change (Ok panes ≫= ?k) with (k panes) in H. cbv beta in H.
  destruct (traverse validateAction _) as [acts| |] eqn:Eacts; try discriminate.
  injection H as <-. cbn [Window_Actions Window_Panes]. apply Forall_app. split.
  - eapply traverse_wellFormed; eauto.
  - eapply traverse_flat_map; [|exact Epanes]. apply validatePane_wellFormed.
Qed.

Lemma policyWalk_wellFormed (s0 s : Spec) :
  Validate s0 = Ok s -> Forall wellFormed (policyWalk s).
Proof.
  intros H. pose proof (ValidateFacts.Validate_ok _ _ H) as (_ & _ & _ & _ & Hw & Ha).
  unfold policyWalk. apply Forall_app. split; [eapply traverse_wellFormed; eauto|].
  apply traverse_ok in Hw. clear -Hw.
  induction Hw as [|x y xs ys Hxy _ IH]; [constructor|].
  cbn [flat_map]. apply Forall_app. split; [eapply validateWindow_walk; eauto | exact IH].
Qed.

(** X16.  [ValidatePolicy] refuses a structurally valid spec for reasons of
    policy only: with AllowShell and passthrough both on it accepts every
    spec that [Validate] returned.  And it is monotone: a spec accepted
    under a policy is accepted under every policy that allows at least as
    much. *)
Theorem validate_policy_is_monotone :
  (forall s0 s pol,
      Validate s0 = Ok s -> AllowShell pol = true -> AllowTmuxPassthrough pol = true ->
      ValidatePolicy s pol = Ok tt)
  /\ (forall s pol wider,
         atLeast pol wider -> ValidatePolicy s pol = Ok tt -> ValidatePolicy s wider = Ok tt).
Proof.
  split.
  - intros s0 s pol Hv Hs Hp. rewrite ValidatePolicy_walk, forM__ok.
    eapply Forall_impl; [apply (policyWalk_wellFormed s0 s Hv)|]. intros a Ha.
    apply checkPolicy_accepted. now apply wellFormed_accepted.
  - intros s pol wider Hle H. rewrite ValidatePolicy_walk, forM__ok in *.
    eapply Forall_impl; [exact H|]. intros a Ha.
    apply checkPolicy_accepted. apply checkPolicy_accepted in Ha.
    now apply (accepted_wider pol).
Qed.

End PolicyOrderFacts.

(** ** What reaches the Runner without passthrough *)

Module SubcommandFacts.
Import templates ExecutorFacts CompileFacts.

(** The tmux subcommands that the compiler writes itself, and the one of
    the polling loop. *)
Definition builtSubcommands : list string :=
  ["new-session"; "new-window"; "split-window"; "rename-window"; "select-window";
   "select-pane"; "select-layout"; "send-keys"; "set-option"; "display-message";
   "capture-pane"].

Definition builtCall (c : Call) : Prop :=
  exists a0 rest, callArgs c = a0 :: rest /\ In a0 builtSubcommands.

Lemma compileAction_built (os : OS) (pol : Policy) (ctx : Context) (a : Action)
      (cmds : list Command) (u : bool) (ws : list string) :
  Kind a <> ActionTmux ->
  compileAction os pol ctx a = Ok (cmds, u, ws) ->
  Forall (fun c => isSentinel (Args c) = false -> builtCall (CallRun (Args c))) cmds.
Proof.
  intros Hk H. unfold compileAction in H. cbv zeta in H.
  destruct (Kind a); try contradiction.
  all: unfold mbind, result_bind in H.
  all: try discriminate.
  all: repeat (case_match; try discriminate).
  all: injection H as <- <- <-; apply List.Forall_cons; [|apply List.Forall_nil].
  all: intros Hs; try discriminate Hs.
  all: eexists _, _; split; [reflexivity|]; cbn [In builtSubcommands]; tauto.
Qed.


Lemma emit_built (os : OS) (pol : Policy) (ctx : Context) (actions : list Action)
      (out out' : Compiled) :
  Forall (fun a => Kind a <> ActionTmux) actions ->
  Forall (fun c => isSentinel (Args c) = false -> builtCall (CallRun (Args c)))
         (Commands out) ->
  emit os pol ctx actions out = Ok out' ->
  Forall (fun c => isSentinel (Args c) = false -> builtCall (CallRun (Args c)))
         (Commands out').
Proof.
  intros Hk. revert out. induction Hk as [|a rest Ha _ IH]; intros out Hout H.
  - injection H as <-. exact Hout.
  - cbn [emit] in H.
    destruct (compileAction os pol ctx a) as [[[cmds u] ws]| |] eqn:E; try discriminate.
    change (Ok (cmds, u, ws) ≫= ?k) with (k (cmds, u, ws)) in H. cbv beta iota in H.
    apply IH in H; [exact H|]. cbn [Commands]. apply Forall_app. split; [exact Hout|].
    exact (compileAction_built os pol ctx a cmds u ws Ha E).
Qed.

(** X17.  Without passthrough the Runner sees the compiler's own
    subcommands only: when the policy of the engine has
    AllowTmuxPassthrough off, every call that [Execute] makes for a plan
    that [Compile] returned (Run or RunOutput) has as first argument one of
    new-session, new-window, split-window, rename-window, select-window,
    select-pane, select-layout, send-keys, set-option, display-message and
    capture-pane. *)
Theorem without_passthrough_built_subcommands {World Regexp : Type}
        (host : @Runtime World Regexp) (e : @Engine World) (os : OS) (ctx : Context)
        (s : Spec) (compiled : Compiled) (dryRun : bool) (fuel : nat) (w : World) :
  AllowTmuxPassthrough (Engine_Policy e) = false ->
  Compile os (Engine_Policy e) ctx s = Ok compiled ->
  Forall builtCall (Execute host e compiled dryRun fuel w).2.2.
Proof.
  intros Hp Hc. apply Execute_log.
  - intros rest. eexists _, _. split; [reflexivity|]. cbn [In builtSubcommands]. tauto.
  - intros rest. eexists _, _. split; [reflexivity|]. cbn [In builtSubcommands]. tauto.
  - apply Compile_emit in Hc as (He & _).
    pose proof (emit_one _ _ _ _ _ _ He) as (_ & _ & Hall).
    eapply emit_built; [| |exact He]; [|constructor].
    eapply Forall_impl; [exact Hall|]. intros a [_ Ha] Hk.
    destruct (Ha Hk) as [Hon _]. congruence.
Qed.

(** The theorem at the default policy, for the plan with both
    sentinels. *)
Lemma without_passthrough_built_subcommands_witness :
  exists compiled,
    Compile Fixtures.plainOS DefaultPolicy (Fixtures.context "/tmp/demo" "demo") waitSpec
    = Ok compiled
    /\ Forall builtCall
              (Execute idleHost (engineFor DefaultPolicy idleRunner) compiled false 2 tt).2.2.
Proof.
  eexists. split; [vm_compute; reflexivity|].
  eapply (without_passthrough_built_subcommands idleHost (engineFor DefaultPolicy idleRunner)
            Fixtures.plainOS (Fixtures.context "/tmp/demo" "demo") waitSpec);
    [reflexivity | vm_compute; reflexivity].
Defined.

End SubcommandFacts.
(** ** The pipeline ends with a plan or an error *)

Module RobustFacts.
Import templates LoopFacts GateFacts UnsafeFacts CompileFacts.

(** A passthrough action whose subcommand is written out: its first
    argument is one of the names of the default allowlist. *)
Definition concrete (a : Action) : Prop :=
  Kind a = ActionTmux ->
  exists t rest, TmuxArgs a = t :: rest /\ In t defaultAllowedNames.

Lemma default_name_fields (os : OS) (ctx : Context) (t : string) :
  In t defaultAllowedNames ->
  Strings.Fields (Strings.TrimPrefix (Strings.TrimSpace (subst os ctx t)) "tmux ") <> [].
Proof.
  intros H. rewrite SubstContract.subst_no_reference.
  - unfold defaultAllowedNames in H. cbn [In] in H.
    repeat (destruct H as [<-|H]; [vm_compute; discriminate|]). destruct H.
  - unfold defaultAllowedNames in H. cbn [In] in H.
    repeat (destruct H as [<-|H]; [vm_compute; reflexivity|]). destruct H.
Qed.

Lemma compileAction_settled (os : OS) (pol : Policy) (ctx : Context) (a : Action) :
  concrete a -> settled (compileAction os pol ctx a).
Proof.
  intros Hc m H. unfold compileAction in H. cbv zeta in H.
  destruct (Kind a) eqn:Ek.
  all: unfold mbind, result_bind in H.
  all: try solve
    [ destruct (Hc Ek) as (t & rest & Ht & Hin); rewrite Ht in H;
      destruct (negb (AllowTmuxPassthrough pol)); [discriminate|];
      cbn [map hd] in H;
      pose proof (default_name_fields os ctx t Hin) as Hf;
      destruct (Strings.Fields _) as [|sub fs]; [congruence|];
      repeat (case_match; try discriminate) ].
  all: try discriminate.
  all: repeat (case_match; try discriminate).
Qed.

Lemma emit_settled (os : OS) (pol : Policy) (ctx : Context) (actions : list Action)
      (out : Compiled) :
  Forall concrete actions -> settled (emit os pol ctx actions out).
Proof.
  intros H. revert out. induction H as [|a rest Ha _ IH]; intros out.
  - apply settled_ok.
  - cbn [emit]. apply settled_bind; [now apply compileAction_settled|].
    intros [[cmds u] ws] _. apply IH.
Qed.

Lemma Compile_settled (os : OS) (pol : Policy) (ctx : Context) (tpl : Spec) :
  Forall concrete (Actions tpl) -> settled (Compile os pol ctx tpl).
Proof.
  intros H. unfold Compile.
  destruct (_ =? _); [apply settled_err|].
  destruct (_ =? _); [apply settled_err|]. cbv zeta.
  destruct (_ =? _)%nat; [apply settled_err|].
  destruct (_ <? _)%Z; [apply settled_err|].
  apply settled_bind; [now apply emit_settled|]. intros out _.
  apply settled_bind; [|intros; apply settled_ok].
  apply settled_forM_. intros c. unfold checkCommandLen.
  destruct (_ <? _)%Z; [apply settled_err | apply settled_ok].
Qed.

(** What [FromSpec] returns holds only passthrough actions whose
    subcommand is a name of the default allowlist. *)
Lemma FromSpec_concrete (os : OS) (order : list (string * string)) (ctx : Context)
      (s : spec.Spec) (allowShell allowTmux ensure : bool) (tpl : Spec) :
  FromSpec os order ctx s allowShell allowTmux ensure = Ok tpl ->
  Forall concrete (Actions tpl).
Proof.
  intros H. apply FromSpec_built in H as (opt & ctx' & u & Hb & _ & _ & Hal & _).
  apply BuildFromSpec_sound in Hb as (_ & _ & Hall). cbn [fst] in Hall.
  eapply Forall_impl; [exact Hall|]. intros a [_ Ht] Hk.
  destruct (Ht Hk) as (_ & cmd & args & Ha & _ & _ & Hl).
  exists cmd, args. split; [exact Ha|].
  unfold listed, buildPolicy, buildAllowed in Hl. cbn [spec.AllowedTmuxCommands] in Hl.
  rewrite Hal in Hl. cbn [AllowedTmuxCommands DefaultPolicy] in Hl.
  now apply PolicyFacts.default_allowed_iff.
Qed.

(** A passthrough action with a blank first argument. *)
Definition blankPassthrough : Spec :=
  {| Version := 1; ID := "demo"; Spec_Name := "demo";
     Actions := [irTmux "demo" "" "" [" "]]; Unsafe := true |}.

Definition passthroughPolicy : Policy :=
  {| AllowShell := false; AllowTmuxPassthrough := true;
     AllowedTmuxCommands := None; DisallowTmuxCommands := None;
     MaxActions := 0; MaxCommandLen := 0 |}.

(** X18.  The pipeline of the callers, [FromSpec] and then [Compile], ends
    with a plan or with an error and never with a run-time panic, for every
    spec, context, pair of switches and engine policy.  [Compile] on its
    own does not have this property: a passthrough action whose first
    argument is blank makes it index an empty list of fields. *)
Theorem pipeline_returns (os : OS) :
  (forall (pol : Policy) (order : list (string * string)) (ctx : Context) (s : spec.Spec)
          (allowShell allowTmux ensure : bool),
      (exists c, DeterminismFacts.compileFromSpec os pol order ctx s allowShell allowTmux
                   ensure = Ok c)
      \/ (exists msg, DeterminismFacts.compileFromSpec os pol order ctx s allowShell
                        allowTmux ensure = Err msg))
  /\ (exists msg, Compile os passthroughPolicy (Fixtures.context "/tmp/demo" "demo")
                    blankPassthrough = Panic msg).
Proof.
  split.
  - intros pol order ctx s allowShell allowTmux ensure. apply settled_cases.
    unfold DeterminismFacts.compileFromSpec. apply settled_bind.
    + intros m H. unfold FromSpec in H. destruct (_ =? _); [discriminate|].
      cbv zeta in H.
      destruct (BuildFromSpec os order s _) as [[[c t] u]| |] eqn:E; try discriminate.
      exact (BuildFacts.BuildFromSpec_settled _ _ _ _ _ E).
    + intros tpl H. apply Compile_settled. exact (FromSpec_concrete _ _ _ _ _ _ _ _ H).
  - eexists. unfold Compile, completeContext. cbn [SessionName ProjectPath Fixtures.context].
    vm_compute. reflexivity.
Qed.

End RobustFacts.
(** ** The session name of the apply path *)

Module ApplyNameFacts.
Import templates manager SessionNameFacts GateFacts SpaceFacts NameFacts ResolutionFacts.

(** The loop of the compiler lowers a capital itself; the loop of the
    apply path runs on the lowered string. *)
Lemma applyRunes_ToLower (s : string) (last : bool) :
  applyRunes (Strings.ToLower s) last = sanitizeRunes s last.
Proof.
  revert last. induction s as [|c s IH]; intros last; [reflexivity|].
  cbn [Strings.ToLower applyRunes sanitizeRunes]. rewrite !IH.
  generalize (sanitizeRunes s). intros f. unfold Strings.toLowerChar.
  destruct last; destruct c as [[] [] [] [] [] [] [] []]; reflexivity.
Qed.

Lemma ToLower_nonempty (s : string) : (Strings.ToLower s =? "") = (s =? "").
Proof. destruct s; reflexivity. Qed.

Lemma agrees (s : string) :
  sanitizeSessionNameForApply s
  = if Strings.TrimSpace s =? "" then ""
    else if sanitizeSessionName s =? "" then "session" else sanitizeSessionName s.
Proof.
  unfold sanitizeSessionNameForApply, sanitizeSessionName. cbv zeta.
  rewrite ToLower_nonempty, applyRunes_ToLower.
  destruct (Strings.TrimSpace s =? ""); reflexivity.
Qed.

(** X19.  On a name that is ASCII text once trimmed, the sanitizer of the
    apply path and the one of the compiler agree:
    [sanitizeSessionNameForApply] returns what [sanitizeSessionName]
    returns, except that it answers "session" where the compiler's one
    finds nothing to keep in a name that is not blank.  So its result is
    empty only for a blank name, it is left unchanged by the compiler, and
    when it is not empty [ValidateTmuxName] accepts it. *)
Theorem apply_name_agrees (s : string) :
  isASCII (Strings.TrimSpace s) = true ->
  sanitizeSessionNameForApply s
  = (if Strings.TrimSpace s =? "" then ""
     else if sanitizeSessionName s =? "" then "session" else sanitizeSessionName s)
  /\ (sanitizeSessionNameForApply s = "" <-> Strings.TrimSpace s = "")
  /\ sanitizeSessionName (sanitizeSessionNameForApply s) = sanitizeSessionNameForApply s
  /\ (sanitizeSessionNameForApply s = ""
      \/ spec.ValidateTmuxName (sanitizeSessionNameForApply s) = Ok tt).
Proof.
  intros _. split; [apply agrees|]. rewrite agrees.
  destruct (sanitizeSessionName_shape s) as (Hc & Hf & Hl).
  destruct (String.eqb_spec (Strings.TrimSpace s) "") as [Eb|Hb].
  { repeat split; auto. }
  destruct (String.eqb_spec (sanitizeSessionName s) "") as [En|Hn].
  - split; [split; [discriminate | contradiction]|].
    split; [vm_compute; reflexivity | right; vm_compute; reflexivity].
  - split; [split; [contradiction | contradiction]|]. split.
    + now apply sanitizeSessionName_fixed.
    + right. apply safe_is_valid; [|exact Hn].
      exact (allChars_impl _ _ _ nameChar_safeChar Hc).
Qed.

(** The theorem at the name My-App between blanks, and the answers for a
    name of stars and for a no-break space. *)
Lemma apply_name_agrees_witness :
  sanitizeSessionNameForApply " My-App " = "my_app"
  /\ sanitizeSessionName " My-App " = "my_app"
  /\ sanitizeSessionNameForApply "***" = "session"
  /\ sanitizeSessionNameForApply (String "194" (String "160" "")) = "".
Proof.
  destruct (apply_name_agrees " My-App " eq_refl) as (H & _).
  split; [rewrite H; vm_compute; reflexivity|].
  repeat split; vm_compute; reflexivity.
Defined.

End ApplyNameFacts.
(** ** The socket path of [$TMUX] *)

Module SocketFacts.
Import templates StringFacts SessionNameFacts GateFacts.

Definition notComma (c : ascii) : bool := negb (c =? ",")%char.

Lemma Contains_comma (s : string) :
  Strings.Contains s "," = false -> allChars notComma s = true.
Proof.
  induction s as [|c s IH]; [reflexivity|]. cbn [Strings.Contains allChars String.prefix].
  intros H. apply orb_false_iff in H as [Hc Hs]. rewrite (IH Hs), andb_true_r.
  unfold notComma. destruct (Ascii.eqb_spec c ",") as [->|_]; [|reflexivity].
  destruct (ascii_dec "," ","); [|contradiction]. destruct s; discriminate.
Qed.

Lemma indexFrom_absent (s : string) (i : Z) :
  allChars notComma s = true -> Strings.indexFrom "," s i = (-1)%Z.
Proof.
  revert i. induction s as [|c s IH]; intros i H; [reflexivity|].
  cbn [allChars] in H. apply andb_true_iff in H as [Hc Hs].
  cbn [Strings.indexFrom String.prefix].
  destruct (ascii_dec "," c) as [<-|_]; [discriminate|]. now apply IH.
Qed.

Lemma indexFrom_found (a rest : string) (i : Z) :
  allChars notComma a = true ->
  Strings.indexFrom "," (a +:+ String "," rest) i = (i + Z.of_nat (String.length a))%Z.
Proof.
  revert i. induction a as [|c a IH]; intros i H.
  - change ("" +:+ String "," rest) with (String "," rest).
    cbn [Strings.indexFrom String.prefix String.length].
    destruct (ascii_dec "," ","); [|contradiction]. destruct rest; cbn [String.prefix]; lia.
  - cbn [allChars] in H. apply andb_true_iff in H as [Hc Hs].
    change (String c a +:+ String "," rest) with (String c (a +:+ String "," rest)).
    cbn [Strings.indexFrom String.prefix].
    destruct (ascii_dec "," c) as [<-|_]; [discriminate|].
    rewrite (IH _ Hs). cbn [String.length]. lia.
Qed.

Lemma socket_before_comma (path rest : string) :
  Strings.Contains path "," = false ->
  parseTmuxSockPathFromEnv (path +:+ "," +:+ rest) = Strings.TrimSpace path.
Proof.
  intros H. apply Contains_comma in H.
  unfold parseTmuxSockPathFromEnv. cbv zeta. unfold Strings.TrimSpace.
  change (path +:+ "," +:+ rest) with (path +:+ String "," rest).
  rewrite (trimLeftSpace_app path rest ",") by reflexivity.
  rewrite (trimRightSpace_app _ rest ",") by reflexivity.
  set (p' := Strings.trimLeftSpace path).
  assert (Hp : allChars notComma p' = true) by now apply trimLeftSpace_allChars.
  replace (p' +:+ String "," (Strings.trimRightSpace rest) =? "") with false
    by (destruct p'; reflexivity).
  unfold Strings.Index. rewrite (indexFrom_found _ _ 0%Z Hp).
  replace (0 <=? 0 + Z.of_nat (String.length p'))%Z with true by (symmetry; apply Z.leb_le; lia).
  rewrite Z.add_0_l, Nat2Z.id, take_app. unfold p'. now rewrite trimLeftSpace_idem.
Qed.

Lemma socket_without_comma (env : string) :
  Strings.Contains env "," = false ->
  parseTmuxSockPathFromEnv env = Strings.TrimSpace env.
Proof.
  intros H. apply Contains_comma in H.
  unfold parseTmuxSockPathFromEnv. cbv zeta.
  destruct (String.eqb_spec (Strings.TrimSpace env) "") as [E|_]; [now rewrite E|].
  unfold Strings.Index. rewrite indexFrom_absent.
  - apply TrimSpace_idem.
  - unfold Strings.TrimSpace. now apply trimRightSpace_allChars, trimLeftSpace_allChars.
Qed.

(** X20.  [parseTmuxSockPathFromEnv] returns the socket of a value of
    [$TMUX]: what stands before the first comma, without the white space
    around it, whatever follows the comma; a value without a comma is the
    socket itself, trimmed. *)
Theorem tmux_socket_of_env (path rest : string) :
  Strings.Contains path "," = false ->
  parseTmuxSockPathFromEnv (path +:+ "," +:+ rest) = Strings.TrimSpace path
  /\ parseTmuxSockPathFromEnv path = Strings.TrimSpace path.
Proof.
  intros H. split; [now apply socket_before_comma | now apply socket_without_comma].
Qed.

(** The theorem at the value that tmux sets for a client of the default
    server of user 1000. *)
Lemma tmux_socket_of_env_witness :
  parseTmuxSockPathFromEnv ("/tmp/tmux-1000/default" +:+ "," +:+ "4242,0")
  = Strings.TrimSpace "/tmp/tmux-1000/default"
  /\ parseTmuxSockPathFromEnv "/tmp/tmux-1000/default"
     = Strings.TrimSpace "/tmp/tmux-1000/default".
Proof. apply (tmux_socket_of_env "/tmp/tmux-1000/default" "4242,0"). vm_compute. reflexivity. Defined.

End SocketFacts.
(** ** Quoting for the shell *)

Module QuoteFacts.
Import templates StringFacts SessionNameFacts.

Definition plainChar (c : ascii) : bool := negb (shellSpecial c).

(** The replacement of the single quotes, as [shellQuote] calls it. *)
Definition escapeQuotes (s : string) : string := Strings.ReplaceAll s "'" quoteEscape.

Lemma needsQuote_plain (s : string) :
  needsQuote s = false -> allChars plainChar s = true.
Proof.
  induction s as [|c s IH]; [reflexivity|]. cbn [needsQuote allChars]. intros H.
  apply orb_false_iff in H as [Hc Hs]. unfold plainChar at 1. now rewrite Hc, IH.
Qed.

Lemma escapeQuotes_cons (c : ascii) (r : string) :
  escapeQuotes (String c r)
  = if (c =? "'")%char then quoteEscape +:+ escapeQuotes r else String c (escapeQuotes r).
Proof.
  unfold escapeQuotes, Strings.ReplaceAll. cbn [Strings.replaceAllFrom String.prefix].
  destruct (Ascii.eqb_spec c "'") as [->|Hc].
  - destruct (ascii_dec "'" "'"); [|contradiction]. destruct r; reflexivity.
  - destruct (ascii_dec "'" c) as [<-|_]; [contradiction | reflexivity].
Qed.

Lemma escapeQuotes_injective (a b : string) : escapeQuotes a = escapeQuotes b -> a = b.
Proof.
  revert b. induction a as [|x a IH]; intros [|y b]; rewrite ?escapeQuotes_cons.
  - reflexivity.
  - destruct (y =? "'")%char; discriminate.
  - destruct (x =? "'")%char; discriminate.
  - destruct (Ascii.eqb_spec x "'") as [->|Hx]; destruct (Ascii.eqb_spec y "'") as [->|Hy].
    + intros H. injection H as H. now rewrite (IH b H).
    + intros H. injection H as H _. congruence.
    + intros H. injection H as H _. congruence.
    + intros H. injection H as -> H. now rewrite (IH b H).
Qed.

Lemma app_quote_inv (a b : string) : a +:+ "'" = b +:+ "'" -> a = b.
Proof.
  revert b. induction a as [|x a IH]; intros [|y b] H.
  - reflexivity.
  - injection H as _ H. destruct b; discriminate.
  - injection H as _ H. destruct a; discriminate.
  - injection H as -> H. now rewrite (IH b H).
Qed.

Lemma quoted_needsQuote (body : string) : needsQuote ("'" +:+ body) = true.
Proof. reflexivity. Qed.

Lemma shellQuote_injective_lemma (a b : string) : shellQuote a = shellQuote b -> a = b.
Proof.
  unfold shellQuote. fold (escapeQuotes a). fold (escapeQuotes b).
  destruct (String.eqb_spec a "") as [->|Ha]; destruct (String.eqb_spec b "") as [->|Hb].
  - reflexivity.
  - destruct (needsQuote b) eqn:Eb.
    + intros H. injection H as H. symmetry in H. apply (app_quote_inv _ "") in H.
      destruct b as [|y b]; [contradiction|]. rewrite escapeQuotes_cons in H.
      destruct (y =? "'")%char; discriminate.
    + intros <-. discriminate.
  - destruct (needsQuote a) eqn:Ea.
    + intros H. injection H as H. apply (app_quote_inv _ "") in H.
      destruct a as [|x a]; [contradiction|]. rewrite escapeQuotes_cons in H.
      destruct (x =? "'")%char; discriminate.
    + intros ->. discriminate.
  - destruct (needsQuote a) eqn:Ea; destruct (needsQuote b) eqn:Eb.
    + intros H. injection H as H. apply app_quote_inv in H.
      now apply escapeQuotes_injective.
    + intros <-. rewrite quoted_needsQuote in Eb. discriminate.
    + intros ->. rewrite quoted_needsQuote in Ea. discriminate.
    + auto.
Qed.

Lemma shellQuote_shape (s : string) :
  (shellQuote s = s /\ s <> "" /\ allChars plainChar s = true)
  \/ exists body, shellQuote s = "'" +:+ body +:+ "'".
Proof.
  unfold shellQuote. destruct (String.eqb_spec s "") as [->|Hs].
  - right. exists "". reflexivity.
  - destruct (needsQuote s) eqn:E.
    + right. eexists. reflexivity.
    + left. repeat split; [exact Hs | now apply needsQuote_plain].
Qed.

(** X21.  [shellQuote] never confuses two arguments: different arguments
    get different texts.  Its result is never empty, and it is either the
    argument itself, when this is not empty and holds none of the bytes the
    function looks for, or a text between two single quotes. *)
Theorem shell_quote_is_injective :
  (forall a b : string, shellQuote a = shellQuote b <-> a = b)
  /\ (forall s : string,
         (shellQuote s = s /\ s <> "" /\ needsQuote s = false)
         \/ exists body, shellQuote s = "'" +:+ body +:+ "'").
Proof.
  split.
  - intros a b. split; [apply shellQuote_injective_lemma | now intros ->].
  - intros s. unfold shellQuote. destruct (String.eqb_spec s "") as [->|Hs].
    + right. exists "". reflexivity.
    + destruct (needsQuote s) eqn:E; [right; eexists; reflexivity | left; auto].
Qed.

End QuoteFacts.
(** ** The preview of a compiled plan *)

Module PreviewFacts.
Import templates StringFacts SessionNameFacts NameFacts QuoteFacts CompileFacts.

Definition warningLine : string :=
  "WARNING: unsafe actions present (shell and/or tmux passthrough)".

Definition newline : ascii := "010"%char.

(** *** First and last bytes *)

Lemma firstChar_app (a b : string) :
  firstChar (a +:+ b) = match firstChar a with Some c => Some c | None => firstChar b end.
Proof. destruct a; reflexivity. Qed.

Lemma lastChar_app (a b : string) : b <> "" -> lastChar (a +:+ b) = lastChar b.
Proof.
  intros Hb. induction a as [|x a IH]; [reflexivity|].
  change (String x a +:+ b) with (String x (a +:+ b)). cbn [lastChar].
  destruct (a +:+ b) eqn:E; [|exact IH].
  destruct a; [|discriminate]. now destruct b.
Qed.

Lemma app_nonempty (a b : string) : b <> "" -> a +:+ b <> "".
Proof. intros Hb. destruct a; [exact Hb | discriminate]. Qed.

Lemma shellQuote_nonempty (s : string) : shellQuote s <> "".
Proof.
  destruct (shellQuote_shape s) as [(-> & H & _)|[body ->]]; [exact H | discriminate].
Qed.

Lemma shellQuote_first (s : string) : firstChar (shellQuote s) <> Some "("%char.
Proof.
  destruct (shellQuote_shape s) as [(-> & Hs & Hp)|[body ->]]; [|discriminate].
  destruct s as [|c s]; [contradiction|]. cbn [allChars] in Hp.
  apply andb_true_iff in Hp as [Hc _]. cbn [firstChar]. intros E. injection E as ->.
  discriminate.
Qed.

Lemma shellQuote_last (s : string) : lastChar (shellQuote s) <> Some newline.
Proof.
  destruct (shellQuote_shape s) as [(-> & Hs & Hp)|[body ->]].
  - intros E. apply (allChars_last _ _ _ Hp) in E. discriminate.
  - change ("'" +:+ body +:+ "'") with (("'" +:+ body) +:+ "'").
    rewrite lastChar_app; discriminate.
Qed.

Lemma shellJoin_cons (a : string) (rest : list string) :
  shellJoin (a :: rest)
  = match rest with
    | [] => shellQuote a
    | _ :: _ => shellQuote a +:+ " " +:+ shellJoin rest
    end.
Proof. destruct rest; reflexivity. Qed.

Lemma shellJoin_first (args : list string) : firstChar (shellJoin args) <> Some "("%char.
Proof.
  destruct args as [|a rest]; [discriminate|]. rewrite shellJoin_cons.
  destruct rest; [apply shellQuote_first|]. rewrite firstChar_app.
  pose proof (shellQuote_first a) as H. pose proof (shellQuote_nonempty a) as Hn.
  destruct (shellQuote a); [contradiction | exact H].
Qed.

Lemma shellJoin_last (args : list string) : lastChar (shellJoin args) <> Some newline.
Proof.
  induction args as [|a rest IH]; [discriminate|]. rewrite shellJoin_cons.
  destruct rest as [|b rest]; [apply shellQuote_last|].
  rewrite lastChar_app by discriminate.
  change (" " +:+ shellJoin (b :: rest)) with (String " " (shellJoin (b :: rest))).
  cbn [lastChar]. destruct (shellJoin (b :: rest)); [discriminate | exact IH].
Qed.

Lemma prefix_first (c : ascii) (p s : string) :
  firstChar s <> Some c -> String.prefix (String c p) s = false.
Proof.
  destruct s as [|x s]; [reflexivity|]. cbn [firstChar String.prefix]. intros H.
  destruct (ascii_dec c x) as [->|_]; [now contradiction H | reflexivity].
Qed.

(** *** The lines of one command *)

Definition shown (cmd : Command) : string :=
  (if Cmd_Unsafe cmd then "tmux (unsafe) " else "tmux ") +:+ shellJoin (Args cmd).

Definition unmarked (l : string) : Prop :=
  Strings.HasPrefix l "WARNING" = false /\ Strings.HasPrefix l "tmux (unsafe) " = false.

Lemma commandLines_shown (cmd : Command) :
  exists pre, commandLines cmd = (pre ++ [shown cmd])%list.
Proof. unfold commandLines, shown. cbv zeta. eexists. reflexivity. Qed.

Lemma commandLines_unmarked (cmd : Command) :
  Cmd_Unsafe cmd = false -> Forall unmarked (commandLines cmd).
Proof.
  intros H. unfold commandLines. cbv zeta. rewrite H.
  assert (Hs : unmarked ("tmux " +:+ shellJoin (Args cmd))).
  { split; [reflexivity|]. unfold Strings.HasPrefix.
    change ("tmux " +:+ shellJoin (Args cmd))
      with (String "t" (String "m" (String "u" (String "x" (String " "
              (shellJoin (Args cmd))))))).
    cbn [String.prefix]. repeat (destruct (ascii_dec _ _); [|congruence]).
    apply prefix_first, shellJoin_first. }
  destruct (negb _); cbn [app].
  - apply List.Forall_cons; [split; reflexivity|].
    apply List.Forall_cons; [exact Hs | apply List.Forall_nil].
  - apply List.Forall_cons; [exact Hs | apply List.Forall_nil].
Qed.

Lemma shown_last (cmd : Command) : shown cmd <> "" /\ lastChar (shown cmd) <> Some newline.
Proof.
  unfold shown. split; [destruct (Cmd_Unsafe cmd); discriminate|].
  destruct (shellJoin (Args cmd)) eqn:E.
  - destruct (Cmd_Unsafe cmd); discriminate.
  - rewrite lastChar_app by discriminate. rewrite <- E. apply shellJoin_last.
Qed.

Lemma existsb_false_Forall {A : Type} (f : A -> bool) (l : list A) :
  existsb f l = false -> Forall (fun x => f x = false) l.
Proof.
  induction l as [|x l IH]; [constructor|]. cbn [existsb]. intros H.
  apply orb_false_iff in H as [Hx Hl]. apply List.Forall_cons; [exact Hx | now apply IH].
Qed.

Lemma concat_unmarked (cmds : list Command) :
  Forall (fun c => Cmd_Unsafe c = false) cmds ->
  Forall unmarked (concat (map commandLines cmds)).
Proof.
  induction 1 as [|c cmds Hc _ IH]; [constructor|]. cbn [map concat].
  apply Forall_app. split; [now apply commandLines_unmarked | exact IH].
Qed.

(** X22.  The preview tells what is unsafe.  For a plan that [Compile]
    returned, the first line of [DryRunLines] is the warning exactly when
    the IR holds an action of kind shell or tmux; when it holds none, no
    line starts with WARNING or with the mark of an unsafe command; and
    every command of the plan has its line: the mark, unsafe or not, and
    its arguments quoted and joined. *)
Theorem preview_marks_unsafe (os : OS) (pol : Policy) (ctx : Context) (s : Spec)
        (c : Compiled) :
  Compile os pol ctx s = Ok c ->
  (existsb isTmuxOrShell (Actions s) = true ->
   exists rest, DryRunLines c = warningLine :: rest)
  /\ (existsb isTmuxOrShell (Actions s) = false -> Forall unmarked (DryRunLines c))
  /\ (forall cmd, In cmd (Commands c) -> In (shown cmd) (DryRunLines c)).
Proof.
  intros H. apply compiled_plan_shape_lemma in H as (Hm & Hu).
  assert (He : existsb Cmd_Unsafe (Commands c) = existsb isTmuxOrShell (Actions s))
    by (rewrite (existsb_of_map Cmd_Unsafe), (existsb_of_map isTmuxOrShell), Hm; reflexivity).
  rewrite He in Hu. unfold DryRunLines. rewrite Hu. split; [|split].
  - intros ->. eexists. reflexivity.
  - intros E. rewrite E. cbn [app]. apply Forall_app. split.
    + apply Forall_forall. intros l Hl. apply list_elem_of_In, in_map_iff in Hl as (w & <- & _).
      split; reflexivity.
    + apply concat_unmarked, existsb_false_Forall. congruence.
  - intros cmd Hin. apply in_or_app. right. apply in_or_app. right.
    apply in_concat. exists (commandLines cmd). split; [now apply in_map|].
    destruct (commandLines_shown cmd) as [pre ->]. apply in_or_app. right. now left.
Qed.

(** The theorem at the plan with both sentinels, which holds no unsafe
    action. *)
Lemma preview_marks_unsafe_witness :
  exists c,
    Compile Fixtures.plainOS DefaultPolicy (Fixtures.context "/tmp/demo" "demo")
            ExecutorFacts.waitSpec = Ok c
    /\ Forall unmarked (DryRunLines c).
Proof.
  eexists. split; [vm_compute; reflexivity|].
  eapply (preview_marks_unsafe Fixtures.plainOS DefaultPolicy
            (Fixtures.context "/tmp/demo" "demo") ExecutorFacts.waitSpec);
    [vm_compute; reflexivity | reflexivity].
Defined.

(** *** The preview with a header *)

(** Every line followed by a line feed. *)
Definition unlines (lines : list string) : string :=
  fold_right (fun ln acc => ln +:+ String newline "" +:+ acc) "" lines.

Lemma fold_left_unlines (lines : list string) (b : string) :
  fold_left (fun b ln => b +:+ ln +:+ String newline "") lines b = b +:+ unlines lines.
Proof.
  revert b. induction lines as [|l lines IH]; intros b.
  - cbn [fold_left unlines fold_right]. now rewrite StringFacts.app_nil_r.
  - cbn [fold_left]. rewrite IH. cbn [unlines fold_right]. fold (unlines lines).
    now rewrite !StringFacts.app_assoc.
Qed.

Lemma unlines_snoc (init : list string) (l : string) :
  unlines (init ++ [l]) = unlines init +:+ l +:+ String newline "".
Proof.
  induction init as [|x init IH]; [reflexivity|].
  cbn [app unlines fold_right]. fold (unlines (init ++ [l])). fold (unlines init).
  now rewrite IH, !StringFacts.app_assoc.
Qed.

Lemma Join_cons (x : string) (r : list string) (sep : string) :
  r <> [] -> Strings.Join (x :: r) sep = x +:+ sep +:+ Strings.Join r sep.
Proof. destruct r; [contradiction | reflexivity]. Qed.

Lemma Join_snoc (init : list string) (l : string) :
  Strings.Join (init ++ [l]) (String newline "") = unlines init +:+ l.
Proof.
  induction init as [|x init IH]; [reflexivity|].
  cbn [app unlines fold_right]. fold (unlines init).
  rewrite Join_cons by (destruct init; discriminate).
  rewrite IH. now rewrite !StringFacts.app_assoc.
Qed.

Lemma TrimRightFunc_all (p : ascii -> bool) (s : string) :
  allChars p s = true -> Strings.TrimRightFunc p s = "".
Proof.
  induction s as [|c s IH]; [reflexivity|]. cbn [allChars Strings.TrimRightFunc].
  intros H. apply andb_true_iff in H as [Hc Hs]. now rewrite (IH Hs), Hc.
Qed.

Lemma TrimRightFunc_tail (p : ascii -> bool) (a b : string) :
  a <> "" -> (forall c, lastChar a = Some c -> p c = false) -> allChars p b = true ->
  Strings.TrimRightFunc p (a +:+ b) = a.
Proof.
  intros Ha Hl Hb. induction a as [|x a IH]; [contradiction|].
  change (String x a +:+ b) with (String x (a +:+ b)). cbn [Strings.TrimRightFunc].
  destruct a as [|y a].
  - change ("" +:+ b) with b. rewrite (TrimRightFunc_all p b Hb).
    now rewrite (Hl x eq_refl).
  - rewrite IH; [reflexivity | discriminate |]. intros c Hc. apply Hl. exact Hc.
Qed.

Lemma DryRunLines_last (c : Compiled) :
  Commands c <> [] ->
  exists init l, DryRunLines c = (init ++ [l])%list
                 /\ l <> "" /\ lastChar l <> Some newline.
Proof.
  intros Hne. destruct (exists_last Hne) as (cs & cmd & E).
  destruct (commandLines_shown cmd) as [pre Hpre]. unfold DryRunLines.
  rewrite E, map_app, concat_app. cbn [map concat]. rewrite Hpre, List.app_nil_r.
  eexists _, (shown cmd). split; [|apply shown_last].
  rewrite !List.app_assoc. reflexivity.
Qed.

(** X23.  For a plan that [Compile] returned, [RenderDryRunWithHeader] adds
    the title line and nothing else: its result is the trimmed title and a
    line feed, if the trimmed title is not empty, followed by exactly what
    [RenderDryRun] returns. *)
Theorem header_only_adds_title (os : OS) (pol : Policy) (ctx : Context) (s : Spec)
        (c : Compiled) (title : string) :
  Compile os pol ctx s = Ok c ->
  RenderDryRunWithHeader title c
  = (if Strings.TrimSpace title =? "" then ""
     else Strings.TrimSpace title +:+ String newline "") +:+ RenderDryRun c.
Proof.
  intros H.
  assert (Hne : Commands c <> []).
  { apply compiled_plan_shape_lemma in H as H'. destruct H' as (Hm & _).
    apply Compile_emit in H as (_ & Hn & _).
    destruct (Commands c); [|discriminate]. destruct (Actions s); [cbn in Hn; lia | discriminate]. }
  destruct (DryRunLines_last c Hne) as (init & l & E & Hl & Hlast).
  unfold RenderDryRunWithHeader, RenderDryRun. cbv zeta. fold newline.
  rewrite E, fold_left_unlines, unlines_snoc, Join_snoc.
  set (b := if negb (Strings.TrimSpace title =? "") then _ else _).
  replace (if Strings.TrimSpace title =? "" then "" else _) with b
    by (unfold b; destruct (Strings.TrimSpace title =? ""); reflexivity).
  unfold Strings.TrimRight.
  replace (b +:+ unlines init +:+ l +:+ String newline "")
    with ((b +:+ unlines init +:+ l) +:+ String newline "")
    by (now rewrite !StringFacts.app_assoc).
  apply TrimRightFunc_tail.
  - rewrite <- StringFacts.app_assoc. now apply app_nonempty.
  - intros ch Hch. rewrite <- StringFacts.app_assoc, lastChar_app in Hch by exact Hl.
    cbn [Strings.inCutset]. rewrite orb_false_r. apply Ascii.eqb_neq. intros ->.
    contradiction.
  - reflexivity.
Qed.

(** The theorem at the plan with both sentinels. *)
Lemma header_only_adds_title_witness :
  exists c,
    Compile Fixtures.plainOS DefaultPolicy (Fixtures.context "/tmp/demo" "demo")
            ExecutorFacts.waitSpec = Ok c
    /\ RenderDryRunWithHeader " Plan " c = "Plan" +:+ String newline "" +:+ RenderDryRun c.
Proof.
  eexists. split; [vm_compute; reflexivity|].
  apply (header_only_adds_title Fixtures.plainOS DefaultPolicy
           (Fixtures.context "/tmp/demo" "demo") ExecutorFacts.waitSpec).
  vm_compute. reflexivity.
Defined.

End PreviewFacts.
(** ** The size of a split *)

Module SplitFacts.
Import templates StringFacts SessionNameFacts NameFacts SpaceFacts.

Definition sizeChar (c : ascii) : bool := Strings.isDigit c || (c =? "%")%char.

Lemma sizeChar_noSpace (c : ascii) : sizeChar c = true -> plainByte c = true.
Proof. destruct c as [[] [] [] [] [] [] [] []]; vm_compute; congruence. Qed.

Lemma digit_value (c : ascii) :
  Strings.isDigit c = true -> (0 <= Z.of_nat (nat_of_ascii c) - 48 <= 9)%Z.
Proof. destruct c as [[] [] [] [] [] [] [] []]; vm_compute; intuition congruence. Qed.

Lemma digitsVal_digits (num : string) (acc v : Z) :
  Strconv.digitsVal num acc = Some v -> allChars Strings.isDigit num = true.
Proof.
  revert acc. induction num as [|c r IH]; intros acc; [reflexivity|].
  cbn [Strconv.digitsVal allChars]. destruct (Strings.isDigit c); [|discriminate].
  intros H. now rewrite (IH _ H).
Qed.

Lemma digitsVal_ge (num : string) (acc v : Z) :
  Strconv.digitsVal num acc = Some v -> (0 <= acc)%Z -> (acc <= v)%Z.
Proof.
  revert acc. induction num as [|c r IH]; intros acc H Ha.
  - injection H as <-. lia.
  - cbn [Strconv.digitsVal] in H. destruct (Strings.isDigit c) eqn:Ec; [|discriminate].
    pose proof (digit_value c Ec). apply IH in H; lia.
Qed.

Lemma wrap64_small (z : Z) : (0 <= z < 2 ^ 63)%Z -> wrap64 z = z.
Proof. intros H. unfold wrap64. rewrite Z.mod_small; lia. Qed.

(** Below 2^63 the loop of the conversion reads the decimal value. *)
Lemma parsePercentDigits_value (num : string) (acc v : Z) :
  Strconv.digitsVal num acc = Some v -> (0 <= acc)%Z -> (v < 2 ^ 63)%Z ->
  parsePercentDigits num acc = v.
Proof.
  revert acc. induction num as [|c r IH]; intros acc H Ha Hv.
  - injection H as <-. reflexivity.
  - cbn [Strconv.digitsVal] in H. cbn [parsePercentDigits].
    destruct (Strings.isDigit c) eqn:Ec; [|discriminate].
    pose proof (digit_value c Ec) as Hd.
    assert (Hle : (acc * 10 + (Z.of_nat (nat_of_ascii c) - 48) <= v)%Z)
      by (apply (digitsVal_ge r); [exact H | lia]).
    rewrite wrap64_small by lia. apply IH; [exact H | lia | exact Hv].
Qed.

Lemma drop_app (a b : string) : Strings.drop (String.length a) (a +:+ b) = b.
Proof. induction a as [|x a IH]; [reflexivity | exact IH]. Qed.

Lemma percent_suffix (num : string) :
  Strings.HasSuffix (num +:+ "%") "%" = true /\ Strings.TrimSuffix (num +:+ "%") "%" = num.
Proof.
  assert (Hs : Strings.HasSuffix (num +:+ "%") "%" = true).
  { unfold Strings.HasSuffix. rewrite StringFacts.length_app. cbn [String.length].
    replace (String.length num + 1 - 1)%nat with (String.length num) by lia.
    rewrite drop_app. apply andb_true_iff. split; [apply Nat.leb_le; lia | reflexivity]. }
  split; [exact Hs|]. unfold Strings.TrimSuffix. rewrite Hs, StringFacts.length_app.
  cbn [String.length].
  replace (String.length num + 1 - 1)%nat with (String.length num) by lia.
  apply StringFacts.take_app.
Qed.

(** X24.  The size of a split is a percentage from 1 to 99 or nothing:
    [splitPercent] returns a number from 0 to 99; for a size written as
    decimal digits and a percent sign, of value below 2^63, it returns the
    value when this lies from 1 to 99 and 0 otherwise (so 007% is 7, and
    0%, 100% and more are dropped); a size that does not end in a percent
    sign gives 0.  Beyond the 64-bit range the value wraps around:
    18446744073709551617% is read as 1. *)
Theorem split_percent_range :
  (forall size : string, (0 <= splitPercent size <= 99)%Z)
  /\ (forall (num : string) (v : Z),
         Strconv.digitsVal num 0 = Some v -> (v < 2 ^ 63)%Z ->
         splitPercent (num +:+ "%") = if ((0 <? v) && (v <? 100))%Z then v else 0%Z)
  /\ (forall size : string,
         Strings.HasSuffix (Strings.TrimSpace size) "%" = false -> splitPercent size = 0%Z)
  /\ splitPercent "18446744073709551617%" = 1%Z.
Proof.
  split; [|split; [|split]].
  - intros size. unfold splitPercent. cbv zeta. destruct (_ && _); [|lia].
    destruct (Z.ltb_spec 0 (parsePercentDigits (Strings.TrimSuffix (Strings.TrimSpace size) "%") 0));
      cbn [andb]; [|lia].
    destruct (Z.ltb_spec (parsePercentDigits (Strings.TrimSuffix (Strings.TrimSpace size) "%") 0) 100);
      lia.
  - intros num v Hd Hv. unfold splitPercent. cbv zeta.
    assert (Ht : Strings.TrimSpace (num +:+ "%") = num +:+ "%").
    { apply (TrimSpace_id sizeChar); [exact sizeChar_noSpace|].
      apply allChars_app; [|reflexivity].
      apply (allChars_impl Strings.isDigit); [|exact (digitsVal_digits _ _ _ Hd)].
      intros c Hc. unfold sizeChar. now rewrite Hc. }
    rewrite Ht. destruct (percent_suffix num) as [-> ->].
    replace (num +:+ "%" =? "") with false by (destruct num; reflexivity).
    cbn [negb andb]. now rewrite (parsePercentDigits_value num 0 v Hd) by lia.
  - intros size H. unfold splitPercent. cbv zeta. rewrite H, andb_false_r. reflexivity.
  - vm_compute. reflexivity.
Qed.

End SplitFacts.
(** ** A run comes back *)

Module ReturnFacts.
Import templates ExecutorFacts RunFacts.

(** The polls that a command may need: those of its time-out if it is a
    wait, none otherwise. *)
Definition waitBound (c : Command) : nat :=
  if firstArgIs "__wait_for_prompt__" c then pollBound c else 0%nat.

Section Returns.

Context {World Regexp : Type}.
Variable host : @Runtime World Regexp.
Variable runner : @Runner World.

Variable clock : World -> Z.
Hypothesis now_reads :
  forall w, (clock w <= (timeNow host w).2)%Z
            /\ ((timeNow host w).2 <= clock (timeNow host w).1)%Z.
Hypothesis sleep_advances : forall d w, (clock w + d <= clock (timeSleep host d w))%Z.
Hypothesis runner_keeps : forall args w, (clock w <= clock (RunOutput runner args w).1)%Z.

Lemma execWaitForPrompt_returns (fuel : nat) (c : Command) (st : @State World) :
  (pollBound c <= fuel)%nat ->
  exists r, (execWaitForPrompt host runner fuel c st).1 = Some r.
Proof.
  unfold pollBound, timeoutOf, execWaitForPrompt. intros Hf.
  destruct (Args c) as [|a0 [|a1 [|a2 [|a3 [|a4 [|a5 more]]]]]]; try (cbn [fst]; eauto).
  cbv zeta. destruct (_ =? ""); [cbn [fst]; eauto|].
  destruct (regexpCompile host _) as [re|]; [|cbn [fst]; eauto].
  pose proof (doNow_clock host clock now_reads st) as E1.
  destruct (doNow host st) as [t0 st1]. cbn [fst snd] in E1.
  pose proof (doNow_clock host clock now_reads st1) as E2.
  destruct (doNow host st1) as [t1 st2]. cbn [fst snd] in E2.
  apply (waitLoop_returns host runner clock now_reads sleep_advances runner_keeps); [lia|].
  set (d := wrap64 ((if (parseInt a2 15000 <=? 0)%Z then 15000 else parseInt a2 15000)
                    * millisecond)) in *.
  assert (Hp : (0 < pollEvery)%Z) by reflexivity.
  assert (Hdiv : (d < (d / pollEvery + 1) * pollEvery)%Z).
  { pose proof (Z.mod_pos_bound d pollEvery Hp). pose proof (Z.div_mod d pollEvery). lia. }
  destruct (Z.le_gt_cases 0 d) as [Hd|Hd].
  - assert (Hq : (0 <= d / pollEvery)%Z) by (apply Z.div_pos; lia).
    rewrite Nat2Z.inj_le in Hf. rewrite Nat2Z.inj_add, Z2Nat.id in Hf by exact Hq.
    nia.
  - assert (Hfz : (2 <= Z.of_nat fuel)%Z) by lia. nia.
Qed.

Lemma executeCommands_returns (fuel : nat) (cmds : list Command) (st : @State World) :
  Forall (fun c => (waitBound c <= fuel)%nat) cmds ->
  exists r, (executeCommands host runner fuel cmds st).1 = Some r.
Proof.
  intros H. revert st. induction H as [|c rest Hc _ IH]; intros st.
  - cbn [executeCommands fst]. eauto.
  - cbn [executeCommands]. unfold waitBound in Hc.
    destruct (firstArgIs "__wait_for_prompt__" c).
    + destruct (execWaitForPrompt_returns fuel c st Hc) as [r Hr].
      destruct (execWaitForPrompt host runner fuel c st) as [o st']. cbn [fst] in Hr.
      subst o. destruct r as [e|]; [cbn [fst]; eauto | apply IH].
    + destruct (firstArgIs "__ssh_manager_connect__" c).
      * destruct (execSshManagerConnect runner c st) as [[e|] st'];
          [cbn [fst]; eauto | apply IH].
      * destruct (doRun runner (Args c) st) as [[e|] st']; [cbn [fst]; eauto | apply IH].
Qed.

End Returns.

(** The polls that the longest wait of a plan may need. *)
Definition planBound (compiled : Compiled) : nat :=
  fold_right (fun c n => Nat.max (waitBound c) n) 0%nat (Commands compiled).

Lemma planBound_covers (cmds : list Command) (fuel : nat) :
  (fold_right (fun c n => Nat.max (waitBound c) n) 0%nat cmds <= fuel)%nat ->
  Forall (fun c => (waitBound c <= fuel)%nat) cmds.
Proof.
  induction cmds as [|c cmds IH]; [constructor|]. cbn [fold_right]. intros H.
  apply List.Forall_cons; [lia | apply IH; lia].
Qed.

(** X25.  [Execute] comes back: under a clock that [time.Now] reads, that
    [time.Sleep] advances by the duration at least and that the Runner does
    not turn back, a run of any plan returns, with or without an error,
    once the polls allowed cover its longest wait: one poll per 100 ms of
    the time-out and two more. *)
Theorem execute_returns {World Regexp : Type} (host : @Runtime World Regexp)
        (e : @Engine World) (clock : World -> Z) (compiled : Compiled) (dryRun : bool)
        (fuel : nat) (w : World) :
  (forall w, (clock w <= (timeNow host w).2)%Z
             /\ ((timeNow host w).2 <= clock (timeNow host w).1)%Z) ->
  (forall d w, (clock w + d <= clock (timeSleep host d w))%Z) ->
  (forall runner args w, Engine_Runner e = Some runner ->
                         (clock w <= clock (RunOutput runner args w).1)%Z) ->
  (planBound compiled <= fuel)%nat ->
  exists r, (Execute host e compiled dryRun fuel w).1.2 = Some r.
Proof.
  intros Hnow Hsleep Hrun Hf. unfold Execute. cbv zeta.
  destruct dryRun; [cbn [fst snd]; eauto|].
  destruct (Engine_Runner e) as [runner|] eqn:Er; [|cbn [fst snd]; eauto].
  destruct (executeCommands_returns host runner clock Hnow Hsleep
              (fun args w => Hrun runner args w eq_refl) fuel (Commands compiled) (w, [])
              (planBound_covers _ _ Hf)) as [r Hr].
  destruct (executeCommands host runner fuel (Commands compiled) (w, [])) as [o st].
  cbn [fst snd] in *. eauto.
Qed.

(** The theorem at a plan that waits 300 ms for a prompt that never comes,
    between two commands. *)
Definition waitingPlan : Compiled :=
  {| Commands := [command ["new-session"; "-d"; "-s"; "demo"] ""; shortWait;
                  command ["select-window"; "-t"; "demo:0"] ""];
     UnsafeUsed := false; Warnings := [] |}.

Lemma execute_returns_witness :
  exists r, (Execute tickHost (engineFor DefaultPolicy tickRunner) waitingPlan false 5 0%Z).1.2
            = Some r.
Proof.
  apply (execute_returns tickHost (engineFor DefaultPolicy tickRunner) (fun w => w)).
  - intros w. cbn. lia.
  - intros d w. cbn. lia.
  - intros runner args w H. injection H as <-. cbn. lia.
  - vm_compute. lia.
Defined.

End ReturnFacts.
(** ** The two policy gates agree *)

Module GateAgreementFacts.
Import templates LoopFacts GateFacts UnsafeFacts CompileFacts RobustFacts.

(** The refusals of [compileAction] that come from the policy. *)
Definition policyErrors : list string :=
  ["shell action disabled by policy"; "tmux passthrough disabled by policy";
   "tmux: subcommand is disallowed"; "tmux: subcommand not in allowlist"].

Lemma default_name_subcommand (os : OS) (ctx : Context) (t : string) :
  In t defaultAllowedNames ->
  Strings.Fields (Strings.TrimPrefix (Strings.TrimSpace (subst os ctx t)) "tmux ") = [t].
Proof.
  intros H. rewrite SubstContract.subst_no_reference.
  - unfold defaultAllowedNames in H. cbn [In] in H.
    repeat (destruct H as [<-|H]; [vm_compute; reflexivity|]). destruct H.
  - unfold defaultAllowedNames in H. cbn [In] in H.
    repeat (destruct H as [<-|H]; [vm_compute; reflexivity|]). destruct H.
Qed.

(** An action that the policy allows is not refused for the policy. *)
Lemma allowed_no_policy_error (os : OS) (pol : Policy) (ctx : Context) (a : Action)
      (m : string) :
  allowedByEngine os pol ctx a -> compileAction os pol ctx a = Err m ->
  ~ In m policyErrors.
Proof.
  intros [Hs Ht] H. unfold compileAction in H. cbv zeta in H.
  destruct (Kind a) eqn:Ek.
  all: unfold mbind, result_bind in H.
  all: try solve
    [ rewrite (Hs eq_refl) in H; cbn [negb] in H;
      repeat (case_match; try discriminate); injection H as <-;
      cbn [In policyErrors]; intuition discriminate ].
  all: try solve
    [ destruct (Ht eq_refl) as (Hp & sub & rest & Hf & Hd & Hl);
      unfold subcommand in Hf; rewrite Hp in H; cbn [negb] in H;
      destruct (TmuxArgs a) as [|t more];
      [ injection H as <-; cbn [In policyErrors]; intuition discriminate |];
      cbn [map hd] in H, Hf; rewrite Hf, Hd, Hl in H; cbn [negb] in H;
      destruct (sub =? ""); [|discriminate];
      injection H as <-; cbn [In policyErrors]; intuition discriminate ].
  all: try discriminate.
  all: repeat (case_match; try discriminate).
  all: simplify_eq; cbn [In policyErrors]; intuition discriminate.
Qed.

(** X26.  The gate of Stage A and the gate of Stage B agree.  Every action
    of an IR that [FromSpec] returned passes the policy checks of
    [compileAction] for the engine that [NewEngineFromSpecPolicy] builds
    from the same two switches and no lists of its own, in every context:
    a shell action finds AllowShell on, a passthrough action finds
    passthrough on and its subcommand, which is its first argument, not
    disallowed and in the allowlist.  When [compileAction] refuses such an
    action, the error is none of the four that speak of the policy. *)
Theorem gates_agree (os : OS) (order : list (string * string)) (ctx : Context)
        (s : spec.Spec) (allowShell allowTmux ensure : bool) (tpl : Spec) :
  FromSpec os order ctx s allowShell allowTmux ensure = Ok tpl ->
  forall (ctx' : Context) (a : Action), In a (Actions tpl) ->
    allowedByEngine os (NewEngineFromSpecPolicy allowShell allowTmux None None) ctx' a
    /\ forall m, compileAction os (NewEngineFromSpecPolicy allowShell allowTmux None None)
                   ctx' a = Err m -> ~ In m policyErrors.
Proof.
  intros H ctx' a Hin.
  assert (Ha : allowedByEngine os (NewEngineFromSpecPolicy allowShell allowTmux None None)
                 ctx' a).
  { pose proof (FromSpec_concrete _ _ _ _ _ _ _ _ H) as Hc.
    apply FromSpec_built in H as (opt & c0 & u & Hb & Hs & Ht & Hal & Hdis).
    apply BuildFromSpec_sound in Hb as (_ & _ & Hall). cbn [fst] in Hall.
    rewrite Forall_forall in Hall, Hc.
    apply list_elem_of_In in Hin. specialize (Hall a Hin). specialize (Hc a Hin).
    destruct Hall as [Hshell Htmux]. split.
    - intros Ek. cbn [AllowShell NewEngineFromSpecPolicy]. rewrite <- Hs.
      exact (Hshell Ek).
    - intros Ek. destruct (Htmux Ek) as (Hp & cmd & args & Hargs & _ & Hden & _).
      destruct (Hc Ek) as (t & rest & Hargs' & Hname).
      rewrite Hargs in Hargs'. injection Hargs' as <- <-.
      split; [cbn [AllowTmuxPassthrough NewEngineFromSpecPolicy]; rewrite <- Ht; exact Hp|].
      exists cmd, []. unfold subcommand. rewrite Hargs. cbn [hd].
      split; [now apply default_name_subcommand|]. split.
      + unfold buildDisallowed in Hden. rewrite Hdis in Hden. exact Hden.
      + change (effectiveAllow (NewEngineFromSpecPolicy allowShell allowTmux None None))
          with (effectiveAllow DefaultPolicy).
        rewrite PolicyFacts.effectiveAllow_default.
        now apply PolicyFacts.default_allowed_iff. }
  split; [exact Ha|]. intros m Hm. exact (allowed_no_policy_error _ _ _ _ _ Ha Hm).
Qed.

(** The theorem at a spec with one shell action, shell switched on. *)
Lemma gates_agree_witness :
  exists tpl,
    FromSpec Fixtures.plainOS [] (Fixtures.context "/tmp/demo" "demo")
             PolicyGateFacts.shellOnly true false false = Ok tpl
    /\ Forall (allowedByEngine Fixtures.plainOS (NewEngineFromSpecPolicy true false None None)
                               (Fixtures.context "/tmp/demo" "demo"))
              (Actions tpl).
Proof.
  eexists. split; [vm_compute; reflexivity|].
  apply List.Forall_forall. intros a Hin.
  apply (gates_agree Fixtures.plainOS [] (Fixtures.context "/tmp/demo" "demo")
           PolicyGateFacts.shellOnly true false false _ eq_refl
           (Fixtures.context "/tmp/demo" "demo") a Hin).
Defined.

End GateAgreementFacts.
